(** * Online3DViewer, embedded website bridge: ruler overlay and camera transitions

    A shallow embedding of the measurement-overlay and camera-transition
    code of [source/website/embeddedwebsite.js] ([RegisterBridgeFunctions]).

    Numbers.  A JavaScript number is modelled by a real number of [R]:
    arithmetic is exact, [Math.sqrt], [Math.cos], [Math.sin] are the real
    functions, and rounding errors of IEEE doubles are outside the model.
    The values that doubles have and reals lack (Infinity, NaN) can only
    arise here from a division by zero or a logarithm of a non-positive
    number; the ruler build therefore runs in a small error monad
    ([result]) whose faults record exactly those events.

    Time.  The value of [performance.now()] and the argument of a frame
    callback are doubles, and so rational numbers; where a statement
    depends on that, its times are of type [Stamp].

    State.  The closure variables of [RegisterBridgeFunctions]
    ([rulerGroup], [currentViewDirection], ...), the fields of [this] that
    the bridge reads ([threeObject], [justLoaded]) and the camera of the
    viewer are the fields of one record [State]; every bridge function is
    a state transformer.  [requestAnimationFrame] is modelled by a queue
    of pending callbacks, each of them the record of the variables its
    closure captured. *)

From Stdlib Require Import Reals Lra Lia ZArith List Bool String Ascii.
From Stdlib Require Import Decimal DecimalString DecimalN DecimalPos.
Import ListNotations.

Open Scope R_scope.

(** ** Faults and the error monad *)

Inductive fault : Type :=
| DivisionByZero
| LogOfNonPositive
| LoopFuel.

Inductive result (A : Type) : Type :=
| Ok (a : A)
| Fault (f : fault).

Arguments Ok {A} a.
Arguments Fault {A} f.

Definition bind {A B : Type} (m : result A) (k : A -> result B) : result B :=
  match m with
  | Ok a => k a
  | Fault f => Fault f
  end.

Notation "x <- m ;; k" := (bind m (fun x => k))
  (at level 61, m at next level, right associativity).

(** [a / b] of the source, where [b] is not a literal. *)
Definition div (a b : R) : result R :=
  if Req_dec_T b 0 then Fault DivisionByZero else Ok (a / b).

(** ** The functions of [Math] *)

Definition Math_floor (x : R) : R := IZR (Zfloor x).

(** [Math.round] rounds to the nearest integer, ties towards +Infinity. *)
Definition Math_round (x : R) : R := IZR (Zfloor (x + / 2)).

Definition Math_abs (x : R) : R := Rabs x.
Definition Math_min (a b : R) : R := Rmin a b.
Definition Math_max (a b : R) : R := Rmax a b.
Definition Math_sqrt (x : R) : R := sqrt x.

Definition Math_log10 (x : R) : result R :=
  if Rlt_dec 0 x then Ok (ln x / ln 10) else Fault LogOfNonPositive.

(** [Math.pow(b, e)]; the source only calls it with base 10. *)
Definition Math_pow (b e : R) : R := Rpower b e.

Definition Number_isInteger (x : R) : bool :=
  if Req_dec_T x (IZR (Zfloor x)) then true else false.

(** ** Vectors ([THREE.Vector3], and the number triples of the camera code) *)

Record Vec3 : Type := vec3 { vx : R; vy : R; vz : R }.

Definition subVectors (a b : Vec3) : Vec3 :=
  vec3 (vx a - vx b) (vy a - vy b) (vz a - vz b).

Definition vlength (a : Vec3) : R :=
  Math_sqrt (vx a * vx a + vy a * vy a + vz a * vz a).

Definition addScaledVector (p v : Vec3) (s : R) : Vec3 :=
  vec3 (vx p + vx v * s) (vy p + vy v * s) (vz p + vz v * s).

Definition vadd (a b : Vec3) : Vec3 :=
  vec3 (vx a + vx b) (vy a + vy b) (vz a + vz b).

Definition vsub (a b : Vec3) : Vec3 := subVectors a b.

(** [Vector3.normalize] is [divideScalar(length() || 1)]. *)
Definition normalize (a : Vec3) : Vec3 :=
  let l := vlength a in
  let l' := if Req_dec_T l 0 then 1 else l in
  vec3 (vx a / l') (vy a / l') (vz a / l').

(** [a.lerp(b, alpha)] *)
Definition lerp (a b : Vec3) (alpha : R) : Vec3 :=
  vec3 (vx a + (vx b - vx a) * alpha)
       (vy a + (vy b - vy a) * alpha)
       (vz a + (vz b - vz a) * alpha).

(** ** TickStepPlanner: [niceStep] *)

(** [divisions || 10] *)
Definition or10 (divisions : R) : R :=
  if Req_dec_T divisions 0 then 10 else divisions.

(** The multiplier [nice] that [niceStep] snaps [residual] to. *)
Definition nice (residual : R) : R :=
  if Rle_dec residual 1.5 then 1
  else if Rle_dec residual 3.5 then 2
  else if Rle_dec residual 7.5 then 5
  else 10.

(** [niceStep]; the fault of the logarithm marks the point at which the
    source leaves the finite numbers (for a rough spacing of 0 it goes on
    with -Infinity and NaN and returns 0).  [addGraduatedTicks] calls
    [niceStep] with a positive length only. *)
Definition niceStep (length divisions : R) : result R :=
  rough <- div length (or10 divisions) ;;
  lg <- Math_log10 rough ;;
  let mag := Math_pow 10 (Math_floor lg) in
  residual <- div rough mag ;;
  Ok (nice residual * mag).

(** The division count chosen in [addGraduatedTicks]:
    [maxLabels = Math.max(2, Math.floor(length / (labelWidth * 1.5)))],
    [targetDivs = Math.min(10, maxLabels)]. *)
Definition maxLabels (length labelWidth : R) : result R :=
  q <- div length (labelWidth * 1.5) ;;
  Ok (Math_max 2 (Math_floor q)).

Definition targetDivs (length labelWidth : R) : result R :=
  m <- maxLabels length labelWidth ;;
  Ok (Math_min 10 m).

Definition plannedStep (length labelWidth : R) : result R :=
  d <- targetDivs length labelWidth ;;
  niceStep length d.

(** ** Tick labels: [formatTickNum] *)

Definition Math_roundZ (x : R) : Z := Zfloor (x + / 2).

(** [String(n)] for an integer-valued number [n]. *)
Definition String_int (z : Z) : string := NilZero.string_of_int (Z.to_int z).

Definition digitChar (d : Z) : ascii := ascii_of_nat (48 + Z.to_nat d).

(** [x.toFixed(2)]: the sign of [x], then the integer [n] nearest to
    [|x| * 100] (the larger one on a tie), written with two decimals. *)
Definition toFixed2 (x : R) : string :=
  let sgn := if Rlt_dec x 0 then "-"%string else ""%string in
  let n := Zfloor (Rabs x * 100 + / 2) in
  (sgn ++ String_int (n / 100) ++ "."
       ++ String (digitChar ((n / 10) mod 10)) (String (digitChar (n mod 10)) ""))%string.

Fixpoint dropZeros (l : list ascii) : list ascii :=
  match l with
  | c :: l' => if Ascii.eqb c "0" then dropZeros l' else l
  | [] => []
  end.

(** [s.replace(/\.?0+$/, '')]: the match is the maximal run of zeros that
    ends the string, with the point before it when there is one. *)
Definition stripTrailingZeros (s : string) : string :=
  let r := List.rev (list_ascii_of_string s) in
  let r' := dropZeros r in
  if Nat.eqb (List.length r') (List.length r) then s
  else match r' with
       | c :: r'' =>
           if Ascii.eqb c "." then string_of_list_ascii (List.rev r'')
           else string_of_list_ascii (List.rev r')
       | [] => ""%string
       end.

Definition formatTickNum (val : R) : string :=
  if Rlt_dec (Math_abs val) 1e-9 then "0"%string
  else if Number_isInteger val then String_int (Math_roundZ val)
  else if Rlt_dec (Math_abs (val - Math_round val)) 1e-9 then String_int (Math_roundZ val)
  else stripTrailingZeros (toFixed2 val).

(** Reading a decimal numeral back ([parseNumber] of the round-trip
    property): an optional sign, digits, and optionally a point and
    digits. *)
Fixpoint splitAtDot (s : string) : string * option string :=
  match s with
  | EmptyString => (EmptyString, None)
  | String c s' =>
      if Ascii.eqb c "." then (EmptyString, Some s')
      else let (a, b) := splitAtDot s' in (String c a, b)
  end.

Definition parseUnsigned (s : string) : option R :=
  let (ip, fp) := splitAtDot s in
  match NilZero.uint_of_string ip with
  | None => None
  | Some i =>
      match fp with
      | None => Some (IZR (Z.of_N (N.of_uint i)))
      | Some f =>
          match NilEmpty.uint_of_string f with
          | None => None
          | Some u =>
              Some (IZR (Z.of_N (N.of_uint i))
                    + IZR (Z.of_N (N.of_uint u)) / 10 ^ String.length f)
          end
      end
  end.

Definition parseNumber (s : string) : option R :=
  match s with
  | String c s' =>
      if Ascii.eqb c "-" then option_map Ropp (parseUnsigned s')
      else parseUnsigned s
  | EmptyString => None
  end.

Definition hasDot (s : string) : bool :=
  existsb (fun c => Ascii.eqb c ".") (list_ascii_of_string s).

(** ** The overlay: sprites, lines, groups *)

(** A [THREE.Sprite] made by [createTextSprite] or [createTickLabel]: the
    text painted on it, its position, the height [scale.y] (the width is
    the height times the aspect ratio that the canvas measures, which is
    not modelled) and the opacity of its own [SpriteMaterial]. *)
Record Sprite : Type := mkSprite {
  spriteText : string;
  spritePosition : Vec3;
  spriteScaleY : R;
  spriteOpacity : R
}.

Inductive Child : Type :=
| Line (p1 p2 : Vec3)
| Label (s : Sprite).

(** A ruler group.  All its lines share one [LineBasicMaterial], whose
    opacity is [lineOpacity]. *)
Record Group : Type := mkGroup {
  lineOpacity : R;
  children : list Child
}.

(** An entry of [rulerTickSprites]; [sprite] is the position of the
    sprite among the children of the group it was added to. *)
Record TickEntry : Type := mkTick {
  sprite : nat;
  rawValue : R;
  fontSize : R;
  baseScale : R
}.

Record LabelSprites : Type := mkLabels {
  labelX : option nat;
  labelY : option nat;
  labelZ : option nat
}.

Record RulerLabels : Type := mkRulerLabels {
  labelsW : string;
  labelsH : string;
  labelsD : string;
  unitFactor : option R
}.

(** ** The loaded object and its boxes *)

Record Box3 : Type := mkBox { bmin : Vec3; bmax : Vec3 }.

Definition isEmpty (b : Box3) : bool :=
  if Rlt_dec (vx (bmax b)) (vx (bmin b)) then true
  else if Rlt_dec (vy (bmax b)) (vy (bmin b)) then true
  else if Rlt_dec (vz (bmax b)) (vz (bmin b)) then true
  else false.

(** [Box3.getSize] *)
Definition getSize (b : Box3) : Vec3 :=
  if isEmpty b then vec3 0 0 0 else subVectors (bmax b) (bmin b).

(** The loaded [threeObject], as far as the ruler looks at it: the box
    of the whole object and the boxes of its meshes in traversal order. *)
Record Object3D : Type := mkObject {
  objectBox : Box3;
  meshes : list Box3
}.

Definition findMeshByIndex (threeObject : Object3D) (meshIndex : option Z) : option Box3 :=
  match meshIndex with
  | None => None
  | Some i => if Z.ltb i 0 then None else nth_error (meshes threeObject) (Z.to_nat i)
  end.

(** ** Camera, frame callbacks and the state of the bridge *)

Record Camera : Type := mkCamera { eye : Vec3; center : Vec3; up : Vec3 }.

(** Calls to the viewer that leave no trace in the modelled state. *)
Inductive ViewerCall : Type :=
| Render
| ClearExtra
| AddExtraObject
| AdjustClippingPlanesToSphere (radiusFactor : R)
| FitSphereToWindow (radiusFactor : R) (animation : bool)
| Orbit (angleX angleY : R)
| NavigationUpdate.

Inductive TransitionKind : Type :=
| Directed (direction : string)
| Reset.

(** The variables captured by an [animate] closure of
    [setCameraDirection] or [resetCamera]. *)
Record Transition : Type := mkTransition {
  kind : TransitionKind;
  cxyz : Vec3;
  dist : R;
  targetEye : Vec3;
  startEye : Vec3;
  startUp : Vec3;
  upVec : Vec3;
  hasRuler : bool;
  rulerRebuilt : bool;
  startTime : R
}.

(** The variables captured by a [tick] closure of [startAutoRotate]. *)
Record AutoRotate : Type := mkAutoRotate {
  hSpeed : R;
  tiltDeg : R;
  elapsed : R
}.

Inductive Callback : Type :=
| Animate (tr : Transition)
| Tick (ar : AutoRotate).

Record State : Type := mkState {
  threeObject : option Object3D;
  justLoaded : bool;
  currentIsDark : bool;
  camera : Camera;
  rulerGroup : option Group;
  rulerLabelSprites : LabelSprites;
  rulerTickSprites : list TickEntry;
  currentViewDirection : string;
  currentRulerMeshIndex : option Z;
  lastRulerLabels : option RulerLabels;
  autoRotateId : option nat;
  autoRotatePrev : option R;
  frameCallbacks : list (nat * Callback);
  nextHandle : nat;
  viewerCalls : list ViewerCall
}.

Definition set_threeObject (v : option Object3D) (st : State) : State :=
  {| threeObject := v;
     justLoaded := justLoaded st;
     currentIsDark := currentIsDark st;
     camera := camera st;
     rulerGroup := rulerGroup st;
     rulerLabelSprites := rulerLabelSprites st;
     rulerTickSprites := rulerTickSprites st;
     currentViewDirection := currentViewDirection st;
     currentRulerMeshIndex := currentRulerMeshIndex st;
     lastRulerLabels := lastRulerLabels st;
     autoRotateId := autoRotateId st;
     autoRotatePrev := autoRotatePrev st;
     frameCallbacks := frameCallbacks st;
     nextHandle := nextHandle st;
     viewerCalls := viewerCalls st |}.

Definition set_justLoaded (v : bool) (st : State) : State :=
  {| threeObject := threeObject st;
     justLoaded := v;
     currentIsDark := currentIsDark st;
     camera := camera st;
     rulerGroup := rulerGroup st;
     rulerLabelSprites := rulerLabelSprites st;
     rulerTickSprites := rulerTickSprites st;
     currentViewDirection := currentViewDirection st;
     currentRulerMeshIndex := currentRulerMeshIndex st;
     lastRulerLabels := lastRulerLabels st;
     autoRotateId := autoRotateId st;
     autoRotatePrev := autoRotatePrev st;
     frameCallbacks := frameCallbacks st;
     nextHandle := nextHandle st;
     viewerCalls := viewerCalls st |}.

Definition set_currentIsDark (v : bool) (st : State) : State :=
  {| threeObject := threeObject st;
     justLoaded := justLoaded st;
     currentIsDark := v;
     camera := camera st;
     rulerGroup := rulerGroup st;
     rulerLabelSprites := rulerLabelSprites st;
     rulerTickSprites := rulerTickSprites st;
     currentViewDirection := currentViewDirection st;
     currentRulerMeshIndex := currentRulerMeshIndex st;
     lastRulerLabels := lastRulerLabels st;
     autoRotateId := autoRotateId st;
     autoRotatePrev := autoRotatePrev st;
     frameCallbacks := frameCallbacks st;
     nextHandle := nextHandle st;
     viewerCalls := viewerCalls st |}.

Definition set_camera (v : Camera) (st : State) : State :=
  {| threeObject := threeObject st;
     justLoaded := justLoaded st;
     currentIsDark := currentIsDark st;
     camera := v;
     rulerGroup := rulerGroup st;
     rulerLabelSprites := rulerLabelSprites st;
     rulerTickSprites := rulerTickSprites st;
     currentViewDirection := currentViewDirection st;
     currentRulerMeshIndex := currentRulerMeshIndex st;
     lastRulerLabels := lastRulerLabels st;
     autoRotateId := autoRotateId st;
     autoRotatePrev := autoRotatePrev st;
     frameCallbacks := frameCallbacks st;
     nextHandle := nextHandle st;
     viewerCalls := viewerCalls st |}.

Definition set_rulerGroup (v : option Group) (st : State) : State :=
  {| threeObject := threeObject st;
     justLoaded := justLoaded st;
     currentIsDark := currentIsDark st;
     camera := camera st;
     rulerGroup := v;
     rulerLabelSprites := rulerLabelSprites st;
     rulerTickSprites := rulerTickSprites st;
     currentViewDirection := currentViewDirection st;
     currentRulerMeshIndex := currentRulerMeshIndex st;
     lastRulerLabels := lastRulerLabels st;
     autoRotateId := autoRotateId st;
     autoRotatePrev := autoRotatePrev st;
     frameCallbacks := frameCallbacks st;
     nextHandle := nextHandle st;
     viewerCalls := viewerCalls st |}.

Definition set_rulerLabelSprites (v : LabelSprites) (st : State) : State :=
  {| threeObject := threeObject st;
     justLoaded := justLoaded st;
     currentIsDark := currentIsDark st;
     camera := camera st;
     rulerGroup := rulerGroup st;
     rulerLabelSprites := v;
     rulerTickSprites := rulerTickSprites st;
     currentViewDirection := currentViewDirection st;
     currentRulerMeshIndex := currentRulerMeshIndex st;
     lastRulerLabels := lastRulerLabels st;
     autoRotateId := autoRotateId st;
     autoRotatePrev := autoRotatePrev st;
     frameCallbacks := frameCallbacks st;
     nextHandle := nextHandle st;
     viewerCalls := viewerCalls st |}.

Definition set_rulerTickSprites (v : list TickEntry) (st : State) : State :=
  {| threeObject := threeObject st;
     justLoaded := justLoaded st;
     currentIsDark := currentIsDark st;
     camera := camera st;
     rulerGroup := rulerGroup st;
     rulerLabelSprites := rulerLabelSprites st;
     rulerTickSprites := v;
     currentViewDirection := currentViewDirection st;
     currentRulerMeshIndex := currentRulerMeshIndex st;
     lastRulerLabels := lastRulerLabels st;
     autoRotateId := autoRotateId st;
     autoRotatePrev := autoRotatePrev st;
     frameCallbacks := frameCallbacks st;
     nextHandle := nextHandle st;
     viewerCalls := viewerCalls st |}.

Definition set_currentViewDirection (v : string) (st : State) : State :=
  {| threeObject := threeObject st;
     justLoaded := justLoaded st;
     currentIsDark := currentIsDark st;
     camera := camera st;
     rulerGroup := rulerGroup st;
     rulerLabelSprites := rulerLabelSprites st;
     rulerTickSprites := rulerTickSprites st;
     currentViewDirection := v;
     currentRulerMeshIndex := currentRulerMeshIndex st;
     lastRulerLabels := lastRulerLabels st;
     autoRotateId := autoRotateId st;
     autoRotatePrev := autoRotatePrev st;
     frameCallbacks := frameCallbacks st;
     nextHandle := nextHandle st;
     viewerCalls := viewerCalls st |}.

Definition set_currentRulerMeshIndex (v : option Z) (st : State) : State :=
  {| threeObject := threeObject st;
     justLoaded := justLoaded st;
     currentIsDark := currentIsDark st;
     camera := camera st;
     rulerGroup := rulerGroup st;
     rulerLabelSprites := rulerLabelSprites st;
     rulerTickSprites := rulerTickSprites st;
     currentViewDirection := currentViewDirection st;
     currentRulerMeshIndex := v;
     lastRulerLabels := lastRulerLabels st;
     autoRotateId := autoRotateId st;
     autoRotatePrev := autoRotatePrev st;
     frameCallbacks := frameCallbacks st;
     nextHandle := nextHandle st;
     viewerCalls := viewerCalls st |}.

Definition set_lastRulerLabels (v : option RulerLabels) (st : State) : State :=
  {| threeObject := threeObject st;
     justLoaded := justLoaded st;
     currentIsDark := currentIsDark st;
     camera := camera st;
     rulerGroup := rulerGroup st;
     rulerLabelSprites := rulerLabelSprites st;
     rulerTickSprites := rulerTickSprites st;
     currentViewDirection := currentViewDirection st;
     currentRulerMeshIndex := currentRulerMeshIndex st;
     lastRulerLabels := v;
     autoRotateId := autoRotateId st;
     autoRotatePrev := autoRotatePrev st;
     frameCallbacks := frameCallbacks st;
     nextHandle := nextHandle st;
     viewerCalls := viewerCalls st |}.

Definition set_autoRotateId (v : option nat) (st : State) : State :=
  {| threeObject := threeObject st;
     justLoaded := justLoaded st;
     currentIsDark := currentIsDark st;
     camera := camera st;
     rulerGroup := rulerGroup st;
     rulerLabelSprites := rulerLabelSprites st;
     rulerTickSprites := rulerTickSprites st;
     currentViewDirection := currentViewDirection st;
     currentRulerMeshIndex := currentRulerMeshIndex st;
     lastRulerLabels := lastRulerLabels st;
     autoRotateId := v;
     autoRotatePrev := autoRotatePrev st;
     frameCallbacks := frameCallbacks st;
     nextHandle := nextHandle st;
     viewerCalls := viewerCalls st |}.

Definition set_autoRotatePrev (v : option R) (st : State) : State :=
  {| threeObject := threeObject st;
     justLoaded := justLoaded st;
     currentIsDark := currentIsDark st;
     camera := camera st;
     rulerGroup := rulerGroup st;
     rulerLabelSprites := rulerLabelSprites st;
     rulerTickSprites := rulerTickSprites st;
     currentViewDirection := currentViewDirection st;
     currentRulerMeshIndex := currentRulerMeshIndex st;
     lastRulerLabels := lastRulerLabels st;
     autoRotateId := autoRotateId st;
     autoRotatePrev := v;
     frameCallbacks := frameCallbacks st;
     nextHandle := nextHandle st;
     viewerCalls := viewerCalls st |}.

Definition set_frameCallbacks (v : list (nat * Callback)) (st : State) : State :=
  {| threeObject := threeObject st;
     justLoaded := justLoaded st;
     currentIsDark := currentIsDark st;
     camera := camera st;
     rulerGroup := rulerGroup st;
     rulerLabelSprites := rulerLabelSprites st;
     rulerTickSprites := rulerTickSprites st;
     currentViewDirection := currentViewDirection st;
     currentRulerMeshIndex := currentRulerMeshIndex st;
     lastRulerLabels := lastRulerLabels st;
     autoRotateId := autoRotateId st;
     autoRotatePrev := autoRotatePrev st;
     frameCallbacks := v;
     nextHandle := nextHandle st;
     viewerCalls := viewerCalls st |}.

Definition set_nextHandle (v : nat) (st : State) : State :=
  {| threeObject := threeObject st;
     justLoaded := justLoaded st;
     currentIsDark := currentIsDark st;
     camera := camera st;
     rulerGroup := rulerGroup st;
     rulerLabelSprites := rulerLabelSprites st;
     rulerTickSprites := rulerTickSprites st;
     currentViewDirection := currentViewDirection st;
     currentRulerMeshIndex := currentRulerMeshIndex st;
     lastRulerLabels := lastRulerLabels st;
     autoRotateId := autoRotateId st;
     autoRotatePrev := autoRotatePrev st;
     frameCallbacks := frameCallbacks st;
     nextHandle := v;
     viewerCalls := viewerCalls st |}.

Definition set_viewerCalls (v : list ViewerCall) (st : State) : State :=
  {| threeObject := threeObject st;
     justLoaded := justLoaded st;
     currentIsDark := currentIsDark st;
     camera := camera st;
     rulerGroup := rulerGroup st;
     rulerLabelSprites := rulerLabelSprites st;
     rulerTickSprites := rulerTickSprites st;
     currentViewDirection := currentViewDirection st;
     currentRulerMeshIndex := currentRulerMeshIndex st;
     lastRulerLabels := lastRulerLabels st;
     autoRotateId := autoRotateId st;
     autoRotatePrev := autoRotatePrev st;
     frameCallbacks := frameCallbacks st;
     nextHandle := nextHandle st;
     viewerCalls := v |}.

Definition logCall (c : ViewerCall) (st : State) : State :=
  set_viewerCalls (viewerCalls st ++ [c]) st.

(** ** AxisRulerBuilder: [addGraduatedTicks] *)

Definition rulerLineOpacity (isDark : bool) : R := if isDark then 0.95 else 0.9.

(** The group under construction and [rulerTickSprites]. *)
Definition Build : Type := (list Child * list TickEntry)%type.

(** One turn of the loop of [addGraduatedTicks] at walk position [d]. *)
Definition tickBody (start dir tickDir labelOffsetDir : Vec3)
    (majorLen minorLen labelOffset numScale length step : R)
    (d : R) (acc : Build) : result Build :=
  if Rlt_dec d (-1e-10) then Ok acc
  else
    let t := Math_min d length in
    q <- div d step ;;
    let isMajor :=
      if Rlt_dec (Math_abs (Math_round q * step - d)) (step * 0.01) then true else false in
    if Rlt_dec t (step * 0.05) then Ok acc
    else if Rgt_dec t (length - step * 0.05) then Ok acc
    else
      let len := if isMajor then majorLen else minorLen in
      let pos := addScaledVector start dir t in
      let p1 := addScaledVector pos tickDir (- len) in
      let p2 := addScaledVector pos tickDir len in
      let group := fst acc ++ [Line p1 p2] in
      if isMajor then
        let s := mkSprite (formatTickNum t)
                          (addScaledVector pos labelOffsetDir labelOffset) numScale 1 in
        Ok (group ++ [Label s], snd acc ++ [mkTick (List.length group) t 16 numScale])
      else Ok (group, snd acc).

(** [for (let d = ...; d <= bound; d += tickStep) body]; the loop stops
    with [LoopFuel] when [fuel] turns do not reach the exit. *)
Fixpoint tickWalk (fuel : nat) (body : R -> Build -> result Build)
    (bound tickStep d : R) (acc : Build) : result Build :=
  match fuel with
  | O => Fault LoopFuel
  | S fuel' =>
      if Rle_dec d bound then
        acc' <- body d acc ;;
        tickWalk fuel' body bound tickStep (d + tickStep) acc'
      else Ok acc
  end.

(** Turns that the walk from 0 needs to reach its exit test. *)
Definition walkFuel (bound tickStep : R) : nat :=
  Z.to_nat (Zfloor (bound / tickStep)) + 2.

Definition addGraduatedTicks (group : list Child) (ticks : list TickEntry)
    (start end_ tickDir labelOffsetDir : Vec3)
    (majorLen minorLen labelOffset spriteScale : R) : result Build :=
  let axis := subVectors end_ start in
  let length := vlength axis in
  if Rlt_dec length 1e-10 then Ok (group, ticks)
  else
    let dir := normalize axis in
    let tickFontSize := 16 in
    let numScale := spriteScale * 0.35 in
    let labelWidth := numScale * 3 in
    divs <- targetDivs length labelWidth ;;
    step <- niceStep length divs ;;
    let showMinor := if Rgt_dec (step / 2) (labelWidth * 1.2) then true else false in
    let tickStep := if showMinor then step / 2 else step in
    let s0 := mkSprite "0" (addScaledVector start labelOffsetDir labelOffset) numScale 1 in
    let acc0 := (group ++ [Label s0],
                 ticks ++ [mkTick (List.length group) 0 tickFontSize numScale]) in
    let bound := length + step * 0.001 in
    acc1 <- tickWalk (walkFuel bound tickStep)
              (tickBody start dir tickDir labelOffsetDir
                        majorLen minorLen labelOffset numScale length step)
              bound tickStep 0 acc0 ;;
    let s1 := mkSprite (formatTickNum length)
                       (addScaledVector end_ labelOffsetDir labelOffset) numScale 1 in
    Ok (fst acc1 ++ [Label s1],
        snd acc1 ++ [mkTick (List.length (fst acc1)) length tickFontSize numScale]).

(** ** OverlayManager: [setRulerGroupOpacity], [updateRulerLabels], [setScaleRuler] *)

Definition isLine (c : Child) : bool :=
  match c with Line _ _ => true | Label _ => false end.

Definition setRulerGroupOpacity (isDark : bool) (group : option Group) (factor : R)
  : option Group :=
  match group with
  | None => None
  | Some g =>
      Some {| lineOpacity :=
                if existsb isLine (children g) then rulerLineOpacity isDark * factor
                else lineOpacity g;
              children :=
                map (fun c => match c with
                              | Line p1 p2 => Line p1 p2
                              | Label s => Label (mkSprite (spriteText s) (spritePosition s)
                                                           (spriteScaleY s) factor)
                              end) (children g) |}
  end.

Definition fadeRuler (factor : R) (st : State) : State :=
  set_rulerGroup (setRulerGroupOpacity (currentIsDark st) (rulerGroup st) factor) st.

Fixpoint updateChild (i : nat) (f : Sprite -> Sprite) (l : list Child) : list Child :=
  match l, i with
  | [], _ => []
  | c :: l', O => (match c with Label s => Label (f s) | Line p1 p2 => Line p1 p2 end) :: l'
  | c :: l', S i' => c :: updateChild i' f l'
  end.

Definition updateGroup (h : nat) (f : Sprite -> Sprite) (st : State) : State :=
  match rulerGroup st with
  | None => st
  | Some g => set_rulerGroup (Some (mkGroup (lineOpacity g) (updateChild h f (children g)))) st
  end.

(** [updateSpriteText(sprite, text, fontSize)]; [sprite] may be [null]. *)
Definition updateSpriteText (h : option nat) (text : string) (st : State) : State :=
  match h with
  | None => st
  | Some i =>
      updateGroup i (fun s => mkSprite text (spritePosition s) (spriteScaleY s) (spriteOpacity s)) st
  end.

(** [updateTickSpriteText(sprite, text, fontSize, baseScale)] *)
Definition updateTickSpriteText (i : nat) (text : string) (baseScale : R) (st : State) : State :=
  updateGroup i (fun s => mkSprite text (spritePosition s) baseScale (spriteOpacity s)) st.

Definition updateRulerLabels (widthLabel heightLabel depthLabel : string)
    (unitFactor : option R) (st : State) : State :=
  let st := set_lastRulerLabels
              (Some (mkRulerLabels widthLabel heightLabel depthLabel unitFactor)) st in
  let st := updateSpriteText (labelX (rulerLabelSprites st)) widthLabel st in
  let st := updateSpriteText (labelY (rulerLabelSprites st)) heightLabel st in
  let st := updateSpriteText (labelZ (rulerLabelSprites st)) depthLabel st in
  let st :=
    match unitFactor with
    | None => st
    | Some u =>
        fold_left (fun st entry =>
                     let converted := rawValue entry * u in
                     updateTickSpriteText (sprite entry) (formatTickNum converted)
                                          (baseScale entry) st)
                  (rulerTickSprites st) st
    end in
  logCall Render st.

(** [rulerEdgeMap]: [xRulerY, xRulerZ, yRulerX, yRulerZ, zRulerX, zRulerY],
    -1 the min side and +1 the max side. *)
Record Sides : Type := mkSides {
  sides0 : Z; sides1 : Z; sides2 : Z; sides3 : Z; sides4 : Z; sides5 : Z
}.

Definition rulerEdgeMap : list (string * Sides) :=
  [ ("front",  mkSides (-1) 1 (-1) 1 (-1) (-1));
    ("back",   mkSides (-1) (-1) 1 (-1) 1 (-1));
    ("left",   mkSides (-1) (-1) (-1) (-1) (-1) (-1));
    ("right",  mkSides (-1) 1 1 1 1 (-1));
    ("top",    mkSides 1 1 (-1) 1 (-1) 1);
    ("bottom", mkSides (-1) (-1) (-1) (-1) (-1) (-1)) ]%string.

Definition lookupSides (direction : string) : option Sides :=
  option_map snd (find (fun e => String.eqb (fst e) direction) rulerEdgeMap).

(** [rulerEdgeMap[currentViewDirection] || rulerEdgeMap.front] *)
Definition sidesFor (direction : string) : Sides :=
  match lookupSides direction with
  | Some sd => sd
  | None => mkSides (-1) 1 (-1) 1 (-1) (-1)
  end.

(** What the three axis blocks of [setScaleRuler] share: the ruler line,
    the two end ticks, the graduated ticks and the dimension label.  The
    result carries the position of the label among the children. *)
Definition axisRuler (startP endP tickVec tickDir labelDir labelShift : Vec3)
    (sizeText : string) (majorTick minorTick endTick spriteScale : R)
    (acc : Build) : result (Build * nat) :=
  let group := fst acc ++ [Line startP endP] in
  let group := group ++ [Line (vsub startP tickVec) (vadd startP tickVec)] in
  let group := group ++ [Line (vsub endP tickVec) (vadd endP tickVec)] in
  acc' <- addGraduatedTicks group (snd acc) startP endP tickDir labelDir
            majorTick minorTick (endTick * 2) spriteScale ;;
  let labelSprite :=
    mkSprite sizeText (vadd (lerp startP endP 0.5) labelShift) spriteScale 1 in
  Ok ((fst acc' ++ [Label labelSprite], snd acc'), List.length (fst acc')).

Definition max3 (a b c : R) : R := Math_max (Math_max a b) c.

(** The distance [Math.sqrt((ex-cx)**2 + (ey-cy)**2 + (ez-cz)**2)] *)
Definition eyeDistance (c : Camera) : R :=
  Math_sqrt ((vx (eye c) - vx (center c)) ^ 2
             + (vy (eye c) - vy (center c)) ^ 2
             + (vz (eye c) - vz (center c)) ^ 2).

(** The branch of [setScaleRuler] taken on the first enable after a load. *)
Definition eyeLevelOnLoad (st : State) : State :=
  if justLoaded st then
    let st := set_justLoaded false st in
    let cam := camera st in
    let d := eyeDistance cam in
    let st := set_camera
                (mkCamera (vec3 (vx (center cam)) (vy (center cam)) (vz (center cam) + d))
                          (center cam) (vec3 0 1 0)) st in
    let st := logCall (AdjustClippingPlanesToSphere 1) st in
    set_currentViewDirection "front" st
  else st.

Definition removeExistingRuler (st : State) : State :=
  match rulerGroup st with
  | Some _ =>
      let st := logCall ClearExtra st in
      let st := set_rulerGroup None st in
      set_rulerTickSprites [] st
  | None => st
  end.

Definition isTopBottom (direction : string) : bool :=
  String.eqb direction "top" || String.eqb direction "bottom".

Definition isLeftRight (direction : string) : bool :=
  String.eqb direction "left" || String.eqb direction "right".

Section RulerBlocks.

Variable sides : Sides.
Variable direction : string.
Variables min size : Vec3.
Variables majorTick minorTick endTick spriteScale : R.

Let offsetY := vy size * 0.08.
Let offsetZ := vz size * 0.08.
Let offsetX := vx size * 0.08.

Let reverseX := Z.eqb (sides2 sides) 1.
Let reverseY := Z.eqb (sides0 sides) 1.
Let reverseZ := Z.eqb (sides1 sides) 1.

Definition xAxisRuler (acc : Build) : result (Build * nat) :=
  let xY := if Z.eqb (sides0 sides) (-1) then vy min - offsetY
            else vy min + vy size + offsetY in
  let xZ := if Z.eqb (sides1 sides) 1 then vz min + vz size + offsetZ
            else vz min - offsetZ in
  let startX := if reverseX then vec3 (vx min + vx size) xY xZ else vec3 (vx min) xY xZ in
  let endX := if reverseX then vec3 (vx min) xY xZ else vec3 (vx min + vx size) xY xZ in
  let xTickVec := if isTopBottom direction then vec3 0 0 endTick else vec3 0 endTick 0 in
  let tickDirX := if isTopBottom direction then vec3 0 0 (- IZR (sides1 sides))
                  else vec3 0 (- IZR (sides0 sides)) 0 in
  let labelDirX := if isTopBottom direction then vec3 0 0 (IZR (sides1 sides))
                   else vec3 0 (IZR (sides0 sides)) 0 in
  let shift := if isTopBottom direction then vec3 0 0 (IZR (sides1 sides) * endTick * 4.5)
               else vec3 0 (IZR (sides0 sides) * endTick * 4.5) 0 in
  axisRuler startX endX xTickVec tickDirX labelDirX shift (toFixed2 (vx size))
            majorTick minorTick endTick spriteScale acc.

Definition yAxisRuler (acc : Build) : result (Build * nat) :=
  let yX := if Z.eqb (sides2 sides) (-1) then vx min - offsetX
            else vx min + vx size + offsetX in
  let yZ := if Z.eqb (sides3 sides) 1 then vz min + vz size + offsetZ
            else vz min - offsetZ in
  let startY := if reverseY then vec3 yX (vy min + vy size) yZ else vec3 yX (vy min) yZ in
  let endY := if reverseY then vec3 yX (vy min) yZ else vec3 yX (vy min + vy size) yZ in
  let yTickVec := if isLeftRight direction then vec3 0 0 endTick else vec3 endTick 0 0 in
  let tickDirY := if isLeftRight direction then vec3 0 0 (- IZR (sides3 sides))
                  else vec3 (- IZR (sides2 sides)) 0 0 in
  let labelDirY := if isLeftRight direction then vec3 0 0 (IZR (sides3 sides))
                   else vec3 (IZR (sides2 sides)) 0 0 in
  let shift := if isLeftRight direction then vec3 0 0 (IZR (sides3 sides) * endTick * 4.5)
               else vec3 (IZR (sides2 sides) * endTick * 4.5) 0 0 in
  axisRuler startY endY yTickVec tickDirY labelDirY shift (toFixed2 (vy size))
            majorTick minorTick endTick spriteScale acc.

Definition zAxisRuler (acc : Build) : result (Build * nat) :=
  let zX := if Z.eqb (sides4 sides) (-1) then vx min - offsetX
            else vx min + vx size + offsetX in
  let zY := if Z.eqb (sides5 sides) (-1) then vy min - offsetY
            else vy min + vy size + offsetY in
  let startZ := if reverseZ then vec3 zX zY (vz min + vz size) else vec3 zX zY (vz min) in
  let endZ := if reverseZ then vec3 zX zY (vz min) else vec3 zX zY (vz min + vz size) in
  let zTickVec := if isTopBottom direction then vec3 endTick 0 0 else vec3 0 endTick 0 in
  let tickDirZ := if isTopBottom direction then vec3 (- IZR (sides4 sides)) 0 0
                  else vec3 0 (- IZR (sides5 sides)) 0 in
  let labelDirZ := if isTopBottom direction then vec3 (IZR (sides4 sides)) 0 0
                   else vec3 0 (IZR (sides5 sides)) 0 in
  let shift := if isTopBottom direction then vec3 (IZR (sides4 sides) * endTick * 4.5) 0 0
               else vec3 0 (IZR (sides5 sides) * endTick * 4.5) 0 in
  axisRuler startZ endZ zTickVec tickDirZ labelDirZ shift (toFixed2 (vz size))
            majorTick minorTick endTick spriteScale acc.

End RulerBlocks.

(** The part of [setScaleRuler] that builds the group for the box of
    the measured target, once the old ruler is gone. *)
Definition buildRuler (box : Box3) (st : State) : result State :=
  let size := getSize box in
  let min := bmin box in
  let maxDim := max3 (vx size) (vy size) (vz size) in
  let majorTick := maxDim * 0.038 in
  let minorTick := maxDim * 0.022 in
  let endTick := maxDim * 0.042 in
  let spriteScale := maxDim * 0.055 in
  let direction := currentViewDirection st in
  let sides := sidesFor direction in
  rx <- xAxisRuler sides direction min size majorTick minorTick endTick spriteScale
          ([], rulerTickSprites st) ;;
  ry <- yAxisRuler sides direction min size majorTick minorTick endTick spriteScale (fst rx) ;;
  rz <- zAxisRuler sides direction min size majorTick minorTick endTick spriteScale (fst ry) ;;
  let st := set_rulerLabelSprites (mkLabels (Some (snd rx)) (Some (snd ry)) (Some (snd rz))) st in
  let st := set_rulerTickSprites (snd (fst rz)) st in
  let st := set_rulerGroup
              (Some (mkGroup (rulerLineOpacity (currentIsDark st)) (fst (fst rz)))) st in
  let st := logCall AddExtraObject st in
  match lastRulerLabels st with
  | Some l => Ok (updateRulerLabels (labelsW l) (labelsH l) (labelsD l) (unitFactor l) st)
  | None => Ok st
  end.

Definition setScaleRuler (enabled : bool) (meshIndex : option Z) (st : State)
  : result State :=
  match threeObject st with
  | None => Ok st
  | Some obj =>
      let st := set_currentRulerMeshIndex meshIndex st in
      if negb enabled then
        match rulerGroup st with
        | Some _ =>
            let st := logCall ClearExtra st in
            let st := set_rulerGroup None st in
            let st := set_rulerLabelSprites (mkLabels None None None) st in
            let st := set_rulerTickSprites [] st in
            Ok (logCall Render st)
        | None => Ok st
        end
      else
        let st := eyeLevelOnLoad st in
        let st := removeExistingRuler st in
        let box := match findMeshByIndex obj meshIndex with
                   | Some m => m
                   | None => objectBox obj
                   end in
        buildRuler box st
  end.

(** ** Frame callbacks *)

(** [requestAnimationFrame(cb)]: the callback joins the list of the next
    frame; the result is its handle and the new state. *)
Definition requestAnimationFrame (cb : Callback) (st : State) : nat * State :=
  let h := nextHandle st in
  (h, set_nextHandle (S h) (set_frameCallbacks (frameCallbacks st ++ [(h, cb)]) st)).

Definition cancelAnimationFrame (h : nat) (st : State) : State :=
  set_frameCallbacks (filter (fun e => negb (Nat.eqb (fst e) h)) (frameCallbacks st)) st.

Definition lookupCallback (h : nat) (st : State) : option Callback :=
  option_map snd (find (fun e => Nat.eqb (fst e) h) (frameCallbacks st)).

(** ** CameraTransitionAnimator *)

Definition directionTable (direction : string) : option (Vec3 * Vec3) :=
  if String.eqb direction "front" then Some (vec3 0 0 1, vec3 0 1 0)
  else if String.eqb direction "back" then Some (vec3 0 0 (-1), vec3 0 1 0)
  else if String.eqb direction "left" then Some (vec3 (-1) 0 0, vec3 0 1 0)
  else if String.eqb direction "right" then Some (vec3 1 0 0, vec3 0 1 0)
  else if String.eqb direction "top" then Some (vec3 0 1 0, vec3 0 0 (-1))
  else if String.eqb direction "bottom" then Some (vec3 0 (-1) 0, vec3 0 0 1)
  else None.

Definition isSome {A : Type} (o : option A) : bool :=
  match o with Some _ => true | None => false end.

(** [raw] and the eased [t] of a frame at time [now]. *)
Definition rawProgress (tr : Transition) (now : R) : R :=
  Math_min ((now - startTime tr) / 400) 1.

Definition eased (raw : R) : R := 1 - (1 - raw) * (1 - raw) * (1 - raw).

(** The eye that [animate] writes: interpolated ([nx, ny, nz]), then put
    back at distance [dist] from the center when it is not the center
    itself. *)
Definition frameEye (tr : Transition) (now : R) : Vec3 :=
  let t := eased (rawProgress tr now) in
  let n := lerp (startEye tr) (targetEye tr) t in
  let d := subVectors n (cxyz tr) in
  let curDist := vlength d in
  if Rgt_dec curDist 0 then
    vec3 (vx (cxyz tr) + vx d / curDist * dist tr)
         (vy (cxyz tr) + vy d / curDist * dist tr)
         (vz (cxyz tr) + vz d / curDist * dist tr)
  else n.

(** The up vector that [animate] writes: interpolated ([ux, uy, uz]),
    then normalized when it is not the zero vector. *)
Definition frameUp (tr : Transition) (now : R) : Vec3 :=
  let t := eased (rawProgress tr now) in
  let u := lerp (startUp tr) (upVec tr) t in
  let uLen := vlength u in
  if Rgt_dec uLen 0 then vec3 (vx u / uLen) (vy u / uLen) (vz u / uLen)
  else u.

(** The direction that a transition makes current: its argument for
    [setCameraDirection], ['front'] for [resetCamera]. *)
Definition newDirection (tr : Transition) : string :=
  match kind tr with
  | Directed direction => direction
  | Reset => "front"%string
  end.

Definition markRebuilt (tr : Transition) : Transition :=
  mkTransition (kind tr) (cxyz tr) (dist tr) (targetEye tr) (startEye tr) (startUp tr)
               (upVec tr) (hasRuler tr) true (startTime tr).

(** The ruler crossfade of [animate]; the result carries the closure
    with its [rulerRebuilt] as the frame leaves it. *)
Definition crossfade (tr : Transition) (raw : R) (st : State)
  : result (Transition * State) :=
  if hasRuler tr then
    r <- (if Rlt_dec raw 0.5 then Ok (tr, fadeRuler (1 - raw * 2) st)
          else if negb (rulerRebuilt tr) then
            let st := set_currentViewDirection (newDirection tr) st in
            st <- setScaleRuler true (currentRulerMeshIndex st) st ;;
            Ok (markRebuilt tr, fadeRuler 0 st)
          else Ok (tr, st)) ;;
    let '(tr, st) := r in
    if Rge_dec raw 0.5 then Ok (tr, fadeRuler ((raw - 0.5) * 2) st)
    else Ok (tr, st)
  else Ok (tr, st).

(** What [animate] does once [raw] is 1. *)
Definition complete (tr : Transition) (st : State) : result State :=
  let st :=
    match kind tr with
    | Directed _ => logCall (AdjustClippingPlanesToSphere 1) st
    | Reset =>
        logCall (FitSphereToWindow 1.3 true) (logCall (AdjustClippingPlanesToSphere 1.3) st)
    end in
  let st := if negb (rulerRebuilt tr) then set_currentViewDirection (newDirection tr) st
            else st in
  if hasRuler tr then
    st <- (if negb (rulerRebuilt tr) then setScaleRuler true (currentRulerMeshIndex st) st
           else Ok st) ;;
    Ok (fadeRuler 1 st)
  else Ok st.

(** One call of the [animate] closure [tr] at time [now]. *)
Definition animate (tr : Transition) (now : R) (st : State) : result State :=
  let raw := rawProgress tr now in
  let cam := camera st in
  let st := set_camera (mkCamera (frameEye tr now) (center cam) (frameUp tr now)) st in
  r <- crossfade tr raw st ;;
  let '(tr, st) := r in
  if Rlt_dec raw 1 then Ok (snd (requestAnimationFrame (Animate tr) st))
  else complete tr st.

(** The closure that [setCameraDirection] creates, if [direction] is
    one of the six tokens. *)
Definition directedTransition (direction : string) (now : R) (st : State)
  : option Transition :=
  match directionTable direction with
  | None => None
  | Some (dirVec, upVec) =>
      let cam := camera st in
      let dist := eyeDistance cam in
      let targetEye := vec3 (vx (center cam) + vx dirVec * dist)
                            (vy (center cam) + vy dirVec * dist)
                            (vz (center cam) + vz dirVec * dist) in
      Some (mkTransition (Directed direction) (center cam) dist targetEye
                         (eye cam) (up cam) upVec (isSome (rulerGroup st)) false now)
  end.

Definition setCameraDirection (direction : string) (now : R) (st : State) : State :=
  match directedTransition direction now st with
  | None => st
  | Some tr => snd (requestAnimationFrame (Animate tr) st)
  end.

(** The closure that [resetCamera] creates. *)
Definition resetTransition (now : R) (st : State) : Transition :=
  let cam := camera st in
  let dist := eyeDistance cam in
  let targetEye :=
    if isSome (rulerGroup st) then
      vec3 (vx (center cam)) (vy (center cam)) (vz (center cam) + dist)
    else
      let elev := 15 * PI / 180 in
      vec3 (vx (center cam)) (vy (center cam) + sin elev * dist)
           (vz (center cam) + cos elev * dist) in
  mkTransition Reset (center cam) dist targetEye
               (eye cam) (up cam) (vec3 0 1 0) (isSome (rulerGroup st)) false now.

Definition resetCamera (now : R) (st : State) : State :=
  snd (requestAnimationFrame (Animate (resetTransition now st)) st).

(** ** Auto-rotation *)

(** One call of the [tick] closure [ar] at time [now]. *)
Definition tick (ar : AutoRotate) (now : R) (st : State) : State :=
  let prev := match autoRotatePrev st with Some p => p | None => 0 end in
  let dt := (now - prev) / 1000 in
  let st := set_autoRotatePrev (Some now) st in
  let elapsed := elapsed ar + dt in
  let freq := PI / 4 in
  let vDelta := if Rgt_dec (tiltDeg ar) 0 then tiltDeg ar * freq * cos (freq * elapsed) * dt
                else 0 in
  let st := logCall (Orbit (hSpeed ar * dt) vDelta) st in
  let st := logCall NavigationUpdate st in
  let (h, st) := requestAnimationFrame (Tick (mkAutoRotate (hSpeed ar) (tiltDeg ar) elapsed)) st in
  set_autoRotateId (Some h) st.

Definition startAutoRotate (hSpeed tiltDeg now : R) (st : State) : State :=
  match autoRotateId st with
  | Some _ => st
  | None =>
      let st := set_autoRotatePrev (Some now) st in
      let (h, st) := requestAnimationFrame (Tick (mkAutoRotate hSpeed tiltDeg 0)) st in
      set_autoRotateId (Some h) st
  end.

Definition stopAutoRotate (st : State) : State :=
  match autoRotateId st with
  | Some h =>
      let st := cancelAnimationFrame h st in
      let st := set_autoRotateId None st in
      set_autoRotatePrev None st
  | None => st
  end.

(** ** Frames and events *)

Definition invoke (cb : Callback) (now : R) (st : State) : result State :=
  match cb with
  | Animate tr => animate tr now st
  | Tick ar => Ok (tick ar now st)
  end.

(** The browser runs the callbacks that were pending when the frame
    began, in the order of their registration; a callback cancelled
    meanwhile is skipped, one registered meanwhile waits for the next
    frame. *)
Fixpoint runCallbacks (handles : list nat) (now : R) (st : State) : result State :=
  match handles with
  | [] => Ok st
  | h :: hs =>
      match lookupCallback h st with
      | None => runCallbacks hs now st
      | Some cb =>
          st' <- invoke cb now (cancelAnimationFrame h st) ;;
          runCallbacks hs now st'
      end
  end.

Definition runFrame (now : R) (st : State) : result State :=
  runCallbacks (map fst (frameCallbacks st)) now st.

(** [LoadInputFiles] up to the import, and [onFinish] with
    [OnModelFinished].  [FitSphereToWindow] moves the camera inside the
    viewer; the modelled camera keeps what the bridge itself wrote. *)
Definition loadStart (st : State) : State := set_threeObject None st.

Definition onModelFinished (obj : Object3D) (st : State) : State :=
  let st := set_threeObject (Some obj) st in
  let elevation := 15 * PI / 180 in
  let st := set_camera (mkCamera (vec3 0 (sin elevation * 3.5) (cos elevation * 3.5))
                                 (vec3 0 0 0) (vec3 0 1 0)) st in
  let st := logCall (AdjustClippingPlanesToSphere 1.3) st in
  let st := logCall (FitSphereToWindow 1.3 false) st in
  set_justLoaded true st.

Inductive Event : Type :=
| LoadStart
| ModelFinished (obj : Object3D)
| SetScaleRuler (enabled : bool) (meshIndex : option Z)
| UpdateRulerLabels (w h d : string) (unitFactor : option R)
| SetCameraDirection (direction : string) (now : R)
| ResetCamera (now : R)
| StartAutoRotate (hSpeed tiltDeg now : R)
| StopAutoRotate
| Frame (now : R).

Definition step (st : State) (e : Event) : result State :=
  match e with
  | LoadStart => Ok (loadStart st)
  | ModelFinished obj => Ok (onModelFinished obj st)
  | SetScaleRuler enabled meshIndex => setScaleRuler enabled meshIndex st
  | UpdateRulerLabels w h d u => Ok (updateRulerLabels w h d u st)
  | SetCameraDirection direction now => Ok (setCameraDirection direction now st)
  | ResetCamera now => Ok (resetCamera now st)
  | StartAutoRotate hSpeed tiltDeg now => Ok (startAutoRotate hSpeed tiltDeg now st)
  | StopAutoRotate => Ok (stopAutoRotate st)
  | Frame now => runFrame now st
  end.

Fixpoint run (st : State) (es : list Event) : result State :=
  match es with
  | [] => Ok st
  | e :: es' => st' <- step st e ;; run st' es'
  end.

(** The state when [RegisterBridgeFunctions] returns. *)
Definition initialState (isDark : bool) (cam : Camera) : State :=
  {| threeObject := None;
     justLoaded := false;
     currentIsDark := isDark;
     camera := cam;
     rulerGroup := None;
     rulerLabelSprites := mkLabels None None None;
     rulerTickSprites := [];
     currentViewDirection := "front";
     currentRulerMeshIndex := None;
     lastRulerLabels := None;
     autoRotateId := None;
     autoRotatePrev := None;
     frameCallbacks := [];
     nextHandle := 0;
     viewerCalls := [] |}.

(** ** Dimensions, theme and the remaining bridge functions of the overlay *)

Record Dimensions : Type := mkDimensions { width : R; height : R; depth : R }.

(** [window.getModelDimensions(meshIndex)]; [null] without an object. *)
Definition getModelDimensions (meshIndex : option Z) (st : State) : option Dimensions :=
  match threeObject st with
  | None => None
  | Some obj =>
      let box := match findMeshByIndex obj meshIndex with
                 | Some m => m
                 | None => objectBox obj
                 end in
      let size := getSize box in
      Some (mkDimensions (vx size) (vy size) (vz size))
  end.

(** How a call of the bridge ends.  [updateRulerTheme] is a function
    declaration inside a class method: the code is strict, a plain call
    binds no [this], and evaluating [this.viewer] raises a TypeError. *)
Inductive Completion : Type :=
| Returns
| ThrowsTypeError.

Inductive Theme : Type := Light | Dark.

Record RGBAColor : Type := mkRGBA { red : Z; green : Z; blue : Z; alpha : Z }.

(** [ApplyTheme(isDark)]: the theme handed to the theme handler and the
    background handed to the viewer. *)
Definition ApplyTheme (isDark : bool) : Theme * RGBAColor :=
  if isDark then (Dark, mkRGBA 10 10 10 255) else (Light, mkRGBA 255 255 255 255).

(** [s.userData.labelText] of the sprite behind a handle of
    [rulerLabelSprites]. *)
Definition labelTextOf (h : option nat) (st : State) : option string :=
  match h, rulerGroup st with
  | Some i, Some g =>
      match nth_error (children g) i with
      | Some (Label s) => Some (spriteText s)
      | _ => None
      end
  | _, _ => None
  end.

(** [if (s && s.userData.labelText) updateSpriteText(s, s.userData.labelText, fontSize)] *)
Definition repaintLabel (h : option nat) (st : State) : State :=
  match labelTextOf h st with
  | Some text => if String.eqb text "" then st else updateSpriteText h text st
  | None => st
  end.

(** [updateRulerTheme()].  [rulerLineMaterial] is the line material of
    the group: the same build assigns both.  The sprites of
    [rulerTickSprites] come from [createTickLabel] and are only repainted
    by [updateTickSpriteText], neither of which sets
    [userData.labelText]; so [labelText || formatTickNum(rawValue)] is
    [formatTickNum(rawValue)].  The colours that the repaint picks are not
    part of the model. *)
Definition updateRulerTheme (st : State) : State * Completion :=
  match rulerGroup st with
  | None => (st, Returns)
  | Some g =>
      let st := set_rulerGroup
                  (Some (mkGroup (rulerLineOpacity (currentIsDark st)) (children g))) st in
      let st := repaintLabel (labelX (rulerLabelSprites st)) st in
      let st := repaintLabel (labelY (rulerLabelSprites st)) st in
      let st := repaintLabel (labelZ (rulerLabelSprites st)) st in
      let st := fold_left (fun st entry =>
                             updateTickSpriteText (sprite entry)
                                                  (formatTickNum (rawValue entry))
                                                  (baseScale entry) st)
                          (rulerTickSprites st) st in
      (st, ThrowsTypeError)
  end.

(** [window.setTheme(isDark)]: what [ApplyTheme] hands over, and the
    state and completion of [updateRulerTheme]. *)
Definition setTheme (isDark : bool) (st : State) : (Theme * RGBAColor) * (State * Completion) :=
  let st := set_currentIsDark isDark st in
  (ApplyTheme isDark, updateRulerTheme st).

(** ** Vocabulary of the statements *)

(** [b] continues the build [a]: children and tick entries are only
    ever appended. *)
Definition extends (a b : Build) : Prop :=
  exists (e1 : list Child) (e2 : list TickEntry), b = (fst a ++ e1, snd a ++ e2).

(** The handle [h] is a label sprite of the group. *)
Definition isLabel (g : list Child) (h : nat) : Prop :=
  exists s : Sprite, nth_error g h = Some (Label s).

(** The crossfade factor [f] is in force on a group: every sprite has
    opacity [f], and the line material [rulerLineOpacity() * f]. *)
Definition fadedTo (isDark : bool) (f : R) (g : Group) : Prop :=
  Forall (fun c => match c with
                   | Label s => spriteOpacity s = f
                   | Line _ _ => lineOpacity g = rulerLineOpacity isDark * f
                   end) (children g).

Definition distance (a b : Vec3) : R := vlength (subVectors a b).

(** [st'] differs from [st] in the overlay and in the log of viewer
    calls at most. *)
Definition overlayOnly (st st' : State) : Prop :=
  threeObject st' = threeObject st /\
  justLoaded st' = justLoaded st /\
  currentIsDark st' = currentIsDark st /\
  camera st' = camera st /\
  currentViewDirection st' = currentViewDirection st /\
  currentRulerMeshIndex st' = currentRulerMeshIndex st /\
  autoRotateId st' = autoRotateId st /\
  autoRotatePrev st' = autoRotatePrev st /\
  frameCallbacks st' = frameCallbacks st /\
  nextHandle st' = nextHandle st.

(** The three dimension labels exist and are sprites of the group. *)
Definition labelsPresent (st : State) : Prop :=
  exists (g : Group) (hx hy hz : nat),
    rulerGroup st = Some g /\
    rulerLabelSprites st = mkLabels (Some hx) (Some hy) (Some hz) /\
    isLabel (children g) hx /\ isLabel (children g) hy /\ isLabel (children g) hz.

(** The number of ruler groups handed to the viewer so far: each build
    of [setScaleRuler] ends with one [AddExtraObject]. *)
Definition isBuild (c : ViewerCall) : bool :=
  match c with AddExtraObject => true | _ => false end.

Definition builds (st : State) : nat :=
  List.length (filter isBuild (viewerCalls st)).

(** The post-load branch of [setScaleRuler] cannot run: the flag is
    clear, or there is no object and [setScaleRuler] returns at once. *)
Definition calm (st : State) : Prop :=
  justLoaded st = false \/ threeObject st = None.

(** The frames of the closure [tr] cannot reach the post-load branch:
    either the closure found no ruler, or the state is calm. *)
Definition quiet (tr : Transition) (st : State) : Prop :=
  hasRuler tr = false \/ calm st.

(** [tr'] is the closure [tr], possibly with [rulerRebuilt] set. *)
Definition sameSession (tr tr' : Transition) : Prop :=
  tr' = tr \/ tr' = markRebuilt tr.

(** [st'] has the camera, the host flags, the auto-rotate variables and
    the frame callbacks of [st]. *)
Definition keepsCamera (st st' : State) : Prop :=
  camera st' = camera st /\
  threeObject st' = threeObject st /\
  justLoaded st' = justLoaded st /\
  currentIsDark st' = currentIsDark st /\
  autoRotateId st' = autoRotateId st /\
  autoRotatePrev st' = autoRotatePrev st /\
  frameCallbacks st' = frameCallbacks st /\
  nextHandle st' = nextHandle st.

(** The registrations of the auto-rotate loop among the pending frame
    callbacks. *)
Definition isTick (e : nat * Callback) : bool :=
  match snd e with Tick _ => true | Animate _ => false end.

Definition tickCallbacks (st : State) : list (nat * Callback) :=
  filter isTick (frameCallbacks st).

(** [hSpeed] and [tiltDeg] of the registered loop, if there is one. *)
Definition loopParams (st : State) : option (R * R) :=
  match tickCallbacks st with
  | [(_, Tick ar)] => Some (hSpeed ar, tiltDeg ar)
  | _ => None
  end.

(** Handles are unique and below [nextHandle], and [autoRotateId] is the
    handle of the one registered [tick], if any. *)
Definition queueInv (st : State) : Prop :=
  NoDup (map fst (frameCallbacks st)) /\
  Forall (fun e => (fst e < nextHandle st)%nat) (frameCallbacks st) /\
  match autoRotateId st with
  | Some h => exists ar, tickCallbacks st = [(h, Tick ar)]
  | None => tickCallbacks st = []
  end.

(** [st'] has the frame callbacks and the auto-rotate variables of [st]. *)
Definition keepsQueue (st st' : State) : Prop :=
  autoRotateId st' = autoRotateId st /\
  autoRotatePrev st' = autoRotatePrev st /\
  frameCallbacks st' = frameCallbacks st /\
  nextHandle st' = nextHandle st.

(** The states that a run of bridge calls and frames can reach. *)
Definition reachable (st : State) : Prop :=
  exists (isDark : bool) (cam : Camera) (es : list Event),
    run (initialState isDark cam) es = Ok st.

(** The crossfade factor that belongs to the progress [raw]. *)
Definition crossfadeFactor (raw : R) : R :=
  if Rlt_dec raw 0.5 then 1 - raw * 2 else (raw - 0.5) * 2.

Definition pastHalf (raw : R) : bool :=
  if Rge_dec raw 0.5 then true else false.

(** Some frame of the closure [tr] among [nows] has [raw >= 0.5]. *)
Definition crossed (tr : Transition) (nows : list R) : bool :=
  existsb (fun now => pastHalf (rawProgress tr now)) nows.

(** The closure [tr] with [rulerRebuilt] as the flag [b] says. *)
Definition closureWith (b : bool) (tr : Transition) : Transition :=
  if b then markRebuilt tr else tr.

(** The first [n] positions of a walk that starts at [d] and advances
    by [tickStep]. *)
Fixpoint walkFrom (n : nat) (d tickStep : R) : list R :=
  match n with
  | O => []
  | S n' => d :: walkFrom n' (d + tickStep) tickStep
  end.

(** The loop body run at each position of a list, in order. *)
Fixpoint foldBuild (body : R -> Build -> result Build) (ds : list R) (acc : Build)
  : result Build :=
  match ds with
  | [] => Ok acc
  | d :: ds' => acc' <- body d acc ;; foldBuild body ds' acc'
  end.

(** The mark of a tick at axis position [t], of half length [len]. *)
Definition tickMark (start dir tickDir : Vec3) (t len : R) : Child :=
  Line (addScaledVector (addScaledVector start dir t) tickDir (- len))
       (addScaledVector (addScaledVector start dir t) tickDir len).

(** Decimal digits, and strings made of digits only. *)
Definition isDigit (c : ascii) : bool :=
  match uint_of_char c (Some Nil) with
  | Some _ => true
  | None => false
  end.

Definition digitsOnly (s : string) : bool :=
  forallb isDigit (list_ascii_of_string s).

(** The number that [toFixed(2)] writes: the integer nearest to
    [|x| * 100], ties upwards. *)
Definition hundredths (x : R) : Z := Zfloor (Rabs x * 100 + / 2).

(** The value of the numeral that [toFixed(2)] writes. *)
Definition fixedValue (x : R) : R :=
  if Rlt_dec x 0 then - (IZR (hundredths x) / 100) else IZR (hundredths x) / 100.

(** ** Sample inputs *)

(** A camera in front of the object, at distance 5. *)
Definition cameraFront5 : Camera := mkCamera (vec3 0 0 5) (vec3 0 0 0) (vec3 0 1 0).

(** An object whose box is the unit cube, and a state in which it is
    loaded and measured: the overlay has a ruler line and a dimension
    label, the post-load flag is clear and nothing is in flight. *)
Definition unitBox : Box3 := mkBox (vec3 0 0 0) (vec3 1 1 1).

Definition sampleObject : Object3D := mkObject unitBox [unitBox].

Definition sampleGroup : Group :=
  mkGroup 0.9 [Line (vec3 0 0 0) (vec3 1 0 0);
               Label (mkSprite "1.00" (vec3 0.5 0 0) 0.055 1)].

Definition stateWithRuler : State :=
  {| threeObject := Some sampleObject;
     justLoaded := false;
     currentIsDark := false;
     camera := cameraFront5;
     rulerGroup := Some sampleGroup;
     rulerLabelSprites := mkLabels (Some 1%nat) None None;
     rulerTickSprites := [];
     currentViewDirection := "front";
     currentRulerMeshIndex := None;
     lastRulerLabels := None;
     autoRotateId := None;
     autoRotatePrev := None;
     frameCallbacks := [];
     nextHandle := 0;
     viewerCalls := [AddExtraObject] |}.

(** An object whose box has size zero, loaded. *)
Definition pointObject : Object3D := mkObject (mkBox (vec3 0 0 0) (vec3 0 0 0)) [].

Definition stateWithPoint : State :=
  set_threeObject (Some pointObject) (initialState false cameraFront5).

(** ** Vocabulary of the registry of the overlay *)

(** The sprite behind a handle, if the handle is that of a sprite. *)
Definition spriteOf (g : list Child) (h : nat) : option Sprite :=
  match nth_error g h with
  | Some (Label s) => Some s
  | _ => None
  end.

(** The sprite of the entry [e] is in the group [g], shows [text] and
    has the height [baseScale] of the entry. *)
Definition tickShows (text : TickEntry -> string) (g : list Child) (e : TickEntry) : Prop :=
  exists s : Sprite,
    spriteOf g (sprite e) = Some s /\ spriteText s = text e /\ spriteScaleY s = baseScale e.

(** The text that [addGraduatedTicks] paints for an entry, and the text
    for the unit factor of [updateRulerLabels]. *)
Definition rawText (e : TickEntry) : string := formatTickNum (rawValue e).

Definition convertedText (u : R) (e : TickEntry) : string := formatTickNum (rawValue e * u).

(** A build is tidy: the handles [ls] of dimension labels are sprites of
    the group, every tick entry shows its raw value, and no two handles
    are the same. *)
Definition tidy (ls : list nat) (b : Build) : Prop :=
  Forall (isLabel (fst b)) ls /\
  Forall (tickShows rawText (fst b)) (snd b) /\
  NoDup (ls ++ map sprite (snd b)).

(** The handles that the registry of the overlay holds. *)
Definition labelHandles (l : LabelSprites) : list nat :=
  (match labelX l with Some h => [h] | None => [] end)
  ++ (match labelY l with Some h => [h] | None => [] end)
  ++ (match labelZ l with Some h => [h] | None => [] end).

Definition registryHandles (st : State) : list nat :=
  labelHandles (rulerLabelSprites st) ++ map sprite (rulerTickSprites st).

(** The sprite behind a handle in the overlay of a state. *)
Definition spriteIn (st : State) (h : nat) : option Sprite :=
  match rulerGroup st with
  | Some g => spriteOf (children g) h
  | None => None
  end.

(** The registry of the overlay is consistent: with no group there are
    no handles; with a group all three dimension labels are registered,
    every handle is a sprite of the group, and no two handles are the
    same. *)
Definition registry (st : State) : Prop :=
  match rulerGroup st with
  | None => rulerLabelSprites st = mkLabels None None None /\ rulerTickSprites st = []
  | Some _ =>
      (exists hx hy hz : nat,
         rulerLabelSprites st = mkLabels (Some hx) (Some hy) (Some hz)) /\
      Forall (fun h => isSome (spriteIn st h) = true) (registryHandles st) /\
      NoDup (registryHandles st)
  end.

(** The sprite at the handle [h] of the overlay shows [text]. *)
Definition shows (st : State) (h : nat) (text : string) : Prop :=
  exists s : Sprite, spriteIn st h = Some s /\ spriteText s = text.

(** [st'] has the registry of [st], a group exactly if [st] has one, and
    sprites behind the same handles. *)
Definition reshapes (st st' : State) : Prop :=
  rulerLabelSprites st' = rulerLabelSprites st /\
  rulerTickSprites st' = rulerTickSprites st /\
  isSome (rulerGroup st') = isSome (rulerGroup st) /\
  forall h : nat, isSome (spriteIn st' h) = isSome (spriteIn st h).

(** The sum of the horizontal angles of the [Orbit] calls of a log. *)
Fixpoint orbitTotal (calls : list ViewerCall) : R :=
  match calls with
  | [] => 0
  | Orbit angleX _ :: calls' => angleX + orbitTotal calls'
  | _ :: calls' => orbitTotal calls'
  end.

(** The box that [setScaleRuler] and [getModelDimensions] measure. *)
Definition measuredBox (obj : Object3D) (meshIndex : option Z) : Box3 :=
  match findMeshByIndex obj meshIndex with
  | Some m => m
  | None => objectBox obj
  end.

(** [acc] continues the build [b0], and the raw values of the entries
    that it adds lie between 0 and [length]. *)
Definition continues (length : R) (b0 acc : Build) : Prop :=
  exists (e1 : list Child) (e2 : list TickEntry),
    acc = (fst b0 ++ e1, snd b0 ++ e2) /\
    Forall (fun e => 0 <= rawValue e <= length) e2.

(** A state with an object loaded and nothing else, and a state with a
    complete overlay: three dimension labels and one registered tick
    number. *)
Definition stateWithObject : State :=
  set_threeObject (Some sampleObject) (initialState false cameraFront5).

Definition fullGroup : Group :=
  mkGroup 0.9 [Line (vec3 0 0 0) (vec3 1 0 0);
               Label (mkSprite "0.5" (vec3 0.5 0 0) 0.02 1);
               Label (mkSprite "1.00" (vec3 0.5 0 0) 0.055 1);
               Label (mkSprite "1.00" (vec3 0 0.5 0) 0.055 1);
               Label (mkSprite "1.00" (vec3 0 0 0.5) 0.055 1)].

Definition stateWithOverlay : State :=
  set_rulerGroup (Some fullGroup)
    (set_rulerLabelSprites (mkLabels (Some 2%nat) (Some 3%nat) (Some 4%nat))
       (set_rulerTickSprites [mkTick 1 0.5 16 0.02] stateWithObject)).

(** ** Vocabulary of the camera transitions in any state *)

(** A time stamp, of [performance.now()] or of a frame: a double, and
    so a rational number. *)
Record Stamp : Type := mkStamp { numerator : Z; denominator : positive }.

Definition stampValue (t : Stamp) : R :=
  IZR (numerator t) / IZR (Zpos (denominator t)).

(** The call of the closure [tr] at progress [raw] reaches the ruler
    rebuild of the crossfade, [window.setScaleRuler(true,
    currentRulerMeshIndex)]: the closure found a ruler, has not rebuilt it
    yet, and [raw >= 0.5]. *)
Definition rebuildsNow (tr : Transition) (raw : R) : bool :=
  hasRuler tr && negb (rulerRebuilt tr) && pastHalf raw.

(** That rebuild takes the post-load branch of [setScaleRuler]: an
    object is loaded and [justLoaded] is set. *)
Definition takesLoadBranch (tr : Transition) (raw : R) (st : State) : bool :=
  rebuildsNow tr raw && isSome (threeObject st) && justLoaded st.

(** The pose that the post-load branch of [setScaleRuler] writes over
    the camera [cam]. *)
Definition poseOnLoad (cam : Camera) : Camera :=
  mkCamera (vec3 (vx (center cam)) (vy (center cam)) (vz (center cam) + eyeDistance cam))
           (center cam) (vec3 0 1 0).

(** The camera that a call of the closure [tr] at time [now] hands to
    [SetCamera]. *)
Definition writtenCamera (tr : Transition) (now : R) (st : State) : Camera :=
  mkCamera (frameEye tr now) (center (camera st)) (frameUp tr now).

(** The camera after a call of the closure [tr] at time [now]. *)
Definition cameraAfter (tr : Transition) (now : R) (st : State) : Camera :=
  if takesLoadBranch tr (rawProgress tr now) st then poseOnLoad (writtenCamera tr now st)
  else writtenCamera tr now st.

(** The current view direction after a call of the closure [tr] at
    progress [raw]. *)
Definition directionAfter (tr : Transition) (raw : R) (st : State) : string :=
  if rebuildsNow tr raw then
    if isSome (threeObject st) && justLoaded st then "front"%string else newDirection tr
  else if Rlt_dec raw 1 then currentViewDirection st
  else if rulerRebuilt tr then currentViewDirection st
  else newDirection tr.

(** The number of ruler groups that a call of the closure [tr] at
    progress [raw] hands to the viewer. *)
Definition rebuildCount (tr : Transition) (raw : R) (st : State) : nat :=
  if rebuildsNow tr raw && isSome (threeObject st) then 1%nat else 0%nat.

(** [targetEye] of [setCameraDirection]: the point at the distance of
    the eye from the center of the camera [cam], in the direction
    [dirVec]. *)
Definition targetOf (cam : Camera) (dirVec : Vec3) : Vec3 :=
  vec3 (vx (center cam) + vx dirVec * eyeDistance cam)
       (vy (center cam) + vy dirVec * eyeDistance cam)
       (vz (center cam) + vz dirVec * eyeDistance cam).

(** The camera that [OnModelFinished] sets. *)
Definition cameraOnLoad : Camera :=
  mkCamera (vec3 0 (sin (15 * PI / 180) * 3.5) (cos (15 * PI / 180) * 3.5))
           (vec3 0 0 0) (vec3 0 1 0).

(** A transition with a ruler whose closure is the one pending
    callback: the closure carries [rulerRebuilt] as the flag [b] says, and
    an overlay exists. *)
Definition pendingAlone (tr : Transition) (b : bool) (st : State) : Prop :=
  (exists h : nat, frameCallbacks st = [(h, Animate (closureWith b tr))]) /\
  rulerGroup st <> None.

(** The events whose time is a time stamp. *)
Definition stamped (e : Event) : Prop :=
  match e with
  | SetCameraDirection _ now | ResetCamera now | StartAutoRotate _ _ now | Frame now =>
      exists t : Stamp, now = stampValue t
  | _ => True
  end.

(** A closure that began at a time stamp, with start and target up
    vectors of unit length. *)
Definition unitUps (cb : Callback) : Prop :=
  match cb with
  | Animate tr =>
      vlength (startUp tr) = 1 /\ vlength (upVec tr) = 1 /\
      exists t : Stamp, startTime tr = stampValue t
  | Tick _ => True
  end.

(** The up vector of the camera has unit length, and so have the up
    vectors of the pending closures. *)
Definition upInv (st : State) : Prop :=
  vlength (up (camera st)) = 1 /\
  Forall (fun e => unitUps (snd e)) (frameCallbacks st).

(** ** The mesh tools of the bridge

    [getMeshList], [setMeshVisibility], [setXRayMode], the edge overlay,
    the model rotation and the material swap of the USDZ export work on
    the scene graph of [threeObject] through [traverse], which visits the
    object and its descendants in a fixed order.  The object is modelled
    by the nodes that [traverse] visits, in that order, with what these
    functions read and write of each node.  Materials are shared objects
    that the bridge mutates in place: they live in a heap ([materials]),
    and a node names its materials by their places in the heap. *)

Module MeshTools.

(** [THREE.FrontSide], [THREE.BackSide], [THREE.DoubleSide] *)
Inductive Side : Type := FrontSide | BackSide | DoubleSide.

Definition isDoubleSide (s : Side) : bool :=
  match s with DoubleSide => true | _ => false end.

(** A material, as far as the bridge reads and writes it.  A property
    that the code tests for [undefined] or for a falsy value is an
    option. *)
Record Material : Type := mkMaterial {
  isMeshStandardMaterial : bool;
  side : Side;
  transparent : option bool;
  opacity : option R;
  depthWrite : bool;
  color : option Z;
  map : option nat;
  normalMap : option nat;
  emissive : option Z;
  emissiveMap : option nat;
  alphaMap : option nat;
  roughness : option R;
  metalness : option R
}.

(** [child.material]: nothing, one material, or an array of materials. *)
Inductive MeshMaterial : Type :=
| NoMaterial
| OneMaterial (m : nat)
| MaterialArray (ms : list nat).

(** [Array.isArray(child.material) ? child.material : [child.material]] *)
Definition mats (m : MeshMaterial) : list nat :=
  match m with
  | NoMaterial => []
  | OneMaterial m => [m]
  | MaterialArray ms => ms
  end.

Definition hasMaterial (m : MeshMaterial) : bool :=
  match m with NoMaterial => false | _ => true end.

Record Node : Type := mkNode {
  isMesh : bool;
  name : string;
  visible : bool;
  material : MeshMaterial;
  hasGeometry : bool
}.

Record Euler : Type := mkEuler { ex : R; ey : R; ez : R; order : string }.

(** The loaded object: the nodes that [traverse] visits, in order, the
    rotation and the position of the object itself, and its bounding
    box. *)
Record SceneObject : Type := mkSceneObject {
  nodes : list Node;
  rotation : Euler;
  position : Vec3;
  boundingBox : Box3
}.

(** What [setXRayMode] saves of a material. *)
Record Saved : Type := mkSaved {
  savedTransparent : option bool;
  savedOpacity : option R;
  savedDepthWrite : bool;
  savedSide : Side
}.

(** [xrayState]; [originals] is the [Map] from materials to what was
    saved of them, in insertion order. *)
Record XRayState : Type := mkXRayState {
  xrayEnabled : bool;
  originals : list (nat * Saved)
}.

(** A [THREE.LineSegments] made by [rebuildEdges]: the node it was added
    to, the threshold angle of its [EdgesGeometry], and the colour and
    the opacity of its material.  A line is no mesh, so no traversal of
    the bridge acts on it: the lines are kept in [edgeState] and are not
    listed among the nodes. *)
Record EdgeLine : Type := mkEdgeLine {
  parent : nat;
  thresholdAngle : R;
  lineColor : Z;
  lineOpacity : R
}.

Record EdgeState : Type := mkEdgeState {
  edgeEnabled : bool;
  lines : list EdgeLine;
  angle : R;
  edgeColor : Z
}.

(** [this.threeObject], the heap of materials, the closure variables of
    the mesh tools, and the number of calls of [viewer.Render]. *)
Record Site : Type := mkSite {
  threeObject : option SceneObject;
  materials : list Material;
  xrayState : XRayState;
  edgeState : EdgeState;
  originalRotation : option Euler;
  renders : nat
}.

Definition set_threeObject (v : option SceneObject) (s : Site) : Site :=
  mkSite v (materials s) (xrayState s) (edgeState s) (originalRotation s) (renders s).

Definition set_materials (v : list Material) (s : Site) : Site :=
  mkSite (threeObject s) v (xrayState s) (edgeState s) (originalRotation s) (renders s).

Definition set_xrayState (v : XRayState) (s : Site) : Site :=
  mkSite (threeObject s) (materials s) v (edgeState s) (originalRotation s) (renders s).

Definition set_edgeState (v : EdgeState) (s : Site) : Site :=
  mkSite (threeObject s) (materials s) (xrayState s) v (originalRotation s) (renders s).

Definition set_originalRotation (v : option Euler) (s : Site) : Site :=
  mkSite (threeObject s) (materials s) (xrayState s) (edgeState s) v (renders s).

(** [this.viewer.Render()] *)
Definition Render (s : Site) : Site :=
  mkSite (threeObject s) (materials s) (xrayState s) (edgeState s) (originalRotation s)
         (S (renders s)).

Definition set_nodes (v : list Node) (o : SceneObject) : SceneObject :=
  mkSceneObject v (rotation o) (position o) (boundingBox o).

Definition set_rotation (v : Euler) (o : SceneObject) : SceneObject :=
  mkSceneObject (nodes o) v (position o) (boundingBox o).

Definition set_position (v : Vec3) (o : SceneObject) : SceneObject :=
  mkSceneObject (nodes o) (rotation o) v (boundingBox o).

(** A write through a reference: the object at place [i] of a heap
    becomes [f] of itself. *)
Fixpoint updateAt {A : Type} (i : nat) (f : A -> A) (l : list A) : list A :=
  match l, i with
  | [], _ => []
  | a :: l', O => f a :: l'
  | a :: l', S i' => a :: updateAt i' f l'
  end.

(** *** [getMeshList] and [setMeshVisibility] *)

Record MeshInfo : Type := mkMeshInfo { index : nat; meshName : string }.

(** [child.name || ('Mesh ' + (index + 1))] *)
Definition displayName (index : nat) (child : Node) : string :=
  if String.eqb (name child) "" then ("Mesh " ++ String_int (Z.of_nat (index + 1)))%string
  else name child.

Definition getMeshList (s : Site) : list MeshInfo :=
  match threeObject s with
  | None => []
  | Some obj =>
      fst (fold_left
             (fun (acc : list MeshInfo * nat) (child : Node) =>
                let (meshes, index) := acc in
                if isMesh child
                then (meshes ++ [mkMeshInfo index (displayName index child)], S index)
                else acc)
             (nodes obj) ([], O))
  end.

Definition set_visible (v : bool) (n : Node) : Node :=
  mkNode (isMesh n) (name n) v (material n) (hasGeometry n).

(** [index === -1 || current === index] *)
Definition selects (index : Z) (current : nat) : bool :=
  Z.eqb index (-1) || Z.eqb (Z.of_nat current) index.

Definition setMeshVisibility (index : Z) (visible : bool) (s : Site) : Site :=
  match threeObject s with
  | None => s
  | Some obj =>
      let visited :=
        fst (fold_left
               (fun (acc : list Node * nat) (child : Node) =>
                  let (done, current) := acc in
                  if isMesh child
                  then (done ++ [if selects index current then set_visible visible child
                                 else child],
                        S current)
                  else (done ++ [child], current))
               (nodes obj) ([], O)) in
      Render (set_threeObject (Some (set_nodes visited obj)) s)
  end.

(** *** [setXRayMode] *)

Definition save (mat : Material) : Saved :=
  mkSaved (transparent mat) (opacity mat) (depthWrite mat) (side mat).

Definition restoreMaterial (orig : Saved) (mat : Material) : Material :=
  mkMaterial (isMeshStandardMaterial mat) (savedSide orig) (savedTransparent orig)
             (savedOpacity orig) (savedDepthWrite orig) (color mat) (map mat) (normalMap mat)
             (emissive mat) (emissiveMap mat) (alphaMap mat) (roughness mat) (metalness mat).

(** The writes of the x-ray look. *)
Definition xray (mat : Material) : Material :=
  mkMaterial (isMeshStandardMaterial mat) DoubleSide (Some true) (Some 0.15) false
             (color mat) (map mat) (normalMap mat) (emissive mat) (emissiveMap mat)
             (alphaMap mat) (roughness mat) (metalness mat).

(** [for (let [mat, orig] of xrayState.originals) { ... }] *)
Definition restoreOriginals (originals : list (nat * Saved)) (heap : list Material)
  : list Material :=
  fold_left (fun heap e => updateAt (fst e) (restoreMaterial (snd e)) heap) originals heap.

Definition has (mat : nat) (originals : list (nat * Saved)) : bool :=
  existsb (fun e => Nat.eqb (fst e) mat) originals.

(** The body of [for (let mat of mats)]; a place outside the heap is
    the place of no object. *)
Definition xrayMaterial (acc : list Material * list (nat * Saved)) (mat : nat)
  : list Material * list (nat * Saved) :=
  let (heap, originals) := acc in
  match nth_error heap mat with
  | None => acc
  | Some m =>
      let originals := if has mat originals then originals else originals ++ [(mat, save m)] in
      (updateAt mat xray heap, originals)
  end.

Definition xrayNode (acc : list Material * list (nat * Saved)) (child : Node)
  : list Material * list (nat * Saved) :=
  if negb (isMesh child) || negb (hasMaterial (material child)) then acc
  else fold_left xrayMaterial (mats (material child)) acc.

Definition setXRayMode (enabled : bool) (s : Site) : Site :=
  let heap := restoreOriginals (originals (xrayState s)) (materials s) in
  let acc :=
    match threeObject s with
    | Some obj => if enabled then fold_left xrayNode (nodes obj) (heap, []) else (heap, [])
    | None => (heap, [])
    end in
  Render (set_xrayState (mkXRayState enabled (snd acc)) (set_materials (fst acc) s)).

(** *** The edge overlay *)

(** [rebuildEdges]: the old lines leave their parents and the list; with
    the overlay on and an object loaded every mesh with a geometry gets a
    new line. *)
Definition rebuildEdges (s : Site) : Site :=
  let es := edgeState s in
  let fresh :=
    match threeObject s with
    | Some obj =>
        if edgeEnabled es then
          fst (fold_left
                 (fun (acc : list EdgeLine * nat) (child : Node) =>
                    let (made, place) := acc in
                    if negb (isMesh child) || negb (hasGeometry child) then (made, S place)
                    else (made ++ [mkEdgeLine place (angle es) (edgeColor es) 0.8], S place))
                 (nodes obj) ([], O))
        else []
    | None => []
    end in
  set_edgeState (mkEdgeState (edgeEnabled es) fresh (angle es) (edgeColor es)) s.

Definition setEdgeMode (enabled : bool) (s : Site) : Site :=
  let es := edgeState s in
  if Bool.eqb enabled (edgeEnabled es) then s
  else Render (rebuildEdges
                 (set_edgeState (mkEdgeState enabled (lines es) (angle es) (edgeColor es)) s)).

Definition setEdgeAngle (angle' : R) (s : Site) : Site :=
  let es := edgeState s in
  let s := set_edgeState (mkEdgeState (edgeEnabled es) (lines es) angle' (edgeColor es)) s in
  if edgeEnabled es then Render (rebuildEdges s) else s.

Definition setEdgeColor (hexColor : Z) (s : Site) : Site :=
  let es := edgeState s in
  let s := set_edgeState (mkEdgeState (edgeEnabled es) (lines es) (angle es) hexColor) s in
  if edgeEnabled es then
    Render (set_edgeState
              (mkEdgeState (edgeEnabled es)
                           (List.map (fun l => mkEdgeLine (parent l) (thresholdAngle l) hexColor
                                                          (lineOpacity l)) (lines es))
                           (angle es) hexColor) s)
  else s.

(** *** [setModelRotation] and [resetModelRotation] *)

Definition setModelRotation (xDeg yDeg zDeg : R) (s : Site) : Site :=
  match threeObject s with
  | None => s
  | Some obj =>
      let s := match originalRotation s with
               | None => set_originalRotation (Some (rotation obj)) s
               | Some _ => s
               end in
      let r := mkEuler (xDeg * PI / 180) (yDeg * PI / 180) (zDeg * PI / 180) "XYZ" in
      Render (set_threeObject (Some (set_rotation r obj)) s)
  end.

Definition resetModelRotation (s : Site) : Site :=
  match threeObject s, originalRotation s with
  | Some obj, Some r =>
      Render (set_originalRotation None (set_threeObject (Some (set_rotation r obj)) s))
  | _, _ => s
  end.

(** *** The material swap of [exportCurrentModelToUSDZ] *)

Definition exportable (m : Material) : bool :=
  isMeshStandardMaterial m && negb (isDoubleSide (side m)).

(** [mats.some((m) => !m.isMeshStandardMaterial || m.side === THREE.DoubleSide)] *)
Definition needsConvert (heap : list Material) (ms : list nat) : bool :=
  existsb (fun m => match nth_error heap m with
                    | Some mat => negb (exportable mat)
                    | None => false
                    end) ms.

Definition orElse {A : Type} (a b : option A) : option A :=
  match a with Some _ => a | None => b end.

(** The material that the swap makes for [mat] out of [std], a
    [new THREE.MeshStandardMaterial()]. *)
Definition toStandard (std mat : Material) : Material :=
  mkMaterial (isMeshStandardMaterial std) FrontSide
             (orElse (transparent mat) (transparent std))
             (orElse (opacity mat) (opacity std))
             (depthWrite std)
             (orElse (color mat) (color std))
             (orElse (map mat) (map std))
             (orElse (normalMap mat) (normalMap std))
             (orElse (emissive mat) (emissive std))
             (orElse (emissiveMap mat) (emissiveMap std))
             (orElse (alphaMap mat) (alphaMap std))
             (orElse (roughness mat) (Some 0.7))
             (orElse (metalness mat) (Some 0))
.

(** [mats.map((mat) => ...)]: a material that can be exported stays, any
    other gets a new standard material, which joins the heap. *)
Definition convertMaterial (std : Material) (acc : list Material * list nat) (m : nat)
  : list Material * list nat :=
  let (heap, converted) := acc in
  match nth_error heap m with
  | Some mat =>
      if exportable mat then (heap, converted ++ [m])
      else (heap ++ [toStandard std mat], converted ++ [List.length heap])
  | None => (heap, converted ++ [m])
  end.

(** [originalMaterials], keyed by the place of the mesh among the nodes. *)
Definition Swaps : Type := list (nat * MeshMaterial).

(** The callback of the traversal, for the node at place [place]. *)
Definition convertNode (std : Material) (acc : list Node * list Material * Swaps)
    (child : Node) : list Node * list Material * Swaps :=
  let '(done, heap, swaps) := acc in
  if negb (isMesh child) || negb (hasMaterial (material child)) then (done ++ [child], heap, swaps)
  else if negb (needsConvert heap (mats (material child))) then (done ++ [child], heap, swaps)
  else
    let (heap', converted) :=
      fold_left (convertMaterial std) (mats (material child)) (heap, []) in
    let material' := match converted with
                     | [m] => OneMaterial m
                     | _ => MaterialArray converted
                     end in
    (done ++ [mkNode (isMesh child) (name child) (visible child) material'
                     (hasGeometry child)],
     heap', swaps ++ [(List.length done, material child)]).

(** [Box3.getCenter] *)
Definition getCenter (b : Box3) : Vec3 :=
  if isEmpty b then vec3 0 0 0
  else vec3 ((vx (bmin b) + vx (bmax b)) * 0.5) ((vy (bmin b) + vy (bmax b)) * 0.5)
            ((vz (bmin b) + vz (bmax b)) * 0.5).

(** What [restore] needs: [originalMaterials] and [originalPosition]. *)
Record Prepared : Type := mkPrepared {
  originalMaterials : Swaps;
  originalPosition : Vec3
}.

(** [exportCurrentModelToUSDZ] up to [parseAsync]: [None] is the
    rejection with 'No model loaded'. *)
Definition prepareUSDZ (std : Material) (s : Site) : option (Site * Prepared) :=
  match threeObject s with
  | None => None
  | Some obj =>
      let '(visited, heap, swaps) :=
        fold_left (convertNode std) (nodes obj) ([], materials s, []) in
      let center := getCenter (boundingBox obj) in
      let obj' := set_position (vsub (position obj) center) (set_nodes visited obj) in
      Some (set_materials heap (set_threeObject (Some obj') s),
            mkPrepared swaps (position obj))
  end.

Definition set_material (m : MeshMaterial) (n : Node) : Node :=
  mkNode (isMesh n) (name n) (visible n) m (hasGeometry n).

(** [restore()] *)
Definition restore (p : Prepared) (s : Site) : Site :=
  match threeObject s with
  | None => s
  | Some obj =>
      let visited :=
        fold_left (fun ns e => updateAt (fst e) (set_material (snd e)) ns)
                  (originalMaterials p) (nodes obj) in
      set_threeObject (Some (set_position (originalPosition p) (set_nodes visited obj))) s
  end.

(** *** Loading, and the calls of the host page *)

(** [LoadInputFiles] up to the import: [this.threeObject = null]. *)
Definition loadStart (s : Site) : Site := set_threeObject None s.

(** [onFinish]: the new object, whose materials join the heap. *)
Definition onFinish (obj : SceneObject) (mats : list Material) (s : Site) : Site :=
  set_threeObject (Some obj) (set_materials (materials s ++ mats) s).

Inductive Call : Type :=
| LoadStart
| Finish (obj : SceneObject) (mats : list Material)
| SetMeshVisibility (index : Z) (visible : bool)
| SetXRayMode (enabled : bool)
| SetEdgeMode (enabled : bool)
| SetEdgeAngle (angle : R)
| SetEdgeColor (hexColor : Z)
| SetModelRotation (xDeg yDeg zDeg : R)
| ResetModelRotation.

Definition call (s : Site) (c : Call) : Site :=
  match c with
  | LoadStart => loadStart s
  | Finish obj mats => onFinish obj mats s
  | SetMeshVisibility index visible => setMeshVisibility index visible s
  | SetXRayMode enabled => setXRayMode enabled s
  | SetEdgeMode enabled => setEdgeMode enabled s
  | SetEdgeAngle angle => setEdgeAngle angle s
  | SetEdgeColor hexColor => setEdgeColor hexColor s
  | SetModelRotation xDeg yDeg zDeg => setModelRotation xDeg yDeg zDeg s
  | ResetModelRotation => resetModelRotation s
  end.

(** The state when [RegisterBridgeFunctions] returns. *)
Definition initialSite : Site :=
  mkSite None [] (mkXRayState false []) (mkEdgeState false [] 15 16777215) None O.

(** The sites that calls of the host page can reach. *)
Definition reachableSite (s : Site) : Prop :=
  exists cs : list Call, fold_left call cs initialSite = s.

(** The number of meshes among the first [k] nodes: the index that the
    traversals count for the node at place [k]. *)
Definition meshRank (ns : list Node) (k : nat) : nat :=
  List.length (filter isMesh (firstn k ns)).

(** The materials of the meshes of an object, as the traversals meet
    them. *)
Definition meshMaterials (ns : list Node) : list nat :=
  flat_map (fun n => if isMesh n then mats (material n) else []) ns.

Definition memb (m : nat) (l : list nat) : bool := existsb (Nat.eqb m) l.

(** The places, counted from [place], of the nodes that satisfy [P]. *)
Fixpoint placesOf (P : Node -> bool) (place : nat) (ns : list Node) : list nat :=
  match ns with
  | [] => []
  | n :: ns' => if P n then place :: placesOf P (S place) ns' else placesOf P (S place) ns'
  end.

(** The x-ray look. *)
Definition isXRay (m : Material) : Prop :=
  transparent m = Some true /\ opacity m = Some 0.15 /\ depthWrite m = false /\
  side m = DoubleSide.

End MeshTools.

(* ================================================================== *)
(** * Theorems *)

Section MathFacts.

Lemma ln10_pos : 0 < ln 10.
Proof.
  rewrite <- ln_1. apply ln_increasing; lra.
Qed.

Lemma Rpower10_pos (e : R) : 0 < Rpower 10 e.
Proof. unfold Rpower. apply exp_pos. Qed.

(** [10 ^ floor(log10 x) <= x < 10 * 10 ^ floor(log10 x)] *)
Lemma mag_bounds (x : R) :
  0 < x ->
  let mag := Rpower 10 (IZR (Zfloor (ln x / ln 10))) in
  mag <= x < 10 * mag.
Proof.
  intros Hx mag.
  pose proof ln10_pos as H10.
  destruct (Zfloor_bound (ln x / ln 10)) as [Hlo Hhi].
  set (k := IZR (Zfloor (ln x / ln 10))) in *.
  assert (Hk1 : k * ln 10 <= ln x).
  { apply Rmult_le_reg_r with (/ ln 10).
    - apply Rinv_0_lt_compat; exact H10.
    - rewrite Rmult_assoc, Rinv_r by lra. unfold Rdiv in Hlo. lra. }
  assert (Hk2 : ln x < (k + 1) * ln 10).
  { apply Rmult_lt_reg_r with (/ ln 10).
    - apply Rinv_0_lt_compat; exact H10.
    - rewrite Rmult_assoc, Rinv_r by lra. unfold Rdiv in Hhi. lra. }
  split.
  - unfold mag, Rpower.
    apply Rle_trans with (exp (ln x)); [| rewrite exp_ln; lra].
    destruct Hk1 as [Hlt | Heq].
    + left. apply exp_increasing. exact Hlt.
    + right. rewrite Heq. reflexivity.
  - replace (10 * mag) with (Rpower 10 (k + 1)).
    + unfold Rpower.
      apply Rle_lt_trans with (exp (ln x)); [rewrite exp_ln; lra |].
      apply exp_increasing. exact Hk2.
    + unfold mag. rewrite Rpower_plus, Rpower_1 by lra. lra.
Qed.

(** The floor of the decimal logarithm is determined by the decade. *)
Lemma floor_log10_decade (x : R) (k : Z) :
  Rpower 10 (IZR k) <= x < 10 * Rpower 10 (IZR k) ->
  Zfloor (ln x / ln 10) = k.
Proof.
  intros [Hlo Hhi].
  pose proof ln10_pos as H10.
  pose proof (Rpower10_pos (IZR k)) as Hp.
  assert (Hx : 0 < x) by lra.
  apply Zfloor_eq.
  assert (Hl : ln (Rpower 10 (IZR k)) = IZR k * ln 10) by apply ln_Rpower.
  split.
  - apply Rmult_le_reg_r with (ln 10); [exact H10|].
    unfold Rdiv. rewrite Rmult_assoc, Rinv_l by lra. rewrite Rmult_1_r.
    rewrite <- Hl.
    destruct Hlo as [Hlt | Heq].
    + left. apply ln_increasing; assumption.
    + right. rewrite Heq. reflexivity.
  - apply Rmult_lt_reg_r with (ln 10); [exact H10|].
    unfold Rdiv. rewrite Rmult_assoc, Rinv_l by lra. rewrite Rmult_1_r.
    replace ((IZR k + 1) * ln 10) with (ln (10 * Rpower 10 (IZR k))).
    + apply ln_increasing; assumption.
    + rewrite ln_mult by lra. rewrite Hl. lra.
Qed.

(** The floor of a quotient by a positive number. *)
Lemma floor_quotient (a b : R) (k : Z) :
  0 < b -> IZR k * b <= a < (IZR k + 1) * b -> Zfloor (a / b) = k.
Proof.
  intros Hb [Hlo Hhi]. apply Zfloor_eq. split.
  - apply Rmult_le_reg_r with b; [exact Hb |].
    replace (a / b * b) with a by (field; lra). exact Hlo.
  - apply Rmult_lt_reg_r with b; [exact Hb |].
    replace (a / b * b) with a by (field; lra). exact Hhi.
Qed.

End MathFacts.

Section TickStepPlanner.

Lemma div_ok (a b : R) : b <> 0 -> div a b = Ok (a / b).
Proof.
  intros Hb. unfold div. destruct (Req_dec_T b 0) as [E | _]; [contradiction | reflexivity].
Qed.

Lemma Math_log10_ok (x : R) : 0 < x -> Math_log10 x = Ok (ln x / ln 10).
Proof.
  intros Hx. unfold Math_log10. destruct (Rlt_dec 0 x) as [_ | N]; [reflexivity | contradiction].
Qed.

Lemma or10_pos (d : R) : 0 < d -> or10 d = d.
Proof.
  intros Hd. unfold or10. destruct (Req_dec_T d 0); [lra | reflexivity].
Qed.

(** [niceStep] never faults on a positive length and a positive division
    count, and its value is the snapped multiplier times the decade of
    [length / divisions]. *)
Lemma niceStep_ok (L D : R) :
  0 < L -> 0 < D ->
  let mag := Rpower 10 (IZR (Zfloor (ln (L / D) / ln 10))) in
  niceStep L D = Ok (nice (L / D / mag) * mag).
Proof.
  intros HL HD mag.
  assert (Hr : 0 < L / D) by (apply Rdiv_lt_0_compat; assumption).
  unfold niceStep.
  rewrite (or10_pos D HD), div_ok by lra. cbn [bind].
  rewrite (Math_log10_ok _ Hr). cbn [bind].
  unfold Math_pow, Math_floor. fold mag.
  rewrite div_ok by (pose proof (Rpower10_pos (IZR (Zfloor (ln (L / D) / ln 10)))); unfold mag; lra).
  reflexivity.
Qed.

(** Evaluation of [niceStep] from the decade of the rough spacing. *)
Lemma niceStep_decade (L D : R) (k : Z) :
  0 < D ->
  Rpower 10 (IZR k) <= L / D < 10 * Rpower 10 (IZR k) ->
  niceStep L D = Ok (nice (L / D / Rpower 10 (IZR k)) * Rpower 10 (IZR k)).
Proof.
  intros HD Hdec.
  pose proof (Rpower10_pos (IZR k)) as Hp.
  assert (HL : 0 < L).
  { assert (Hq : 0 < L / D) by lra.
    replace L with (L / D * D) by (field; lra).
    apply Rmult_lt_0_compat; assumption. }
  rewrite (niceStep_ok L D HL HD).
  rewrite (floor_log10_decade _ _ Hdec). reflexivity.
Qed.

Lemma nice_values (r : R) : nice r = 1 \/ nice r = 2 \/ nice r = 5 \/ nice r = 10.
Proof.
  unfold nice.
  destruct (Rle_dec r 1.5); [auto |].
  destruct (Rle_dec r 3.5); [auto |].
  destruct (Rle_dec r 7.5); auto.
Qed.

(** The snapped multiplier stays within a factor of the residual. *)
Lemma nice_ratio (r : R) :
  1 <= r < 10 -> 0.7 * nice r < r <= 1.75 * nice r.
Proof.
  intros Hr. unfold nice.
  destruct (Rle_dec r 1.5); [lra |].
  destruct (Rle_dec r 3.5); [lra |].
  destruct (Rle_dec r 7.5); lra.
Qed.

Lemma targetDivs_ok (L F : R) :
  0 < F ->
  targetDivs L F = Ok (Rmin 10 (Rmax 2 (IZR (Zfloor (L / (F * 1.5)))))).
Proof.
  intros HF. unfold targetDivs, maxLabels.
  rewrite div_ok by lra. reflexivity.
Qed.

Lemma targetDivs_range (x : R) : 2 <= Rmin 10 (Rmax 2 x) <= 10.
Proof.
  unfold Rmin, Rmax.
  destruct (Rle_dec 2 x); destruct (Rle_dec 10 _); lra.
Qed.

End TickStepPlanner.

Section PlannedStep.

(** C4, the counterexample: an axis of length 15 that is the longest
    side of its box (label footprint [15 * 0.055 * 0.35 * 3 = 0.86625])
    gets [targetDivs = 10] and step 1, hence 15 divisions. *)
Lemma plannedStep_count_counterexample :
  0 < 15 /\ 0 < 0.86625 /\
  plannedStep 15 0.86625 = Ok 1 /\ ~ (2 <= 15 / 1 <= 10).
Proof.
  split; [lra |]. split; [lra |]. split; [| lra].
  unfold plannedStep. rewrite targetDivs_ok by lra. cbn [bind].
  assert (Hf : Zfloor (15 / (0.86625 * 1.5)) = 11%Z).
  { apply floor_quotient; lra. }
  rewrite Hf.
  assert (HD : Rmin 10 (Rmax 2 11) = 10).
  { unfold Rmin, Rmax. destruct (Rle_dec 2 11); destruct (Rle_dec 10 _); lra. }
  rewrite HD.
  assert (H0 : Rpower 10 0 = 1) by (apply Rpower_O; lra).
  rewrite (niceStep_decade 15 10 0%Z) by (rewrite ?H0; lra).
  rewrite H0. f_equal.
  unfold nice. destruct (Rle_dec (15 / 10 / 1) 1.5); lra.
Qed.

(** C4, as amended: the planned step is [m * 10^k] with [m] in {1, 2, 5},
    and the division count [L / step] lies between 0.7 and 1.75 times
    [targetDivs], hence in (1.4, 17.5]. *)
Theorem plannedStep_form_and_count (L F : R) :
  0 < L -> 0 < F ->
  exists (D step m : R) (k : Z),
    targetDivs L F = Ok D /\ plannedStep L F = Ok step /\
    2 <= D <= 10 /\
    (m = 1 \/ m = 2 \/ m = 5) /\ step = m * Rpower 10 (IZR k) /\
    0.7 * D < L / step <= 1.75 * D /\
    1.4 < L / step <= 17.5.
Proof.
  intros HL HF.
  set (D := Rmin 10 (Rmax 2 (IZR (Zfloor (L / (F * 1.5)))))).
  pose proof (targetDivs_range (IZR (Zfloor (L / (F * 1.5))))) as HD. fold D in HD.
  set (k0 := Zfloor (ln (L / D) / ln 10)).
  set (mag := Rpower 10 (IZR k0)).
  assert (Hr : 0 < L / D) by (apply Rdiv_lt_0_compat; lra).
  pose proof (mag_bounds (L / D) Hr) as Hm. cbv zeta in Hm. fold k0 in Hm. fold mag in Hm.
  pose proof (Rpower10_pos (IZR k0)) as Hmag. fold mag in Hmag.
  set (r := L / D / mag).
  assert (Hres : 1 <= r < 10).
  { unfold r. split.
    - apply Rmult_le_reg_r with mag; [exact Hmag |].
      unfold Rdiv at 1. rewrite Rmult_assoc, Rinv_l by lra. lra.
    - apply Rmult_lt_reg_r with mag; [exact Hmag |].
      unfold Rdiv at 1. rewrite Rmult_assoc, Rinv_l by lra. lra. }
  pose proof (nice_ratio r Hres) as Hq.
  assert (Hn : 0 < nice r) by (destruct (nice_values r) as [E | [E | [E | E]]]; rewrite E; lra).
  assert (Hstep : plannedStep L F = Ok (nice r * mag)).
  { unfold plannedStep. rewrite targetDivs_ok by exact HF. cbn [bind]. fold D.
    rewrite niceStep_ok by lra. reflexivity. }
  assert (Hcount : L / (nice r * mag) = D * (r / nice r)).
  { generalize (nice r) Hn. intros n Hn'. unfold r. field. lra. }
  assert (Hq' : 0.7 < r / nice r <= 1.75).
  { split.
    - apply Rmult_lt_reg_r with (nice r); [exact Hn |].
      unfold Rdiv. rewrite Rmult_assoc, Rinv_l by lra. lra.
    - apply Rmult_le_reg_r with (nice r); [exact Hn |].
      unfold Rdiv. rewrite Rmult_assoc, Rinv_l by lra. lra. }
  assert (Hbounds : 0.7 * D < L / (nice r * mag) <= 1.75 * D /\
                    1.4 < L / (nice r * mag) <= 17.5).
  { rewrite Hcount. set (q := r / nice r) in *. clearbody q. nra. }
  destruct (nice_values r) as [E | [E | [E | E]]].
  - exists D, (nice r * mag), 1, k0.
    split; [apply targetDivs_ok; exact HF |].
    split; [exact Hstep |]. split; [exact HD |].
    split; [auto |]. split; [rewrite E; reflexivity |]. exact Hbounds.
  - exists D, (nice r * mag), 2, k0.
    split; [apply targetDivs_ok; exact HF |].
    split; [exact Hstep |]. split; [exact HD |].
    split; [auto |]. split; [rewrite E; reflexivity |]. exact Hbounds.
  - exists D, (nice r * mag), 5, k0.
    split; [apply targetDivs_ok; exact HF |].
    split; [exact Hstep |]. split; [exact HD |].
    split; [auto |]. split; [rewrite E; reflexivity |]. exact Hbounds.
  - exists D, (nice r * mag), 1, (k0 + 1)%Z.
    split; [apply targetDivs_ok; exact HF |].
    split; [exact Hstep |]. split; [exact HD |].
    split; [auto |]. split; [| exact Hbounds].
    rewrite E, plus_IZR, Rpower_plus, Rpower_1 by lra. unfold mag. lra.
Qed.

(** An instance of [plannedStep_form_and_count]. *)
Lemma plannedStep_form_and_count_witness :
  exists (D step m : R) (k : Z),
    targetDivs 10 1 = Ok D /\ plannedStep 10 1 = Ok step /\
    2 <= D <= 10 /\
    (m = 1 \/ m = 2 \/ m = 5) /\ step = m * Rpower 10 (IZR k) /\
    0.7 * D < 10 / step <= 1.75 * D /\
    1.4 < 10 / step <= 17.5.
Proof.
  apply (plannedStep_form_and_count 10 1); lra.
Defined.

End PlannedStep.

Section CameraFrames.

Lemma sumsq_nonneg (a b c : R) : 0 <= a * a + b * b + c * c.
Proof. nra. Qed.

Lemma sqrt_pos_inv (x : R) : 0 < sqrt x -> 0 < x.
Proof.
  intros H. destruct (Rle_or_lt x 0) as [Hx | Hx]; [| exact Hx].
  rewrite (sqrt_neg_0 x Hx) in H. lra.
Qed.

(** A vector divided by its length and multiplied by [r] has length [r]. *)
Lemma vlength_rescaled (d : Vec3) (r : R) :
  0 < vlength d -> 0 <= r ->
  vlength (vec3 (vx d / vlength d * r) (vy d / vlength d * r) (vz d / vlength d * r)) = r.
Proof.
  intros Hl Hr. unfold vlength, Math_sqrt in *. cbn [vx vy vz].
  set (S := vx d * vx d + vy d * vy d + vz d * vz d) in *.
  assert (HS : 0 < S) by (apply sqrt_pos_inv; exact Hl).
  assert (Hsq : sqrt S * sqrt S = S) by (apply sqrt_sqrt; lra).
  replace (vx d / sqrt S * r * (vx d / sqrt S * r) + vy d / sqrt S * r * (vy d / sqrt S * r)
           + vz d / sqrt S * r * (vz d / sqrt S * r))
    with (r * r).
  - apply sqrt_square. exact Hr.
  - transitivity (S / (sqrt S * sqrt S) * (r * r)).
    + rewrite Hsq. field. apply Rgt_not_eq. exact HS.
    + unfold S. field. apply Rgt_not_eq. exact Hl.
Qed.

Lemma eyeDistance_nonneg (c : Camera) : 0 <= eyeDistance c.
Proof. unfold eyeDistance, Math_sqrt. apply sqrt_pos. Qed.


Lemma frameUp_unit (tr : Transition) (now : R) :
  vlength (lerp (startUp tr) (upVec tr) (eased (rawProgress tr now))) > 0 ->
  vlength (frameUp tr now) = 1.
Proof.
  intros Hu. unfold frameUp.
  set (u := lerp _ _ _) in *.
  destruct (Rgt_dec (vlength u) 0) as [_ | N]; [| contradiction].
  transitivity (vlength (vec3 (vx u / vlength u * 1) (vy u / vlength u * 1)
                              (vz u / vlength u * 1)));
    [| apply vlength_rescaled; lra].
  f_equal. f_equal; ring.
Qed.

End CameraFrames.

Ltac overlay_step :=
  unfold overlayOnly; cbn; repeat split; reflexivity.

Section RulerBuild.

Lemma extends_refl (a : Build) : extends a a.
Proof.
  exists [], []. rewrite !app_nil_r. destruct a; reflexivity.
Qed.

Lemma extends_trans (a b c : Build) : extends a b -> extends b c -> extends a c.
Proof.
  intros [e1 [e2 ->]] [f1 [f2 ->]]. cbn [fst snd].
  exists (e1 ++ f1), (e2 ++ f2). rewrite !app_assoc. reflexivity.
Qed.

Lemma extends_app (a : Build) (e1 : list Child) (e2 : list TickEntry) :
  extends a (fst a ++ e1, snd a ++ e2).
Proof. exists e1, e2. reflexivity. Qed.

(** A turn of the tick loop never faults when [step] is not zero, and
    only appends. *)
Lemma tickBody_ok (start dir tickDir labelOffsetDir : Vec3)
    (majorLen minorLen labelOffset numScale length step d : R) (acc : Build) :
  step <> 0 ->
  exists acc', tickBody start dir tickDir labelOffsetDir majorLen minorLen labelOffset
                        numScale length step d acc = Ok acc' /\ extends acc acc'.
Proof.
  intros Hs. unfold tickBody.
  destruct (Rlt_dec d (-1e-10)); [exists acc; split; [reflexivity | apply extends_refl] |].
  rewrite div_ok by exact Hs. cbn [bind].
  destruct (Rlt_dec (Math_min d length) (step * 0.05));
    [exists acc; split; [reflexivity | apply extends_refl] |].
  destruct (Rgt_dec (Math_min d length) (length - step * 0.05));
    [exists acc; split; [reflexivity | apply extends_refl] |].
  destruct (Rlt_dec _ (step * 0.01)).
  - eexists. split; [reflexivity |].
    rewrite <- app_assoc. apply extends_app.
  - eexists. split; [reflexivity |].
    exists [Line (addScaledVector (addScaledVector start dir (Math_min d length)) tickDir (- minorLen))
                 (addScaledVector (addScaledVector start dir (Math_min d length)) tickDir minorLen)], [].
    rewrite app_nil_r. reflexivity.
Qed.

(** The walk reaches its exit test within the fuel when the step of the
    walk is positive. *)
Lemma tickWalk_ok (body : R -> Build -> result Build) (bound tickStep : R) :
  0 < tickStep ->
  (forall d acc, exists acc', body d acc = Ok acc' /\ extends acc acc') ->
  forall (fuel : nat) (d : R) (acc : Build),
    (1 <= fuel)%nat ->
    (bound - d) / tickStep < INR fuel - 1 ->
    exists acc', tickWalk fuel body bound tickStep d acc = Ok acc' /\ extends acc acc'.
Proof.
  intros Hts Hbody. induction fuel as [| fuel IH]; intros d acc Hf Hlt; [lia |].
  cbn [tickWalk].
  destruct (Rle_dec d bound) as [Hd | Hd].
  - destruct (Hbody d acc) as [acc1 [E1 X1]]. rewrite E1. cbn [bind].
    assert (Hq : 0 <= (bound - d) / tickStep).
    { apply Rmult_le_pos; [lra |]. left. apply Rinv_0_lt_compat. exact Hts. }
    rewrite S_INR in Hlt.
    assert (Hfuel : (1 <= fuel)%nat).
    { destruct fuel; [cbn in Hlt; lra | lia]. }
    destruct (IH (d + tickStep) acc1 Hfuel) as [acc2 [E2 X2]].
    + replace ((bound - (d + tickStep)) / tickStep) with ((bound - d) / tickStep - 1)
        by (field; lra).
      lra.
    + exists acc2. split; [exact E2 | exact (extends_trans _ _ _ X1 X2)].
  - exists acc. split; [reflexivity | apply extends_refl].
Qed.

Lemma walkFuel_enough (bound tickStep : R) :
  (1 <= walkFuel bound tickStep)%nat /\
  (bound - 0) / tickStep < INR (walkFuel bound tickStep) - 1.
Proof.
  unfold walkFuel. split; [lia |].
  rewrite plus_INR. cbn [INR].
  destruct (Zfloor_bound (bound / tickStep)) as [_ Hhi].
  rewrite Rminus_0_r.
  assert (Hz : IZR (Zfloor (bound / tickStep)) <= INR (Z.to_nat (Zfloor (bound / tickStep)))).
  { rewrite INR_IZR_INZ. apply IZR_le. lia. }
  lra.
Qed.

(** [addGraduatedTicks] does not fault provided the sprite scale is
    positive whenever the axis is long enough to get ticks. *)
Lemma addGraduatedTicks_ok (group : list Child) (ticks : list TickEntry)
    (start end_ tickDir labelOffsetDir : Vec3)
    (majorLen minorLen labelOffset spriteScale : R) :
  (1e-10 <= vlength (subVectors end_ start) -> 0 < spriteScale) ->
  exists acc', addGraduatedTicks group ticks start end_ tickDir labelOffsetDir
                                 majorLen minorLen labelOffset spriteScale = Ok acc'
               /\ extends (group, ticks) acc'.
Proof.
  intros Hscale. unfold addGraduatedTicks.
  set (L := vlength (subVectors end_ start)) in *.
  destruct (Rlt_dec L 1e-10) as [Hdeg | Hlen];
    [exists (group, ticks); split; [reflexivity | apply extends_refl] |].
  assert (HL : 0 < L) by lra.
  assert (Hsc : 0 < spriteScale) by (apply Hscale; lra).
  rewrite targetDivs_ok by lra. cbn [bind].
  set (D := Rmin 10 _).
  assert (HD : 2 <= D <= 10) by apply targetDivs_range.
  rewrite niceStep_ok by lra. cbn [bind].
  set (step := nice _ * _).
  assert (Hstep : 0 < step).
  { unfold step. apply Rmult_lt_0_compat; [| apply Rpower10_pos].
    destruct (nice_values (L / D / Rpower 10 (IZR (Zfloor (ln (L / D) / ln 10)))))
      as [E | [E | [E | E]]]; rewrite E; lra. }
  set (tickStep := if (if Rgt_dec (step / 2) _ then true else false) then step / 2 else step).
  assert (Hts : 0 < tickStep).
  { unfold tickStep. destruct (Rgt_dec (step / 2) _); lra. }
  destruct (walkFuel_enough (L + step * 0.001) tickStep) as [Hf1 Hf2].
  match goal with
  | |- context [tickWalk ?f ?b ?bd ?ts 0 ?a] =>
      destruct (tickWalk_ok b bd ts Hts
                  (fun d acc => tickBody_ok _ _ _ _ _ _ _ _ _ _ d acc (Rgt_not_eq _ _ Hstep))
                  f 0 a Hf1 Hf2) as [acc1 [E1 X1]]
  end.
  rewrite E1. cbn [bind].
  eexists. split; [reflexivity |].
  eapply extends_trans; [| apply extends_app].
  eapply extends_trans; [| exact X1].
  apply (extends_app (group, ticks)).
Qed.

Lemma addGraduatedTicks_degenerate (group : list Child) (ticks : list TickEntry)
    (start end_ tickDir labelOffsetDir : Vec3)
    (majorLen minorLen labelOffset spriteScale : R) :
  vlength (subVectors end_ start) < 1e-10 ->
  addGraduatedTicks group ticks start end_ tickDir labelOffsetDir
                    majorLen minorLen labelOffset spriteScale = Ok (group, ticks).
Proof.
  intros Hdeg. unfold addGraduatedTicks.
  destruct (Rlt_dec _ 1e-10); [reflexivity | contradiction].
Qed.

Lemma nth_error_snoc {A : Type} (l : list A) (x : A) :
  nth_error (l ++ [x]) (List.length l) = Some x.
Proof.
  rewrite nth_error_app2 by lia. rewrite Nat.sub_diag. reflexivity.
Qed.

Lemma isLabel_app (g e : list Child) (h : nat) : isLabel g h -> isLabel (g ++ e) h.
Proof.
  intros [s Hs]. exists s. rewrite nth_error_app1; [exact Hs |].
  apply nth_error_Some. rewrite Hs. discriminate.
Qed.

(** The shared part of an axis block: no fault, children only appended,
    and the dimension label is created and is where the handle says. *)
Lemma axisRuler_ok (startP endP tickVec tickDir labelDir labelShift : Vec3)
    (sizeText : string) (majorTick minorTick endTick spriteScale : R) (acc : Build) :
  (1e-10 <= vlength (subVectors endP startP) -> 0 < spriteScale) ->
  exists (b : Build) (h : nat),
    axisRuler startP endP tickVec tickDir labelDir labelShift sizeText
              majorTick minorTick endTick spriteScale acc = Ok (b, h)
    /\ extends acc b
    /\ nth_error (fst b) h
       = Some (Label (mkSprite sizeText (vadd (lerp startP endP 0.5) labelShift)
                               spriteScale 1)).
Proof.
  intros Hscale. unfold axisRuler.
  match goal with
  | |- context [addGraduatedTicks ?g ?t ?s ?e ?td ?ld ?ma ?mi ?lo ?sc] =>
      destruct (addGraduatedTicks_ok g t s e td ld ma mi lo sc Hscale) as [acc1 [E1 X1]]
  end.
  rewrite E1. cbn [bind].
  eexists. eexists. split; [reflexivity |]. split.
  - cbn [fst snd].
    destruct X1 as [e1 [e2 ->]]. cbn [fst snd].
    exists ([Line startP endP; Line (vsub startP tickVec) (vadd startP tickVec);
             Line (vsub endP tickVec) (vadd endP tickVec)] ++ e1
            ++ [Label (mkSprite sizeText (vadd (lerp startP endP 0.5) labelShift) spriteScale 1)]),
           e2.
    rewrite <- !app_assoc. reflexivity.
  - cbn [fst]. apply nth_error_snoc.
Qed.

(** A degenerate axis gets its line, its two end ticks and its
    dimension label, and nothing from [addGraduatedTicks]. *)
Lemma axisRuler_degenerate (startP endP tickVec tickDir labelDir labelShift : Vec3)
    (sizeText : string) (majorTick minorTick endTick spriteScale : R) (acc : Build) :
  vlength (subVectors endP startP) < 1e-10 ->
  axisRuler startP endP tickVec tickDir labelDir labelShift sizeText
            majorTick minorTick endTick spriteScale acc
  = Ok ((fst acc ++ [Line startP endP;
                     Line (vsub startP tickVec) (vadd startP tickVec);
                     Line (vsub endP tickVec) (vadd endP tickVec);
                     Label (mkSprite sizeText (vadd (lerp startP endP 0.5) labelShift)
                                     spriteScale 1)],
         snd acc),
        (List.length (fst acc) + 3)%nat).
Proof.
  intros Hdeg. unfold axisRuler.
  rewrite addGraduatedTicks_degenerate by exact Hdeg. cbn [bind fst snd].
  rewrite <- !app_assoc. rewrite !length_app. reflexivity.
Qed.

Lemma vlength_along_x (a b y z : R) :
  vlength (subVectors (vec3 a y z) (vec3 b y z)) = Rabs (a - b).
Proof.
  unfold vlength, subVectors, Math_sqrt. cbn [vx vy vz].
  replace ((a - b) * (a - b) + (y - y) * (y - y) + (z - z) * (z - z)) with (Rsqr (a - b))
    by (unfold Rsqr; ring).
  apply sqrt_Rsqr_abs.
Qed.

Lemma vlength_along_y (x a b z : R) :
  vlength (subVectors (vec3 x a z) (vec3 x b z)) = Rabs (a - b).
Proof.
  unfold vlength, subVectors, Math_sqrt. cbn [vx vy vz].
  replace ((x - x) * (x - x) + (a - b) * (a - b) + (z - z) * (z - z)) with (Rsqr (a - b))
    by (unfold Rsqr; ring).
  apply sqrt_Rsqr_abs.
Qed.

Lemma vlength_along_z (x y a b : R) :
  vlength (subVectors (vec3 x y a) (vec3 x y b)) = Rabs (a - b).
Proof.
  unfold vlength, subVectors, Math_sqrt. cbn [vx vy vz].
  replace ((x - x) * (x - x) + (y - y) * (y - y) + (a - b) * (a - b)) with (Rsqr (a - b))
    by (unfold Rsqr; ring).
  apply sqrt_Rsqr_abs.
Qed.

Lemma getSize_nonneg (b : Box3) :
  0 <= vx (getSize b) /\ 0 <= vy (getSize b) /\ 0 <= vz (getSize b).
Proof.
  unfold getSize, isEmpty.
  destruct (Rlt_dec (vx (bmax b)) (vx (bmin b))); [cbn; lra |].
  destruct (Rlt_dec (vy (bmax b)) (vy (bmin b))); [cbn; lra |].
  destruct (Rlt_dec (vz (bmax b)) (vz (bmin b))); [cbn; lra |].
  cbn. lra.
Qed.

Lemma max3_ge (a b c : R) : a <= max3 a b c /\ b <= max3 a b c /\ c <= max3 a b c.
Proof.
  unfold max3, Math_max, Rmax.
  destruct (Rle_dec a b); destruct (Rle_dec _ c); lra.
Qed.

Lemma overlayOnly_refl (st : State) : overlayOnly st st.
Proof. unfold overlayOnly. repeat split. Qed.

Lemma overlayOnly_trans (a b c : State) :
  overlayOnly a b -> overlayOnly b c -> overlayOnly a c.
Proof.
  unfold overlayOnly. intros H1 H2.
  repeat match goal with H : _ /\ _ |- _ => destruct H end.
  repeat split; congruence.
Qed.

Lemma overlayOnly_fadeRuler (f : R) (st : State) : overlayOnly st (fadeRuler f st).
Proof. overlay_step. Qed.

Lemma overlayOnly_updateGroup (h : nat) (f : Sprite -> Sprite) (st : State) :
  overlayOnly st (updateGroup h f st).
Proof. unfold updateGroup. destruct (rulerGroup st); overlay_step. Qed.

Lemma isLabel_updateChild (i h : nat) (f : Sprite -> Sprite) (l : list Child) :
  isLabel l h -> isLabel (updateChild i f l) h.
Proof.
  revert i h. induction l as [| c l IH]; intros i h [s Hs].
  - destruct h; discriminate.
  - destruct i as [| i]; cbn [updateChild].
    + destruct h as [| h]; cbn in *.
      * injection Hs as ->. eexists. reflexivity.
      * exists s. exact Hs.
    + destruct h as [| h]; cbn in *.
      * exists s. exact Hs.
      * apply IH. exists s. exact Hs.
Qed.

(** Relabelling keeps the overlay in place: same handles, still labels. *)
Lemma updateGroup_keeps (h : nat) (f : Sprite -> Sprite) (st : State) :
  rulerLabelSprites (updateGroup h f st) = rulerLabelSprites st /\
  rulerTickSprites (updateGroup h f st) = rulerTickSprites st /\
  viewerCalls (updateGroup h f st) = viewerCalls st /\
  (labelsPresent st -> labelsPresent (updateGroup h f st)).
Proof.
  unfold updateGroup.
  destruct (rulerGroup st) as [g |] eqn:Hg; [| tauto].
  cbn. repeat split.
  intros [g0 [hx [hy [hz [E [L [Ix [Iy Iz]]]]]]]].
  rewrite Hg in E. injection E as <-.
  exists (mkGroup (lineOpacity g) (updateChild h f (children g))), hx, hy, hz.
  cbn. repeat split; try assumption; apply isLabel_updateChild; assumption.
Qed.

Lemma updateSpriteText_keeps (h : option nat) (text : string) (st : State) :
  overlayOnly st (updateSpriteText h text st) /\
  rulerLabelSprites (updateSpriteText h text st) = rulerLabelSprites st /\
  rulerTickSprites (updateSpriteText h text st) = rulerTickSprites st /\
  viewerCalls (updateSpriteText h text st) = viewerCalls st /\
  (labelsPresent st -> labelsPresent (updateSpriteText h text st)).
Proof.
  unfold updateSpriteText. destruct h as [i |].
  - split; [apply overlayOnly_updateGroup | apply updateGroup_keeps].
  - split; [apply overlayOnly_refl | tauto].
Qed.

Lemma relabelTicks_keeps (u : R) (entries : list TickEntry) (st : State) :
  let st' := fold_left (fun st entry =>
                          updateTickSpriteText (sprite entry)
                            (formatTickNum (rawValue entry * u)) (baseScale entry) st)
                       entries st in
  overlayOnly st st' /\
  rulerLabelSprites st' = rulerLabelSprites st /\
  viewerCalls st' = viewerCalls st /\
  (labelsPresent st -> labelsPresent st').
Proof.
  revert st. induction entries as [| e es IH]; intros st; cbn [fold_left].
  - split; [apply overlayOnly_refl | tauto].
  - cbv zeta in IH.
    set (st1 := updateTickSpriteText (sprite e) (formatTickNum (rawValue e * u)) (baseScale e) st).
    destruct (IH st1) as [O1 [L1 [V1 P1]]].
    assert (O0 : overlayOnly st st1) by apply overlayOnly_updateGroup.
    destruct (updateGroup_keeps (sprite e)
                (fun s => mkSprite (formatTickNum (rawValue e * u)) (spritePosition s)
                                   (baseScale e) (spriteOpacity s)) st) as [L0 [_ [V0 P0]]].
    fold (updateTickSpriteText (sprite e) (formatTickNum (rawValue e * u)) (baseScale e) st)
      in L0, V0, P0.
    fold st1 in L0, V0, P0.
    split; [exact (overlayOnly_trans _ _ _ O0 O1) |].
    split; [congruence |]. split; [congruence | tauto].
Qed.

Lemma updateRulerLabels_keeps (w h d : string) (u : option R) (st : State) :
  overlayOnly st (updateRulerLabels w h d u st) /\
  viewerCalls (updateRulerLabels w h d u st) = viewerCalls st ++ [Render] /\
  (labelsPresent st -> labelsPresent (updateRulerLabels w h d u st)).
Proof.
  unfold updateRulerLabels.
  set (st0 := set_lastRulerLabels _ st).
  assert (O0 : overlayOnly st st0) by overlay_step.
  assert (V0 : viewerCalls st0 = viewerCalls st) by reflexivity.
  assert (P0 : labelsPresent st -> labelsPresent st0) by (intros H; exact H).
  destruct (updateSpriteText_keeps (labelX (rulerLabelSprites st0)) w st0) as [O1 [L1 [_ [V1 P1]]]].
  set (st1 := updateSpriteText (labelX (rulerLabelSprites st0)) w st0) in *.
  destruct (updateSpriteText_keeps (labelY (rulerLabelSprites st1)) h st1) as [O2 [L2 [_ [V2 P2]]]].
  set (st2 := updateSpriteText (labelY (rulerLabelSprites st1)) h st1) in *.
  destruct (updateSpriteText_keeps (labelZ (rulerLabelSprites st2)) d st2) as [O3 [L3 [_ [V3 P3]]]].
  set (st3 := updateSpriteText (labelZ (rulerLabelSprites st2)) d st2) in *.
  assert (O03 : overlayOnly st st3).
  { eapply overlayOnly_trans; [exact O0 |]. eapply overlayOnly_trans; [exact O1 |].
    eapply overlayOnly_trans; [exact O2 | exact O3]. }
  assert (V03 : viewerCalls st3 = viewerCalls st) by congruence.
  destruct u as [u |].
  - destruct (relabelTicks_keeps u (rulerTickSprites st3) st3) as [O4 [_ [V4 P4]]].
    cbv zeta in O4, V4, P4.
    set (st4 := fold_left _ (rulerTickSprites st3) st3) in *.
    split; [| split].
    + eapply overlayOnly_trans; [exact O03 |].
      eapply overlayOnly_trans; [exact O4 | overlay_step].
    + cbn. rewrite V4, V03. reflexivity.
    + intros H. apply P0, P1, P2, P3, P4 in H. exact H.
  - split; [| split].
    + eapply overlayOnly_trans; [exact O03 | overlay_step].
    + cbn. rewrite V03. reflexivity.
    + intros H. apply P0, P1, P2, P3 in H. exact H.
Qed.

Lemma builds_logCall (c : ViewerCall) (st : State) :
  builds (logCall c st) = (builds st + (if isBuild c then 1 else 0))%nat.
Proof.
  unfold builds, logCall. cbn [viewerCalls set_viewerCalls].
  rewrite filter_app, length_app. cbn [filter].
  destruct (isBuild c); reflexivity.
Qed.

Ltac axis_scale_condition Hs Hpos :=
  intros Hlen;
  apply Hpos;
  match type of Hlen with
  | context [Rabs ?e] =>
      destruct (Rcase_abs e) as [Hn | Hn];
      [rewrite (Rabs_left _ Hn) in Hlen | rewrite (Rabs_right _ Hn) in Hlen]; lra
  end.

Lemma xAxisRuler_ok (sides : Sides) (direction : string) (min size : Vec3)
    (majorTick minorTick endTick spriteScale : R) (acc : Build) :
  0 <= vx size -> (0 < vx size -> 0 < spriteScale) ->
  exists (b : Build) (h : nat) (pos : Vec3),
    xAxisRuler sides direction min size majorTick minorTick endTick spriteScale acc = Ok (b, h)
    /\ extends acc b
    /\ nth_error (fst b) h = Some (Label (mkSprite (toFixed2 (vx size)) pos spriteScale 1)).
Proof.
  intros Hs Hpos. unfold xAxisRuler. cbv zeta.
  match goal with
  | |- context [axisRuler ?a ?b ?c ?d ?e ?f ?g ?h ?i ?j ?k ?l] =>
      destruct (axisRuler_ok a b c d e f g h i j k l) as [bd [hd [E [X N]]]]
  end.
  - destruct (Z.eqb (sides2 sides) 1); rewrite vlength_along_x;
      axis_scale_condition Hs Hpos.
  - eexists. eexists. eexists. split; [exact E |]. split; [exact X | exact N].
Qed.

Lemma yAxisRuler_ok (sides : Sides) (direction : string) (min size : Vec3)
    (majorTick minorTick endTick spriteScale : R) (acc : Build) :
  0 <= vy size -> (0 < vy size -> 0 < spriteScale) ->
  exists (b : Build) (h : nat) (pos : Vec3),
    yAxisRuler sides direction min size majorTick minorTick endTick spriteScale acc = Ok (b, h)
    /\ extends acc b
    /\ nth_error (fst b) h = Some (Label (mkSprite (toFixed2 (vy size)) pos spriteScale 1)).
Proof.
  intros Hs Hpos. unfold yAxisRuler. cbv zeta.
  match goal with
  | |- context [axisRuler ?a ?b ?c ?d ?e ?f ?g ?h ?i ?j ?k ?l] =>
      destruct (axisRuler_ok a b c d e f g h i j k l) as [bd [hd [E [X N]]]]
  end.
  - destruct (Z.eqb (sides0 sides) 1); rewrite vlength_along_y;
      axis_scale_condition Hs Hpos.
  - eexists. eexists. eexists. split; [exact E |]. split; [exact X | exact N].
Qed.

Lemma zAxisRuler_ok (sides : Sides) (direction : string) (min size : Vec3)
    (majorTick minorTick endTick spriteScale : R) (acc : Build) :
  0 <= vz size -> (0 < vz size -> 0 < spriteScale) ->
  exists (b : Build) (h : nat) (pos : Vec3),
    zAxisRuler sides direction min size majorTick minorTick endTick spriteScale acc = Ok (b, h)
    /\ extends acc b
    /\ nth_error (fst b) h = Some (Label (mkSprite (toFixed2 (vz size)) pos spriteScale 1)).
Proof.
  intros Hs Hpos. unfold zAxisRuler. cbv zeta.
  match goal with
  | |- context [axisRuler ?a ?b ?c ?d ?e ?f ?g ?h ?i ?j ?k ?l] =>
      destruct (axisRuler_ok a b c d e f g h i j k l) as [bd [hd [E [X N]]]]
  end.
  - destruct (Z.eqb (sides1 sides) 1); rewrite vlength_along_z;
      axis_scale_condition Hs Hpos.
  - eexists. eexists. eexists. split; [exact E |]. split; [exact X | exact N].
Qed.

Lemma isLabel_of_nth (g : list Child) (h : nat) (s : Sprite) :
  nth_error g h = Some (Label s) -> isLabel g h.
Proof. intros H. exists s. exact H. Qed.

Lemma isLabel_extends (a b : Build) (h : nat) :
  extends a b -> isLabel (fst a) h -> isLabel (fst b) h.
Proof.
  intros [e1 [e2 ->]] H. cbn [fst]. apply isLabel_app. exact H.
Qed.

(** The build of the three rulers never faults, whatever the box; it
    hands one new group to the viewer and leaves all three dimension
    labels in it. *)
Lemma buildRuler_ok (box : Box3) (st : State) :
  exists st', buildRuler box st = Ok st' /\ overlayOnly st st' /\ labelsPresent st'
              /\ builds st' = S (builds st).
Proof.
  unfold buildRuler.
  destruct (getSize_nonneg box) as [Hx [Hy Hz]].
  set (size := getSize box) in *.
  destruct (max3_ge (vx size) (vy size) (vz size)) as [Mx [My Mz]].
  set (maxDim := max3 (vx size) (vy size) (vz size)) in *.
  match goal with
  | |- context [xAxisRuler ?a ?b ?c ?d ?e ?f ?g ?h ?i] =>
      destruct (xAxisRuler_ok a b c d e f g h i Hx) as [bx [hx [px [Ex [Xx Nx]]]]]; [lra |]
  end.
  rewrite Ex. cbn [bind fst snd].
  match goal with
  | |- context [yAxisRuler ?a ?b ?c ?d ?e ?f ?g ?h ?i] =>
      destruct (yAxisRuler_ok a b c d e f g h i Hy) as [by_ [hy [py [Ey [Xy Ny]]]]]; [lra |]
  end.
  rewrite Ey. cbn [bind fst snd].
  match goal with
  | |- context [zAxisRuler ?a ?b ?c ?d ?e ?f ?g ?h ?i] =>
      destruct (zAxisRuler_ok a b c d e f g h i Hz) as [bz [hz [pz [Ez [Xz Nz]]]]]; [lra |]
  end.
  rewrite Ez. cbn [bind fst snd].
  set (st1 := logCall AddExtraObject _).
  assert (O1 : overlayOnly st st1) by overlay_step.
  assert (B1 : builds st1 = S (builds st)).
  { unfold st1. rewrite builds_logCall. cbn [isBuild]. unfold builds. cbn. lia. }
  assert (P1 : labelsPresent st1).
  { exists (mkGroup (rulerLineOpacity (currentIsDark st)) (fst bz)), hx, hy, hz.
    cbn. repeat split.
    - apply (isLabel_extends by_ bz _ Xz). apply (isLabel_extends bx by_ _ Xy).
      eapply isLabel_of_nth. exact Nx.
    - apply (isLabel_extends by_ bz _ Xz). eapply isLabel_of_nth. exact Ny.
    - eapply isLabel_of_nth. exact Nz. }
  assert (E1 : lastRulerLabels st1 = lastRulerLabels st) by reflexivity.
  rewrite E1.
  destruct (lastRulerLabels st) as [l |].
  - destruct (updateRulerLabels_keeps (labelsW l) (labelsH l) (labelsD l) (unitFactor l) st1)
      as [O2 [V2 P2]].
    eexists. split; [reflexivity |].
    split; [exact (overlayOnly_trans _ _ _ O1 O2) |]. split; [exact (P2 P1) |].
    unfold builds at 1. rewrite V2, filter_app, length_app. cbn [filter isBuild List.length].
    fold (builds st1). lia.
  - exists st1. split; [reflexivity |]. repeat split; assumption.
Qed.

(** [setScaleRuler] never faults.  With no object loaded it returns the
    state as it is; an enable with an object loaded hands one new group
    with its three dimension labels to the viewer.  The camera is only
    touched by the post-load branch. *)
Lemma setScaleRuler_ok (enabled : bool) (meshIndex : option Z) (st : State) :
  exists st', setScaleRuler enabled meshIndex st = Ok st' /\
    (threeObject st = None -> st' = st) /\
    (threeObject st <> None -> enabled = true ->
       labelsPresent st' /\ builds st' = S (builds st)) /\
    (justLoaded st = false ->
       camera st' = camera st /\ justLoaded st' = false /\
       currentViewDirection st' = currentViewDirection st) /\
    threeObject st' = threeObject st /\
    currentIsDark st' = currentIsDark st /\
    autoRotateId st' = autoRotateId st /\
    autoRotatePrev st' = autoRotatePrev st /\
    frameCallbacks st' = frameCallbacks st /\
    nextHandle st' = nextHandle st.
Proof.
  unfold setScaleRuler.
  destruct (threeObject st) as [obj |] eqn:Hobj.
  2:{ exists st. split; [reflexivity |]. repeat split; try tauto; congruence. }
  destruct enabled; cbn [negb].
  - set (st0 := set_currentRulerMeshIndex meshIndex st).
    set (st1 := eyeLevelOnLoad st0).
    set (st2 := removeExistingRuler st1).
    set (box := match findMeshByIndex obj meshIndex with Some m => m | None => objectBox obj end).
    destruct (buildRuler_ok box st2) as [st3 [E3 [O3 [P3 B3]]]].
    exists st3. split; [exact E3 |].
    assert (O2 : overlayOnly st1 st2).
    { unfold st2, removeExistingRuler. destruct (rulerGroup st1); overlay_step. }
    assert (B2 : builds st2 = builds st1).
    { unfold st2, removeExistingRuler. destruct (rulerGroup st1); [| reflexivity].
      unfold builds. cbn. rewrite filter_app, length_app. cbn. lia. }
    assert (B1 : builds st1 = builds st).
    { unfold st1, eyeLevelOnLoad, st0. cbn. destruct (justLoaded st); [| reflexivity].
      unfold builds. cbn. rewrite filter_app, length_app. cbn. lia. }
    pose proof (overlayOnly_trans _ _ _ O2 O3) as O13.
    unfold overlayOnly in O13.
    destruct O13 as [T1 [T2 [T3 [T4 [T5 [T6 [T7 [T8 [T9 T10]]]]]]]]].
    assert (S1 : threeObject st1 = Some obj /\ currentIsDark st1 = currentIsDark st /\
                 autoRotateId st1 = autoRotateId st /\ autoRotatePrev st1 = autoRotatePrev st /\
                 frameCallbacks st1 = frameCallbacks st /\ nextHandle st1 = nextHandle st).
    { unfold st1, eyeLevelOnLoad, st0. cbn. destruct (justLoaded st); cbn; repeat split; exact Hobj. }
    destruct S1 as [U1 [U2 [U3 [U4 [U5 U6]]]]].
    split; [discriminate |].
    split; [intros _ _; split; [exact P3 | congruence] |].
    split.
    { intros Hjl.
      assert (E01 : st1 = st0).
      { unfold st1, eyeLevelOnLoad. unfold st0 at 1. cbn. rewrite Hjl. reflexivity. }
      rewrite T4, T2, T5, E01. cbn. repeat split. exact Hjl. }
    repeat split; congruence.
  - set (st0 := set_currentRulerMeshIndex meshIndex st).
    destruct (rulerGroup st0) eqn:Hg.
    + eexists. split; [reflexivity |]. cbn.
      split; [discriminate |]. split; [discriminate |].
      split; [intros Hjl | ]; repeat split; try reflexivity; assumption.
    + exists st0. split; [reflexivity |]. cbn.
      split; [discriminate |]. split; [discriminate |].
      split; [intros Hjl | ]; repeat split; try reflexivity; assumption.
Qed.

End RulerBuild.

Ltac keeps_step :=
  unfold keepsCamera; cbn; repeat split; reflexivity.

Section Animate.

Lemma keepsCamera_refl (st : State) : keepsCamera st st.
Proof. unfold keepsCamera. repeat split. Qed.

Lemma keepsCamera_trans (a b c : State) :
  keepsCamera a b -> keepsCamera b c -> keepsCamera a c.
Proof.
  unfold keepsCamera. intros H1 H2.
  repeat match goal with H : _ /\ _ |- _ => destruct H end.
  repeat split; congruence.
Qed.

Lemma keepsCamera_calm (st st' : State) : keepsCamera st st' -> calm st -> calm st'.
Proof.
  unfold keepsCamera, calm. intros [_ [Ho [Hj _]]] [H | H]; [left | right]; congruence.
Qed.

Lemma keepsCamera_fadeRuler (f : R) (st : State) : keepsCamera st (fadeRuler f st).
Proof. keeps_step. Qed.

Lemma builds_fadeRuler (f : R) (st : State) : builds (fadeRuler f st) = builds st.
Proof. reflexivity. Qed.

(** When the post-load branch cannot run, [setScaleRuler] leaves the
    camera alone. *)
Lemma setScaleRuler_calm (enabled : bool) (meshIndex : option Z) (st : State) :
  calm st ->
  exists st', setScaleRuler enabled meshIndex st = Ok st' /\ keepsCamera st st'.
Proof.
  intros Hc.
  destruct (setScaleRuler_ok enabled meshIndex st)
    as [st' [E [Hnone [_ [Hjl [H1 [H2 [H3 [H4 [H5 H6]]]]]]]]]].
  exists st'. split; [exact E |].
  destruct Hc as [Hj | Ho].
  - destruct (Hjl Hj) as [Hcam [Hj' _]].
    unfold keepsCamera. repeat split; congruence.
  - rewrite (Hnone Ho). apply keepsCamera_refl.
Qed.

(** After [setRulerGroupOpacity(rulerGroup, f)] the factor [f] is in
    force on the group. *)
Lemma fadeRuler_faded (f : R) (st : State) (g : Group) :
  rulerGroup st = Some g ->
  exists g', rulerGroup (fadeRuler f st) = Some g' /\ fadedTo (currentIsDark st) f g'.
Proof.
  intros Hg. unfold fadeRuler. cbn [rulerGroup set_rulerGroup]. rewrite Hg.
  cbn [setRulerGroupOpacity]. eexists. split; [reflexivity |].
  unfold fadedTo. cbn [children lineOpacity].
  apply Forall_forall. intros c Hin.
  apply in_map_iff in Hin. destruct Hin as [c0 [<- Hin0]].
  destruct c0 as [p1 p2 | s0]; [| reflexivity].
  assert (Hex : existsb isLine (children g) = true).
  { apply existsb_exists. exists (Line p1 p2). split; [exact Hin0 | reflexivity]. }
  rewrite Hex. reflexivity.
Qed.

Lemma sameSession_refl (tr : Transition) : sameSession tr tr.
Proof. left. reflexivity. Qed.

Lemma crossfade_ok (tr : Transition) (raw : R) (st : State) :
  quiet tr st ->
  exists tr' st', crossfade tr raw st = Ok (tr', st') /\
                  sameSession tr tr' /\ keepsCamera st st'.
Proof.
  intros Hq. unfold crossfade.
  destruct (hasRuler tr) eqn:Hr;
    [| exists tr, st; split; [reflexivity | split; [apply sameSession_refl | apply keepsCamera_refl]]].
  assert (Hc : calm st) by (destruct Hq as [H | H]; [congruence | exact H]).
  destruct (Rlt_dec raw 0.5) as [Hlt | Hge].
  - cbn [bind].
    destruct (Rge_dec raw 0.5); [lra |].
    eexists. eexists. split; [reflexivity |].
    split; [apply sameSession_refl | apply keepsCamera_fadeRuler].
  - destruct (rulerRebuilt tr); cbn [negb].
    + cbn [bind]. destruct (Rge_dec raw 0.5); [| lra].
      eexists. eexists. split; [reflexivity |].
      split; [apply sameSession_refl | apply keepsCamera_fadeRuler].
    + set (st0 := set_currentViewDirection (newDirection tr) st).
      assert (K0 : keepsCamera st st0) by keeps_step.
      destruct (setScaleRuler_calm true (currentRulerMeshIndex st0) st0
                  (keepsCamera_calm _ _ K0 Hc)) as [st1 [E1 K1]].
      rewrite E1. cbn [bind].
      destruct (Rge_dec raw 0.5); [| lra].
      eexists. eexists. split; [reflexivity |].
      split; [right; reflexivity |].
      eapply keepsCamera_trans; [exact K0 |].
      eapply keepsCamera_trans; [exact K1 |].
      eapply keepsCamera_trans; apply keepsCamera_fadeRuler.
Qed.

Lemma complete_ok (tr : Transition) (st : State) :
  quiet tr st -> exists st', complete tr st = Ok st' /\ keepsCamera st st'.
Proof.
  intros Hq. unfold complete.
  set (st0 := match kind tr with Directed _ => _ | Reset => _ end).
  assert (K0 : keepsCamera st st0) by (unfold st0; destruct (kind tr); keeps_step).
  set (st1 := if negb (rulerRebuilt tr) then _ else st0).
  assert (K1 : keepsCamera st0 st1) by (unfold st1; destruct (rulerRebuilt tr); keeps_step).
  pose proof (keepsCamera_trans _ _ _ K0 K1) as K01.
  destruct (hasRuler tr) eqn:Hr; [| exists st1; split; [reflexivity | exact K01]].
  assert (Hc : calm st) by (destruct Hq as [H | H]; [congruence | exact H]).
  destruct (rulerRebuilt tr); cbn [negb bind].
  - eexists. split; [reflexivity |].
    eapply keepsCamera_trans; [exact K01 | apply keepsCamera_fadeRuler].
  - destruct (setScaleRuler_calm true (currentRulerMeshIndex st1) st1
                (keepsCamera_calm _ _ K01 Hc)) as [st2 [E2 K2]].
    rewrite E2. cbn [bind].
    eexists. split; [reflexivity |].
    eapply keepsCamera_trans; [exact K01 |].
    eapply keepsCamera_trans; [exact K2 | apply keepsCamera_fadeRuler].
Qed.

(** One call of an [animate] closure, whatever else is pending: it
    never faults, writes its own eye and up, and registers itself again
    exactly when its own [raw] is below 1. *)
Lemma animate_ok (tr : Transition) (now : R) (st : State) :
  quiet tr st ->
  exists tr' st',
    animate tr now st = Ok st' /\ sameSession tr tr' /\
    camera st' = mkCamera (frameEye tr now) (center (camera st)) (frameUp tr now) /\
    threeObject st' = threeObject st /\ justLoaded st' = justLoaded st /\
    currentIsDark st' = currentIsDark st /\
    autoRotateId st' = autoRotateId st /\ autoRotatePrev st' = autoRotatePrev st /\
    (rawProgress tr now < 1 ->
       frameCallbacks st' = frameCallbacks st ++ [(nextHandle st, Animate tr')] /\
       nextHandle st' = S (nextHandle st)) /\
    (~ rawProgress tr now < 1 ->
       frameCallbacks st' = frameCallbacks st /\ nextHandle st' = nextHandle st).
Proof.
  intros Hc. unfold animate.
  set (st0 := set_camera _ st).
  assert (Hc0 : quiet tr st0) by exact Hc.
  destruct (crossfade_ok tr (rawProgress tr now) st0 Hc0) as [tr1 [st1 [E1 [S1 K1]]]].
  rewrite E1. cbn [bind].
  destruct K1 as [A1 [A2 [A3 [A4 [A5 [A6 [A7 A8]]]]]]].
  destruct (Rlt_dec (rawProgress tr now) 1) as [Hlt | Hge].
  - exists tr1. eexists. split; [reflexivity |]. split; [exact S1 |].
    cbn. rewrite A1, A2, A3, A4, A5, A6, A7, A8. cbn.
    repeat split; try reflexivity; intros; contradiction.
  - assert (Hc1 : quiet tr1 st1).
    { destruct Hc0 as [H | [H | H]].
      - left. destruct S1 as [-> | ->]; exact H.
      - right. left. congruence.
      - right. right. congruence. }
    destruct (complete_ok tr1 st1 Hc1) as [st2 [E2 K2]].
    exists tr1, st2. split; [exact E2 |]. split; [exact S1 |].
    destruct K2 as [B1 [B2 [B3 [B4 [B5 [B6 [B7 B8]]]]]]].
    rewrite B1, B2, B3, B4, B5, B6, B7, B8, A1, A2, A3, A4, A5, A6, A7, A8. cbn.
    repeat split; try reflexivity; intros; contradiction.
Qed.

End Animate.

Section DirectedTransition.

Lemma rawProgress_done (tr : Transition) (now : R) :
  startTime tr + 400 <= now -> rawProgress tr now = 1.
Proof.
  intros H. unfold rawProgress, Math_min, Rmin.
  destruct (Rle_dec ((now - startTime tr) / 400) 1); lra.
Qed.

Lemma eased_1 : eased 1 = 1.
Proof. unfold eased. ring. Qed.

Lemma directionTable_cases (direction : string) (dv uv : Vec3) :
  directionTable direction = Some (dv, uv) ->
  (direction = "front"%string /\ dv = vec3 0 0 1 /\ uv = vec3 0 1 0) \/
  (direction = "back"%string /\ dv = vec3 0 0 (-1) /\ uv = vec3 0 1 0) \/
  (direction = "left"%string /\ dv = vec3 (-1) 0 0 /\ uv = vec3 0 1 0) \/
  (direction = "right"%string /\ dv = vec3 1 0 0 /\ uv = vec3 0 1 0) \/
  (direction = "top"%string /\ dv = vec3 0 1 0 /\ uv = vec3 0 0 (-1)) \/
  (direction = "bottom"%string /\ dv = vec3 0 (-1) 0 /\ uv = vec3 0 0 1).
Proof.
  unfold directionTable.
  destruct (String.eqb_spec direction "front");
    [intros [= <- <-]; tauto |].
  destruct (String.eqb_spec direction "back");
    [intros [= <- <-]; tauto |].
  destruct (String.eqb_spec direction "left");
    [intros [= <- <-]; tauto |].
  destruct (String.eqb_spec direction "right");
    [intros [= <- <-]; tauto |].
  destruct (String.eqb_spec direction "top");
    [intros [= <- <-]; tauto |].
  destruct (String.eqb_spec direction "bottom");
    [intros [= <- <-]; tauto |].
  discriminate.
Qed.

(** Every direction and every up vector of the table is a unit vector. *)
Lemma directionTable_unit (direction : string) (dv uv : Vec3) :
  directionTable direction = Some (dv, uv) ->
  vx dv * vx dv + vy dv * vy dv + vz dv * vz dv = 1 /\
  vx uv * vx uv + vy uv * vy uv + vz uv * vz uv = 1.
Proof.
  intros H. apply directionTable_cases in H.
  destruct H as [H | [H | [H | [H | [H | H]]]]];
    destruct H as [_ [-> ->]]; cbn [vx vy vz]; split; ring.
Qed.

(** At [raw = 1] the written eye is the target and the written up is
    the up vector of the table. *)
Lemma frameEye_final (tr : Transition) (now : R) (dv : Vec3) :
  0 <= dist tr ->
  vx dv * vx dv + vy dv * vy dv + vz dv * vz dv = 1 ->
  targetEye tr = vec3 (vx (cxyz tr) + vx dv * dist tr)
                      (vy (cxyz tr) + vy dv * dist tr)
                      (vz (cxyz tr) + vz dv * dist tr) ->
  rawProgress tr now = 1 ->
  frameEye tr now = targetEye tr.
Proof.
  intros Hd Hu Ht Hr. unfold frameEye. rewrite Hr, eased_1.
  set (n := lerp (startEye tr) (targetEye tr) 1).
  assert (Hn : n = targetEye tr).
  { unfold n, lerp. destruct (targetEye tr) as [a b c]. cbn [vx vy vz]. f_equal; ring. }
  rewrite Hn.
  assert (Hl : vlength (subVectors (targetEye tr) (cxyz tr)) = dist tr).
  { rewrite Ht. unfold vlength, subVectors, Math_sqrt. cbn [vx vy vz].
    replace (_ + _ + _) with
      ((vx dv * vx dv + vy dv * vy dv + vz dv * vz dv) * (dist tr * dist tr)) by ring.
    rewrite Hu, Rmult_1_l. apply sqrt_square. exact Hd. }
  rewrite Hl.
  destruct (Rgt_dec (dist tr) 0) as [Hpos | _]; [| reflexivity].
  rewrite Ht at 4. rewrite Ht. unfold subVectors. cbn [vx vy vz].
  f_equal; field; lra.
Qed.

Lemma frameUp_final (tr : Transition) (now : R) :
  vx (upVec tr) * vx (upVec tr) + vy (upVec tr) * vy (upVec tr)
    + vz (upVec tr) * vz (upVec tr) = 1 ->
  rawProgress tr now = 1 ->
  frameUp tr now = upVec tr.
Proof.
  intros Hu Hr. unfold frameUp. rewrite Hr, eased_1.
  set (u := lerp (startUp tr) (upVec tr) 1).
  assert (Hn : u = upVec tr).
  { unfold u, lerp. destruct (upVec tr) as [a b c]. cbn [vx vy vz]. f_equal; ring. }
  rewrite Hn.
  assert (Hl : vlength (upVec tr) = 1).
  { unfold vlength, Math_sqrt. rewrite Hu. apply sqrt_1. }
  rewrite Hl.
  destruct (Rgt_dec 1 0) as [_ | N]; [| lra].
  destruct (upVec tr) as [a b c]. cbn [vx vy vz]. f_equal; field.
Qed.

Lemma sameSession_fields (tr tr' : Transition) :
  sameSession tr tr' ->
  frameEye tr' = frameEye tr /\ frameUp tr' = frameUp tr /\
  rawProgress tr' = rawProgress tr /\ kind tr' = kind tr /\ hasRuler tr' = hasRuler tr.
Proof.
  intros [-> | ->]; repeat split.
Qed.

(** The completing frame of a directed transition, run in any state
    in which the post-load branch of [setScaleRuler] cannot run. *)
Lemma animate_at_completion
    (st st2 : State) (direction : string) (now0 now : R) (tr tr' : Transition) :
  directedTransition direction now0 st = Some tr ->
  sameSession tr tr' ->
  now0 + 400 <= now ->
  quiet tr' st2 ->
  exists (dirVec upV : Vec3) (st3 : State),
    directionTable direction = Some (dirVec, upV) /\
    animate tr' now st2 = Ok st3 /\
    eye (camera st3)
    = vec3 (vx (center (camera st)) + vx dirVec * eyeDistance (camera st))
           (vy (center (camera st)) + vy dirVec * eyeDistance (camera st))
           (vz (center (camera st)) + vz dirVec * eyeDistance (camera st)) /\
    up (camera st3) = upV.
Proof.
  intros Htr Hs Hnow Hcalm.
  unfold directedTransition in Htr.
  destruct (directionTable direction) as [[dv uv] |] eqn:Hdir; [| discriminate].
  injection Htr as <-.
  destruct (directionTable_unit _ _ _ Hdir) as [Hdv Huv].
  set (tr := mkTransition _ _ _ _ _ _ _ _ _ _) in *.
  destruct (sameSession_fields tr tr' Hs) as [FE [FU _]].
  assert (Hraw : rawProgress tr now = 1) by (apply rawProgress_done; exact Hnow).
  destruct (animate_ok tr' now st2 Hcalm) as [tr2 [st3 [E [_ [Hcam _]]]]].
  exists dv, uv, st3.
  split; [reflexivity |]. split; [exact E |].
  rewrite Hcam. cbn [eye up]. rewrite FE, FU.
  split.
  - rewrite (frameEye_final tr now dv); try reflexivity; try assumption.
    apply eyeDistance_nonneg.
  - apply frameUp_final; assumption.
Qed.

End DirectedTransition.

Section NoTarget.

Lemma bind_ret {A : Type} (m : result A) : bind m (fun a => Ok a) = m.
Proof. destruct m; reflexivity. Qed.

(** A frame with one pending callback runs that callback, on the state
    from which its registration has been removed. *)
Lemma runFrame_one (h : nat) (cb : Callback) (now : R) (st : State) :
  frameCallbacks st = [(h, cb)] ->
  runFrame now st = invoke cb now (set_frameCallbacks [] st).
Proof.
  intros H. unfold runFrame. rewrite H. cbn [map fst runCallbacks].
  unfold lookupCallback, cancelAnimationFrame. rewrite H.
  cbn [find filter fst snd option_map]. rewrite Nat.eqb_refl. cbn [negb option_map snd].
  apply bind_ret.
Qed.

Lemma eyeDistance_cameraFront5 : eyeDistance cameraFront5 = 5.
Proof.
  unfold eyeDistance, cameraFront5, Math_sqrt. cbn [eye center vx vy vz].
  replace ((0 - 0) ^ 2 + (0 - 0) ^ 2 + (5 - 0) ^ 2) with (5 * 5) by ring.
  apply sqrt_square. lra.
Qed.

(** C6, the counterexample: with no object loaded,
    [setCameraDirection('top')] and one frame at 400 ms move the camera
    from the front to the top. *)
Lemma no_target_counterexample :
  let st := initialState false cameraFront5 in
  threeObject st = None /\
  eye (camera st) = vec3 0 0 5 /\ up (camera st) = vec3 0 1 0 /\
  exists st' : State,
    run st [SetCameraDirection "top" 0; Frame 400] = Ok st' /\
    eye (camera st') = vec3 0 5 0 /\ up (camera st') = vec3 0 0 (-1).
Proof.
  intros st. split; [reflexivity |]. split; [reflexivity |]. split; [reflexivity |].
  set (tr := mkTransition (Directed "top") (vec3 0 0 0) (eyeDistance cameraFront5)
              (vec3 (0 + 0 * eyeDistance cameraFront5) (0 + 1 * eyeDistance cameraFront5)
                    (0 + 0 * eyeDistance cameraFront5))
              (vec3 0 0 5) (vec3 0 1 0) (vec3 0 0 (-1)) false false 0).
  set (st1 := setCameraDirection "top" 0 st).
  assert (Hq : frameCallbacks st1 = [(0%nat, Animate tr)]) by reflexivity.
  destruct (animate_at_completion st (set_frameCallbacks [] st1) "top" 0 400 tr tr)
    as [dv [uv [st3 [Hd [E [He Hu]]]]]];
    [reflexivity | left; reflexivity | lra | left; reflexivity |].
  exists st3. split.
  - cbn [run step bind]. fold st1. rewrite (runFrame_one _ _ _ _ Hq).
    cbn [invoke]. rewrite E. reflexivity.
  - cbn in Hd. injection Hd as <- <-.
    rewrite He, Hu. cbn [camera st initialState center].
    change (eyeDistance cameraFront5) with (eyeDistance cameraFront5).
    cbn [cameraFront5 center vx vy vz].
    fold cameraFront5. rewrite eyeDistance_cameraFront5.
    split; [f_equal; ring | reflexivity].
Qed.

(** C6, as amended: with no object loaded, [setScaleRuler] returns
    without touching any state.  [setCameraDirection] and [resetCamera]
    have no such guard: they register their frame callback as with an
    object loaded, and every frame of such a callback, without fault,
    writes the interpolated eye and up to the camera; only the ruler
    rebuild inside the frame returns at once. *)
Theorem no_target_behaviour (st : State) :
  threeObject st = None ->
  (forall (enabled : bool) (meshIndex : option Z),
     setScaleRuler enabled meshIndex st = Ok st) /\
  (forall (direction : string) (now0 : R) (tr : Transition),
     directedTransition direction now0 st = Some tr ->
     frameCallbacks (setCameraDirection direction now0 st)
     = frameCallbacks st ++ [(nextHandle st, Animate tr)]) /\
  (forall now0 : R,
     frameCallbacks (resetCamera now0 st)
     = frameCallbacks st ++ [(nextHandle st, Animate (resetTransition now0 st))]) /\
  (forall (tr : Transition) (now : R),
     exists st' : State,
       animate tr now st = Ok st' /\
       eye (camera st') = frameEye tr now /\ up (camera st') = frameUp tr now /\
       threeObject st' = None).
Proof.
  intros Hobj. split; [| split; [| split]].
  - intros enabled meshIndex. unfold setScaleRuler. rewrite Hobj. reflexivity.
  - intros direction now0 tr Htr. unfold setCameraDirection. rewrite Htr. reflexivity.
  - intros now0. reflexivity.
  - intros tr now.
    destruct (animate_ok tr now st (or_intror (or_intror Hobj)))
      as [tr' [st' [E [_ [Hcam [Ho _]]]]]].
    exists st'. split; [exact E |]. rewrite Hcam. cbn [eye up].
    split; [reflexivity |]. split; [reflexivity | congruence].
Qed.

(** An instance of [no_target_behaviour]: the state right after
    registration of the bridge. *)
Lemma no_target_behaviour_witness :
  let st := initialState false cameraFront5 in
  (forall (enabled : bool) (meshIndex : option Z),
     setScaleRuler enabled meshIndex st = Ok st) /\
  (forall (direction : string) (now0 : R) (tr : Transition),
     directedTransition direction now0 st = Some tr ->
     frameCallbacks (setCameraDirection direction now0 st)
     = frameCallbacks st ++ [(nextHandle st, Animate tr)]) /\
  (forall now0 : R,
     frameCallbacks (resetCamera now0 st)
     = frameCallbacks st ++ [(nextHandle st, Animate (resetTransition now0 st))]) /\
  (forall (tr : Transition) (now : R),
     exists st' : State,
       animate tr now st = Ok st' /\
       eye (camera st') = frameEye tr now /\ up (camera st') = frameUp tr now /\
       threeObject st' = None).
Proof.
  intros st. apply (no_target_behaviour st). reflexivity.
Defined.

End NoTarget.

Ltac queue_step :=
  unfold keepsQueue; cbn; repeat split; reflexivity.

Section AutoRotate.

Lemma keepsQueue_refl (st : State) : keepsQueue st st.
Proof. unfold keepsQueue. repeat split. Qed.

Lemma keepsQueue_trans (a b c : State) :
  keepsQueue a b -> keepsQueue b c -> keepsQueue a c.
Proof.
  unfold keepsQueue. intros [A1 [A2 [A3 A4]]] [B1 [B2 [B3 B4]]].
  repeat split; congruence.
Qed.

Lemma setScaleRuler_queue (enabled : bool) (meshIndex : option Z) (st : State) :
  exists st', setScaleRuler enabled meshIndex st = Ok st' /\ keepsQueue st st'.
Proof.
  destruct (setScaleRuler_ok enabled meshIndex st)
    as [st' [E [_ [_ [_ [_ [_ [H3 [H4 [H5 H6]]]]]]]]]].
  exists st'. split; [exact E |]. unfold keepsQueue. repeat split; assumption.
Qed.

Lemma crossfade_queue (tr : Transition) (raw : R) (st : State) :
  exists tr' st', crossfade tr raw st = Ok (tr', st') /\ keepsQueue st st'.
Proof.
  unfold crossfade.
  destruct (hasRuler tr); [| exists tr, st; split; [reflexivity | apply keepsQueue_refl]].
  destruct (Rlt_dec raw 0.5) as [Hlt | Hge].
  - cbn [bind]. destruct (Rge_dec raw 0.5);
      (eexists; eexists; split; [reflexivity | queue_step]).
  - destruct (rulerRebuilt tr); cbn [negb].
    + cbn [bind]. destruct (Rge_dec raw 0.5);
        (eexists; eexists; split; [reflexivity | queue_step]).
    + set (st0 := set_currentViewDirection (newDirection tr) st).
      destruct (setScaleRuler_queue true (currentRulerMeshIndex st0) st0) as [st1 [E1 K1]].
      rewrite E1. cbn [bind].
      destruct (Rge_dec raw 0.5);
        (eexists; eexists; split; [reflexivity |];
         eapply keepsQueue_trans; [| eapply keepsQueue_trans; [exact K1 | queue_step]];
         queue_step).
Qed.

Lemma complete_queue (tr : Transition) (st : State) :
  exists st', complete tr st = Ok st' /\ keepsQueue st st'.
Proof.
  unfold complete.
  set (st0 := match kind tr with Directed _ => _ | Reset => _ end).
  assert (K0 : keepsQueue st st0) by (unfold st0; destruct (kind tr); queue_step).
  set (st1 := if negb (rulerRebuilt tr) then _ else st0).
  assert (K1 : keepsQueue st0 st1) by (unfold st1; destruct (rulerRebuilt tr); queue_step).
  pose proof (keepsQueue_trans _ _ _ K0 K1) as K01.
  destruct (hasRuler tr); [| exists st1; split; [reflexivity | exact K01]].
  destruct (rulerRebuilt tr); cbn [negb bind].
  - eexists. split; [reflexivity |].
    eapply keepsQueue_trans; [exact K01 | queue_step].
  - destruct (setScaleRuler_queue true (currentRulerMeshIndex st1) st1) as [st2 [E2 K2]].
    rewrite E2. cbn [bind].
    eexists. split; [reflexivity |].
    eapply keepsQueue_trans; [exact K01 |].
    eapply keepsQueue_trans; [exact K2 | queue_step].
Qed.

(** In any state, a call of an [animate] closure does not fault, leaves
    the auto-rotate variables alone and adds at most its own next
    registration. *)
Lemma animate_queue (tr : Transition) (now : R) (st : State) :
  exists st',
    animate tr now st = Ok st' /\
    autoRotateId st' = autoRotateId st /\ autoRotatePrev st' = autoRotatePrev st /\
    ((exists tr', frameCallbacks st' = frameCallbacks st ++ [(nextHandle st, Animate tr')] /\
                  nextHandle st' = S (nextHandle st)) \/
     (frameCallbacks st' = frameCallbacks st /\ nextHandle st' = nextHandle st)).
Proof.
  unfold animate.
  set (st0 := set_camera _ st).
  destruct (crossfade_queue tr (rawProgress tr now) st0) as [tr1 [st1 [E1 K1]]].
  rewrite E1. cbn [bind].
  destruct K1 as [A1 [A2 [A3 A4]]].
  destruct (Rlt_dec (rawProgress tr now) 1) as [Hlt | Hge].
  - eexists. split; [reflexivity |]. cbn. rewrite A1, A2, A3, A4. cbn.
    split; [reflexivity |]. split; [reflexivity |].
    left. exists tr1. split; reflexivity.
  - destruct (complete_queue tr1 st1) as [st2 [E2 [B1 [B2 [B3 B4]]]]].
    exists st2. split; [exact E2 |].
    rewrite B1, B2, B3, B4, A1, A2, A3, A4. cbn.
    split; [reflexivity |]. split; [reflexivity |]. right. split; reflexivity.
Qed.

Lemma NoDup_fst_inj {A : Type} (l : list (nat * A)) (h : nat) (a b : A) :
  NoDup (map fst l) -> In (h, a) l -> In (h, b) l -> a = b.
Proof.
  induction l as [| [h0 c] l IH]; intros Hnd Ha Hb; [contradiction |].
  cbn [map fst] in Hnd. inversion Hnd as [| x xs Hnotin Hnd' Heq]; subst.
  destruct Ha as [Ha | Ha]; destruct Hb as [Hb | Hb].
  - congruence.
  - injection Ha as -> ->. exfalso. apply Hnotin.
    apply in_map_iff. exists (h, b). split; [reflexivity | exact Hb].
  - injection Hb as -> ->. exfalso. apply Hnotin.
    apply in_map_iff. exists (h, a). split; [reflexivity | exact Ha].
  - apply IH; assumption.
Qed.

Lemma handles_append (l : list (nat * Callback)) (n : nat) (cb : Callback) :
  NoDup (map fst l) -> Forall (fun e => (fst e < n)%nat) l ->
  NoDup (map fst (l ++ [(n, cb)])) /\
  Forall (fun e => (fst e < S n)%nat) (l ++ [(n, cb)]).
Proof.
  intros Hnd Hlt. split.
  - rewrite map_app. cbn [map fst].
    induction l as [| e l IH]; cbn [map app].
    + constructor; [intros [] | constructor].
    + cbn [map] in Hnd. inversion Hnd as [| x xs Hnotin Hnd' Heq]; subst.
      inversion Hlt as [| y ys Hy Hys Heq]; subst.
      constructor.
      * intros Hin. apply in_app_iff in Hin. destruct Hin as [Hin | [Hin | []]].
        -- contradiction.
        -- lia.
      * apply IH; assumption.
  - apply Forall_app. split.
    + eapply Forall_impl; [| exact Hlt]. cbn. intros e He. lia.
    + constructor; [cbn; lia | constructor].
Qed.

Lemma handles_filter (p : nat * Callback -> bool) (l : list (nat * Callback)) (n : nat) :
  NoDup (map fst l) -> Forall (fun e => (fst e < n)%nat) l ->
  NoDup (map fst (filter p l)) /\ Forall (fun e => (fst e < n)%nat) (filter p l).
Proof.
  intros Hnd Hlt. split.
  - induction l as [| e l IH]; cbn [filter]; [constructor |].
    cbn [map] in Hnd. inversion Hnd as [| x xs Hnotin Hnd' Heq]; subst.
    inversion Hlt as [| y ys Hy Hys Heq]; subst.
    destruct (p e); [| apply IH; assumption].
    cbn [map]. constructor; [| apply IH; assumption].
    intros Hin. apply Hnotin.
    apply in_map_iff in Hin. destruct Hin as [x [Hx Hin]].
    apply filter_In in Hin. apply in_map_iff. exists x. tauto.
  - apply Forall_forall. intros e He. apply filter_In in He.
    rewrite Forall_forall in Hlt. apply Hlt. tauto.
Qed.

Lemma filter_comm {A : Type} (p q : A -> bool) (l : list A) :
  filter p (filter q l) = filter q (filter p l).
Proof.
  induction l as [| a l IH]; [reflexivity |].
  cbn [filter]. destruct (q a) eqn:Hq; destruct (p a) eqn:Hp; cbn [filter];
    rewrite ?Hq, ?Hp, IH; reflexivity.
Qed.

Lemma lookupCallback_In (h : nat) (cb : Callback) (st : State) :
  lookupCallback h st = Some cb -> In (h, cb) (frameCallbacks st).
Proof.
  unfold lookupCallback. intros H.
  destruct (find _ (frameCallbacks st)) as [[h0 c0] |] eqn:Hf; [| discriminate].
  cbn in H. injection H as ->.
  apply find_some in Hf. destruct Hf as [Hin Heq].
  cbn in Heq. apply Nat.eqb_eq in Heq. subst. exact Hin.
Qed.

(** Running one pending callback keeps the frame callbacks well formed,
    the loop registered at most once, and its parameters. *)
Lemma invoke_inv (h : nat) (cb : Callback) (now : R) (st : State) :
  queueInv st -> lookupCallback h st = Some cb ->
  exists st', invoke cb now (cancelAnimationFrame h st) = Ok st' /\
              queueInv st' /\ loopParams st' = loopParams st.
Proof.
  intros [Hnd [Hlt Htick]] Hlook.
  pose proof (lookupCallback_In _ _ _ Hlook) as Hin.
  set (st1 := cancelAnimationFrame h st).
  set (keep := fun e : nat * Callback => negb (Nat.eqb (fst e) h)).
  assert (Hfc1 : frameCallbacks st1 = filter keep (frameCallbacks st)) by reflexivity.
  destruct (handles_filter keep _ _ Hnd Hlt) as [Hnd1 Hlt1].
  assert (Ht1 : tickCallbacks st1 = filter keep (tickCallbacks st)).
  { unfold tickCallbacks. rewrite Hfc1. apply filter_comm. }
  destruct cb as [tr | ar]; cbn [invoke].
  - (* an animate closure *)
    assert (Hsame : tickCallbacks st1 = tickCallbacks st).
    { rewrite Ht1.
      destruct (autoRotateId st) as [h0 |].
      - destruct Htick as [ar0 Hl]. rewrite Hl. cbn [filter]. unfold keep at 1. cbn [fst].
        destruct (Nat.eqb_spec h0 h) as [-> | _]; [| reflexivity].
        exfalso.
        assert (Hin0 : In (h, Tick ar0) (frameCallbacks st)).
        { assert (Hi : In (h, Tick ar0) (tickCallbacks st)) by (rewrite Hl; left; reflexivity).
          unfold tickCallbacks in Hi. apply filter_In in Hi. tauto. }
        pose proof (NoDup_fst_inj _ _ _ _ Hnd Hin Hin0). discriminate.
      - rewrite Htick. reflexivity. }
    destruct (animate_queue tr now st1) as [st2 [E [Hid [_ Hq]]]].
    exists st2. split; [exact E |].
    assert (Hticks2 : tickCallbacks st2 = tickCallbacks st).
    { rewrite <- Hsame. unfold tickCallbacks.
      destruct Hq as [[tr' [Hfc Hnh]] | [Hfc Hnh]]; rewrite Hfc; [| reflexivity].
      rewrite filter_app. cbn. apply app_nil_r. }
    split.
    + unfold queueInv.
      assert (Hid2 : autoRotateId st2 = autoRotateId st) by (rewrite Hid; reflexivity).
      destruct Hq as [[tr' [Hfc Hnh]] | [Hfc Hnh]]; rewrite Hfc, Hnh, Hid2, Hticks2.
      * destruct (handles_append (frameCallbacks st1) (nextHandle st1) (Animate tr') Hnd1 Hlt1)
          as [N F].
        split; [exact N |]. split; [exact F | exact Htick].
      * split; [exact Hnd1 |]. split; [exact Hlt1 | exact Htick].
    + unfold loopParams. rewrite Hticks2. reflexivity.
  - (* the tick closure of the loop *)
    assert (Hint : In (h, Tick ar) (tickCallbacks st)).
    { unfold tickCallbacks. apply filter_In. split; [exact Hin | reflexivity]. }
    destruct (autoRotateId st) as [h0 |] eqn:Hid; [| rewrite Htick in Hint; contradiction].
    destruct Htick as [ar0 Hl]. rewrite Hl in Hint.
    destruct Hint as [Heq | []]. injection Heq as -> ->.
    assert (Hempty : tickCallbacks st1 = []).
    { rewrite Ht1, Hl. cbn [filter]. unfold keep. cbn [fst]. rewrite Nat.eqb_refl. reflexivity. }
    assert (Hempty' : filter isTick (filter (fun e : nat * Callback => negb (Nat.eqb (fst e) h))
                                            (frameCallbacks st)) = []) by exact Hempty.
    eexists. split; [reflexivity |].
    unfold tick. cbn [requestAnimationFrame].
    set (ar' := mkAutoRotate _ _ _).
    split.
    + unfold queueInv. cbn.
      destruct (handles_append (frameCallbacks st1) (nextHandle st) (Tick ar') Hnd1 Hlt1)
        as [N F].
      split; [exact N |]. split; [exact F |].
      exists ar'. unfold tickCallbacks. cbn. rewrite filter_app.
      rewrite Hempty'. reflexivity.
    + unfold loopParams, tickCallbacks. cbn. rewrite filter_app.
      rewrite Hempty'.
      fold (tickCallbacks st). rewrite Hl. reflexivity.
Qed.

Lemma runCallbacks_inv (now : R) (handles : list nat) :
  forall st : State,
    queueInv st ->
    exists st', runCallbacks handles now st = Ok st' /\
                queueInv st' /\ loopParams st' = loopParams st.
Proof.
  induction handles as [| h hs IH]; intros st Hinv; cbn [runCallbacks].
  - exists st. split; [reflexivity |]. split; [exact Hinv | reflexivity].
  - destruct (lookupCallback h st) as [cb |] eqn:Hlook.
    + destruct (invoke_inv h cb now st Hinv Hlook) as [st1 [E1 [I1 P1]]].
      rewrite E1. cbn [bind].
      destruct (IH st1 I1) as [st2 [E2 [I2 P2]]].
      exists st2. split; [exact E2 |]. split; [exact I2 | congruence].
    + apply IH. exact Hinv.
Qed.

Lemma keepsQueue_inv (st st' : State) :
  keepsQueue st st' -> queueInv st ->
  queueInv st' /\ loopParams st' = loopParams st.
Proof.
  intros [K1 [K2 [K3 K4]]] Hinv.
  unfold queueInv, loopParams, tickCallbacks in *. rewrite K1, K3, K4.
  split; [exact Hinv | reflexivity].
Qed.

(** Registering an [animate] closure keeps the invariant and the loop. *)
Lemma register_animate_inv (tr : Transition) (st : State) :
  queueInv st ->
  queueInv (snd (requestAnimationFrame (Animate tr) st)) /\
  loopParams (snd (requestAnimationFrame (Animate tr) st)) = loopParams st.
Proof.
  intros [Hnd [Hlt Htick]].
  destruct (handles_append (frameCallbacks st) (nextHandle st) (Animate tr) Hnd Hlt) as [N F].
  assert (Ht : tickCallbacks (snd (requestAnimationFrame (Animate tr) st)) = tickCallbacks st).
  { unfold tickCallbacks. cbn. rewrite filter_app. cbn. apply app_nil_r. }
  split.
  - unfold queueInv. rewrite Ht. cbn. split; [exact N |]. split; [exact F | exact Htick].
  - unfold loopParams. rewrite Ht. reflexivity.
Qed.

Lemma startAutoRotate_running (h t now : R) (st : State) :
  autoRotateId st <> None -> startAutoRotate h t now st = st.
Proof.
  intros H. unfold startAutoRotate. destruct (autoRotateId st); [reflexivity | contradiction].
Qed.

Lemma startAutoRotate_idle (h t now : R) (st : State) :
  queueInv st -> autoRotateId st = None ->
  queueInv (startAutoRotate h t now st) /\
  loopParams (startAutoRotate h t now st) = Some (h, t).
Proof.
  intros [Hnd [Hlt Htick]] Hid. unfold startAutoRotate. rewrite Hid in *.
  cbn [requestAnimationFrame].
  destruct (handles_append (frameCallbacks st) (nextHandle st)
              (Tick (mkAutoRotate h t 0)) Hnd Hlt) as [N F].
  unfold tickCallbacks in Htick.
  split.
  - unfold queueInv. cbn. split; [exact N |]. split; [exact F |].
    eexists. unfold tickCallbacks. cbn. rewrite filter_app, Htick. reflexivity.
  - unfold loopParams, tickCallbacks. cbn. rewrite filter_app, Htick. reflexivity.
Qed.

Lemma stopAutoRotate_inv (st : State) :
  queueInv st ->
  queueInv (stopAutoRotate st) /\ autoRotateId (stopAutoRotate st) = None.
Proof.
  intros [Hnd [Hlt Htick]]. unfold stopAutoRotate.
  destruct (autoRotateId st) as [h |] eqn:Hid.
  - set (keep := fun e : nat * Callback => negb (Nat.eqb (fst e) h)).
    destruct (handles_filter keep _ _ Hnd Hlt) as [N F].
    split; [| reflexivity].
    unfold queueInv. cbn. split; [exact N |]. split; [exact F |].
    unfold tickCallbacks. cbn. fold keep. rewrite filter_comm.
    destruct Htick as [ar Hl]. unfold tickCallbacks in Hl. rewrite Hl.
    cbn [filter]. unfold keep. cbn [fst]. rewrite Nat.eqb_refl. reflexivity.
  - split; [| exact Hid]. unfold queueInv. rewrite Hid. repeat split; assumption.
Qed.

(** No call of the bridge and no frame faults; each keeps the frame
    callbacks well formed, and all but [stopAutoRotate] keep the
    parameters of a registered loop. *)
Lemma step_inv (st : State) (e : Event) :
  queueInv st ->
  exists st', step st e = Ok st' /\ queueInv st' /\
              (e <> StopAutoRotate ->
               forall p, loopParams st = Some p -> loopParams st' = Some p).
Proof.
  intros Hinv. destruct e; cbn [step].
  - exists (loadStart st). split; [reflexivity |]. split; [exact Hinv |]. intros _ p Hp. exact Hp.
  - exists (onModelFinished obj st). split; [reflexivity |]. split; [exact Hinv |].
    intros _ p Hp. exact Hp.
  - destruct (setScaleRuler_queue enabled meshIndex st) as [st' [E K]].
    destruct (keepsQueue_inv _ _ K Hinv) as [I P].
    exists st'. split; [exact E |]. split; [exact I |]. intros _ p Hp. congruence.
  - destruct (updateRulerLabels_keeps w h d unitFactor0 st) as [O _].
    assert (K : keepsQueue st (updateRulerLabels w h d unitFactor0 st)).
    { unfold overlayOnly in O. unfold keepsQueue. tauto. }
    destruct (keepsQueue_inv _ _ K Hinv) as [I P].
    eexists. split; [reflexivity |]. split; [exact I |]. intros _ p Hp. congruence.
  - eexists. split; [reflexivity |].
    unfold setCameraDirection.
    destruct (directedTransition direction now st) as [tr |].
    + destruct (register_animate_inv tr st Hinv) as [I P].
      split; [exact I |]. intros _ p Hp. congruence.
    + split; [exact Hinv |]. intros _ p Hp. exact Hp.
  - eexists. split; [reflexivity |].
    destruct (register_animate_inv (resetTransition now st) st Hinv) as [I P].
    split; [exact I |]. intros _ p Hp. unfold resetCamera. congruence.
  - eexists. split; [reflexivity |].
    destruct (autoRotateId st) as [h |] eqn:Hid.
    + rewrite startAutoRotate_running by congruence.
      split; [exact Hinv |]. intros _ p Hp. exact Hp.
    + destruct (startAutoRotate_idle hSpeed0 tiltDeg0 now st Hinv Hid) as [I P].
      split; [exact I |]. intros _ p Hp.
      destruct Hinv as [_ [_ Ht]]. rewrite Hid in Ht.
      unfold loopParams in Hp. rewrite Ht in Hp. discriminate.
  - eexists. split; [reflexivity |].
    split; [apply stopAutoRotate_inv; exact Hinv |]. intros N. contradiction.
  - destruct (runCallbacks_inv now (map fst (frameCallbacks st)) st Hinv) as [st' [E [I P]]].
    exists st'. split; [exact E |]. split; [exact I |]. intros _ p Hp. congruence.
Qed.

Lemma run_inv (es : list Event) :
  forall st st' : State, queueInv st -> run st es = Ok st' -> queueInv st'.
Proof.
  induction es as [| e es IH]; intros st st' Hinv Hrun; cbn [run] in Hrun.
  - injection Hrun as <-. exact Hinv.
  - destruct (step_inv st e Hinv) as [st1 [E1 [I1 _]]].
    rewrite E1 in Hrun. cbn [bind] in Hrun. exact (IH st1 st' I1 Hrun).
Qed.

Lemma initialState_inv (isDark : bool) (cam : Camera) : queueInv (initialState isDark cam).
Proof.
  unfold queueInv. cbn. split; [constructor |]. split; [constructor | reflexivity].
Qed.

Lemma reachable_inv (st : State) : reachable st -> queueInv st.
Proof.
  intros [isDark [cam [es Hrun]]].
  exact (run_inv es _ _ (initialState_inv isDark cam) Hrun).
Qed.

(** C10: in every reachable state the auto-rotate loop has at most one
    frame-callback registration, and it has one exactly when
    [autoRotateId] is set; [startAutoRotate] is then a no-op that discards
    its arguments; every call and every frame other than [stopAutoRotate]
    leaves the registered loop with its original [hSpeed] and [tiltDeg];
    and a start that follows a stop installs the new parameters. *)
Theorem autoRotate_single_loop (st : State) :
  reachable st ->
  (List.length (tickCallbacks st) <= 1)%nat /\
  (autoRotateId st = None <-> tickCallbacks st = []) /\
  (forall (h t now : R),
     autoRotateId st <> None -> startAutoRotate h t now st = st) /\
  (forall (e : Event) (p : R * R),
     loopParams st = Some p -> e <> StopAutoRotate ->
     exists st', step st e = Ok st' /\ loopParams st' = Some p /\
                 (List.length (tickCallbacks st') <= 1)%nat) /\
  (forall (h t now : R),
     autoRotateId (stopAutoRotate st) = None /\
     tickCallbacks (stopAutoRotate st) = [] /\
     loopParams (startAutoRotate h t now (stopAutoRotate st)) = Some (h, t)).
Proof.
  intros Hreach. pose proof (reachable_inv st Hreach) as Hinv.
  assert (Hlen : forall s, queueInv s -> (List.length (tickCallbacks s) <= 1)%nat).
  { intros s [_ [_ Ht]]. destruct (autoRotateId s).
    - destruct Ht as [ar ->]. cbn. lia.
    - rewrite Ht. cbn. lia. }
  split; [exact (Hlen st Hinv) |].
  split.
  { destruct Hinv as [_ [_ Ht]]. split.
    - intros Hid. rewrite Hid in Ht. exact Ht.
    - intros Hnil. destruct (autoRotateId st); [| reflexivity].
      destruct Ht as [ar Hl]. rewrite Hl in Hnil. discriminate. }
  split; [intros h t now; apply startAutoRotate_running |].
  split.
  { intros e p Hp Hne.
    destruct (step_inv st e Hinv) as [st' [E [I P]]].
    exists st'. split; [exact E |]. split; [exact (P Hne p Hp) | exact (Hlen st' I)]. }
  intros h t now.
  destruct (stopAutoRotate_inv st Hinv) as [I Hid].
  split; [exact Hid |]. split.
  - destruct I as [_ [_ Ht]]. rewrite Hid in Ht. exact Ht.
  - apply (startAutoRotate_idle h t now (stopAutoRotate st) I Hid).
Qed.

(** An instance of [autoRotate_single_loop]: the state after
    [startAutoRotate(1, 2)]. *)
Lemma autoRotate_single_loop_witness :
  let st := startAutoRotate 1 2 0 (initialState false cameraFront5) in
  reachable st /\
  (List.length (tickCallbacks st) <= 1)%nat /\
  (autoRotateId st = None <-> tickCallbacks st = []) /\
  (forall (h t now : R),
     autoRotateId st <> None -> startAutoRotate h t now st = st) /\
  (forall (e : Event) (p : R * R),
     loopParams st = Some p -> e <> StopAutoRotate ->
     exists st', step st e = Ok st' /\ loopParams st' = Some p /\
                 (List.length (tickCallbacks st') <= 1)%nat) /\
  (forall (h t now : R),
     autoRotateId (stopAutoRotate st) = None /\
     tickCallbacks (stopAutoRotate st) = [] /\
     loopParams (startAutoRotate h t now (stopAutoRotate st)) = Some (h, t)).
Proof.
  intros st.
  assert (Hr : reachable st).
  { exists false, cameraFront5, [StartAutoRotate 1 2 0]. reflexivity. }
  split; [exact Hr |].
  apply (autoRotate_single_loop st Hr).
Defined.

End AutoRotate.

Section Crossfade.

(** The crossfade step of a frame of a closure that found a ruler, with
    an object loaded and an overlay in place: the factor of [raw] is in
    force afterwards, and the overlay is rebuilt (once, for the new
    direction) exactly if [raw >= 0.5] and it has not been rebuilt yet. *)
Lemma crossfade_ruler (c : Transition) (raw : R) (st : State) :
  hasRuler c = true ->
  threeObject st <> None -> justLoaded st = false -> rulerGroup st <> None ->
  exists (c' : Transition) (st' : State) (g' : Group),
    crossfade c raw st = Ok (c', st') /\
    c' = closureWith (rulerRebuilt c || pastHalf raw) c /\
    rulerGroup st' = Some g' /\
    fadedTo (currentIsDark st) (crossfadeFactor raw) g' /\
    builds st' = (builds st + (if negb (rulerRebuilt c) && pastHalf raw then 1 else 0))%nat /\
    currentViewDirection st'
    = (if negb (rulerRebuilt c) && pastHalf raw then newDirection c
       else currentViewDirection st) /\
    keepsCamera st st'.
Proof.
  intros Hr Hobj Hjl Hg. unfold crossfade, crossfadeFactor, pastHalf. rewrite Hr.
  destruct (rulerGroup st) as [g |] eqn:Eg; [clear Hg | contradiction].
  destruct (Rlt_dec raw 0.5) as [Hlt | Hge].
  - cbn [bind]. destruct (Rge_dec raw 0.5); [lra |].
    destruct (fadeRuler_faded (1 - raw * 2) st g Eg) as [g' [G F]].
    exists c, (fadeRuler (1 - raw * 2) st), g'.
    split; [reflexivity |].
    rewrite orb_false_r, andb_false_r.
    split; [unfold closureWith; destruct c as [? ? ? ? ? ? ? ? [|] ?]; reflexivity |].
    split; [exact G |]. split; [exact F |].
    split; [rewrite builds_fadeRuler; lia |].
    split; [reflexivity | apply keepsCamera_fadeRuler].
  - destruct (Rge_dec raw 0.5) as [_ | N]; [| lra].
    destruct (rulerRebuilt c) eqn:Hb; cbn [negb bind orb andb].
    + destruct (fadeRuler_faded ((raw - 0.5) * 2) st g Eg) as [g' [G F]].
      exists c, (fadeRuler ((raw - 0.5) * 2) st), g'.
      split; [reflexivity |].
      split; [unfold closureWith, markRebuilt; destruct c; cbn in *; congruence |].
      split; [exact G |]. split; [exact F |].
      split; [rewrite builds_fadeRuler; lia |].
      split; [reflexivity | apply keepsCamera_fadeRuler].
    + set (st0 := set_currentViewDirection (newDirection c) st).
      destruct (setScaleRuler_ok true (currentRulerMeshIndex st0) st0)
        as [st1 [E1 [_ [Hen [Hcam [H1 [H2 [H3 [H4 [H5 H6]]]]]]]]]].
      rewrite E1. cbn [bind].
      destruct (Hen Hobj eq_refl) as [[g1 [hx [hy [hz [G1 _]]]]] B1].
      destruct (Hcam Hjl) as [C1 [J1 D1]].
      set (st2 := fadeRuler 0 st1).
      assert (G2 : exists g2, rulerGroup st2 = Some g2).
      { destruct (fadeRuler_faded 0 st1 g1 G1) as [g2 [G2 _]]. exists g2. exact G2. }
      destruct G2 as [g2 G2].
      destruct (fadeRuler_faded ((raw - 0.5) * 2) st2 g2 G2) as [g3 [G3 F3]].
      exists (markRebuilt c), (fadeRuler ((raw - 0.5) * 2) st2), g3.
      split; [reflexivity |]. split; [reflexivity |].
      split; [exact G3 |].
      split; [change (currentIsDark st2) with (currentIsDark st1) in F3; rewrite H2 in F3;
              exact F3 |].
      split; [change (builds (fadeRuler ((raw - 0.5) * 2) st2)) with (builds st1);
              rewrite B1; change (builds st0) with (builds st); lia |].
      split; [change (currentViewDirection (fadeRuler ((raw - 0.5) * 2) st2))
                with (currentViewDirection st1); rewrite D1; reflexivity |].
      unfold keepsCamera.
      change (camera (fadeRuler ((raw - 0.5) * 2) st2)) with (camera st1).
      change (threeObject (fadeRuler ((raw - 0.5) * 2) st2)) with (threeObject st1).
      change (justLoaded (fadeRuler ((raw - 0.5) * 2) st2)) with (justLoaded st1).
      change (currentIsDark (fadeRuler ((raw - 0.5) * 2) st2)) with (currentIsDark st1).
      change (autoRotateId (fadeRuler ((raw - 0.5) * 2) st2)) with (autoRotateId st1).
      change (autoRotatePrev (fadeRuler ((raw - 0.5) * 2) st2)) with (autoRotatePrev st1).
      change (frameCallbacks (fadeRuler ((raw - 0.5) * 2) st2)) with (frameCallbacks st1).
      change (nextHandle (fadeRuler ((raw - 0.5) * 2) st2)) with (nextHandle st1).
      rewrite C1, H1, J1, H2, H3, H4, H5, H6. cbn. rewrite Hjl. repeat split.
Qed.

Lemma rawProgress_le_1 (tr : Transition) (now : R) : rawProgress tr now <= 1.
Proof. unfold rawProgress, Math_min. apply Rmin_r. Qed.

Lemma crossfadeFactor_1 : crossfadeFactor 1 = 1.
Proof. unfold crossfadeFactor. destruct (Rlt_dec 1 0.5); lra. Qed.

Lemma pastHalf_1 : pastHalf 1 = true.
Proof. unfold pastHalf. destruct (Rge_dec 1 0.5); [reflexivity | lra]. Qed.

(** A whole frame of a closure that found a ruler. *)
Lemma animate_ruler (c : Transition) (now : R) (st : State) :
  hasRuler c = true ->
  threeObject st <> None -> justLoaded st = false -> rulerGroup st <> None ->
  exists (st' : State) (g' : Group),
    animate c now st = Ok st' /\
    rulerGroup st' = Some g' /\
    fadedTo (currentIsDark st) (crossfadeFactor (rawProgress c now)) g' /\
    builds st'
    = (builds st
       + (if negb (rulerRebuilt c) && pastHalf (rawProgress c now) then 1 else 0))%nat /\
    currentViewDirection st'
    = (if negb (rulerRebuilt c) && pastHalf (rawProgress c now) then newDirection c
       else currentViewDirection st) /\
    threeObject st' = threeObject st /\ justLoaded st' = false /\
    currentIsDark st' = currentIsDark st /\
    (rawProgress c now < 1 ->
       frameCallbacks st'
       = frameCallbacks st
         ++ [(nextHandle st,
              Animate (closureWith (rulerRebuilt c || pastHalf (rawProgress c now)) c))]) /\
    (~ rawProgress c now < 1 -> frameCallbacks st' = frameCallbacks st).
Proof.
  intros Hr Hobj Hjl Hg. unfold animate.
  set (raw := rawProgress c now).
  set (st0 := set_camera _ st).
  destruct (crossfade_ruler c raw st0 Hr Hobj Hjl Hg)
    as [c1 [st1 [g1 [E1 [Hc1 [G1 [F1 [B1 [D1 K1]]]]]]]]].
  rewrite E1. cbn [bind].
  destruct K1 as [A1 [A2 [A3 [A4 [A5 [A6 [A7 A8]]]]]]].
  change (currentIsDark st0) with (currentIsDark st) in *.
  change (builds st0) with (builds st) in *.
  change (currentViewDirection st0) with (currentViewDirection st) in *.
  change (threeObject st0) with (threeObject st) in *.
  change (justLoaded st0) with (justLoaded st) in *.
  change (frameCallbacks st0) with (frameCallbacks st) in *.
  change (nextHandle st0) with (nextHandle st) in *.
  destruct (Rlt_dec raw 1) as [Hlt | Hge].
  - eexists. exists g1. split; [reflexivity |]. cbn.
    split; [exact G1 |]. split; [exact F1 |]. split; [exact B1 |]. split; [exact D1 |].
    split; [exact A2 |]. split; [congruence |]. split; [exact A4 |].
    split; [intros _; rewrite A7, A8, Hc1; reflexivity | intros N; contradiction].
  - assert (Hraw : raw = 1) by (pose proof (rawProgress_le_1 c now); unfold raw in *; lra).
    assert (Hreb : rulerRebuilt c1 = true).
    { rewrite Hc1, Hraw, pastHalf_1, orb_true_r. reflexivity. }
    assert (Hhas : hasRuler c1 = true).
    { rewrite Hc1. unfold closureWith. destruct (_ || _); [exact Hr | exact Hr]. }
    unfold complete. rewrite Hreb, Hhas. cbn [negb bind].
    set (st2 := match kind c1 with Directed _ => _ | Reset => _ end).
    assert (G2 : rulerGroup st2 = Some g1) by (unfold st2; destruct (kind c1); exact G1).
    destruct (fadeRuler_faded 1 st2 g1 G2) as [g3 [G3 F3]].
    exists (fadeRuler 1 st2), g3. split; [reflexivity |].
    split; [exact G3 |].
    split.
    { rewrite Hraw, crossfadeFactor_1.
      assert (Hd : currentIsDark st2 = currentIsDark st)
        by (unfold st2; destruct (kind c1); exact A4).
      rewrite Hd in F3. exact F3. }
    assert (B2 : builds (fadeRuler 1 st2) = builds st1).
    { change (builds (fadeRuler 1 st2)) with (builds st2).
      unfold st2. destruct (kind c1); rewrite ?builds_logCall; cbn [isBuild]; lia. }
    split; [rewrite B2; exact B1 |].
    split.
    { change (currentViewDirection (fadeRuler 1 st2)) with (currentViewDirection st2).
      unfold st2. destruct (kind c1); exact D1. }
    split; [unfold st2; destruct (kind c1); exact A2 |].
    split; [unfold st2; destruct (kind c1); cbn; congruence |].
    split; [unfold st2; destruct (kind c1); exact A4 |].
    split; [intros H; contradiction |].
    intros _. unfold st2. destruct (kind c1); exact A7.
Qed.

Lemma closureWith_again (b x : bool) (tr : Transition) :
  closureWith x (closureWith b tr) = closureWith (b || x) tr.
Proof. destruct b, x; reflexivity. Qed.

Lemma crossed_app (tr : Transition) (l1 l2 : list R) :
  crossed tr (l1 ++ l2) = crossed tr l1 || crossed tr l2.
Proof. unfold crossed. apply existsb_app. Qed.

Lemma run_app (es1 es2 : list Event) (a b : State) :
  run a es1 = Ok b -> run a (es1 ++ es2) = run b es2.
Proof.
  revert a. induction es1 as [| e es1 IH]; intros a Ha.
  - cbn in Ha. injection Ha as <-. reflexivity.
  - change ((e :: es1) ++ es2) with (e :: (es1 ++ es2)).
    cbn [run] in *.
    destruct (step a e) as [a1 | f]; cbn [bind] in *; [| discriminate].
    apply IH. exact Ha.
Qed.

End Crossfade.

Section Sessions.

(** A frame of a closure that found no ruler, spelled out. *)
Lemma animate_no_ruler (tr : Transition) (now : R) (st : State) :
  hasRuler tr = false ->
  animate tr now st
  = (let st1 := set_camera (mkCamera (frameEye tr now) (center (camera st))
                                     (frameUp tr now)) st in
     if Rlt_dec (rawProgress tr now) 1
     then Ok (snd (requestAnimationFrame (Animate tr) st1))
     else complete tr st1).
Proof.
  intros Hr. unfold animate, crossfade. rewrite Hr. reflexivity.
Qed.

Lemma complete_directed_no_ruler (tr : Transition) (direction : string) (st : State) :
  hasRuler tr = false -> rulerRebuilt tr = false -> kind tr = Directed direction ->
  complete tr st
  = Ok (set_currentViewDirection direction (logCall (AdjustClippingPlanesToSphere 1) st)).
Proof.
  intros Hr Hb Hk. unfold complete, newDirection. rewrite Hr, Hb, Hk. reflexivity.
Qed.

(** A frame with two pending callbacks runs the older one, then the
    newer one. *)
Lemma runFrame_two (h1 h2 : nat) (cb1 cb2 : Callback) (now : R) (st st1 : State) :
  frameCallbacks st = [(h1, cb1); (h2, cb2)] -> h1 <> h2 ->
  invoke cb1 now (set_frameCallbacks [(h2, cb2)] st) = Ok st1 ->
  (exists rest, frameCallbacks st1 = (h2, cb2) :: rest /\
                Forall (fun e => fst e <> h2) rest) ->
  exists rest,
    frameCallbacks st1 = (h2, cb2) :: rest /\
    runFrame now st = invoke cb2 now (set_frameCallbacks rest st1).
Proof.
  intros Hq Hne E1 [rest [Hq1 Hrest]].
  exists rest. split; [exact Hq1 |].
  unfold runFrame. rewrite Hq. cbn [map fst runCallbacks].
  unfold lookupCallback at 1. rewrite Hq. cbn [find fst snd option_map].
  rewrite Nat.eqb_refl. cbn [option_map snd].
  unfold cancelAnimationFrame at 1. rewrite Hq. cbn [filter fst].
  rewrite Nat.eqb_refl. cbn [negb].
  destruct (Nat.eqb_spec h2 h1) as [Heq | _]; [congruence |]. cbn [negb].
  rewrite E1. cbn [bind].
  unfold lookupCallback. rewrite Hq1. cbn [find fst snd option_map].
  rewrite Nat.eqb_refl. cbn [option_map snd].
  unfold cancelAnimationFrame. rewrite Hq1. cbn [filter fst].
  rewrite Nat.eqb_refl. cbn [negb].
  assert (Hf : filter (fun e : nat * Callback => negb (Nat.eqb (fst e) h2)) rest = rest).
  { clear Hq1. induction rest as [| e rest IH]; [reflexivity |].
    inversion Hrest as [| x xs Hx Hxs Heq]; subst. cbn [filter].
    destruct (Nat.eqb_spec (fst e) h2) as [Heq | _]; [contradiction |]. cbn [negb].
    rewrite (IH Hxs). reflexivity. }
  rewrite Hf. apply bind_ret.
Qed.

Lemma rawProgress_quarter (tr : Transition) :
  startTime tr = 300 -> rawProgress tr 400 < 1.
Proof.
  intros H. unfold rawProgress, Math_min, Rmin. rewrite H.
  destruct (Rle_dec ((400 - 300) / 400) 1); lra.
Qed.

(** C1, the counterexample: [setCameraDirection('top')] at 0 ms and
    [setCameraDirection('left')] at 300 ms, with no frame in between,
    leave both closures pending.  In the frame at 400 ms the superseded
    closure runs first: it moves the eye from (0,0,5) to (0,5,0), the up
    to (0,0,-1) and makes ['top'] the current view direction; and that
    direction is still current when the frame ends. *)
Lemma stale_session_counterexample :
  let st0 := initialState false cameraFront5 in
  let st2 := setCameraDirection "left" 300 (setCameraDirection "top" 0 st0) in
  exists (trTop trLeft : Transition) (st3 : State),
    frameCallbacks st2 = [(0%nat, Animate trTop); (1%nat, Animate trLeft)] /\
    kind trTop = Directed "top" /\ startTime trTop = 0 /\
    kind trLeft = Directed "left" /\ startTime trLeft = 300 /\
    eye (camera st2) = vec3 0 0 5 /\ up (camera st2) = vec3 0 1 0 /\
    currentViewDirection st2 = "front"%string /\
    invoke (Animate trTop) 400 (cancelAnimationFrame 0 st2) = Ok st3 /\
    eye (camera st3) = vec3 0 5 0 /\ up (camera st3) = vec3 0 0 (-1) /\
    currentViewDirection st3 = "top"%string /\
    exists st4 : State,
      runFrame 400 st2 = Ok st4 /\ currentViewDirection st4 = "top"%string.
Proof.
  intros st0 st2.
  set (trTop := mkTransition (Directed "top") (vec3 0 0 0) (eyeDistance cameraFront5)
              (vec3 (0 + 0 * eyeDistance cameraFront5) (0 + 1 * eyeDistance cameraFront5)
                    (0 + 0 * eyeDistance cameraFront5))
              (vec3 0 0 5) (vec3 0 1 0) (vec3 0 0 (-1)) false false 0).
  set (trLeft := mkTransition (Directed "left") (vec3 0 0 0) (eyeDistance cameraFront5)
              (vec3 (0 + -1 * eyeDistance cameraFront5) (0 + 0 * eyeDistance cameraFront5)
                    (0 + 0 * eyeDistance cameraFront5))
              (vec3 0 0 5) (vec3 0 1 0) (vec3 0 1 0) false false 300).
  assert (Hq : frameCallbacks st2 = [(0%nat, Animate trTop); (1%nat, Animate trLeft)])
    by reflexivity.
  set (st2' := set_frameCallbacks [(1%nat, Animate trLeft)] st2).
  assert (Hc : cancelAnimationFrame 0 st2 = st2') by reflexivity.
  assert (Hdone : ~ rawProgress trTop 400 < 1).
  { rewrite (rawProgress_done trTop 400); [lra |]. cbn [startTime trTop]. lra. }
  set (st3 := set_currentViewDirection "top"
                (logCall (AdjustClippingPlanesToSphere 1)
                   (set_camera (mkCamera (frameEye trTop 400) (center (camera st2'))
                                         (frameUp trTop 400)) st2'))).
  assert (E3 : invoke (Animate trTop) 400 st2' = Ok st3).
  { cbn [invoke]. rewrite animate_no_ruler by reflexivity. cbv zeta.
    destruct (Rlt_dec (rawProgress trTop 400) 1); [contradiction |].
    apply (complete_directed_no_ruler _ "top"); reflexivity. }
  destruct (animate_at_completion st0 st2' "top" 0 400 trTop trTop)
    as [dv [uv [st3' [Hd [E3' [He Hu]]]]]];
    [reflexivity | left; reflexivity | lra | left; reflexivity |].
  assert (Hsame : st3' = st3).
  { cbn [invoke] in E3. rewrite E3 in E3'. injection E3' as <-. reflexivity. }
  subst st3'.
  cbn in Hd. injection Hd as <- <-.
  exists trTop, trLeft, st3.
  split; [exact Hq |].
  split; [reflexivity |]. split; [reflexivity |].
  split; [reflexivity |]. split; [reflexivity |].
  split; [reflexivity |]. split; [reflexivity |]. split; [reflexivity |].
  split; [rewrite Hc; exact E3 |].
  split.
  { rewrite He. cbn [camera st0 initialState cameraFront5 center vx vy vz].
    fold cameraFront5. rewrite eyeDistance_cameraFront5. f_equal; ring. }
  split; [exact Hu |]. split; [reflexivity |].
  destruct (runFrame_two 0 1 (Animate trTop) (Animate trLeft) 400 st2 st3 Hq) as [rest [Hr Hrun]].
  - discriminate.
  - exact E3.
  - exists []. split; [reflexivity | constructor].
  - cbn in Hr. injection Hr as <-.
    rewrite Hrun. cbn [invoke]. rewrite animate_no_ruler by reflexivity. cbv zeta.
    destruct (Rlt_dec (rawProgress trLeft 400) 1) as [_ | N];
      [| exfalso; apply N; apply rawProgress_quarter; reflexivity].
    eexists. split; reflexivity.
Qed.

End Sessions.

Section AnyState.

(** An enable of [setScaleRuler], in any state. *)
Lemma setScaleRuler_enabled (meshIndex : option Z) (st : State) :
  exists st' : State,
    setScaleRuler true meshIndex st = Ok st' /\
    (threeObject st = None -> st' = st) /\
    (threeObject st <> None ->
       rulerGroup st' <> None /\ builds st' = S (builds st) /\ justLoaded st' = false /\
       camera st' = (if justLoaded st then poseOnLoad (camera st) else camera st) /\
       currentViewDirection st'
       = (if justLoaded st then "front"%string else currentViewDirection st)) /\
    threeObject st' = threeObject st /\
    currentIsDark st' = currentIsDark st /\
    autoRotateId st' = autoRotateId st /\
    autoRotatePrev st' = autoRotatePrev st /\
    frameCallbacks st' = frameCallbacks st /\
    nextHandle st' = nextHandle st.
Proof.
  destruct (setScaleRuler_ok true meshIndex st)
    as [st' [E [Hnone [Hen [Hjl [T1 [T2 [T3 [T4 [T5 T6]]]]]]]]]].
  exists st'. split; [exact E |]. split; [exact Hnone |].
  split; [| repeat split; assumption].
  intros Hobj. destruct (Hen Hobj eq_refl) as [[g [hx [hy [hz [G _]]]]] B].
  split; [rewrite G; discriminate |]. split; [exact B |].
  destruct (justLoaded st) eqn:J.
  - unfold setScaleRuler in E.
    destruct (threeObject st) as [obj |] eqn:Ho; [| contradiction]. cbn [negb] in E.
    set (st1 := eyeLevelOnLoad _) in E.
    set (st2 := removeExistingRuler st1) in E.
    set (box := match findMeshByIndex obj meshIndex with Some m => m | None => objectBox obj end)
      in E.
    destruct (buildRuler_ok box st2) as [st3 [E3 [O3 _]]].
    rewrite E3 in E. injection E as <-.
    assert (O2 : overlayOnly st1 st2).
    { unfold st2, removeExistingRuler. destruct (rulerGroup st1); overlay_step. }
    destruct (overlayOnly_trans _ _ _ O2 O3) as [_ [J3 [_ [C [D _]]]]].
    assert (C1 : camera st1 = poseOnLoad (camera st)).
    { unfold st1, eyeLevelOnLoad. cbn. rewrite J. reflexivity. }
    assert (J1 : justLoaded st1 = false).
    { unfold st1, eyeLevelOnLoad. cbn. rewrite J. reflexivity. }
    assert (D1 : currentViewDirection st1 = "front"%string).
    { unfold st1, eyeLevelOnLoad. cbn. rewrite J. reflexivity. }
    split; [congruence |]. split; congruence.
  - destruct (Hjl eq_refl) as [C [J' D]]. split; [exact J' |]. split; assumption.
Qed.

Lemma fadeRuler_any (f : R) (st : State) (g : Group) :
  rulerGroup (fadeRuler f st) = Some g -> fadedTo (currentIsDark st) f g.
Proof.
  intros H. destruct (rulerGroup st) as [g0 |] eqn:G.
  - destruct (fadeRuler_faded f st g0 G) as [g' [G' F]]. congruence.
  - unfold fadeRuler in H. cbn [rulerGroup set_rulerGroup] in H. rewrite G in H. discriminate.
Qed.

Lemma fadeRuler_isSome (f : R) (st : State) :
  isSome (rulerGroup (fadeRuler f st)) = isSome (rulerGroup st).
Proof.
  unfold fadeRuler. cbn [rulerGroup set_rulerGroup]. destruct (rulerGroup st); reflexivity.
Qed.

Lemma pastHalf_lt (raw : R) : raw < 0.5 -> pastHalf raw = false.
Proof. intros H. unfold pastHalf. destruct (Rge_dec raw 0.5); [lra | reflexivity]. Qed.

Lemma pastHalf_ge (raw : R) : ~ raw < 0.5 -> pastHalf raw = true.
Proof. intros H. unfold pastHalf. destruct (Rge_dec raw 0.5); [reflexivity | lra]. Qed.

Lemma isSome_true {A : Type} (o : option A) : o <> None -> isSome o = true.
Proof. destruct o; [reflexivity | contradiction]. Qed.

(** The crossfade step of a call of a closure, in any state. *)
Lemma crossfade_total (c : Transition) (raw : R) (st : State) :
  exists st' : State,
    crossfade c raw st = Ok (closureWith (rebuildsNow c raw) c, st') /\
    camera st' = (if takesLoadBranch c raw st then poseOnLoad (camera st) else camera st) /\
    justLoaded st' = (if takesLoadBranch c raw st then false else justLoaded st) /\
    currentViewDirection st'
    = (if rebuildsNow c raw
       then if isSome (threeObject st) && justLoaded st then "front"%string else newDirection c
       else currentViewDirection st) /\
    builds st' = (builds st + rebuildCount c raw st)%nat /\
    (hasRuler c = true ->
       forall g : Group, rulerGroup st' = Some g ->
                         fadedTo (currentIsDark st) (crossfadeFactor raw) g) /\
    (hasRuler c = false -> st' = st) /\
    isSome (rulerGroup st')
    = (isSome (rulerGroup st) || (rebuildsNow c raw && isSome (threeObject st))) /\
    threeObject st' = threeObject st /\
    currentIsDark st' = currentIsDark st /\
    autoRotateId st' = autoRotateId st /\
    autoRotatePrev st' = autoRotatePrev st /\
    frameCallbacks st' = frameCallbacks st /\
    nextHandle st' = nextHandle st.
Proof.
  unfold crossfade, takesLoadBranch, rebuildCount, rebuildsNow, crossfadeFactor.
  destruct (hasRuler c) eqn:Hr; cbn [andb].
  2:{ exists st. cbn [closureWith]. split; [reflexivity |].
      rewrite orb_false_r, Nat.add_0_r. repeat split; try reflexivity. intros H; discriminate H. }
  destruct (Rlt_dec raw 0.5) as [Hlt | Hge].
  - rewrite (pastHalf_lt raw Hlt), andb_false_r. cbn [andb bind closureWith].
    destruct (Rge_dec raw 0.5); [lra |].
    exists (fadeRuler (1 - raw * 2) st). split; [reflexivity |].
    rewrite orb_false_r, Nat.add_0_r, fadeRuler_isSome.
    split; [reflexivity |]. split; [reflexivity |]. split; [reflexivity |].
    split; [reflexivity |].
    split; [intros _ g G; exact (fadeRuler_any _ _ _ G) |].
    split; [intros H; discriminate H |]. repeat split.
  - rewrite (pastHalf_ge raw Hge), andb_true_r.
    destruct (Rge_dec raw 0.5) as [_ | N]; [| lra].
    destruct (rulerRebuilt c) eqn:Hb; cbn [negb andb bind closureWith].
    + exists (fadeRuler ((raw - 0.5) * 2) st). split; [reflexivity |].
      rewrite orb_false_r, Nat.add_0_r, fadeRuler_isSome.
      split; [reflexivity |]. split; [reflexivity |]. split; [reflexivity |].
      split; [reflexivity |].
      split; [intros _ g G; exact (fadeRuler_any _ _ _ G) |].
      split; [intros H; discriminate H |]. repeat split.
    + set (st0 := set_currentViewDirection (newDirection c) st).
      destruct (setScaleRuler_enabled (currentRulerMeshIndex st0) st0)
        as [st1 [E1 [Hnone [Hobj [T1 [T2 [T3 [T4 [T5 T6]]]]]]]]].
      rewrite E1. cbn [bind].
      exists (fadeRuler ((raw - 0.5) * 2) (fadeRuler 0 st1)). split; [reflexivity |].
      rewrite !fadeRuler_isSome.
      change (camera (fadeRuler ((raw - 0.5) * 2) (fadeRuler 0 st1))) with (camera st1).
      change (justLoaded (fadeRuler ((raw - 0.5) * 2) (fadeRuler 0 st1))) with (justLoaded st1).
      change (currentViewDirection (fadeRuler ((raw - 0.5) * 2) (fadeRuler 0 st1)))
        with (currentViewDirection st1).
      change (builds (fadeRuler ((raw - 0.5) * 2) (fadeRuler 0 st1))) with (builds st1).
      change (threeObject (fadeRuler ((raw - 0.5) * 2) (fadeRuler 0 st1))) with (threeObject st1).
      change (currentIsDark (fadeRuler ((raw - 0.5) * 2) (fadeRuler 0 st1)))
        with (currentIsDark st1).
      change (autoRotateId (fadeRuler ((raw - 0.5) * 2) (fadeRuler 0 st1)))
        with (autoRotateId st1).
      change (autoRotatePrev (fadeRuler ((raw - 0.5) * 2) (fadeRuler 0 st1)))
        with (autoRotatePrev st1).
      change (frameCallbacks (fadeRuler ((raw - 0.5) * 2) (fadeRuler 0 st1)))
        with (frameCallbacks st1).
      change (nextHandle (fadeRuler ((raw - 0.5) * 2) (fadeRuler 0 st1))) with (nextHandle st1).
      change (threeObject st0) with (threeObject st) in *.
      change (justLoaded st0) with (justLoaded st) in *.
      change (camera st0) with (camera st) in *.
      change (builds st0) with (builds st) in *.
      change (currentIsDark st0) with (currentIsDark st) in *.
      change (autoRotateId st0) with (autoRotateId st) in *.
      change (autoRotatePrev st0) with (autoRotatePrev st) in *.
      change (frameCallbacks st0) with (frameCallbacks st) in *.
      change (nextHandle st0) with (nextHandle st) in *.
      change (currentViewDirection st0) with (newDirection c) in *.
      assert (Hfade : forall g : Group,
                 rulerGroup (fadeRuler ((raw - 0.5) * 2) (fadeRuler 0 st1)) = Some g ->
                 fadedTo (currentIsDark st) ((raw - 0.5) * 2) g).
      { intros g G. apply fadeRuler_any in G.
        change (currentIsDark (fadeRuler 0 st1)) with (currentIsDark st1) in G.
        rewrite T2 in G. exact G. }
      destruct (threeObject st) as [obj |] eqn:Ho; cbn [isSome andb].
      * destruct Hobj as [G1 [B1 [J1 [C1 D1]]]]; [discriminate |].
        rewrite (isSome_true _ G1), orb_true_r.
        split; [rewrite C1; destruct (justLoaded st); reflexivity |].
        split; [rewrite J1; destruct (justLoaded st); reflexivity |].
        split; [exact D1 |]. split; [rewrite B1; lia |].
        split; [intros _; exact Hfade |]. split; [intros H; discriminate H |].
        repeat split; assumption.
      * rewrite (Hnone eq_refl) in *. rewrite orb_false_r, Nat.add_0_r.
        split; [reflexivity |]. split; [reflexivity |]. split; [reflexivity |].
        split; [reflexivity |].
        split; [intros _; exact Hfade |]. split; [intros H; discriminate H |].
        repeat split; try reflexivity. exact Ho.
Qed.

End AnyState.

Section AnyCall.

Lemma closureWith_hasRuler (b : bool) (tr : Transition) :
  hasRuler (closureWith b tr) = hasRuler tr.
Proof. destruct b; reflexivity. Qed.

Lemma closureWith_kind (b : bool) (tr : Transition) : kind (closureWith b tr) = kind tr.
Proof. destruct b; reflexivity. Qed.

Lemma closureWith_newDirection (b : bool) (tr : Transition) :
  newDirection (closureWith b tr) = newDirection tr.
Proof. destruct b; reflexivity. Qed.

Lemma closureWith_rebuilt (b : bool) (tr : Transition) :
  rulerRebuilt (closureWith b tr) = (b || rulerRebuilt tr).
Proof. destruct b; reflexivity. Qed.

(** One call of an [animate] closure, in any state and whatever else is
    pending: it never faults, hands its interpolated eye and up to the
    camera, runs its crossfade, and registers itself again exactly when
    its own [raw] is below 1. *)
Lemma animate_total (tr : Transition) (now : R) (st : State) :
  exists st' : State,
    animate tr now st = Ok st' /\
    camera st' = cameraAfter tr now st /\
    justLoaded st'
    = (if takesLoadBranch tr (rawProgress tr now) st then false else justLoaded st) /\
    currentViewDirection st' = directionAfter tr (rawProgress tr now) st /\
    builds st' = (builds st + rebuildCount tr (rawProgress tr now) st)%nat /\
    (hasRuler tr = true ->
       forall g : Group, rulerGroup st' = Some g ->
                         fadedTo (currentIsDark st) (crossfadeFactor (rawProgress tr now)) g) /\
    (hasRuler tr = false -> rulerGroup st' = rulerGroup st) /\
    isSome (rulerGroup st')
    = (isSome (rulerGroup st)
       || (rebuildsNow tr (rawProgress tr now) && isSome (threeObject st))) /\
    threeObject st' = threeObject st /\
    currentIsDark st' = currentIsDark st /\
    autoRotateId st' = autoRotateId st /\
    autoRotatePrev st' = autoRotatePrev st /\
    frameCallbacks st'
    = (if Rlt_dec (rawProgress tr now) 1
       then frameCallbacks st
            ++ [(nextHandle st, Animate (closureWith (rebuildsNow tr (rawProgress tr now)) tr))]
       else frameCallbacks st) /\
    nextHandle st'
    = (if Rlt_dec (rawProgress tr now) 1 then S (nextHandle st) else nextHandle st).
Proof.
  unfold animate, cameraAfter, directionAfter.
  set (raw := rawProgress tr now).
  set (st0 := set_camera (mkCamera (frameEye tr now) (center (camera st)) (frameUp tr now)) st).
  destruct (crossfade_total tr raw st0)
    as [st1 [E1 [C1 [J1 [D1 [B1 [F1 [N1 [G1 [T1 [T2 [T3 [T4 [T5 T6]]]]]]]]]]]]]].
  rewrite E1. cbn [bind].
  change (takesLoadBranch tr raw st0) with (takesLoadBranch tr raw st) in *.
  change (rebuildCount tr raw st0) with (rebuildCount tr raw st) in *.
  change (camera st0) with (writtenCamera tr now st) in *.
  change (justLoaded st0) with (justLoaded st) in *.
  change (currentViewDirection st0) with (currentViewDirection st) in *.
  change (builds st0) with (builds st) in *.
  change (threeObject st0) with (threeObject st) in *.
  change (currentIsDark st0) with (currentIsDark st) in *.
  change (rulerGroup st0) with (rulerGroup st) in *.
  change (autoRotateId st0) with (autoRotateId st) in *.
  change (autoRotatePrev st0) with (autoRotatePrev st) in *.
  change (frameCallbacks st0) with (frameCallbacks st) in *.
  change (nextHandle st0) with (nextHandle st) in *.
  assert (Hno : hasRuler tr = false -> rulerGroup st1 = rulerGroup st).
  { intros H. rewrite (N1 H). reflexivity. }
  destruct (Rlt_dec raw 1) as [Hlt | Hge].
  - eexists. split; [reflexivity |].
    cbn [requestAnimationFrame snd].
    split; [exact C1 |]. split; [exact J1 |].
    split; [rewrite <- D1; reflexivity |]. split; [exact B1 |].
    split; [exact F1 |]. split; [exact Hno |]. split; [exact G1 |].
    split; [exact T1 |]. split; [exact T2 |]. split; [exact T3 |]. split; [exact T4 |].
    cbn. rewrite T5, T6. split; reflexivity.
  - assert (Hraw : raw = 1) by (pose proof (rawProgress_le_1 tr now); unfold raw in *; lra).
    unfold complete. rewrite (closureWith_hasRuler _ tr), (closureWith_kind _ tr),
      (closureWith_newDirection _ tr).
    set (tr1 := closureWith (rebuildsNow tr raw) tr).
    assert (Hreb : hasRuler tr = true -> rulerRebuilt tr1 = true).
    { intros H. unfold tr1. rewrite closureWith_rebuilt. unfold rebuildsNow.
      rewrite H, Hraw, pastHalf_1. destruct (rulerRebuilt tr); reflexivity. }
    set (st2 := match kind tr with Directed _ => _ | Reset => _ end).
    assert (K2 : camera st2 = camera st1 /\ justLoaded st2 = justLoaded st1 /\
                 currentViewDirection st2 = currentViewDirection st1 /\
                 builds st2 = builds st1 /\ rulerGroup st2 = rulerGroup st1 /\
                 threeObject st2 = threeObject st1 /\ currentIsDark st2 = currentIsDark st1 /\
                 autoRotateId st2 = autoRotateId st1 /\
                 autoRotatePrev st2 = autoRotatePrev st1 /\
                 frameCallbacks st2 = frameCallbacks st1 /\ nextHandle st2 = nextHandle st1).
    { unfold st2. destruct (kind tr); rewrite ?builds_logCall; cbn [isBuild]; repeat split; lia. }
    destruct K2 as [K1 [K2 [K3 [K4 [K5 [K6 [K7 [K8 [K9 [K10 K11]]]]]]]]]].
    destruct (hasRuler tr) eqn:Hr.
    + rewrite (Hreb eq_refl). cbn [negb bind].
      exists (fadeRuler 1 st2). split; [reflexivity |].
      change (camera (fadeRuler 1 st2)) with (camera st2).
      change (justLoaded (fadeRuler 1 st2)) with (justLoaded st2).
      change (currentViewDirection (fadeRuler 1 st2)) with (currentViewDirection st2).
      change (builds (fadeRuler 1 st2)) with (builds st2).
      change (threeObject (fadeRuler 1 st2)) with (threeObject st2).
      change (currentIsDark (fadeRuler 1 st2)) with (currentIsDark st2).
      change (autoRotateId (fadeRuler 1 st2)) with (autoRotateId st2).
      change (autoRotatePrev (fadeRuler 1 st2)) with (autoRotatePrev st2).
      change (frameCallbacks (fadeRuler 1 st2)) with (frameCallbacks st2).
      change (nextHandle (fadeRuler 1 st2)) with (nextHandle st2).
      rewrite fadeRuler_isSome, K1, K2, K3, K4, K5, K6, K7, K8, K9, K10, K11.
      split; [exact C1 |]. split; [exact J1 |].
      split.
      { rewrite D1. unfold rebuildsNow. rewrite Hr, Hraw, pastHalf_1.
        destruct (rulerRebuilt tr); reflexivity. }
      split; [exact B1 |].
      split.
      { intros _ g G. apply fadeRuler_any in G. rewrite K7, T2 in G.
        rewrite Hraw, crossfadeFactor_1. exact G. }
      split; [intros H; discriminate H |]. split; [exact G1 |].
      repeat split; assumption.
    + assert (Etr1 : tr1 = tr).
      { unfold tr1, rebuildsNow. rewrite Hr. reflexivity. }
      rewrite Etr1.
      assert (Enow : rebuildsNow tr raw = false) by (unfold rebuildsNow; rewrite Hr; reflexivity).
      rewrite Enow in *.
      eexists. split; [reflexivity |].
      destruct (rulerRebuilt tr); cbn [negb];
        cbn [set_currentViewDirection camera justLoaded currentViewDirection threeObject
             currentIsDark autoRotateId autoRotatePrev frameCallbacks nextHandle rulerGroup];
        rewrite ?K1, ?K2, ?K3, ?K5, ?K6, ?K7, ?K8, ?K9, ?K10, ?K11;
        (split; [exact C1 |]); (split; [exact J1 |]);
        (split; [try exact D1; reflexivity |]);
        (split; [try exact B1; change (builds (set_currentViewDirection (newDirection tr) st2))
                                 with (builds st2); rewrite ?K4; exact B1 |]);
        (split; [intros H; discriminate H |]); (split; [intros _; exact (Hno eq_refl) |]);
        (split; [exact G1 |]); repeat split; assumption.
Qed.

End AnyCall.

Section FrameOrder.

Lemma find_handle (l : list (nat * Callback)) (h : nat) (cb : Callback) :
  NoDup (map fst l) -> In (h, cb) l ->
  find (fun e => Nat.eqb (fst e) h) l = Some (h, cb).
Proof.
  induction l as [| [h0 c0] l IH]; intros Hnd Hin; [contradiction |].
  cbn [map fst] in Hnd. inversion Hnd as [| x xs Hnotin Hnd' Heq]; subst.
  cbn [find fst]. destruct Hin as [Heq | Hin].
  - injection Heq as -> ->. rewrite Nat.eqb_refl. reflexivity.
  - destruct (Nat.eqb_spec h0 h) as [-> | _]; [| exact (IH Hnd' Hin)].
    exfalso. apply Hnotin. apply in_map_iff. exists (h, cb). split; [reflexivity | exact Hin].
Qed.

Lemma lookupCallback_of_In (h : nat) (cb : Callback) (st : State) :
  queueInv st -> In (h, cb) (frameCallbacks st) -> lookupCallback h st = Some cb.
Proof.
  intros [Hnd _] Hin. unfold lookupCallback. rewrite (find_handle _ h cb Hnd Hin). reflexivity.
Qed.

Lemma cameraAfter_center (tr : Transition) (now : R) (st : State) :
  center (cameraAfter tr now st) = center (camera st).
Proof.
  unfold cameraAfter. destruct (takesLoadBranch tr (rawProgress tr now) st); reflexivity.
Qed.

(** A callback other than the one with handle [h] leaves that one
    pending; no callback changes the loaded object or the center of the
    camera. *)
Lemma invoke_keeps (h' h : nat) (cb' cb : Callback) (now : R) (st : State) :
  h' <> h -> In (h, cb) (frameCallbacks st) ->
  exists st' : State,
    invoke cb' now (cancelAnimationFrame h' st) = Ok st' /\
    In (h, cb) (frameCallbacks st') /\
    threeObject st' = threeObject st /\
    center (camera st') = center (camera st).
Proof.
  intros Hne Hin.
  set (st1 := cancelAnimationFrame h' st).
  assert (Hin1 : In (h, cb) (frameCallbacks st1)).
  { unfold st1, cancelAnimationFrame. cbn [frameCallbacks set_frameCallbacks].
    apply filter_In. split; [exact Hin |]. cbn [fst].
    destruct (Nat.eqb_spec h h') as [E | _]; [congruence | reflexivity]. }
  destruct cb' as [tr | ar]; cbn [invoke].
  - destruct (animate_total tr now st1)
      as (st2 & E & C & _ & _ & _ & _ & _ & _ & T & _ & _ & _ & Q & _).
    exists st2. split; [exact E |].
    split.
    { rewrite Q. destruct (Rlt_dec (rawProgress tr now) 1); [| exact Hin1].
      apply in_or_app. left. exact Hin1. }
    split; [rewrite T; reflexivity |].
    rewrite C, cameraAfter_center. reflexivity.
  - eexists. split; [reflexivity |].
    unfold tick. cbn.
    split; [apply in_or_app; left; exact Hin1 |]. split; reflexivity.
Qed.

Lemma runCallbacks_keeps (now : R) (h : nat) (cb : Callback) (hs : list nat) :
  ~ In h hs ->
  forall st : State,
    queueInv st -> In (h, cb) (frameCallbacks st) ->
    exists st1 : State,
      runCallbacks hs now st = Ok st1 /\ queueInv st1 /\
      In (h, cb) (frameCallbacks st1) /\
      threeObject st1 = threeObject st /\
      center (camera st1) = center (camera st).
Proof.
  induction hs as [| h' hs IH]; intros Hnotin st Hinv Hin; cbn [runCallbacks].
  - exists st. split; [reflexivity |]. split; [exact Hinv |]. split; [exact Hin |].
    split; reflexivity.
  - assert (Hne : h' <> h) by (intros ->; apply Hnotin; left; reflexivity).
    assert (Hnotin' : ~ In h hs) by (intros H; apply Hnotin; right; exact H).
    destruct (lookupCallback h' st) as [cb' |] eqn:Hlook; [| exact (IH Hnotin' st Hinv Hin)].
    destruct (invoke_inv h' cb' now st Hinv Hlook) as [st1 [E1 [I1 _]]].
    destruct (invoke_keeps h' h cb' cb now st Hne Hin) as [st1' [E1' [K1 [O1 C1]]]].
    rewrite E1 in E1'. injection E1' as <-.
    rewrite E1. cbn [bind].
    destruct (IH Hnotin' st1 I1 K1) as [st2 [E2 [I2 [K2 [O2 C2]]]]].
    exists st2. split; [exact E2 |]. split; [exact I2 |]. split; [exact K2 |].
    split; congruence.
Qed.

Lemma runCallbacks_app (now : R) (a b : list nat) :
  forall st : State,
    runCallbacks (a ++ b) now st = (st1 <- runCallbacks a now st ;; runCallbacks b now st1).
Proof.
  induction a as [| h a IH]; intros st; [reflexivity |].
  rewrite <- app_comm_cons. cbn [runCallbacks].
  destruct (lookupCallback h st) as [cb |]; [| apply IH].
  destruct (invoke cb now (cancelAnimationFrame h st)) as [st' | f]; cbn [bind];
    [apply IH | reflexivity].
Qed.

(** A frame in which the closure [newer] is the callback registered
    last: the callbacks before it run first, and the camera at the end of
    the frame is the one that the call of [newer] leaves. *)
Lemma runFrame_last (pre : list (nat * Callback)) (h : nat) (newer : Transition)
    (now : R) (st : State) :
  queueInv st -> frameCallbacks st = pre ++ [(h, Animate newer)] ->
  exists s1 st' : State,
    runCallbacks (map fst pre) now st = Ok s1 /\
    runFrame now st = Ok st' /\
    animate newer now (cancelAnimationFrame h s1) = Ok st' /\
    threeObject s1 = threeObject st /\
    center (camera s1) = center (camera st).
Proof.
  intros Hinv Hq.
  assert (Hin : In (h, Animate newer) (frameCallbacks st)).
  { rewrite Hq. apply in_or_app. right. left. reflexivity. }
  assert (Hnotin : ~ In h (map fst pre)).
  { destruct Hinv as [Hnd _]. rewrite Hq, map_app in Hnd. cbn [map fst] in Hnd.
    apply NoDup_remove_2 in Hnd. rewrite app_nil_r in Hnd. exact Hnd. }
  destruct (runCallbacks_keeps now h (Animate newer) (map fst pre) Hnotin st Hinv Hin)
    as [s1 [E1 [I1 [K1 [O1 C1]]]]].
  destruct (animate_total newer now (cancelAnimationFrame h s1)) as [st' [E2 _]].
  exists s1, st'. split; [exact E1 |].
  split; [| split; [exact E2 | split; assumption]].
  unfold runFrame. rewrite Hq, map_app. cbn [map fst].
  rewrite runCallbacks_app, E1. cbn [bind runCallbacks].
  rewrite (lookupCallback_of_In h (Animate newer) s1 I1 K1). cbn [invoke].
  rewrite E2. reflexivity.
Qed.

(** A frame begins with the callback registered first. *)
Lemma runFrame_first (h : nat) (cb : Callback) (rest : list (nat * Callback))
    (now : R) (st : State) :
  frameCallbacks st = (h, cb) :: rest ->
  runFrame now st
  = (s1 <- invoke cb now (cancelAnimationFrame h st) ;; runCallbacks (map fst rest) now s1).
Proof.
  intros Hq. unfold runFrame. rewrite Hq. cbn [map fst runCallbacks].
  unfold lookupCallback at 1. rewrite Hq. cbn [find fst]. rewrite Nat.eqb_refl.
  reflexivity.
Qed.

End FrameOrder.

Section StaleSessions.

(** C1, as amended: there is no session handle and no ownership check.
    [setCameraDirection] only appends the closure of the new session to
    the pending frame callbacks.  Every call of an [animate] closure, in
    any state and whatever else is pending, completes without fault; it
    hands to the camera the eye and up that it interpolates from its own
    captured start and target (the camera keeps them unless the ruler
    rebuild of that same call takes the post-load branch of
    [setScaleRuler], which puts the eye in front of the center); a closure
    that captured a ruler leaves the overlay at its own crossfade factor,
    any other leaves the overlay alone; the current view direction becomes
    the closure's own when it rebuilds the ruler or completes; and the
    closure registers itself again exactly while its own [raw] is below 1.
    In a reachable state a frame calls the pending callbacks in the order
    of their registration: the oldest first, and the camera at the end of
    the frame is the one left by the call of the closure registered
    last. *)
Theorem stale_callbacks_still_run (st : State) :
  reachable st ->
  (forall (direction : string) (now0 : R) (tr : Transition),
     directedTransition direction now0 st = Some tr ->
     frameCallbacks (setCameraDirection direction now0 st)
     = frameCallbacks st ++ [(nextHandle st, Animate tr)]) /\
  (forall (tr : Transition) (now : R) (s : State),
     exists s' : State,
       animate tr now s = Ok s' /\
       camera s'
       = (if takesLoadBranch tr (rawProgress tr now) s
          then poseOnLoad (mkCamera (frameEye tr now) (center (camera s)) (frameUp tr now))
          else mkCamera (frameEye tr now) (center (camera s)) (frameUp tr now)) /\
       (hasRuler tr = true ->
          forall g : Group,
            rulerGroup s' = Some g ->
            fadedTo (currentIsDark s) (crossfadeFactor (rawProgress tr now)) g) /\
       (hasRuler tr = false -> rulerGroup s' = rulerGroup s) /\
       currentViewDirection s' = directionAfter tr (rawProgress tr now) s /\
       frameCallbacks s'
       = (if Rlt_dec (rawProgress tr now) 1
          then frameCallbacks s
               ++ [(nextHandle s,
                    Animate (closureWith (rebuildsNow tr (rawProgress tr now)) tr))]
          else frameCallbacks s)) /\
  (forall (h : nat) (older : Transition) (rest : list (nat * Callback)) (now : R),
     frameCallbacks st = (h, Animate older) :: rest ->
     exists s1 : State,
       animate older now (cancelAnimationFrame h st) = Ok s1 /\
       runFrame now st = runCallbacks (map fst rest) now s1) /\
  (forall (pre : list (nat * Callback)) (h : nat) (newer : Transition) (now : R),
     frameCallbacks st = pre ++ [(h, Animate newer)] ->
     exists s1 st' : State,
       runCallbacks (map fst pre) now st = Ok s1 /\
       runFrame now st = Ok st' /\
       camera st' = cameraAfter newer now s1 /\
       center (camera s1) = center (camera st) /\
       threeObject s1 = threeObject st).
Proof.
  intros Hreach. pose proof (reachable_inv st Hreach) as Hinv.
  split; [| split; [| split]].
  - intros direction now0 tr Htr. unfold setCameraDirection. rewrite Htr. reflexivity.
  - intros tr now s.
    destruct (animate_total tr now s)
      as (s' & E & C & _ & D & _ & F & N & _ & _ & _ & _ & _ & Q & _).
    exists s'. split; [exact E |]. split; [exact C |]. split; [exact F |].
    split; [exact N |]. split; [exact D | exact Q].
  - intros h older rest now Hq.
    destruct (animate_total older now (cancelAnimationFrame h st)) as [s1 [E _]].
    exists s1. split; [exact E |].
    rewrite (runFrame_first h (Animate older) rest now st Hq). cbn [invoke].
    rewrite E. reflexivity.
  - intros pre h newer now Hq.
    destruct (runFrame_last pre h newer now st Hinv Hq) as [s1 [st' [E1 [E2 [E3 [O1 C1]]]]]].
    exists s1, st'. split; [exact E1 |]. split; [exact E2 |].
    split; [| split; assumption].
    destruct (animate_total newer now (cancelAnimationFrame h s1)) as [st'' [E3' [C _]]].
    rewrite E3 in E3'. injection E3' as <-. exact C.
Qed.

(** An instance of [stale_callbacks_still_run]: the state of the
    counterexample, with the closures of ['top'] and ['left'] pending. *)
Lemma stale_callbacks_still_run_witness :
  let st := setCameraDirection "left" 300
              (setCameraDirection "top" 0 (initialState false cameraFront5)) in
  reachable st /\
  (forall (direction : string) (now0 : R) (tr : Transition),
     directedTransition direction now0 st = Some tr ->
     frameCallbacks (setCameraDirection direction now0 st)
     = frameCallbacks st ++ [(nextHandle st, Animate tr)]) /\
  (forall (tr : Transition) (now : R) (s : State),
     exists s' : State,
       animate tr now s = Ok s' /\
       camera s'
       = (if takesLoadBranch tr (rawProgress tr now) s
          then poseOnLoad (mkCamera (frameEye tr now) (center (camera s)) (frameUp tr now))
          else mkCamera (frameEye tr now) (center (camera s)) (frameUp tr now)) /\
       (hasRuler tr = true ->
          forall g : Group,
            rulerGroup s' = Some g ->
            fadedTo (currentIsDark s) (crossfadeFactor (rawProgress tr now)) g) /\
       (hasRuler tr = false -> rulerGroup s' = rulerGroup s) /\
       currentViewDirection s' = directionAfter tr (rawProgress tr now) s /\
       frameCallbacks s'
       = (if Rlt_dec (rawProgress tr now) 1
          then frameCallbacks s
               ++ [(nextHandle s,
                    Animate (closureWith (rebuildsNow tr (rawProgress tr now)) tr))]
          else frameCallbacks s)) /\
  (forall (h : nat) (older : Transition) (rest : list (nat * Callback)) (now : R),
     frameCallbacks st = (h, Animate older) :: rest ->
     exists s1 : State,
       animate older now (cancelAnimationFrame h st) = Ok s1 /\
       runFrame now st = runCallbacks (map fst rest) now s1) /\
  (forall (pre : list (nat * Callback)) (h : nat) (newer : Transition) (now : R),
     frameCallbacks st = pre ++ [(h, Animate newer)] ->
     exists s1 st' : State,
       runCallbacks (map fst pre) now st = Ok s1 /\
       runFrame now st = Ok st' /\
       camera st' = cameraAfter newer now s1 /\
       center (camera s1) = center (camera st) /\
       threeObject s1 = threeObject st).
Proof.
  intros st.
  assert (Hr : reachable st).
  { exists false, cameraFront5, [SetCameraDirection "top" 0; SetCameraDirection "left" 300].
    reflexivity. }
  split; [exact Hr | exact (stale_callbacks_still_run st Hr)].
Defined.

End StaleSessions.

Section Completion.

Lemma eyeDistance_target (cam : Camera) (dv up' : Vec3) :
  vx dv * vx dv + vy dv * vy dv + vz dv * vz dv = 1 ->
  eyeDistance (mkCamera (targetOf cam dv) (center cam) up') = eyeDistance cam.
Proof.
  intros Hu. unfold eyeDistance at 1, targetOf, Math_sqrt. cbn [eye center vx vy vz].
  replace (_ + _ + _)
    with ((vx dv * vx dv + vy dv * vy dv + vz dv * vz dv)
          * (eyeDistance cam * eyeDistance cam)) by ring.
  rewrite Hu, Rmult_1_l. apply sqrt_square. apply eyeDistance_nonneg.
Qed.

Lemma poseOnLoad_target (cam : Camera) (dv up' : Vec3) :
  vx dv * vx dv + vy dv * vy dv + vz dv * vz dv = 1 ->
  poseOnLoad (mkCamera (targetOf cam dv) (center cam) up')
  = mkCamera (vadd (center cam) (vec3 0 0 (eyeDistance cam))) (center cam) (vec3 0 1 0).
Proof.
  intros Hu. unfold poseOnLoad. rewrite (eyeDistance_target cam dv up' Hu).
  cbn [center]. unfold vadd. cbn [vx vy vz]. f_equal. f_equal; ring.
Qed.

(** The completing call of the closure of a directed transition, in
    any state. *)
Lemma completion_pose
    (st st2 : State) (direction : string) (now0 now : R) (tr tr' : Transition) :
  directedTransition direction now0 st = Some tr ->
  sameSession tr tr' ->
  now0 + 400 <= now ->
  exists (dirVec upV : Vec3) (st3 : State),
    directionTable direction = Some (dirVec, upV) /\
    vx dirVec * vx dirVec + vy dirVec * vy dirVec + vz dirVec * vz dirVec = 1 /\
    rawProgress tr' now = 1 /\
    animate tr' now st2 = Ok st3 /\
    camera st3
    = (if takesLoadBranch tr' 1 st2
       then poseOnLoad (mkCamera (targetOf (camera st) dirVec) (center (camera st2)) upV)
       else mkCamera (targetOf (camera st) dirVec) (center (camera st2)) upV) /\
    currentViewDirection st3 = directionAfter tr' 1 st2 /\
    frameCallbacks st3 = frameCallbacks st2.
Proof.
  intros Htr Hs Hnow.
  unfold directedTransition in Htr.
  destruct (directionTable direction) as [[dv uv] |] eqn:Hdir; [| discriminate].
  injection Htr as <-.
  destruct (directionTable_unit _ _ _ Hdir) as [Hdv Huv].
  set (tr := mkTransition _ _ _ _ _ _ _ _ _ _) in *.
  destruct (sameSession_fields tr tr' Hs) as [FE [FU [FR _]]].
  assert (Hraw : rawProgress tr now = 1) by (apply rawProgress_done; exact Hnow).
  assert (Hraw' : rawProgress tr' now = 1) by (rewrite FR; exact Hraw).
  destruct (animate_total tr' now st2)
    as (st3 & E & C & _ & D & _ & _ & _ & _ & _ & _ & _ & _ & Q & _).
  exists dv, uv, st3.
  split; [reflexivity |]. split; [exact Hdv |]. split; [exact Hraw' |]. split; [exact E |].
  assert (HE : frameEye tr' now = targetOf (camera st) dv).
  { rewrite FE. rewrite (frameEye_final tr now dv); try reflexivity; try assumption.
    apply eyeDistance_nonneg. }
  assert (HU : frameUp tr' now = uv).
  { rewrite FU. apply frameUp_final; assumption. }
  split.
  { rewrite C. unfold cameraAfter, writtenCamera. rewrite Hraw', HE, HU. reflexivity. }
  split; [rewrite D, Hraw'; reflexivity |].
  rewrite Q, Hraw'. destruct (Rlt_dec 1 1); [lra | reflexivity].
Qed.

End Completion.

Section FinalPose.

Lemma eyeDistance_cameraOnLoad : eyeDistance cameraOnLoad = 3.5.
Proof.
  unfold eyeDistance, cameraOnLoad, Math_sqrt. cbn [eye center vx vy vz].
  pose proof (sin2_cos2 (15 * PI / 180)) as H. unfold Rsqr in H.
  replace ((0 - 0) ^ 2 + (sin (15 * PI / 180) * 3.5 - 0) ^ 2
           + (cos (15 * PI / 180) * 3.5 - 0) ^ 2)
    with ((sin (15 * PI / 180) * sin (15 * PI / 180)
           + cos (15 * PI / 180) * cos (15 * PI / 180)) * (3.5 * 3.5)) by ring.
  rewrite H, Rmult_1_l. apply sqrt_square. lra.
Qed.

Lemma builds_onModelFinished (obj : Object3D) (st : State) :
  builds (onModelFinished obj st) = builds st.
Proof.
  unfold builds, onModelFinished, logCall. cbn. rewrite !filter_app, !length_app. cbn. lia.
Qed.

(** The state after a load, an enable of the ruler and a second load:
    the overlay of the first object is still there, the camera is where
    [OnModelFinished] has put it, and [justLoaded] is set. *)
Lemma reload_with_ruler :
  exists st : State,
    run (initialState false cameraFront5)
        [ModelFinished sampleObject; SetScaleRuler true None; ModelFinished sampleObject]
    = Ok st /\
    camera st = cameraOnLoad /\ justLoaded st = true /\
    threeObject st = Some sampleObject /\ rulerGroup st <> None /\
    frameCallbacks st = [] /\ nextHandle st = 0%nat /\ builds st = 1%nat /\
    currentViewDirection st = "front"%string.
Proof.
  set (s1 := onModelFinished sampleObject (initialState false cameraFront5)).
  destruct (setScaleRuler_enabled None s1)
    as (s2 & E & _ & Hobj & T1 & T2 & T3 & T4 & T5 & T6).
  destruct Hobj as (G & B & J & C & D); [discriminate |].
  exists (onModelFinished sampleObject s2).
  split.
  { cbn [run step bind]. fold s1. rewrite E. reflexivity. }
  split; [reflexivity |]. split; [reflexivity |]. split; [reflexivity |].
  split; [exact G |]. split; [exact T5 |]. split; [exact T6 |].
  split.
  { rewrite builds_onModelFinished, B. reflexivity. }
  exact D.
Qed.

Lemma top_of_cameraOnLoad (now0 : R) (st : State) :
  camera st = cameraOnLoad ->
  directedTransition "top" now0 st
  = Some (mkTransition (Directed "top") (vec3 0 0 0) (eyeDistance cameraOnLoad)
                       (targetOf cameraOnLoad (vec3 0 1 0))
                       (eye cameraOnLoad) (vec3 0 1 0) (vec3 0 0 (-1))
                       (isSome (rulerGroup st)) false now0).
Proof.
  intros H. unfold directedTransition. cbn [directionTable String.eqb Ascii.eqb Bool.eqb].
  rewrite H. reflexivity.
Qed.

(** C9, the counterexample: a model is loaded, the ruler is enabled,
    and a model is loaded again.  [setCameraDirection('top')] and one frame
    400 ms later then leave the eye at center + (0, 0, d) with up (0, 1, 0)
    and ['front'] as the current direction, where the specification has the eye at
    center + (0, d, 0) with up (0, 0, -1): the ruler rebuild of that frame
    takes the post-load branch of [setScaleRuler]. *)
Lemma final_pose_counterexample :
  exists st st' : State,
    run (initialState false cameraFront5)
        [ModelFinished sampleObject; SetScaleRuler true None; ModelFinished sampleObject]
    = Ok st /\
    center (camera st) = vec3 0 0 0 /\ eyeDistance (camera st) = 3.5 /\
    run st [SetCameraDirection "top" 0; Frame 400] = Ok st' /\
    eye (camera st') = vec3 0 0 3.5 /\ up (camera st') = vec3 0 1 0 /\
    currentViewDirection st' = "front"%string /\
    eye (camera st') <> vadd (center (camera st)) (vec3 0 (eyeDistance (camera st)) 0) /\
    up (camera st') <> vec3 0 0 (-1).
Proof.
  destruct reload_with_ruler as (st & Hrun & Hcam & Hjl & Hobj & Hg & Hq & Hn & _ & _).
  pose proof (top_of_cameraOnLoad 0 st Hcam) as Htr.
  rewrite (isSome_true _ Hg) in Htr.
  set (tr := mkTransition _ _ _ _ _ _ _ _ _ _) in Htr.
  set (st1 := setCameraDirection "top" 0 st).
  assert (Hq1 : frameCallbacks st1 = [(0%nat, Animate tr)]).
  { unfold st1, setCameraDirection. rewrite Htr. cbn. rewrite Hq, Hn. reflexivity. }
  destruct (completion_pose st (set_frameCallbacks [] st1) "top" 0 400 tr tr Htr)
    as (dv & uv & st3 & Hd & _ & _ & E & C & D & _); [left; reflexivity | lra |].
  cbn in Hd. injection Hd as <- <-.
  assert (Hload : takesLoadBranch tr 1 (set_frameCallbacks [] st1) = true).
  { unfold takesLoadBranch, rebuildsNow. cbn [hasRuler rulerRebuilt tr negb andb].
    rewrite pastHalf_1.
    change (threeObject (set_frameCallbacks [] st1)) with (threeObject st1).
    change (justLoaded (set_frameCallbacks [] st1)) with (justLoaded st1).
    assert (H1 : threeObject st1 = threeObject st /\ justLoaded st1 = justLoaded st).
    { unfold st1, setCameraDirection. rewrite Htr. split; reflexivity. }
    destruct H1 as [-> ->]. rewrite Hobj, Hjl. reflexivity. }
  assert (Hc1 : center (camera (set_frameCallbacks [] st1)) = center (camera st)).
  { unfold st1, setCameraDirection. rewrite Htr. reflexivity. }
  rewrite Hload, Hc1 in C.
  rewrite (poseOnLoad_target (camera st) (vec3 0 1 0) (vec3 0 0 (-1))) in C
    by (cbn [vx vy vz]; ring).
  assert (Hdist : eyeDistance (camera st) = 3.5).
  { rewrite Hcam. exact eyeDistance_cameraOnLoad. }
  assert (Hcen : center (camera st) = vec3 0 0 0) by (rewrite Hcam; reflexivity).
  exists st, st3.
  split; [exact Hrun |]. split; [exact Hcen |]. split; [exact Hdist |].
  split.
  { cbn [run step bind]. fold st1. rewrite (runFrame_one _ _ _ _ Hq1). cbn [invoke].
    rewrite E. reflexivity. }
  rewrite C, Hdist, Hcen. cbn [eye up]. unfold vadd. cbn [vx vy vz].
  split; [f_equal; ring |]. split; [reflexivity |].
  split.
  { rewrite D. unfold directionAfter, rebuildsNow. cbn [hasRuler rulerRebuilt tr negb andb].
    rewrite pastHalf_1.
    unfold takesLoadBranch, rebuildsNow in Hload.
    cbn [hasRuler rulerRebuilt tr negb andb] in Hload. rewrite pastHalf_1 in Hload.
    cbn [andb] in Hload. rewrite Hload. reflexivity. }
  split.
  - intros H. inversion H. lra.
  - intros H. inversion H. lra.
Qed.

End FinalPose.

Section FinalPoseTheorem.

Lemma takesLoadBranch_true (tr : Transition) (raw : R) (st : State) :
  takesLoadBranch tr raw st = true ->
  rebuildsNow tr raw = true /\ isSome (threeObject st) = true /\ justLoaded st = true.
Proof.
  unfold takesLoadBranch. intros H.
  apply andb_true_iff in H. destruct H as [H H3].
  apply andb_true_iff in H. destruct H as [H1 H2]. repeat split; assumption.
Qed.

(** C9, as amended: the closure that [setCameraDirection(direction)]
    registers has as target the point at the distance of the eye from the
    center, in the direction of the table, and as up the up vector of the
    table; for ['top'] that is center + (0, d, 0) and (0, 0, -1).  Its
    completing call (the frame with [raw = 1], at least 400 ms after the
    call of [setCameraDirection]) completes without fault and does not
    register the closure again.  It leaves that eye and that up in the
    camera, unless the transition began with a ruler that this very call
    rebuilds while an object is loaded and [justLoaded] is set: then the
    post-load branch of [setScaleRuler] leaves the eye at center +
    (0, 0, d), the up (0, 1, 0) and ['front'] as the current direction.
    From a reachable state, the frame that follows [setCameraDirection]
    400 ms or more later ends with the camera in one of these two poses,
    whatever else was pending.  The table is front=+Z, back=-Z, left=-X,
    right=+X, top=+Y, bottom=-Y, with up (0,0,-1) for top, (0,0,1) for
    bottom and (0,1,0) otherwise. *)
Theorem setCameraDirection_final_pose
    (st : State) (direction : string) (now0 now : R) (tr : Transition) :
  directedTransition direction now0 st = Some tr ->
  now0 + 400 <= now ->
  (exists dirVec upV : Vec3,
     directionTable direction = Some (dirVec, upV) /\
     targetEye tr = targetOf (camera st) dirVec /\ upVec tr = upV /\
     (direction = "top"%string ->
        targetOf (camera st) dirVec
        = vadd (center (camera st)) (vec3 0 (eyeDistance (camera st)) 0) /\
        upV = vec3 0 0 (-1)) /\
     frameCallbacks (setCameraDirection direction now0 st)
     = frameCallbacks st ++ [(nextHandle st, Animate tr)] /\
     (forall (tr' : Transition) (st2 : State),
        sameSession tr tr' ->
        exists st3 : State,
          rawProgress tr' now = 1 /\
          animate tr' now st2 = Ok st3 /\
          frameCallbacks st3 = frameCallbacks st2 /\
          (takesLoadBranch tr' 1 st2 = false ->
             eye (camera st3) = targetOf (camera st) dirVec /\ up (camera st3) = upV) /\
          (takesLoadBranch tr' 1 st2 = true ->
             camera st3
             = poseOnLoad (mkCamera (targetOf (camera st) dirVec) (center (camera st2)) upV) /\
             up (camera st3) = vec3 0 1 0 /\
             currentViewDirection st3 = "front"%string /\
             (center (camera st2) = center (camera st) ->
              eye (camera st3)
              = vadd (center (camera st)) (vec3 0 0 (eyeDistance (camera st)))))) /\
     (reachable st ->
        exists s1 st' : State,
          runCallbacks (map fst (frameCallbacks st)) now
                       (setCameraDirection direction now0 st) = Ok s1 /\
          run st [SetCameraDirection direction now0; Frame now] = Ok st' /\
          camera st'
          = (if takesLoadBranch tr 1 s1
             then mkCamera (vadd (center (camera st)) (vec3 0 0 (eyeDistance (camera st))))
                           (center (camera st)) (vec3 0 1 0)
             else mkCamera (targetOf (camera st) dirVec) (center (camera st)) upV))) /\
  directionTable "front" = Some (vec3 0 0 1, vec3 0 1 0) /\
  directionTable "back" = Some (vec3 0 0 (-1), vec3 0 1 0) /\
  directionTable "left" = Some (vec3 (-1) 0 0, vec3 0 1 0) /\
  directionTable "right" = Some (vec3 1 0 0, vec3 0 1 0) /\
  directionTable "top" = Some (vec3 0 1 0, vec3 0 0 (-1)) /\
  directionTable "bottom" = Some (vec3 0 (-1) 0, vec3 0 0 1).
Proof.
  intros Htr Hnow.
  split; [| repeat split].
  destruct (completion_pose st st direction now0 now tr tr Htr (or_introl eq_refl) Hnow)
    as (dv & uv & _ & Hdir & Hunit & _).
  assert (Hset : setCameraDirection direction now0 st
                 = snd (requestAnimationFrame (Animate tr) st)).
  { unfold setCameraDirection. rewrite Htr. reflexivity. }
  assert (Hper : forall (tr' : Transition) (st2 : State),
             sameSession tr tr' ->
             exists st3 : State,
               rawProgress tr' now = 1 /\ animate tr' now st2 = Ok st3 /\
               frameCallbacks st3 = frameCallbacks st2 /\
               camera st3
               = (if takesLoadBranch tr' 1 st2
                  then poseOnLoad (mkCamera (targetOf (camera st) dv) (center (camera st2)) uv)
                  else mkCamera (targetOf (camera st) dv) (center (camera st2)) uv) /\
               currentViewDirection st3 = directionAfter tr' 1 st2).
  { intros tr' st2 Hs.
    destruct (completion_pose st st2 direction now0 now tr tr' Htr Hs Hnow)
      as (dv' & uv' & st3 & Hdir' & _ & Hraw & E & C & D & Q).
    rewrite Hdir in Hdir'. injection Hdir' as <- <-.
    exists st3. repeat split; assumption. }
  exists dv, uv. split; [exact Hdir |].
  split.
  { unfold directedTransition in Htr. rewrite Hdir in Htr. injection Htr as <-. reflexivity. }
  split.
  { unfold directedTransition in Htr. rewrite Hdir in Htr. injection Htr as <-. reflexivity. }
  split.
  { intros ->. cbn in Hdir. injection Hdir as <- <-. split; [| reflexivity].
    unfold targetOf, vadd. cbn [vx vy vz]. f_equal; ring. }
  split; [rewrite Hset; reflexivity |].
  split.
  - intros tr' st2 Hs.
    destruct (Hper tr' st2 Hs) as (st3 & Hraw & E & Q & C & D).
    exists st3. split; [exact Hraw |]. split; [exact E |]. split; [exact Q |].
    split.
    + intros Hl. rewrite Hl in C. rewrite C. split; reflexivity.
    + intros Hl. rewrite Hl in C. split; [exact C |].
      split; [rewrite C; reflexivity |].
      split.
      * rewrite D. unfold directionAfter.
        destruct (takesLoadBranch_true _ _ _ Hl) as [H1 [H2 H3]].
        rewrite H1, H2, H3. reflexivity.
      * intros Hc. rewrite C, Hc, (poseOnLoad_target (camera st) dv uv Hunit). reflexivity.
  - intros Hreach. pose proof (reachable_inv st Hreach) as Hinv.
    destruct (register_animate_inv tr st Hinv) as [Hinv1 _].
    rewrite <- Hset in Hinv1.
    assert (Hq : frameCallbacks (setCameraDirection direction now0 st)
                 = frameCallbacks st ++ [(nextHandle st, Animate tr)])
      by (rewrite Hset; reflexivity).
    destruct (runFrame_last _ _ _ now _ Hinv1 Hq) as (s1 & st' & E1 & E2 & E3 & O1 & C1).
    exists s1, st'. split; [exact E1 |].
    split; [cbn [run step bind]; rewrite E2; reflexivity |].
    destruct (Hper tr (cancelAnimationFrame (nextHandle st) s1) (or_introl eq_refl))
      as (st3 & _ & E & _ & C & _).
    rewrite E3 in E. injection E as <-.
    change (takesLoadBranch tr 1 (cancelAnimationFrame (nextHandle st) s1))
      with (takesLoadBranch tr 1 s1) in C.
    change (center (camera (cancelAnimationFrame (nextHandle st) s1)))
      with (center (camera s1)) in C.
    assert (Hc : center (camera s1) = center (camera st)).
    { rewrite C1, Hset. reflexivity. }
    rewrite Hc in C. rewrite C.
    destruct (takesLoadBranch tr 1 s1); [| reflexivity].
    apply poseOnLoad_target. exact Hunit.
Qed.

(** An instance of [setCameraDirection_final_pose]: from the front at
    distance 5 to the top, completed in one frame at 400 ms. *)
Lemma setCameraDirection_final_pose_witness :
  let st := initialState false cameraFront5 in
  let tr := mkTransition (Directed "top") (vec3 0 0 0) (eyeDistance cameraFront5)
              (vec3 (0 + 0 * eyeDistance cameraFront5) (0 + 1 * eyeDistance cameraFront5)
                    (0 + 0 * eyeDistance cameraFront5))
              (vec3 0 0 5) (vec3 0 1 0) (vec3 0 0 (-1)) false false 0 in
  directedTransition "top" 0 st = Some tr /\
  0 + 400 <= 400 /\
  exists dirVec upV : Vec3,
    directionTable "top" = Some (dirVec, upV) /\
    targetEye tr = targetOf (camera st) dirVec /\ upVec tr = upV /\
    ("top"%string = "top"%string ->
       targetOf (camera st) dirVec
       = vadd (center (camera st)) (vec3 0 (eyeDistance (camera st)) 0) /\
       upV = vec3 0 0 (-1)) /\
    frameCallbacks (setCameraDirection "top" 0 st)
    = frameCallbacks st ++ [(nextHandle st, Animate tr)] /\
    (forall (tr' : Transition) (st2 : State),
       sameSession tr tr' ->
       exists st3 : State,
         rawProgress tr' 400 = 1 /\
         animate tr' 400 st2 = Ok st3 /\
         frameCallbacks st3 = frameCallbacks st2 /\
         (takesLoadBranch tr' 1 st2 = false ->
            eye (camera st3) = targetOf (camera st) dirVec /\ up (camera st3) = upV) /\
         (takesLoadBranch tr' 1 st2 = true ->
            camera st3
            = poseOnLoad (mkCamera (targetOf (camera st) dirVec) (center (camera st2)) upV) /\
            up (camera st3) = vec3 0 1 0 /\
            currentViewDirection st3 = "front"%string /\
            (center (camera st2) = center (camera st) ->
             eye (camera st3)
             = vadd (center (camera st)) (vec3 0 0 (eyeDistance (camera st)))))) /\
    (reachable st ->
       exists s1 st' : State,
         runCallbacks (map fst (frameCallbacks st)) 400
                      (setCameraDirection "top" 0 st) = Ok s1 /\
         run st [SetCameraDirection "top" 0; Frame 400] = Ok st' /\
         camera st'
         = (if takesLoadBranch tr 1 s1
            then mkCamera (vadd (center (camera st)) (vec3 0 0 (eyeDistance (camera st))))
                          (center (camera st)) (vec3 0 1 0)
            else mkCamera (targetOf (camera st) dirVec) (center (camera st)) upV)).
Proof.
  intros st tr.
  assert (Htr : directedTransition "top" 0 st = Some tr) by reflexivity.
  assert (Hnow : 0 + 400 <= 400) by lra.
  split; [exact Htr |]. split; [exact Hnow |].
  exact (proj1 (setCameraDirection_final_pose st "top" 0 400 tr Htr Hnow)).
Defined.

End FinalPoseTheorem.

Section RebuildOnce.

Lemma rebuildsNow_closureWith (b : bool) (tr : Transition) (raw : R) :
  hasRuler tr = true -> rulerRebuilt tr = false ->
  rebuildsNow (closureWith b tr) raw = (negb b && pastHalf raw).
Proof.
  intros Hr Hb. unfold rebuildsNow.
  rewrite closureWith_hasRuler, closureWith_rebuilt, Hr, Hb.
  destruct b; reflexivity.
Qed.

Lemma closureWith_next (b : bool) (tr : Transition) (raw : R) :
  closureWith (negb b && pastHalf raw) (closureWith b tr) = closureWith (b || pastHalf raw) tr.
Proof.
  rewrite closureWith_again. destruct b; reflexivity.
Qed.

(** One call of the closure of a transition that began with a ruler, in
    any state. *)
Lemma animate_session (tr : Transition) (b : bool) (now : R) (s : State) :
  hasRuler tr = true -> rulerRebuilt tr = false ->
  exists s' : State,
    animate (closureWith b tr) now s = Ok s' /\
    builds s'
    = (builds s
       + (if negb b && pastHalf (rawProgress tr now) && isSome (threeObject s)
          then 1 else 0))%nat /\
    (forall g : Group,
       rulerGroup s' = Some g ->
       fadedTo (currentIsDark s) (crossfadeFactor (rawProgress tr now)) g) /\
    frameCallbacks s'
    = (if Rlt_dec (rawProgress tr now) 1
       then frameCallbacks s
            ++ [(nextHandle s, Animate (closureWith (b || pastHalf (rawProgress tr now)) tr))]
       else frameCallbacks s) /\
    currentViewDirection s'
    = (if negb b && pastHalf (rawProgress tr now)
       then if isSome (threeObject s) && justLoaded s then "front"%string else newDirection tr
       else currentViewDirection s) /\
    justLoaded s'
    = (if negb b && pastHalf (rawProgress tr now) && isSome (threeObject s)
       then false else justLoaded s) /\
    isSome (rulerGroup s')
    = (isSome (rulerGroup s)
       || (negb b && pastHalf (rawProgress tr now) && isSome (threeObject s))) /\
    threeObject s' = threeObject s /\ currentIsDark s' = currentIsDark s.
Proof.
  intros Hr Hb.
  set (c := closureWith b tr).
  assert (Hraw : rawProgress c now = rawProgress tr now) by (unfold c; destruct b; reflexivity).
  destruct (animate_total c now s)
    as (s' & E & _ & J & D & B & F & _ & G & T1 & T2 & _ & _ & Q & _).
  rewrite Hraw in *.
  unfold rebuildCount, takesLoadBranch, directionAfter in *.
  unfold c in J, D, B, G, Q.
  rewrite (rebuildsNow_closureWith b tr _ Hr Hb) in J, D, B, G, Q.
  rewrite closureWith_next in Q. rewrite closureWith_newDirection in D.
  rewrite closureWith_rebuilt, Hb, orb_false_r in D.
  exists s'. split; [exact E |]. split; [exact B |].
  split; [apply F; unfold c; rewrite closureWith_hasRuler; exact Hr |].
  split; [exact Q |].
  split.
  { rewrite D. destruct (negb b && pastHalf (rawProgress tr now)) eqn:Hn; [reflexivity |].
    destruct (Rlt_dec (rawProgress tr now) 1) as [Hlt | Hge]; [reflexivity |].
    destruct b; [reflexivity |]. cbn [negb andb] in Hn.
    assert (H1 : rawProgress tr now = 1)
      by (pose proof (rawProgress_le_1 tr now); lra).
    rewrite H1, pastHalf_1 in Hn. discriminate Hn. }
  split.
  { rewrite J. destruct (negb b && pastHalf (rawProgress tr now));
      destruct (isSome (threeObject s)); destruct (justLoaded s); reflexivity. }
  split; [exact G |]. split; [exact T1 | exact T2].
Qed.

(** The frames of a session before its last one, while its closure is
    the one pending callback. *)
Lemma session_frames (tr : Transition) :
  hasRuler tr = true -> rulerRebuilt tr = false ->
  forall (nows : list R) (b : bool) (st : State),
    pendingAlone tr b st ->
    Forall (fun now => rawProgress tr now < 1) nows ->
    exists st' : State,
      run st (map Frame nows) = Ok st' /\
      pendingAlone tr (b || crossed tr nows) st' /\
      builds st'
      = (builds st + (if negb b && crossed tr nows && isSome (threeObject st) then 1 else 0))%nat /\
      currentViewDirection st'
      = (if negb b && crossed tr nows
         then if isSome (threeObject st) && justLoaded st then "front"%string
              else newDirection tr
         else currentViewDirection st) /\
      justLoaded st'
      = (if negb b && crossed tr nows && isSome (threeObject st) then false
         else justLoaded st) /\
      threeObject st' = threeObject st /\ currentIsDark st' = currentIsDark st.
Proof.
  intros Hr Hb0. induction nows as [| now nows IH]; intros b st Hin Hall.
  - exists st. split; [reflexivity |]. cbn [crossed existsb].
    rewrite orb_false_r, andb_false_r. cbn [andb].
    split; [exact Hin |]. split; [lia |]. repeat split.
  - inversion Hall as [| x xs Hlt Hall' Heq]; subst.
    destruct Hin as [[h Hq] Hg].
    set (st0 := set_frameCallbacks [] st).
    destruct (animate_session tr b now st0 Hr Hb0)
      as (st1 & E1 & B1 & _ & Q1 & D1 & J1 & G1 & O1 & K1).
    change (builds st0) with (builds st) in *.
    change (threeObject st0) with (threeObject st) in *.
    change (justLoaded st0) with (justLoaded st) in *.
    change (currentViewDirection st0) with (currentViewDirection st) in *.
    change (currentIsDark st0) with (currentIsDark st) in *.
    change (rulerGroup st0) with (rulerGroup st) in *.
    change (frameCallbacks st0) with (@nil (nat * Callback)) in Q1.
    destruct (Rlt_dec (rawProgress tr now) 1) as [_ | N]; [| contradiction].
    cbn [map run step]. rewrite (runFrame_one _ _ _ _ Hq). cbn [invoke]. fold st0.
    rewrite E1. cbn [bind].
    assert (Hin1 : pendingAlone tr (b || pastHalf (rawProgress tr now)) st1).
    { split; [exists (nextHandle st0); exact Q1 |].
      intros Hnone. rewrite Hnone, (isSome_true _ Hg) in G1. discriminate G1. }
    destruct (IH _ st1 Hin1 Hall') as (st2 & E2 & I2 & B2 & D2 & J2 & O2 & K2).
    exists st2. split; [exact E2 |].
    cbn [crossed existsb]. fold (crossed tr nows).
    rewrite orb_assoc. split; [exact I2 |].
    rewrite B2, D2, J2, O2, K2, B1, D1, J1, O1, K1.
    destruct b; destruct (pastHalf (rawProgress tr now)); destruct (crossed tr nows);
      destruct (isSome (threeObject st)); destruct (justLoaded st); cbn;
      repeat split; lia.
Qed.

(** C2, as amended: a directed transition that begins with a ruler
    overlay.  Every call of its closure, in any state, leaves the overlay
    at the factor [1 - 2*raw] if [raw < 0.5] and [2*(raw - 0.5)] otherwise;
    it calls [setScaleRuler] exactly if [raw >= 0.5] and no earlier call
    did, and hands the flag on to its next registration; so the rebuild is
    attempted once, in the first frame with [raw >= 0.5], also when that
    frame is the last one.  Whether that call rebuilds the overlay for the
    new direction depends on the state: with no object loaded nothing is
    rebuilt, and with [justLoaded] set the overlay is rebuilt for
    ['front'].  While the closure is the only pending callback, after the
    frames at the times [nows] (all with [raw < 1]) and a frame at [now],
    the overlay is at the factor of the last frame, and the number of
    rebuilds is 1 if some frame had [raw >= 0.5] and an object is loaded,
    and 0 otherwise.  In the call that rebuilds, the overlay is set to
    opacity 0 before the factor of the frame is applied. *)
Theorem crossfade_exactly_once
    (st : State) (direction : string) (now0 : R) (tr : Transition) :
  rulerGroup st <> None ->
  directedTransition direction now0 st = Some tr ->
  (forall (b : bool) (now : R) (s : State),
     exists s' : State,
       animate (closureWith b tr) now s = Ok s' /\
       (forall g : Group,
          rulerGroup s' = Some g ->
          fadedTo (currentIsDark s)
                  (if Rlt_dec (rawProgress tr now) 0.5 then 1 - rawProgress tr now * 2
                   else (rawProgress tr now - 0.5) * 2) g) /\
       builds s'
       = (builds s
          + (if negb b && pastHalf (rawProgress tr now) && isSome (threeObject s)
             then 1 else 0))%nat /\
       currentViewDirection s'
       = (if negb b && pastHalf (rawProgress tr now)
          then if isSome (threeObject s) && justLoaded s then "front"%string else direction
          else currentViewDirection s) /\
       frameCallbacks s'
       = (if Rlt_dec (rawProgress tr now) 1
          then frameCallbacks s
               ++ [(nextHandle s,
                    Animate (closureWith (b || pastHalf (rawProgress tr now)) tr))]
          else frameCallbacks s)) /\
  (forall (nows : list R) (now : R),
     frameCallbacks st = [] ->
     Forall (fun n => rawProgress tr n < 1) nows ->
     exists (st' : State) (g' : Group),
       run (setCameraDirection direction now0 st) (map Frame (nows ++ [now])) = Ok st' /\
       rulerGroup st' = Some g' /\
       fadedTo (currentIsDark st)
               (if Rlt_dec (rawProgress tr now) 0.5 then 1 - rawProgress tr now * 2
                else (rawProgress tr now - 0.5) * 2) g' /\
       builds st'
       = (builds st
          + (if crossed tr (nows ++ [now]) && isSome (threeObject st) then 1 else 0))%nat /\
       currentViewDirection st'
       = (if crossed tr (nows ++ [now])
          then if isSome (threeObject st) && justLoaded st then "front"%string else direction
          else currentViewDirection st)) /\
  (forall (c : Transition) (raw : R) (s : State),
     hasRuler c = true -> rulerRebuilt c = false -> 0.5 <= raw ->
     crossfade c raw s
     = (s1 <- setScaleRuler true (currentRulerMeshIndex s)
                (set_currentViewDirection (newDirection c) s) ;;
        Ok (markRebuilt c, fadeRuler ((raw - 0.5) * 2) (fadeRuler 0 s1)))).
Proof.
  intros Hg Htr.
  assert (Hset : setCameraDirection direction now0 st
                 = snd (requestAnimationFrame (Animate tr) st)).
  { unfold setCameraDirection. rewrite Htr. reflexivity. }
  assert (Hfields : hasRuler tr = true /\ rulerRebuilt tr = false /\
                    newDirection tr = direction).
  { unfold directedTransition in Htr.
    destruct (directionTable direction) as [[dv uv] |]; [| discriminate].
    injection Htr as <-. cbn.
    destruct (rulerGroup st); [repeat split | contradiction]. }
  destruct Hfields as [Hr [Hb0 Hnd]].
  split; [| split].
  - intros b now s.
    destruct (animate_session tr b now s Hr Hb0) as (s' & E & B & F & Q & D & _).
    exists s'. split; [exact E |]. split; [exact F |]. split; [exact B |].
    split; [rewrite D, Hnd; reflexivity | exact Q].
  - intros nows now Hq Hall.
    set (st0 := snd (requestAnimationFrame (Animate tr) st)) in *.
    assert (Hin0 : pendingAlone tr false st0).
    { split; [exists (nextHandle st); unfold st0; cbn; rewrite Hq; reflexivity | exact Hg]. }
    destruct (session_frames tr Hr Hb0 nows false st0 Hin0 Hall)
      as (st1 & E1 & I1 & B1 & D1 & J1 & O1 & K1).
    cbn [orb negb andb] in I1, B1, D1, J1.
    change (builds st0) with (builds st) in *.
    change (threeObject st0) with (threeObject st) in *.
    change (justLoaded st0) with (justLoaded st) in *.
    change (currentViewDirection st0) with (currentViewDirection st) in *.
    change (currentIsDark st0) with (currentIsDark st) in *.
    destruct I1 as [[h Hq1] Hg1].
    set (st1' := set_frameCallbacks [] st1).
    destruct (animate_session tr (crossed tr nows) now st1' Hr Hb0)
      as (st2 & E2 & B2 & F2 & _ & D2 & _ & G2 & _).
    change (builds st1') with (builds st1) in *.
    change (threeObject st1') with (threeObject st1) in *.
    change (justLoaded st1') with (justLoaded st1) in *.
    change (currentViewDirection st1') with (currentViewDirection st1) in *.
    change (currentIsDark st1') with (currentIsDark st1) in *.
    change (rulerGroup st1') with (rulerGroup st1) in *.
    rewrite (isSome_true _ Hg1) in G2. cbn [orb] in G2.
    destruct (rulerGroup st2) as [g2 |] eqn:Eg2; [| discriminate G2].
    exists st2, g2.
    split.
    { rewrite Hset, map_app. rewrite (run_app _ _ _ _ E1). cbn [map run step].
      rewrite (runFrame_one _ _ _ _ Hq1). cbn [invoke]. fold st1'. rewrite E2. reflexivity. }
    split; [exact Eg2 |].
    split; [pose proof (F2 g2 eq_refl) as F; rewrite K1 in F; exact F |].
    rewrite crossed_app. cbn [crossed existsb]. rewrite orb_false_r.
    rewrite B2, D2, B1, D1, J1, O1, Hnd.
    split.
    + destruct (crossed tr nows); destruct (pastHalf (rawProgress tr now));
        destruct (isSome (threeObject st)); cbn; lia.
    + destruct (crossed tr nows); destruct (pastHalf (rawProgress tr now));
        destruct (isSome (threeObject st)); destruct (justLoaded st); reflexivity.
  - intros c0 raw s0 Hr0 Hb Hraw. unfold crossfade. rewrite Hr0, Hb. cbn [negb].
    destruct (Rlt_dec raw 0.5); [lra |].
    change (currentRulerMeshIndex (set_currentViewDirection (newDirection c0) s0))
      with (currentRulerMeshIndex s0).
    destruct (setScaleRuler true (currentRulerMeshIndex s0)
                (set_currentViewDirection (newDirection c0) s0)) as [s1 | f];
      cbn [bind]; [| reflexivity].
    destruct (Rge_dec raw 0.5); [reflexivity | lra].
Qed.

End RebuildOnce.

Section RebuildCases.

Lemma directedTransition_top (now0 : R) (st : State) :
  directedTransition "top" now0 st
  = Some (mkTransition (Directed "top") (center (camera st)) (eyeDistance (camera st))
                       (targetOf (camera st) (vec3 0 1 0))
                       (eye (camera st)) (up (camera st)) (vec3 0 0 (-1))
                       (isSome (rulerGroup st)) false now0).
Proof. reflexivity. Qed.

(** The state after a load and an enable of the ruler. *)
Lemma loaded_with_ruler :
  exists st : State,
    run (initialState false cameraFront5) [ModelFinished sampleObject; SetScaleRuler true None]
    = Ok st /\
    threeObject st = Some sampleObject /\ justLoaded st = false /\
    rulerGroup st <> None /\ frameCallbacks st = [] /\ nextHandle st = 0%nat /\
    builds st = 1%nat.
Proof.
  set (s1 := onModelFinished sampleObject (initialState false cameraFront5)).
  destruct (setScaleRuler_enabled None s1)
    as (s2 & E & _ & Hobj & T1 & T2 & T3 & T4 & T5 & T6).
  destruct Hobj as (G & B & J & C & D); [discriminate |].
  exists s2.
  split; [cbn [run step bind]; fold s1; rewrite E; reflexivity |].
  split; [exact T1 |]. split; [exact J |]. split; [exact G |].
  split; [exact T5 |]. split; [exact T6 |].
  rewrite B. unfold s1. rewrite builds_onModelFinished. reflexivity.
Qed.

(** A frame at 400 ms of the closure that [setCameraDirection('top')]
    registered at 0 ms, alone in the queue. *)
Lemma top_in_one_frame (st : State) :
  rulerGroup st <> None -> frameCallbacks st = [] ->
  exists (tr : Transition) (st' : State),
    frameCallbacks (setCameraDirection "top" 0 st) = [(nextHandle st, Animate tr)] /\
    hasRuler tr = true /\ rawProgress tr 400 = 1 /\
    run st [SetCameraDirection "top" 0; Frame 400] = Ok st' /\
    builds st' = (builds st + (if isSome (threeObject st) then 1 else 0))%nat /\
    currentViewDirection st'
    = (if isSome (threeObject st) && justLoaded st then "front" else "top")%string.
Proof.
  intros Hg Hq.
  pose proof (directedTransition_top 0 st) as Htr.
  rewrite (isSome_true _ Hg) in Htr.
  set (tr := mkTransition _ _ _ _ _ _ _ _ _ _) in Htr.
  set (st1 := setCameraDirection "top" 0 st).
  assert (Hq1 : frameCallbacks st1 = [(nextHandle st, Animate tr)]).
  { unfold st1, setCameraDirection. rewrite Htr. cbn. rewrite Hq. reflexivity. }
  assert (Hraw : rawProgress tr 400 = 1).
  { apply rawProgress_done. cbn [startTime tr]. lra. }
  destruct (animate_total tr 400 (set_frameCallbacks [] st1))
    as (st2 & E & _ & _ & D & B & _).
  exists tr, st2. split; [exact Hq1 |]. split; [reflexivity |]. split; [exact Hraw |].
  split.
  { cbn [run step bind]. fold st1. rewrite (runFrame_one _ _ _ _ Hq1). cbn [invoke].
    rewrite E. reflexivity. }
  assert (H1 : threeObject (set_frameCallbacks [] st1) = threeObject st /\
               justLoaded (set_frameCallbacks [] st1) = justLoaded st /\
               builds (set_frameCallbacks [] st1) = builds st).
  { unfold st1, setCameraDirection. rewrite Htr. repeat split. }
  destruct H1 as [H1 [H2 H3]].
  rewrite B, D, Hraw. unfold rebuildCount, directionAfter, rebuildsNow.
  cbn [hasRuler rulerRebuilt tr negb andb]. rewrite pastHalf_1, H1, H2, H3.
  split; reflexivity.
Qed.

(** C2, the counterexample.  First run: a model is loaded, the ruler is
    enabled and a new load begins, which clears [threeObject] and leaves
    the overlay; in the transition to the top that follows, the frame at
    [raw = 1] rebuilds nothing, and no later frame can.  Second run: the
    new model has arrived; the frame at [raw = 1] rebuilds the overlay
    once, but for ['front'], not for the new direction. *)
Lemma crossfade_rebuild_counterexample :
  (exists (st st' : State) (tr : Transition),
     run (initialState false cameraFront5)
         [ModelFinished sampleObject; SetScaleRuler true None; LoadStart] = Ok st /\
     rulerGroup st <> None /\ frameCallbacks st = [] /\
     frameCallbacks (setCameraDirection "top" 0 st) = [(nextHandle st, Animate tr)] /\
     hasRuler tr = true /\ rawProgress tr 400 = 1 /\
     run st [SetCameraDirection "top" 0; Frame 400] = Ok st' /\
     frameCallbacks st' = [] /\
     builds st' = builds st) /\
  (exists (st st' : State) (tr : Transition),
     run (initialState false cameraFront5)
         [ModelFinished sampleObject; SetScaleRuler true None; ModelFinished sampleObject]
     = Ok st /\
     rulerGroup st <> None /\ frameCallbacks st = [] /\
     frameCallbacks (setCameraDirection "top" 0 st) = [(nextHandle st, Animate tr)] /\
     hasRuler tr = true /\ rawProgress tr 400 = 1 /\
     run st [SetCameraDirection "top" 0; Frame 400] = Ok st' /\
     builds st' = S (builds st) /\
     currentViewDirection st' = "front"%string).
Proof.
  split.
  - destruct loaded_with_ruler as (s & Hrun & Hobj & Hjl & Hg & Hq & Hn & _).
    assert (Hg' : rulerGroup (loadStart s) <> None) by exact Hg.
    assert (Hq' : frameCallbacks (loadStart s) = []) by exact Hq.
    destruct (top_in_one_frame (loadStart s) Hg' Hq') as (tr & st' & Q & Hr & Hraw & E & B & _).
    exists (loadStart s), st', tr.
    split.
    { change [ModelFinished sampleObject; SetScaleRuler true None; LoadStart]
        with ([ModelFinished sampleObject; SetScaleRuler true None] ++ [LoadStart]).
      rewrite (run_app _ _ _ _ Hrun). reflexivity. }
    split; [exact Hg' |]. split; [exact Hq' |]. split; [exact Q |].
    split; [exact Hr |]. split; [exact Hraw |]. split; [exact E |].
    split.
    + cbn [run step bind] in E.
      rewrite (runFrame_one _ _ _ _ Q) in E. cbn [invoke] in E.
      destruct (animate_total tr 400
                  (set_frameCallbacks [] (setCameraDirection "top" 0 (loadStart s))))
        as (s2 & E2 & _ & _ & _ & _ & _ & _ & _ & _ & _ & _ & _ & Q2 & _).
      rewrite E2 in E. cbn [bind] in E. injection E as <-.
      rewrite Q2, Hraw. destruct (Rlt_dec 1 1); [lra | reflexivity].
    + rewrite B. cbn. lia.
  - destruct reload_with_ruler as (s & Hrun & _ & Hjl & Hobj & Hg & Hq & _).
    destruct (top_in_one_frame s Hg Hq) as (tr & st' & Q & Hr & Hraw & E & B & D).
    exists s, st', tr.
    split; [exact Hrun |]. split; [exact Hg |]. split; [exact Hq |]. split; [exact Q |].
    split; [exact Hr |]. split; [exact Hraw |]. split; [exact E |].
    rewrite B, D, Hobj, Hjl. split; [cbn; lia | reflexivity].
Qed.

(** Instances of [crossfade_exactly_once]: a transition to the top in
    a state with an overlay, and the same in the state that a load and an
    enable of the ruler reach. *)
Lemma crossfade_exactly_once_witness :
  (let st := stateWithRuler in
   let tr := mkTransition (Directed "top") (vec3 0 0 0) (eyeDistance cameraFront5)
               (targetOf cameraFront5 (vec3 0 1 0))
               (vec3 0 0 5) (vec3 0 1 0) (vec3 0 0 (-1)) true false 0 in
   rulerGroup st <> None /\
   directedTransition "top" 0 st = Some tr /\
    (forall (b : bool) (now : R) (s : State),
       exists s' : State,
         animate (closureWith b tr) now s = Ok s' /\
         (forall g : Group,
            rulerGroup s' = Some g ->
            fadedTo (currentIsDark s)
                    (if Rlt_dec (rawProgress tr now) 0.5 then 1 - rawProgress tr now * 2
                     else (rawProgress tr now - 0.5) * 2) g) /\
         builds s'
         = (builds s
            + (if negb b && pastHalf (rawProgress tr now) && isSome (threeObject s)
               then 1 else 0))%nat /\
         currentViewDirection s'
         = (if negb b && pastHalf (rawProgress tr now)
            then if isSome (threeObject s) && justLoaded s then "front"%string
                 else "top"%string
            else currentViewDirection s) /\
         frameCallbacks s'
         = (if Rlt_dec (rawProgress tr now) 1
            then frameCallbacks s
                 ++ [(nextHandle s,
                      Animate (closureWith (b || pastHalf (rawProgress tr now)) tr))]
            else frameCallbacks s)) /\
    (forall (nows : list R) (now : R),
       frameCallbacks st = [] ->
       Forall (fun n => rawProgress tr n < 1) nows ->
       exists (st' : State) (g' : Group),
         run (setCameraDirection "top" 0 st) (map Frame (nows ++ [now])) = Ok st' /\
         rulerGroup st' = Some g' /\
         fadedTo (currentIsDark st)
                 (if Rlt_dec (rawProgress tr now) 0.5 then 1 - rawProgress tr now * 2
                  else (rawProgress tr now - 0.5) * 2) g' /\
         builds st'
         = (builds st
            + (if crossed tr (nows ++ [now]) && isSome (threeObject st) then 1 else 0))%nat /\
         currentViewDirection st'
         = (if crossed tr (nows ++ [now])
            then if isSome (threeObject st) && justLoaded st then "front"%string
                 else "top"%string
            else currentViewDirection st)) /\
    (forall (c : Transition) (raw : R) (s : State),
       hasRuler c = true -> rulerRebuilt c = false -> 0.5 <= raw ->
       crossfade c raw s
       = (s1 <- setScaleRuler true (currentRulerMeshIndex s)
                  (set_currentViewDirection (newDirection c) s) ;;
          Ok (markRebuilt c, fadeRuler ((raw - 0.5) * 2) (fadeRuler 0 s1))))) /\
  (exists (st : State) (tr : Transition),
    run (initialState false cameraFront5) [ModelFinished sampleObject; SetScaleRuler true None]
    = Ok st /\
    rulerGroup st <> None /\
    directedTransition "top" 0 st = Some tr /\
    (forall (b : bool) (now : R) (s : State),
       exists s' : State,
         animate (closureWith b tr) now s = Ok s' /\
         (forall g : Group,
            rulerGroup s' = Some g ->
            fadedTo (currentIsDark s)
                    (if Rlt_dec (rawProgress tr now) 0.5 then 1 - rawProgress tr now * 2
                     else (rawProgress tr now - 0.5) * 2) g) /\
         builds s'
         = (builds s
            + (if negb b && pastHalf (rawProgress tr now) && isSome (threeObject s)
               then 1 else 0))%nat /\
         currentViewDirection s'
         = (if negb b && pastHalf (rawProgress tr now)
            then if isSome (threeObject s) && justLoaded s then "front"%string
                 else "top"%string
            else currentViewDirection s) /\
         frameCallbacks s'
         = (if Rlt_dec (rawProgress tr now) 1
            then frameCallbacks s
                 ++ [(nextHandle s,
                      Animate (closureWith (b || pastHalf (rawProgress tr now)) tr))]
            else frameCallbacks s)) /\
    (forall (nows : list R) (now : R),
       frameCallbacks st = [] ->
       Forall (fun n => rawProgress tr n < 1) nows ->
       exists (st' : State) (g' : Group),
         run (setCameraDirection "top" 0 st) (map Frame (nows ++ [now])) = Ok st' /\
         rulerGroup st' = Some g' /\
         fadedTo (currentIsDark st)
                 (if Rlt_dec (rawProgress tr now) 0.5 then 1 - rawProgress tr now * 2
                  else (rawProgress tr now - 0.5) * 2) g' /\
         builds st'
         = (builds st
            + (if crossed tr (nows ++ [now]) && isSome (threeObject st) then 1 else 0))%nat /\
         currentViewDirection st'
         = (if crossed tr (nows ++ [now])
            then if isSome (threeObject st) && justLoaded st then "front"%string
                 else "top"%string
            else currentViewDirection st)) /\
    (forall (c : Transition) (raw : R) (s : State),
       hasRuler c = true -> rulerRebuilt c = false -> 0.5 <= raw ->
       crossfade c raw s
       = (s1 <- setScaleRuler true (currentRulerMeshIndex s)
                  (set_currentViewDirection (newDirection c) s) ;;
          Ok (markRebuilt c, fadeRuler ((raw - 0.5) * 2) (fadeRuler 0 s1))))).
Proof.
  split.
  - intros st tr.
    assert (Hg : rulerGroup st <> None) by discriminate.
    assert (Htr : directedTransition "top" 0 st = Some tr) by reflexivity.
    split; [exact Hg |]. split; [exact Htr |].
    exact (crossfade_exactly_once st "top" 0 tr Hg Htr).
  - destruct loaded_with_ruler as (st & Hrun & _ & _ & Hg & _).
    pose proof (directedTransition_top 0 st) as Htr.
    eexists st, _. split; [exact Hrun |]. split; [exact Hg |]. split; [exact Htr |].
    exact (crossfade_exactly_once st "top" 0 _ Hg Htr).
Defined.

End RebuildCases.

Section CubeRoot.

Open Scope Z_scope.

(** Twice a cube is not a cube: the cube root of 1/2 is irrational. *)
Lemma double_cube_descent (n : nat) :
  forall a b : Z, Z.abs b <= Z.of_nat n -> b <> 0 -> 2 * (a * a * a) <> b * b * b.
Proof.
  induction n as [| n IH]; intros a b Hn Hb H; [lia |].
  destruct (Z.Even_or_Odd b) as [[k Hk] | [k Hk]].
  - subst b.
    assert (Ha : a * a * a = 4 * (k * k * k)).
    { assert (E : 2 * k * (2 * k) * (2 * k) = 8 * (k * k * k)) by ring. lia. }
    destruct (Z.Even_or_Odd a) as [[j Hj] | [j Hj]].
    + subst a.
      assert (E : 2 * j * (2 * j) * (2 * j) = 8 * (j * j * j)) by ring.
      apply (IH j k); lia.
    + subst a.
      assert (E : (2 * j + 1) * (2 * j + 1) * (2 * j + 1)
                  = 2 * (4 * (j * j * j) + 6 * (j * j) + 3 * j) + 1) by ring.
      lia.
  - subst b.
    assert (E : (2 * k + 1) * (2 * k + 1) * (2 * k + 1)
                = 2 * (4 * (k * k * k) + 6 * (k * k) + 3 * k) + 1) by ring.
    lia.
Qed.

Lemma double_cube (a b : Z) : b <> 0 -> 2 * (a * a * a) <> b * b * b.
Proof.
  intros Hb. apply (double_cube_descent (Z.to_nat (Z.abs b))); [lia | exact Hb].
Qed.

End CubeRoot.

Section StampedFrames.

Lemma ratio_cube_not_half (a b : Z) :
  b <> 0%Z -> IZR a / IZR b * (IZR a / IZR b) * (IZR a / IZR b) <> / 2.
Proof.
  intros Hb H.
  assert (Hb' : IZR b <> 0) by (apply not_0_IZR; exact Hb).
  assert (E : 2 * (IZR a * IZR a * IZR a) = IZR b * IZR b * IZR b).
  { transitivity (2 * (IZR b * IZR b * IZR b)
                  * (IZR a / IZR b * (IZR a / IZR b) * (IZR a / IZR b)));
      [field; exact Hb' | rewrite H; field]. }
  apply (double_cube a b Hb). apply eq_IZR.
  rewrite !mult_IZR. exact E.
Qed.

(** The progress of a frame is a rational number when the frame and the
    start of the transition have time stamps. *)
Lemma stamp_progress (now0 now : Stamp) :
  exists a b : Z,
    b <> 0%Z /\ 1 - (stampValue now - stampValue now0) / 400 = IZR a / IZR b.
Proof.
  destruct now0 as [m dm], now as [n dn]. unfold stampValue. cbn [numerator denominator].
  exists (400 * Zpos dn * Zpos dm - (n * Zpos dm - m * Zpos dn))%Z, (400 * Zpos dn * Zpos dm)%Z.
  split; [lia |].
  rewrite minus_IZR, !mult_IZR, minus_IZR, !mult_IZR.
  assert (H1 : IZR (Zpos dn) <> 0) by (apply not_0_IZR; lia).
  assert (H2 : IZR (Zpos dm) <> 0) by (apply not_0_IZR; lia).
  field. split; assumption.
Qed.

(** No frame with a time stamp has eased progress one half. *)
Lemma eased_stamp (tr : Transition) (now0 now : Stamp) :
  startTime tr = stampValue now0 ->
  eased (rawProgress tr (stampValue now)) <> / 2.
Proof.
  intros Hs H. unfold eased in H.
  assert (Hx : (1 - rawProgress tr (stampValue now)) * (1 - rawProgress tr (stampValue now))
               * (1 - rawProgress tr (stampValue now)) = / 2) by lra.
  clear H. unfold rawProgress, Math_min, Rmin in Hx. rewrite Hs in Hx.
  destruct (Rle_dec ((stampValue now - stampValue now0) / 400) 1) as [_ | _].
  - destruct (stamp_progress now0 now) as (a & b & Hb & E).
    rewrite E in Hx. exact (ratio_cube_not_half a b Hb Hx).
  - lra.
Qed.

(** Two vectors of the same length [D > 0]: the interpolated vector is
    the zero vector at [t = 1/2] at most. *)
Lemma lerp_nonzero (a b : Vec3) (D t : R) :
  0 < D ->
  vx a * vx a + vy a * vy a + vz a * vz a = D * D ->
  vx b * vx b + vy b * vy b + vz b * vz b = D * D ->
  t <> / 2 ->
  0 < vx (lerp a b t) * vx (lerp a b t) + vy (lerp a b t) * vy (lerp a b t)
      + vz (lerp a b t) * vz (lerp a b t).
Proof.
  intros HD Ha Hb Ht.
  destruct a as [ax ay az], b as [bx by_ bz]. unfold lerp. cbn [vx vy vz] in *.
  set (p := ax + (bx - ax) * t). set (q := ay + (by_ - ay) * t). set (r := az + (bz - az) * t).
  destruct (Rlt_or_le 0 (p * p + q * q + r * r)) as [H | H]; [exact H | exfalso].
  assert (Hp : p = 0) by nra. assert (Hq : q = 0) by nra. assert (Hr : r = 0) by nra.
  assert (Ex : ax * (1 - t) = - (bx * t)) by (unfold p in Hp; lra).
  assert (Ey : ay * (1 - t) = - (by_ * t)) by (unfold q in Hq; lra).
  assert (Ez : az * (1 - t) = - (bz * t)) by (unfold r in Hr; lra).
  assert (E : (ax * ax + ay * ay + az * az) * ((1 - t) * (1 - t))
              = (bx * bx + by_ * by_ + bz * bz) * (t * t)).
  { transitivity (ax * (1 - t) * (ax * (1 - t)) + ay * (1 - t) * (ay * (1 - t))
                  + az * (1 - t) * (az * (1 - t))); [ring |].
    rewrite Ex, Ey, Ez. ring. }
  rewrite Ha, Hb in E.
  assert (H2 : D * D * (1 - 2 * t) = 0).
  { replace (D * D * (1 - 2 * t)) with (D * D * ((1 - t) * (1 - t)) - D * D * (t * t)) by ring.
    rewrite E. ring. }
  apply Rmult_integral in H2. destruct H2 as [H2 | H2]; [nra | apply Ht; lra].
Qed.

Lemma sqrt_pos_lt (x : R) : 0 < x -> sqrt x > 0.
Proof. intros H. apply Rlt_gt. apply sqrt_lt_R0. exact H. Qed.






End StampedFrames.

Section UpVector.

Lemma vlength_unit_square (v : Vec3) :
  vlength v = 1 -> vx v * vx v + vy v * vy v + vz v * vz v = 1 * 1.
Proof.
  intros H. unfold vlength, Math_sqrt in H.
  rewrite <- (sqrt_sqrt (vx v * vx v + vy v * vy v + vz v * vz v)) by nra.
  rewrite H. ring.
Qed.

Lemma vlength_axis : vlength (vec3 0 1 0) = 1.
Proof.
  unfold vlength, Math_sqrt. cbn [vx vy vz].
  replace (0 * 0 + 1 * 1 + 0 * 0) with 1 by ring. apply sqrt_1.
Qed.

Lemma directionTable_up (direction : string) (dv uv : Vec3) :
  directionTable direction = Some (dv, uv) -> vlength uv = 1.
Proof.
  intros H. destruct (directionTable_unit _ _ _ H) as [_ Hu].
  unfold vlength, Math_sqrt. rewrite Hu. apply sqrt_1.
Qed.

(** The up of a frame with a time stamp, of any closure with unit start
    and target up that began at a time stamp. *)
Lemma frameUp_stamp (tr : Transition) (now : Stamp) :
  unitUps (Animate tr) -> vlength (frameUp tr (stampValue now)) = 1.
Proof.
  intros (Hs & Hu & t0 & Ht).
  apply frameUp_unit. unfold vlength, Math_sqrt. apply sqrt_pos_lt.
  apply (lerp_nonzero (startUp tr) (upVec tr) 1 _);
    [lra | apply vlength_unit_square; exact Hs | apply vlength_unit_square; exact Hu |].
  exact (eased_stamp tr t0 now Ht).
Qed.

Lemma unitUps_closureWith (b : bool) (tr : Transition) :
  unitUps (Animate tr) -> unitUps (Animate (closureWith b tr)).
Proof. destruct b; intros H; exact H. Qed.

Lemma invoke_upInv (h : nat) (cb : Callback) (now : Stamp) (st : State) :
  upInv st -> lookupCallback h st = Some cb ->
  exists st' : State,
    invoke cb (stampValue now) (cancelAnimationFrame h st) = Ok st' /\ upInv st'.
Proof.
  intros [Hup Hq] Hlook.
  assert (Hcb : unitUps cb).
  { apply lookupCallback_In in Hlook. rewrite Forall_forall in Hq. exact (Hq _ Hlook). }
  set (st1 := cancelAnimationFrame h st).
  assert (Hq1 : Forall (fun e => unitUps (snd e)) (frameCallbacks st1)).
  { unfold st1, cancelAnimationFrame. cbn [frameCallbacks set_frameCallbacks].
    apply Forall_forall. intros e He. apply filter_In in He.
    rewrite Forall_forall in Hq. apply Hq. tauto. }
  destruct cb as [tr | ar]; cbn [invoke].
  - destruct (animate_total tr (stampValue now) st1)
      as (st2 & E & C & _ & _ & _ & _ & _ & _ & _ & _ & _ & _ & Q & _).
    exists st2. split; [exact E |]. split.
    + rewrite C. unfold cameraAfter.
      destruct (takesLoadBranch tr (rawProgress tr (stampValue now)) st1).
      * exact vlength_axis.
      * exact (frameUp_stamp tr now Hcb).
    + rewrite Q. destruct (Rlt_dec (rawProgress tr (stampValue now)) 1); [| exact Hq1].
      apply Forall_app. split; [exact Hq1 |]. constructor; [| constructor].
      cbn [snd]. apply unitUps_closureWith. exact Hcb.
  - eexists. split; [reflexivity |]. unfold tick, upInv. cbn.
    split; [exact Hup |]. apply Forall_app. split; [exact Hq1 |].
    constructor; [exact I | constructor].
Qed.

Lemma runCallbacks_upInv (now : Stamp) (handles : list nat) :
  forall st : State,
    upInv st ->
    exists st' : State, runCallbacks handles (stampValue now) st = Ok st' /\ upInv st'.
Proof.
  induction handles as [| h hs IH]; intros st Hinv; cbn [runCallbacks].
  - exists st. split; [reflexivity | exact Hinv].
  - destruct (lookupCallback h st) as [cb |] eqn:Hlook; [| exact (IH st Hinv)].
    destruct (invoke_upInv h cb now st Hinv Hlook) as (st1 & E1 & I1).
    rewrite E1. cbn [bind]. exact (IH st1 I1).
Qed.

Lemma setScaleRuler_upInv (enabled : bool) (meshIndex : option Z) (st st' : State) :
  upInv st -> setScaleRuler enabled meshIndex st = Ok st' -> upInv st'.
Proof.
  intros [Hup Hq] E. destruct enabled.
  - destruct (setScaleRuler_enabled meshIndex st)
      as (s & E' & Hnone & Hobj & _ & _ & _ & _ & Q & _).
    rewrite E in E'. injection E' as <-.
    split; [| rewrite Q; exact Hq].
    destruct (threeObject st) as [obj |] eqn:Ho.
    + destruct Hobj as (_ & _ & _ & C & _); [discriminate |].
      rewrite C. destruct (justLoaded st); [exact vlength_axis | exact Hup].
    + rewrite (Hnone eq_refl). exact Hup.
  - unfold setScaleRuler in E. destruct (threeObject st); [| injection E as <-; split; assumption].
    cbn [negb] in E.
    destruct (rulerGroup (set_currentRulerMeshIndex meshIndex st)); injection E as <-;
      split; assumption.
Qed.

Lemma step_upInv (st st' : State) (e : Event) :
  upInv st -> stamped e -> step st e = Ok st' -> upInv st'.
Proof.
  intros Hinv Hs E.
  destruct e as [| obj | enabled meshIndex | w h d u | direction now | now | hs td now
                 | | now]; cbn [step] in E.
  - injection E as <-. exact Hinv.
  - injection E as <-. destruct Hinv as [_ Hq]. split; [exact vlength_axis | exact Hq].
  - exact (setScaleRuler_upInv _ _ _ _ Hinv E).
  - injection E as <-. destruct Hinv as [Hup Hq].
    destruct (updateRulerLabels_keeps w h d u st) as [O _].
    destruct O as (_ & _ & _ & C & _ & _ & _ & _ & Q & _).
    split; [rewrite C; exact Hup | rewrite Q; exact Hq].
  - injection E as <-. destruct Hinv as [Hup Hq]. destruct Hs as [t0 ->].
    unfold setCameraDirection, directedTransition.
    destruct (directionTable direction) as [[dv uv] |] eqn:Hdir; [| split; assumption].
    split; [exact Hup |]. cbn. apply Forall_app. split; [exact Hq |].
    constructor; [| constructor]. cbn.
    split; [exact Hup |]. split; [exact (directionTable_up _ _ _ Hdir) |].
    exists t0. reflexivity.
  - injection E as <-. destruct Hinv as [Hup Hq]. destruct Hs as [t0 ->].
    split; [exact Hup |]. unfold resetCamera. cbn. apply Forall_app. split; [exact Hq |].
    constructor; [| constructor]. cbn.
    split; [exact Hup |]. split; [exact vlength_axis |]. exists t0. reflexivity.
  - injection E as <-. destruct Hinv as [Hup Hq].
    unfold startAutoRotate. destruct (autoRotateId st); [split; assumption |].
    cbn. split; [exact Hup |]. apply Forall_app. split; [exact Hq |].
    constructor; [exact I | constructor].
  - injection E as <-. destruct Hinv as [Hup Hq].
    unfold stopAutoRotate. destruct (autoRotateId st); [| split; assumption].
    cbn. split; [exact Hup |].
    apply Forall_forall. intros e He. apply filter_In in He.
    rewrite Forall_forall in Hq. apply Hq. tauto.
  - destruct Hs as [t ->].
    destruct (runCallbacks_upInv t (map fst (frameCallbacks st)) st Hinv) as (s & E' & I').
    unfold runFrame in E. rewrite E in E'. injection E' as <-. exact I'.
Qed.

Lemma run_upInv (es : list Event) :
  forall st st' : State,
    upInv st -> Forall stamped es -> run st es = Ok st' -> upInv st'.
Proof.
  induction es as [| e es IH]; intros st st' Hinv Hall Hrun; cbn [run] in Hrun.
  - injection Hrun as <-. exact Hinv.
  - inversion Hall as [| x xs Hs Hall' Heq]; subst.
    destruct (step st e) as [st1 | f] eqn:E; cbn [bind] in Hrun; [| discriminate].
    exact (IH st1 st' (step_upInv st st1 e Hinv Hs E) Hall' Hrun).
Qed.

End UpVector.

Section UpVectorTheorem.

(** X24: the camera writes of the bridge keep the up vector at unit
    length.  In a run that starts with a camera whose up has unit length,
    and whose calls and frames carry time stamps, the up of the camera has
    unit length in every state, and every pending closure of a camera
    transition writes an up of unit length in whatever frame it is called.
    (Camera moves that the viewer makes by itself are not part of the
    model.) *)
Theorem up_stays_unit (isDark : bool) (cam : Camera) (es : list Event) (st : State) :
  vlength (up cam) = 1 ->
  Forall stamped es ->
  run (initialState isDark cam) es = Ok st ->
  vlength (up (camera st)) = 1 /\
  (forall (h : nat) (tr : Transition) (now : Stamp),
     In (h, Animate tr) (frameCallbacks st) ->
     vlength (frameUp tr (stampValue now)) = 1).
Proof.
  intros Hup Hall Hrun.
  assert (H0 : upInv (initialState isDark cam)) by (split; [exact Hup | constructor]).
  destruct (run_upInv es _ _ H0 Hall Hrun) as [H1 H2].
  split; [exact H1 |].
  intros h tr now Hin. apply frameUp_stamp.
  rewrite Forall_forall in H2. exact (H2 _ Hin).
Qed.

Lemma up_stays_unit_witness :
  let es := [SetCameraDirection "top" (stampValue (mkStamp 0 1))] in
  let st := setCameraDirection "top" (stampValue (mkStamp 0 1))
              (initialState false cameraFront5) in
  vlength (up cameraFront5) = 1 /\
  Forall stamped es /\
  run (initialState false cameraFront5) es = Ok st /\
  vlength (up (camera st)) = 1 /\
  (forall (h : nat) (tr : Transition) (now : Stamp),
     In (h, Animate tr) (frameCallbacks st) ->
     vlength (frameUp tr (stampValue now)) = 1).
Proof.
  intros es st.
  assert (Hup : vlength (up cameraFront5) = 1) by exact vlength_axis.
  assert (Hall : Forall stamped es).
  { constructor; [| constructor]. exists (mkStamp 0 1). reflexivity. }
  assert (Hrun : run (initialState false cameraFront5) es = Ok st) by reflexivity.
  split; [exact Hup |]. split; [exact Hall |]. split; [exact Hrun |].
  exact (up_stays_unit false cameraFront5 es st Hup Hall Hrun).
Defined.

End UpVectorTheorem.

Section Degenerate.

Ltac small_axis H :=
  unfold Rabs in *;
  repeat match goal with
         | |- context [Rcase_abs ?e] => destruct (Rcase_abs e)
         | H0 : context [Rcase_abs ?e] |- _ => destruct (Rcase_abs e)
         end; lra.

Lemma xAxisRuler_degenerate (sides : Sides) (direction : string) (min size : Vec3)
    (majorTick minorTick endTick spriteScale : R) (acc : Build) :
  Rabs (vx size) < 1e-10 ->
  exists (a1 b1 a2 b2 a3 b3 pos : Vec3),
    xAxisRuler sides direction min size majorTick minorTick endTick spriteScale acc
    = Ok ((fst acc ++ [Line a1 b1; Line a2 b2; Line a3 b3;
                       Label (mkSprite (toFixed2 (vx size)) pos spriteScale 1)],
           snd acc),
          (List.length (fst acc) + 3)%nat).
Proof.
  intros Hs. unfold xAxisRuler. cbv zeta.
  do 7 eexists. apply axisRuler_degenerate.
  destruct (Z.eqb (sides2 sides) 1); rewrite vlength_along_x; small_axis Hs.
Qed.

Lemma yAxisRuler_degenerate (sides : Sides) (direction : string) (min size : Vec3)
    (majorTick minorTick endTick spriteScale : R) (acc : Build) :
  Rabs (vy size) < 1e-10 ->
  exists (a1 b1 a2 b2 a3 b3 pos : Vec3),
    yAxisRuler sides direction min size majorTick minorTick endTick spriteScale acc
    = Ok ((fst acc ++ [Line a1 b1; Line a2 b2; Line a3 b3;
                       Label (mkSprite (toFixed2 (vy size)) pos spriteScale 1)],
           snd acc),
          (List.length (fst acc) + 3)%nat).
Proof.
  intros Hs. unfold yAxisRuler. cbv zeta.
  do 7 eexists. apply axisRuler_degenerate.
  destruct (Z.eqb (sides0 sides) 1); rewrite vlength_along_y; small_axis Hs.
Qed.

Lemma zAxisRuler_degenerate (sides : Sides) (direction : string) (min size : Vec3)
    (majorTick minorTick endTick spriteScale : R) (acc : Build) :
  Rabs (vz size) < 1e-10 ->
  exists (a1 b1 a2 b2 a3 b3 pos : Vec3),
    zAxisRuler sides direction min size majorTick minorTick endTick spriteScale acc
    = Ok ((fst acc ++ [Line a1 b1; Line a2 b2; Line a3 b3;
                       Label (mkSprite (toFixed2 (vz size)) pos spriteScale 1)],
           snd acc),
          (List.length (fst acc) + 3)%nat).
Proof.
  intros Hs. unfold zAxisRuler. cbv zeta.
  do 7 eexists. apply axisRuler_degenerate.
  destruct (Z.eqb (sides1 sides) 1); rewrite vlength_along_z; small_axis Hs.
Qed.

Lemma toFixed2_zero : toFixed2 0 = "0.00"%string.
Proof.
  unfold toFixed2.
  destruct (Rlt_dec 0 0) as [H | _]; [lra |].
  assert (Hn : Zfloor (Rabs 0 * 100 + / 2) = 0%Z).
  { apply Zfloor_eq. rewrite Rabs_R0. lra. }
  rewrite Hn. reflexivity.
Qed.

(** C5, the counterexample: for a box of size zero every axis is
    degenerate, yet [setScaleRuler(true)] leaves the dimension label of
    the X axis in the overlay, with the text "0.00"; only the graduated
    ticks and their numbers are missing. *)
Lemma degenerate_axis_counterexample :
  getSize (objectBox pointObject) = vec3 0 0 0 /\
  exists (st' : State) (g : Group) (s : Sprite),
    setScaleRuler true None stateWithPoint = Ok st' /\
    rulerGroup st' = Some g /\
    labelX (rulerLabelSprites st') = Some 3%nat /\
    nth_error (children g) 3 = Some (Label s) /\
    spriteText s = "0.00"%string /\
    rulerTickSprites st' = [].
Proof.
  assert (Hsize : getSize (objectBox pointObject) = vec3 0 0 0).
  { unfold getSize, isEmpty, pointObject. cbn [objectBox bmin bmax vx vy vz].
    destruct (Rlt_dec 0 0); [lra |]. unfold subVectors. cbn [vx vy vz].
    f_equal; ring. }
  split; [exact Hsize |].
  assert (Hsmall : Rabs 0 < 1e-10) by (rewrite Rabs_R0; lra).
  unfold setScaleRuler, stateWithPoint. cbn [threeObject set_threeObject negb].
  unfold eyeLevelOnLoad. cbn [justLoaded set_currentRulerMeshIndex set_threeObject initialState].
  unfold removeExistingRuler. cbn [rulerGroup].
  cbn [findMeshByIndex]. unfold buildRuler. rewrite Hsize. cbn [vx vy vz rulerTickSprites].
  set (sides := sidesFor _).
  match goal with
  | |- context [xAxisRuler ?a ?b ?c ?d ?e ?f ?g ?h ?i] =>
      destruct (xAxisRuler_degenerate a b c d e f g h i Hsmall)
        as [a1 [b1 [a2 [b2 [a3 [b3 [px Ex]]]]]]]
  end.
  rewrite Ex. cbn [bind fst snd app List.length Nat.add].
  match goal with
  | |- context [yAxisRuler ?a ?b ?c ?d ?e ?f ?g ?h ?i] =>
      destruct (yAxisRuler_degenerate a b c d e f g h i Hsmall)
        as [c1 [d1 [c2 [d2 [c3 [d3 [py Ey]]]]]]]
  end.
  rewrite Ey. cbn [bind fst snd app List.length Nat.add].
  match goal with
  | |- context [zAxisRuler ?a ?b ?c ?d ?e ?f ?g ?h ?i] =>
      destruct (zAxisRuler_degenerate a b c d e f g h i Hsmall)
        as [e1 [f1 [e2 [f2 [e3 [f3 [pz Ez]]]]]]]
  end.
  rewrite Ez. cbn [bind fst snd app List.length Nat.add].
  cbn [lastRulerLabels logCall set_viewerCalls set_rulerGroup set_rulerTickSprites
       set_rulerLabelSprites].
  eexists. eexists. eexists.
  split; [reflexivity |]. cbn.
  split; [reflexivity |]. split; [reflexivity |]. split; [reflexivity |].
  split; [apply toFixed2_zero | reflexivity].
Qed.

(** C5, as amended: a degenerate axis gets no graduated ticks and no
    tick numbers ([addGraduatedTicks] returns the group and the tick list
    as they are), but its ruler line, its two end ticks and its dimension
    label are still created; the whole build never faults, that is, no
    division by zero (and no logarithm of 0) occurs in it, whatever the
    box. *)
Theorem degenerate_axis_ruler :
  (forall (group : list Child) (ticks : list TickEntry)
          (start end_ tickDir labelOffsetDir : Vec3)
          (majorLen minorLen labelOffset spriteScale : R),
     vlength (subVectors end_ start) < 1e-10 ->
     addGraduatedTicks group ticks start end_ tickDir labelOffsetDir
                       majorLen minorLen labelOffset spriteScale = Ok (group, ticks)) /\
  (forall (sides : Sides) (direction : string) (min size : Vec3)
          (majorTick minorTick endTick spriteScale : R) (acc : Build),
     (Rabs (vx size) < 1e-10 ->
      exists (a1 b1 a2 b2 a3 b3 pos : Vec3),
        xAxisRuler sides direction min size majorTick minorTick endTick spriteScale acc
        = Ok ((fst acc ++ [Line a1 b1; Line a2 b2; Line a3 b3;
                           Label (mkSprite (toFixed2 (vx size)) pos spriteScale 1)],
               snd acc),
              (List.length (fst acc) + 3)%nat)) /\
     (Rabs (vy size) < 1e-10 ->
      exists (a1 b1 a2 b2 a3 b3 pos : Vec3),
        yAxisRuler sides direction min size majorTick minorTick endTick spriteScale acc
        = Ok ((fst acc ++ [Line a1 b1; Line a2 b2; Line a3 b3;
                           Label (mkSprite (toFixed2 (vy size)) pos spriteScale 1)],
               snd acc),
              (List.length (fst acc) + 3)%nat)) /\
     (Rabs (vz size) < 1e-10 ->
      exists (a1 b1 a2 b2 a3 b3 pos : Vec3),
        zAxisRuler sides direction min size majorTick minorTick endTick spriteScale acc
        = Ok ((fst acc ++ [Line a1 b1; Line a2 b2; Line a3 b3;
                           Label (mkSprite (toFixed2 (vz size)) pos spriteScale 1)],
               snd acc),
              (List.length (fst acc) + 3)%nat))) /\
  (forall (st : State) (enabled : bool) (meshIndex : option Z),
     exists st' : State,
       setScaleRuler enabled meshIndex st = Ok st' /\
       (threeObject st <> None -> enabled = true -> labelsPresent st')).
Proof.
  split; [| split].
  - intros. apply addGraduatedTicks_degenerate. assumption.
  - intros sides direction min size majorTick minorTick endTick spriteScale acc.
    split; [| split]; intros Hs.
    + apply xAxisRuler_degenerate. exact Hs.
    + apply yAxisRuler_degenerate. exact Hs.
    + apply zAxisRuler_degenerate. exact Hs.
  - intros st enabled meshIndex.
    destruct (setScaleRuler_ok enabled meshIndex st) as [st' [E [_ [Hen _]]]].
    exists st'. split; [exact E |].
    intros Ho He. destruct (Hen Ho He) as [P _]. exact P.
Qed.

End Degenerate.

Section TickWalk.

(** The walk visits the positions [d, d + tickStep, ...] that pass the
    loop test and stops at the first that fails it. *)
Lemma tickWalk_positions (body : R -> Build -> result Build) (bound tickStep : R) :
  0 < tickStep ->
  forall (fuel : nat) (d : R) (acc : Build),
    (1 <= fuel)%nat ->
    (bound - d) / tickStep < INR fuel - 1 ->
    exists n : nat,
      tickWalk fuel body bound tickStep d acc = foldBuild body (walkFrom n d tickStep) acc /\
      Forall (fun x => x <= bound) (walkFrom n d tickStep) /\
      ~ d + INR n * tickStep <= bound.
Proof.
  intros Hts. induction fuel as [| fuel IH]; intros d acc Hf Hlt; [lia |].
  cbn [tickWalk].
  destruct (Rle_dec d bound) as [Hd | Hd].
  - assert (Hq : 0 <= (bound - d) / tickStep).
    { apply Rmult_le_pos; [lra |]. left. apply Rinv_0_lt_compat. exact Hts. }
    rewrite S_INR in Hlt.
    assert (Hfuel : (1 <= fuel)%nat).
    { destruct fuel; [cbn in Hlt; lra | lia]. }
    assert (Hlt' : (bound - (d + tickStep)) / tickStep < INR fuel - 1).
    { replace ((bound - (d + tickStep)) / tickStep) with ((bound - d) / tickStep - 1)
        by (field; lra).
      lra. }
    destruct (body d acc) as [acc' | f] eqn:Eb.
    + destruct (IH (d + tickStep) acc' Hfuel Hlt') as [n [E [F X]]].
      exists (S n). cbn [walkFrom foldBuild]. rewrite Eb. cbn [bind].
      split; [exact E |]. split; [constructor; assumption |].
      rewrite S_INR. intros H. apply X. lra.
    + destruct (IH (d + tickStep) acc Hfuel Hlt') as [n [_ [F X]]].
      exists (S n). cbn [walkFrom foldBuild]. rewrite Eb. cbn [bind].
      split; [reflexivity |]. split; [constructor; assumption |].
      rewrite S_INR. intros H. apply X. lra.
  - exists O. cbn [walkFrom foldBuild INR]. split; [reflexivity |].
    split; [constructor | lra].
Qed.

(** Ticks within 5% of a step of either end are skipped. *)
Lemma tickBody_suppressed (start dir tickDir labelOffsetDir : Vec3)
    (majorLen minorLen labelOffset numScale length step d : R) (acc : Build) :
  step <> 0 ->
  Math_min d length < step * 0.05 \/ Math_min d length > length - step * 0.05 ->
  tickBody start dir tickDir labelOffsetDir majorLen minorLen labelOffset numScale
           length step d acc = Ok acc.
Proof.
  intros Hs Hzone. unfold tickBody.
  destruct (Rlt_dec d (-1e-10)); [reflexivity |].
  rewrite div_ok by exact Hs. cbn [bind].
  destruct (Rlt_dec (Math_min d length) (step * 0.05)); [reflexivity |].
  destruct (Rgt_dec (Math_min d length) (length - step * 0.05)); [reflexivity |].
  destruct Hzone; contradiction.
Qed.

(** All other ticks get their mark, and the major ones their number. *)
Lemma tickBody_emitted (start dir tickDir labelOffsetDir : Vec3)
    (majorLen minorLen labelOffset numScale length step d : R) (acc : Build) :
  step <> 0 -> -1e-10 <= d ->
  step * 0.05 <= Math_min d length <= length - step * 0.05 ->
  let t := Math_min d length in
  tickBody start dir tickDir labelOffsetDir majorLen minorLen labelOffset numScale
           length step d acc
  = Ok (fst acc ++ [tickMark start dir tickDir t minorLen], snd acc)
  \/
  tickBody start dir tickDir labelOffsetDir majorLen minorLen labelOffset numScale
           length step d acc
  = Ok (fst acc ++ [tickMark start dir tickDir t majorLen;
                    Label (mkSprite (formatTickNum t)
                             (addScaledVector (addScaledVector start dir t)
                                              labelOffsetDir labelOffset)
                             numScale 1)],
        snd acc ++ [mkTick (S (List.length (fst acc))) t 16 numScale]).
Proof.
  intros Hs Hd Hzone t. unfold tickBody.
  destruct (Rlt_dec d (-1e-10)); [lra |].
  rewrite div_ok by exact Hs. cbn [bind]. fold t.
  destruct (Rlt_dec t (step * 0.05)); [unfold t in *; lra |].
  destruct (Rgt_dec t (length - step * 0.05)); [unfold t in *; lra |].
  destruct (Rlt_dec _ (step * 0.01)).
  - right. unfold tickMark. rewrite <- app_assoc. cbn [app].
    rewrite length_app. cbn [List.length]. rewrite Nat.add_1_r. reflexivity.
  - left. reflexivity.
Qed.

Lemma Math_round_14 : Math_round (14 / 1) = 14.
Proof.
  unfold Math_round.
  assert (H : Zfloor (14 / 1 + / 2) = 14%Z) by (apply Zfloor_eq; lra).
  rewrite H. reflexivity.
Qed.

(** C8, the counterexample: an axis of length 14.5 that is the longest
    side of its box is planned with step 1 and no minor ticks; the walk
    visits position 14, which is only 0.5 away from the axis end, that is
    within 5% of the axis length (0.725), and the tick there is emitted:
    mark and number. *)
Lemma tick_end_counterexample :
  let length := 14.5 in
  let labelWidth := 14.5 * 0.055 * 0.35 * 3 in
  plannedStep length labelWidth = Ok 1 /\
  ~ 1 / 2 > labelWidth * 1.2 /\
  In 14 (walkFrom 15 0 1) /\ 14 <= length + 1 * 0.001 /\
  Math_min 14 length = 14 /\
  length - 0.05 * length < 14 /\
  forall (start dir tickDir labelOffsetDir : Vec3)
         (majorLen minorLen labelOffset numScale : R) (acc : Build),
    tickBody start dir tickDir labelOffsetDir majorLen minorLen labelOffset numScale
             length 1 14 acc
    = Ok (fst acc ++ [tickMark start dir tickDir 14 majorLen;
                      Label (mkSprite (formatTickNum 14)
                               (addScaledVector (addScaledVector start dir 14)
                                                labelOffsetDir labelOffset)
                               numScale 1)],
          snd acc ++ [mkTick (S (List.length (fst acc))) 14 16 numScale]).
Proof.
  intros length labelWidth.
  assert (Hmin : Math_min 14 length = 14).
  { unfold Math_min, Rmin, length. destruct (Rle_dec 14 14.5); lra. }
  split.
  { unfold plannedStep, length, labelWidth. rewrite targetDivs_ok by lra. cbn [bind].
    assert (Hf : Zfloor (14.5 / (14.5 * 0.055 * 0.35 * 3 * 1.5)) = 11%Z).
    { apply floor_quotient; lra. }
    rewrite Hf.
    assert (HD : Rmin 10 (Rmax 2 11) = 10).
    { unfold Rmin, Rmax. destruct (Rle_dec 2 11); destruct (Rle_dec 10 _); lra. }
    rewrite HD.
    assert (H0 : Rpower 10 0 = 1) by (apply Rpower_O; lra).
    rewrite (niceStep_decade 14.5 10 0%Z) by (rewrite ?H0; lra).
    rewrite H0. f_equal.
    unfold nice. destruct (Rle_dec (14.5 / 10 / 1) 1.5); lra. }
  split; [unfold labelWidth; lra |].
  split.
  { cbn [walkFrom In]. do 14 right. left. ring. }
  split; [unfold length; lra |].
  split; [exact Hmin |].
  split; [unfold length; lra |].
  intros start dir tickDir labelOffsetDir majorLen minorLen labelOffset numScale acc.
  unfold tickBody.
  destruct (Rlt_dec 14 (-1e-10)); [lra |].
  rewrite div_ok by lra. cbn [bind]. rewrite Hmin, Math_round_14.
  destruct (Rlt_dec 14 (1 * 0.05)); [lra |].
  destruct (Rgt_dec 14 (length - 1 * 0.05)); [unfold length in *; lra |].
  replace (14 * 1 - 14) with 0 by ring. unfold Math_abs. rewrite Rabs_R0.
  destruct (Rlt_dec 0 (1 * 0.01)); [| lra].
  unfold tickMark. rewrite <- app_assoc. cbn [app].
  rewrite length_app. cbn [List.length]. rewrite Nat.add_1_r. reflexivity.
Qed.

(** C8, as amended: the walk of [addGraduatedTicks] runs the loop body
    at the positions 0, tickStep, 2*tickStep, ... up to the bound
    [length + 0.001 * step]; at a position [d], with [t = min(d, length)],
    the tick is suppressed (nothing is added to the group or to the tick
    list) when [t] is within 5% of one step of either axis end, that is
    [t < 0.05 * step] or [t > length - 0.05 * step]; every other tick is
    emitted: its mark, and for a major tick its number. *)
Theorem tick_end_suppression
    (start dir tickDir labelOffsetDir : Vec3)
    (majorLen minorLen labelOffset numScale length step : R) :
  0 < step ->
  let body := tickBody start dir tickDir labelOffsetDir majorLen minorLen labelOffset
                       numScale length step in
  (forall (bound tickStep : R) (acc : Build),
     0 < tickStep ->
     exists n : nat,
       tickWalk (walkFuel bound tickStep) body bound tickStep 0 acc
       = foldBuild body (walkFrom n 0 tickStep) acc /\
       Forall (fun d => d <= bound) (walkFrom n 0 tickStep) /\
       ~ 0 + INR n * tickStep <= bound) /\
  (forall (d : R) (acc : Build),
     Math_min d length < step * 0.05 \/ Math_min d length > length - step * 0.05 ->
     body d acc = Ok acc) /\
  (forall (d : R) (acc : Build),
     -1e-10 <= d ->
     step * 0.05 <= Math_min d length <= length - step * 0.05 ->
     body d acc
     = Ok (fst acc ++ [tickMark start dir tickDir (Math_min d length) minorLen], snd acc)
     \/
     body d acc
     = Ok (fst acc ++ [tickMark start dir tickDir (Math_min d length) majorLen;
                       Label (mkSprite (formatTickNum (Math_min d length))
                                (addScaledVector
                                   (addScaledVector start dir (Math_min d length))
                                   labelOffsetDir labelOffset)
                                numScale 1)],
           snd acc ++ [mkTick (S (List.length (fst acc))) (Math_min d length) 16 numScale])).
Proof.
  intros Hstep body.
  assert (Hs : step <> 0) by lra.
  split; [| split].
  - intros bound tickStep acc Hts.
    destruct (walkFuel_enough bound tickStep) as [Hf1 Hf2].
    apply (tickWalk_positions body bound tickStep Hts _ 0 acc Hf1 Hf2).
  - intros d acc Hzone. apply tickBody_suppressed; assumption.
  - intros d acc Hd Hzone. apply tickBody_emitted; assumption.
Qed.

(** An instance of [tick_end_suppression]: step 1 on an axis of length
    14.5 along X. *)
Lemma tick_end_suppression_witness :
  let body := tickBody (vec3 0 0 0) (vec3 1 0 0) (vec3 0 1 0) (vec3 0 (-1) 0)
                       0.5 0.3 1 0.3 14.5 1 in
  0 < 1 /\
  (forall (bound tickStep : R) (acc : Build),
     0 < tickStep ->
     exists n : nat,
       tickWalk (walkFuel bound tickStep) body bound tickStep 0 acc
       = foldBuild body (walkFrom n 0 tickStep) acc /\
       Forall (fun d => d <= bound) (walkFrom n 0 tickStep) /\
       ~ 0 + INR n * tickStep <= bound) /\
  (forall (d : R) (acc : Build),
     Math_min d 14.5 < 1 * 0.05 \/ Math_min d 14.5 > 14.5 - 1 * 0.05 ->
     body d acc = Ok acc).
Proof.
  intros body.
  assert (H : 0 < 1) by lra.
  split; [exact H |].
  destruct (tick_end_suppression (vec3 0 0 0) (vec3 1 0 0) (vec3 0 1 0) (vec3 0 (-1) 0)
              0.5 0.3 1 0.3 14.5 1 H) as [W [S _]].
  split; [exact W | exact S].
Defined.

End TickWalk.

Section TickNumbers.

Lemma isDigit_cases (c : ascii) :
  isDigit c = true ->
  (c = "0" \/ c = "1" \/ c = "2" \/ c = "3" \/ c = "4" \/
   c = "5" \/ c = "6" \/ c = "7" \/ c = "8" \/ c = "9")%char.
Proof.
  unfold isDigit. intros H.
  destruct (uint_of_char c (Some Nil)) as [d |] eqn:E; [| discriminate].
  apply uint_of_char_spec in E. tauto.
Qed.

Lemma isDigit_not_dot (c : ascii) : isDigit c = true -> Ascii.eqb c "." = false.
Proof.
  intros H. apply isDigit_cases in H.
  repeat (destruct H as [-> | H]; [reflexivity |]). subst. reflexivity.
Qed.

Lemma isDigit_not_minus (c : ascii) : isDigit c = true -> Ascii.eqb c "-" = false.
Proof.
  intros H. apply isDigit_cases in H.
  repeat (destruct H as [-> | H]; [reflexivity |]). subst. reflexivity.
Qed.

Lemma digitsOnly_string_of_uint (d : uint) :
  digitsOnly (NilEmpty.string_of_uint d) = true.
Proof.
  unfold digitsOnly. induction d; cbn [NilEmpty.string_of_uint list_ascii_of_string forallb];
    [reflexivity | ..]; rewrite IHd; reflexivity.
Qed.

Lemma splitAtDot_digits (s : string) :
  digitsOnly s = true -> splitAtDot s = (s, None).
Proof.
  unfold digitsOnly. induction s as [| c s IH]; intros H; [reflexivity |].
  cbn [list_ascii_of_string forallb] in H. apply andb_true_iff in H. destruct H as [Hc Hs].
  cbn [splitAtDot]. rewrite (isDigit_not_dot c Hc), (IH Hs). reflexivity.
Qed.

Lemma splitAtDot_point (s f : string) :
  digitsOnly s = true -> splitAtDot (s ++ String "." f) = (s, Some f).
Proof.
  unfold digitsOnly. induction s as [| c s IH]; intros H; [reflexivity |].
  cbn [list_ascii_of_string forallb] in H. apply andb_true_iff in H. destruct H as [Hc Hs].
  cbn [String.append splitAtDot]. rewrite (isDigit_not_dot c Hc), (IH Hs). reflexivity.
Qed.

Lemma hasDot_digits (s : string) : digitsOnly s = true -> hasDot s = false.
Proof.
  unfold digitsOnly, hasDot. induction (list_ascii_of_string s) as [| c l IH]; intros H;
    [reflexivity |].
  cbn [forallb] in H. apply andb_true_iff in H. destruct H as [Hc Hs].
  cbn [existsb]. rewrite (isDigit_not_dot c Hc), (IH Hs). reflexivity.
Qed.

(** [String(n)] of a non-negative integer is the numeral of a decimal
    that is not empty and reads back as [n]. *)
Lemma String_int_nonneg (z : Z) :
  (0 <= z)%Z ->
  exists u : uint,
    u <> Nil /\ String_int z = NilEmpty.string_of_uint u /\ Z.of_N (N.of_uint u) = z.
Proof.
  intros Hz. destruct z as [| p | p]; [| | lia].
  - exists (D0 Nil). split; [discriminate |]. split; reflexivity.
  - exists (Pos.to_uint p).
    pose proof (Unsigned.to_uint_nonnil p) as Hn.
    split; [exact Hn |]. split.
    + unfold String_int. cbn [Z.to_int NilZero.string_of_int].
      destruct (Pos.to_uint p); [contradiction | ..]; reflexivity.
    + unfold N.of_uint. rewrite Unsigned.of_to. reflexivity.
Qed.

Lemma string_of_uint_head (u : uint) :
  u <> Nil ->
  exists (c : ascii) (s : string),
    NilEmpty.string_of_uint u = String c s /\ isDigit c = true.
Proof.
  intros Hu. destruct u; [contradiction | ..]; eexists; eexists; split; reflexivity.
Qed.

Lemma uint_of_string_numeral (u : uint) :
  u <> Nil -> NilZero.uint_of_string (NilEmpty.string_of_uint u) = Some u.
Proof.
  intros Hu. destruct (string_of_uint_head u Hu) as [c [s [E _]]].
  unfold NilZero.uint_of_string. rewrite E, <- E. apply NilEmpty.usu.
Qed.

(** Reading the integer numeral [I], and [I.f]. *)
Lemma parseUnsigned_integer (u : uint) :
  u <> Nil ->
  parseUnsigned (NilEmpty.string_of_uint u) = Some (IZR (Z.of_N (N.of_uint u))).
Proof.
  intros Hu. unfold parseUnsigned.
  rewrite (splitAtDot_digits _ (digitsOnly_string_of_uint u)).
  rewrite (uint_of_string_numeral u Hu). reflexivity.
Qed.

Lemma parseUnsigned_point (u : uint) (f : string) :
  u <> Nil ->
  parseUnsigned (NilEmpty.string_of_uint u ++ String "." f)
  = match NilEmpty.uint_of_string f with
    | None => None
    | Some uf =>
        Some (IZR (Z.of_N (N.of_uint u))
              + IZR (Z.of_N (N.of_uint uf)) / 10 ^ String.length f)
    end.
Proof.
  intros Hu. unfold parseUnsigned.
  rewrite (splitAtDot_point _ f (digitsOnly_string_of_uint u)).
  rewrite (uint_of_string_numeral u Hu). reflexivity.
Qed.

(** A numeral that starts with a digit is read without sign. *)
Lemma parseNumber_unsigned (u : uint) (rest : string) :
  u <> Nil ->
  parseNumber (NilEmpty.string_of_uint u ++ rest)
  = parseUnsigned (NilEmpty.string_of_uint u ++ rest).
Proof.
  intros Hu. destruct (string_of_uint_head u Hu) as [c [s [E Hc]]].
  rewrite E. cbn [String.append parseNumber]. rewrite (isDigit_not_minus c Hc). reflexivity.
Qed.

Lemma parseNumber_minus (s : string) :
  parseNumber (String "-" s) = option_map Ropp (parseUnsigned s).
Proof. reflexivity. Qed.

Lemma append_nil_r (s : string) : (s ++ "")%string = s.
Proof. induction s as [| c s IH]; [reflexivity |]. cbn. rewrite IH. reflexivity. Qed.

(** [String(n)] of any integer reads back as [n] and has no point. *)
Lemma parseNumber_String_int (z : Z) :
  parseNumber (String_int z) = Some (IZR z) /\ hasDot (String_int z) = false.
Proof.
  destruct z as [| p | p].
  - split; reflexivity.
  - destruct (String_int_nonneg (Z.pos p)) as [u [Hu [E V]]]; [lia |].
    rewrite E. split.
    + rewrite <- (append_nil_r (NilEmpty.string_of_uint u)).
      rewrite parseNumber_unsigned by exact Hu. rewrite append_nil_r.
      rewrite parseUnsigned_integer by exact Hu. rewrite V. reflexivity.
    + apply hasDot_digits. apply digitsOnly_string_of_uint.
  - destruct (String_int_nonneg (Z.pos p)) as [u [Hu [E V]]]; [lia |].
    assert (Es : String_int (Z.neg p) = String "-" (NilEmpty.string_of_uint u)).
    { rewrite <- E. unfold String_int. cbn [Z.to_int NilZero.string_of_int]. reflexivity. }
    rewrite Es. split.
    + rewrite parseNumber_minus, parseUnsigned_integer by exact Hu. rewrite V.
      reflexivity.
    + unfold hasDot. cbn [list_ascii_of_string existsb].
      change (existsb (fun c : ascii => Ascii.eqb c ".")
                (list_ascii_of_string (NilEmpty.string_of_uint u)))
        with (hasDot (NilEmpty.string_of_uint u)).
      rewrite (hasDot_digits _ (digitsOnly_string_of_uint u)). reflexivity.
Qed.

Lemma list_ascii_app (s1 s2 : string) :
  list_ascii_of_string (s1 ++ s2)
  = (list_ascii_of_string s1 ++ list_ascii_of_string s2)%list.
Proof.
  induction s1 as [| c s1 IH]; [reflexivity |].
  cbn [String.append list_ascii_of_string app]. rewrite IH. reflexivity.
Qed.

Lemma string_of_list_app (l1 l2 : list ascii) :
  string_of_list_ascii (l1 ++ l2)
  = (string_of_list_ascii l1 ++ string_of_list_ascii l2)%string.
Proof.
  induction l1 as [| c l1 IH]; [reflexivity |].
  simpl. rewrite IH. reflexivity.
Qed.

Lemma append_assoc (a b c : string) : (a ++ (b ++ c))%string = ((a ++ b) ++ c)%string.
Proof.
  induction a as [| x a IH]; [reflexivity |]. cbn [String.append]. rewrite IH. reflexivity.
Qed.

Lemma eqb_succ_false (n : nat) : Nat.eqb n (S n) = false /\ Nat.eqb n (S (S n)) = false.
Proof. split; apply Nat.eqb_neq; lia. Qed.

(** The replacement [/\.?0+$/ -> ''] on a numeral with two decimals. *)
Lemma stripTrailingZeros_two (X : string) (d1 d2 : ascii) :
  Ascii.eqb d1 "." = false ->
  stripTrailingZeros (X ++ String "." (String d1 (String d2 "")))
  = if Ascii.eqb d2 "0" then
      if Ascii.eqb d1 "0" then X else (X ++ String "." (String d1 ""))%string
    else (X ++ String "." (String d1 (String d2 "")))%string.
Proof.
  intros Hd1. unfold stripTrailingZeros.
  rewrite list_ascii_app. cbn [list_ascii_of_string]. rewrite rev_app_distr.
  change (List.rev ["."%char; d1; d2] ++ List.rev (list_ascii_of_string X))%list
    with (d2 :: d1 :: "."%char :: List.rev (list_ascii_of_string X)).
  cbn [dropZeros].
  destruct (eqb_succ_false (List.length (List.rev (list_ascii_of_string X)))) as [L1 L2].
  destruct (Ascii.eqb d2 "0").
  - destruct (Ascii.eqb d1 "0").
    + cbn [dropZeros]. change (Ascii.eqb "." "0") with false. cbv iota.
      cbn [List.length Nat.eqb]. rewrite L2.
      change (Ascii.eqb "." ".") with true. cbv iota.
      rewrite rev_involutive. apply string_of_list_ascii_of_string.
    + cbn [List.length Nat.eqb]. rewrite L1. rewrite Hd1.
      cbn [List.rev]. rewrite rev_involutive, <- app_assoc. cbn [app].
      rewrite string_of_list_app, string_of_list_ascii_of_string. reflexivity.
  - rewrite Nat.eqb_refl. reflexivity.
Qed.

Lemma hundredths_nonneg (x : R) : (0 <= hundredths x)%Z.
Proof.
  unfold hundredths. apply Zfloor_lub. pose proof (Rabs_pos x). cbn. lra.
Qed.

Lemma hundredths_close (x : R) :
  Rabs (IZR (hundredths x) / 100 - Rabs x) <= 0.005.
Proof.
  unfold hundredths.
  destruct (Zfloor_bound (Rabs x * 100 + / 2)) as [Hlo Hhi].
  apply Rabs_le. lra.
Qed.

Lemma fixedValue_close (x : R) : Rabs (fixedValue x - x) <= 0.005.
Proof.
  pose proof (hundredths_close x) as H. unfold fixedValue.
  destruct (Rlt_dec x 0) as [Hneg | Hpos].
  - rewrite (Rabs_left x Hneg) in H.
    replace (- (IZR (hundredths x) / 100) - x)
      with (- (IZR (hundredths x) / 100 - - x)) by ring.
    rewrite Rabs_Ropp. exact H.
  - rewrite (Rabs_right x) in H by lra. exact H.
Qed.

Ltac eval_digits :=
  repeat match goal with
         | |- context [digitChar ?k] =>
             let c := eval vm_compute in (digitChar k) in
             change (digitChar k) with c
         end;
  repeat match goal with
         | |- context [Ascii.eqb ?a ?b] =>
             let c := eval vm_compute in (Ascii.eqb a b) in
             change (Ascii.eqb a b) with c
         end;
  cbv iota.

(** Reading back what [formatTickNum] makes of [toFixed(2)]: the value
    of the two-decimal numeral. *)
Lemma parse_stripped_toFixed2 (v : R) :
  parseNumber (stripTrailingZeros (toFixed2 v)) = Some (fixedValue v).
Proof.
  unfold toFixed2, fixedValue. fold (hundredths v).
  pose proof (hundredths_nonneg v) as Hn0.
  set (n := hundredths v) in *.
  destruct (String_int_nonneg (n / 100)) as [u [Hu [E V]]];
    [apply Z.div_pos; lia |].
  rewrite E.
  assert (Hval : forall a b : Z, ((n / 10) mod 10 = a)%Z -> (n mod 10 = b)%Z ->
                 IZR n = 100 * IZR (Z.of_N (N.of_uint u)) + 10 * IZR a + IZR b).
  { intros a b Ha Hb. rewrite V.
    rewrite <- mult_IZR, <- mult_IZR, <- !plus_IZR. f_equal.
    clear - Ha Hb Hn0. Z.div_mod_to_equations. lia. }
  assert (Hmod1 : (0 <= (n / 10) mod 10 < 10)%Z) by (apply Z.mod_pos_bound; lia).
  assert (Hmod2 : (0 <= n mod 10 < 10)%Z) by (apply Z.mod_pos_bound; lia).
  assert (Hc1 : ((n / 10) mod 10 = 0 \/ (n / 10) mod 10 = 1 \/ (n / 10) mod 10 = 2 \/
                 (n / 10) mod 10 = 3 \/ (n / 10) mod 10 = 4 \/ (n / 10) mod 10 = 5 \/
                 (n / 10) mod 10 = 6 \/ (n / 10) mod 10 = 7 \/ (n / 10) mod 10 = 8 \/
                 (n / 10) mod 10 = 9)%Z) by lia.
  assert (Hc2 : (n mod 10 = 0 \/ n mod 10 = 1 \/ n mod 10 = 2 \/ n mod 10 = 3 \/
                 n mod 10 = 4 \/ n mod 10 = 5 \/ n mod 10 = 6 \/ n mod 10 = 7 \/
                 n mod 10 = 8 \/ n mod 10 = 9)%Z) by lia.
  destruct (Rlt_dec v 0) as [Hneg | Hpos].
  - (* a negative value: the numeral carries the sign *)
    change ("-" ++ NilEmpty.string_of_uint u ++ "." ++ String (digitChar ((n / 10) mod 10))
                                  (String (digitChar (n mod 10)) ""))%string
      with (String "-" (NilEmpty.string_of_uint u) ++ String "." (String (digitChar ((n / 10) mod 10))
                                          (String (digitChar (n mod 10)) "")))%string.
    destruct Hc1 as [H1 | [H1 | [H1 | [H1 | [H1 | [H1 | [H1 | [H1 | [H1 | H1]]]]]]]]];
    destruct Hc2 as [H2 | [H2 | [H2 | [H2 | [H2 | [H2 | [H2 | [H2 | [H2 | H2]]]]]]]]];
      pose proof (Hval _ _ H1 H2) as Hv; rewrite H1, H2;
      rewrite stripTrailingZeros_two by reflexivity;
      eval_digits;
      cbn [String.append]; rewrite parseNumber_minus;
      first [ rewrite parseUnsigned_point by exact Hu
            | rewrite parseUnsigned_integer by exact Hu ];
      cbn [NilEmpty.uint_of_string uint_of_char option_map String.length pow];
      cbn [N.of_uint Pos.of_uint Pos.of_uint_acc Z.of_N];
      f_equal; cbn in Hv; cbn; lra.
  - (* a value that is not negative *)
    change ("" ++ NilEmpty.string_of_uint u ++ "." ++ String (digitChar ((n / 10) mod 10))
                                 (String (digitChar (n mod 10)) ""))%string
      with (NilEmpty.string_of_uint u ++ String "." (String (digitChar ((n / 10) mod 10))
                               (String (digitChar (n mod 10)) "")))%string.
    destruct Hc1 as [H1 | [H1 | [H1 | [H1 | [H1 | [H1 | [H1 | [H1 | [H1 | H1]]]]]]]]];
    destruct Hc2 as [H2 | [H2 | [H2 | [H2 | [H2 | [H2 | [H2 | [H2 | [H2 | H2]]]]]]]]];
      pose proof (Hval _ _ H1 H2) as Hv; rewrite H1, H2;
      rewrite stripTrailingZeros_two by reflexivity;
      eval_digits;
      first [ rewrite parseNumber_unsigned by exact Hu;
              rewrite parseUnsigned_point by exact Hu
            | rewrite <- (append_nil_r (NilEmpty.string_of_uint u));
              rewrite parseNumber_unsigned by exact Hu; rewrite append_nil_r;
              rewrite parseUnsigned_integer by exact Hu ];
      cbn [NilEmpty.uint_of_string uint_of_char option_map String.length pow];
      cbn [N.of_uint Pos.of_uint Pos.of_uint_acc Z.of_N];
      f_equal; cbn in Hv; cbn; lra.
Qed.

Lemma Math_roundZ_integer (k : Z) : Math_roundZ (IZR k) = k.
Proof. unfold Math_roundZ. apply Zfloor_eq. lra. Qed.

Lemma Zfloor_IZR (k : Z) : Zfloor (IZR k) = k.
Proof. apply Zfloor_eq. lra. Qed.

Lemma digitChar_not_dot (k : Z) :
  (0 <= k < 10)%Z -> Ascii.eqb (digitChar k) "." = false.
Proof.
  intros Hk.
  assert (Hc : (k = 0 \/ k = 1 \/ k = 2 \/ k = 3 \/ k = 4 \/
                k = 5 \/ k = 6 \/ k = 7 \/ k = 8 \/ k = 9)%Z) by lia.
  repeat (destruct Hc as [-> | Hc]; [reflexivity |]). subst. reflexivity.
Qed.

(** Sanity checks of the model on 14, on 2.5 and on 1.001. *)
Example formatTickNum_14 : formatTickNum 14 = "14"%string.
Proof.
  unfold formatTickNum, Math_abs, Number_isInteger.
  rewrite (Rabs_right 14) by lra.
  destruct (Rlt_dec 14 1e-9); [lra |].
  rewrite (Zfloor_IZR 14).
  destruct (Req_dec_T 14 14) as [_ | N]; [| contradiction].
  rewrite (Math_roundZ_integer 14). reflexivity.
Qed.

Example formatTickNum_2_5 : formatTickNum (5 / 2) = "2.5"%string.
Proof.
  unfold formatTickNum, Math_abs, Number_isInteger, Math_round.
  rewrite (Rabs_right (5 / 2)) by lra.
  destruct (Rlt_dec (5 / 2) 1e-9); [lra |].
  assert (H2 : Zfloor (5 / 2) = 2%Z) by (apply Zfloor_eq; lra).
  assert (H3 : Zfloor (5 / 2 + / 2) = 3%Z) by (apply Zfloor_eq; lra).
  rewrite H2, H3.
  destruct (Req_dec_T (5 / 2) 2); [lra |].
  rewrite (Rabs_left (5 / 2 - 3)) by lra.
  destruct (Rlt_dec (- (5 / 2 - 3)) 1e-9); [lra |].
  unfold toFixed2. rewrite (Rabs_right (5 / 2)) by lra.
  destruct (Rlt_dec (5 / 2) 0); [lra |].
  assert (Hn : Zfloor (5 / 2 * 100 + / 2) = 250%Z) by (apply Zfloor_eq; lra).
  rewrite Hn. reflexivity.
Qed.

Example formatTickNum_1_001 : formatTickNum 1.001 = "1"%string.
Proof.
  unfold formatTickNum, Math_abs, Number_isInteger, Math_round.
  rewrite (Rabs_right 1.001) by lra.
  destruct (Rlt_dec 1.001 1e-9); [lra |].
  assert (H1 : Zfloor 1.001 = 1%Z) by (apply Zfloor_eq; lra).
  assert (H2 : Zfloor (1.001 + / 2) = 1%Z) by (apply Zfloor_eq; lra).
  rewrite H1, H2.
  destruct (Req_dec_T 1.001 1); [lra |].
  rewrite (Rabs_right (1.001 - 1)) by lra.
  destruct (Rlt_dec (1.001 - 1) 1e-9); [lra |].
  unfold toFixed2. rewrite (Rabs_right 1.001) by lra.
  destruct (Rlt_dec 1.001 0); [lra |].
  assert (Hn : Zfloor (1.001 * 100 + / 2) = 100%Z) by (apply Zfloor_eq; lra).
  rewrite Hn. reflexivity.
Qed.

(** C7: [formatTickNum(v)] is "0" when [|v| < 1e-9]; it is the decimal
    numeral of [round(v)], without a point, when [v] is an integer or
    within 1e-9 of one; otherwise it is [v.toFixed(2)] with the trailing
    zeros, and the point if it then ends the numeral, removed.  Read back,
    the numeral gives 0, [round(v)] (which is [v] itself for an integer
    [v]), and the value of [v] rounded to two decimals (at most 0.005
    away from [v]). *)
Theorem formatTickNum_roundtrip (v : R) :
  (Rabs v < 1e-9 ->
   formatTickNum v = "0"%string /\ parseNumber (formatTickNum v) = Some 0) /\
  (~ Rabs v < 1e-9 ->
   v = IZR (Zfloor v) \/ Rabs (v - Math_round v) < 1e-9 ->
   formatTickNum v = String_int (Math_roundZ v) /\
   hasDot (formatTickNum v) = false /\
   parseNumber (formatTickNum v) = Some (Math_round v) /\
   (v = IZR (Zfloor v) -> parseNumber (formatTickNum v) = Some v)) /\
  (~ Rabs v < 1e-9 ->
   v <> IZR (Zfloor v) -> ~ Rabs (v - Math_round v) < 1e-9 ->
   formatTickNum v = stripTrailingZeros (toFixed2 v) /\
   formatTickNum v
   = (let n := hundredths v in
      let d1 := digitChar ((n / 10) mod 10) in
      let d2 := digitChar (n mod 10) in
      let X := ((if Rlt_dec v 0 then "-" else "") ++ String_int (n / 100))%string in
      if Ascii.eqb d2 "0" then
        if Ascii.eqb d1 "0" then X else (X ++ String "." (String d1 ""))%string
      else (X ++ String "." (String d1 (String d2 "")))%string) /\
   parseNumber (formatTickNum v) = Some (fixedValue v) /\
   Rabs (fixedValue v - v) <= 0.005).
Proof.
  split; [| split].
  - intros Hz. unfold formatTickNum, Math_abs.
    destruct (Rlt_dec (Rabs v) 1e-9); [| contradiction]. split; reflexivity.
  - intros Hz Hint.
    assert (E : formatTickNum v = String_int (Math_roundZ v)).
    { unfold formatTickNum, Math_abs, Number_isInteger.
      destruct (Rlt_dec (Rabs v) 1e-9); [contradiction |].
      destruct (Req_dec_T v (IZR (Zfloor v))) as [Hi | Hni]; [reflexivity |].
      destruct (Rlt_dec (Rabs (v - Math_round v)) 1e-9) as [_ | Hn]; [reflexivity |].
      destruct Hint; contradiction. }
    destruct (parseNumber_String_int (Math_roundZ v)) as [P D].
    rewrite E. split; [reflexivity |]. split; [exact D |]. split; [exact P |].
    intros Hi. rewrite P. f_equal.
    rewrite Hi at 1. rewrite Math_roundZ_integer. symmetry. exact Hi.
  - intros Hz Hni Hfar.
    assert (E : formatTickNum v = stripTrailingZeros (toFixed2 v)).
    { unfold formatTickNum, Math_abs, Number_isInteger.
      destruct (Rlt_dec (Rabs v) 1e-9); [contradiction |].
      destruct (Req_dec_T v (IZR (Zfloor v))) as [Hi | _]; [contradiction |].
      destruct (Rlt_dec (Rabs (v - Math_round v)) 1e-9); [contradiction | reflexivity]. }
    rewrite E. split; [reflexivity |].
    split; [| split; [apply parse_stripped_toFixed2 | apply fixedValue_close]].
    cbv zeta. unfold toFixed2. fold (hundredths v).
    rewrite append_assoc.
    change ("." ++ String (digitChar ((hundredths v / 10) mod 10))
                     (String (digitChar (hundredths v mod 10)) ""))%string
      with (String "." (String (digitChar ((hundredths v / 10) mod 10))
                          (String (digitChar (hundredths v mod 10)) ""))).
    apply stripTrailingZeros_two.
    apply digitChar_not_dot. apply Z.mod_pos_bound. lia.
Qed.

End TickNumbers.

Section StepPlannerExtras.

Lemma Rpower10_plus (n k : Z) :
  Rpower 10 (IZR (k + n)) = Rpower 10 (IZR n) * Rpower 10 (IZR k).
Proof.
  rewrite plus_IZR, Rpower_plus. ring.
Qed.

(** X2: scaling the length by a power of ten scales the step of
    [niceStep] by the same power: the choice among 1, 2, 5 and 10 only
    depends on the leading digits of [length / divisions]. *)
Theorem niceStep_power_of_ten (L D : R) (n : Z) :
  0 < L -> 0 < D ->
  exists s : R,
    niceStep L D = Ok s /\
    niceStep (Rpower 10 (IZR n) * L) D = Ok (Rpower 10 (IZR n) * s).
Proof.
  intros HL HD.
  assert (Hr : 0 < L / D) by (apply Rdiv_lt_0_compat; assumption).
  pose proof (mag_bounds (L / D) Hr) as Hb. cbv zeta in Hb.
  set (k := Zfloor (ln (L / D) / ln 10)) in *.
  pose proof (Rpower10_pos (IZR k)) as Hk.
  pose proof (Rpower10_pos (IZR n)) as Hn.
  exists (nice (L / D / Rpower 10 (IZR k)) * Rpower 10 (IZR k)).
  split; [apply niceStep_decade; assumption |].
  rewrite (niceStep_decade (Rpower 10 (IZR n) * L) D (k + n)%Z HD).
  - rewrite Rpower10_plus.
    replace (Rpower 10 (IZR n) * L / D / (Rpower 10 (IZR n) * Rpower 10 (IZR k)))
      with (L / D / Rpower 10 (IZR k)) by (field; lra).
    f_equal. ring.
  - rewrite Rpower10_plus.
    replace (Rpower 10 (IZR n) * L / D) with (Rpower 10 (IZR n) * (L / D)) by (field; lra).
    split.
    + apply Rmult_le_compat_l; lra.
    + replace (10 * (Rpower 10 (IZR n) * Rpower 10 (IZR k)))
        with (Rpower 10 (IZR n) * (10 * Rpower 10 (IZR k))) by ring.
      apply Rmult_lt_compat_l; lra.
Qed.

Lemma niceStep_power_of_ten_witness :
  0 < 7 /\ 0 < 2 /\
  exists s : R,
    niceStep 7 2 = Ok s /\
    niceStep (Rpower 10 (IZR 3) * 7) 2 = Ok (Rpower 10 (IZR 3) * s).
Proof.
  split; [lra |]. split; [lra |].
  apply (niceStep_power_of_ten 7 2 3); lra.
Defined.

End StepPlannerExtras.

Section TickNumberExtras.

Lemma Zfloor_unit (x : R) : 0 <= x < 1 -> Zfloor x = 0%Z.
Proof.
  intros H. apply Zfloor_eq. cbn. lra.
Qed.

(** X3: a value whose magnitude is at least 1e-9 and below 0.005 is
    formatted by [toFixed(2)] as "0.00" or "-0.00", which the stripping of
    zeros turns into "0" for a positive value and into "-0" for a
    negative one. *)
Theorem formatTickNum_below_half_cent (v : R) :
  1e-9 <= Rabs v -> Rabs v < 0.005 ->
  formatTickNum v = (if Rlt_dec v 0 then "-0" else "0")%string.
Proof.
  intros Hlo Hhi. unfold formatTickNum, Math_abs.
  destruct (Rlt_dec (Rabs v) 1e-9) as [H | _]; [lra |].
  assert (Hv : (v < 0 /\ Rabs v = - v) \/ (0 < v /\ Rabs v = v)).
  { unfold Rabs in *. destruct (Rcase_abs v); [left | right]; split; lra. }
  assert (Hround : Zfloor (v + / 2) = 0%Z).
  { apply Zfloor_unit. destruct Hv as [[A B] | [A B]]; rewrite B in *; lra. }
  unfold Number_isInteger.
  destruct (Req_dec_T v (IZR (Zfloor v))) as [E | _].
  { exfalso. destruct Hv as [[A B] | [A B]]; rewrite B in *.
    - assert (Hf : Zfloor v = (-1)%Z) by (apply Zfloor_eq; cbn; lra).
      rewrite Hf in E. cbn in E. lra.
    - assert (Hf : Zfloor v = 0%Z) by (apply Zfloor_eq; cbn; lra).
      rewrite Hf in E. cbn in E. lra. }
  unfold Math_round. rewrite Hround.
  destruct (Rlt_dec (Rabs (v - 0)) 1e-9) as [H | _].
  { rewrite Rminus_0_r in H. lra. }
  unfold toFixed2.
  assert (Hn : Zfloor (Rabs v * 100 + / 2) = 0%Z) by (apply Zfloor_unit; lra).
  rewrite Hn.
  destruct (Rlt_dec v 0); reflexivity.
Qed.

Lemma formatTickNum_below_half_cent_witness :
  1e-9 <= Rabs (- (1 / 1000)) /\ Rabs (- (1 / 1000)) < 0.005 /\
  formatTickNum (- (1 / 1000))
  = (if Rlt_dec (- (1 / 1000)) 0 then "-0" else "0")%string.
Proof.
  assert (H : Rabs (- (1 / 1000)) = 1 / 1000).
  { rewrite Rabs_Ropp. apply Rabs_pos_eq. lra. }
  split; [rewrite H; lra |]. split; [rewrite H; lra |].
  apply (formatTickNum_below_half_cent (- (1 / 1000))); rewrite H; lra.
Defined.

End TickNumberExtras.

Section Registry.

Lemma spriteOf_nth (g : list Child) (h : nat) (s : Sprite) :
  spriteOf g h = Some s <-> nth_error g h = Some (Label s).
Proof.
  unfold spriteOf. destruct (nth_error g h) as [[p1 p2 | s0] |]; split; congruence.
Qed.

Lemma spriteOf_isLabel (g : list Child) (h : nat) :
  isLabel g h <-> exists s : Sprite, spriteOf g h = Some s.
Proof.
  unfold isLabel. split; intros [s Hs]; exists s; apply spriteOf_nth; exact Hs.
Qed.

Lemma isLabel_lt (g : list Child) (h : nat) : isLabel g h -> (h < List.length g)%nat.
Proof.
  intros [s Hs]. apply nth_error_Some. rewrite Hs. discriminate.
Qed.

Lemma spriteOf_app (g e : list Child) (h : nat) (s : Sprite) :
  spriteOf g h = Some s -> spriteOf (g ++ e) h = Some s.
Proof.
  intros H. apply spriteOf_nth in H. apply spriteOf_nth.
  rewrite nth_error_app1; [exact H |].
  apply nth_error_Some. rewrite H. discriminate.
Qed.

Lemma spriteOf_snoc (g : list Child) (s : Sprite) :
  spriteOf (g ++ [Label s]) (List.length g) = Some s.
Proof.
  apply spriteOf_nth. apply nth_error_snoc.
Qed.

Lemma tickShows_app (text : TickEntry -> string) (g e : list Child) (t : TickEntry) :
  tickShows text g t -> tickShows text (g ++ e) t.
Proof.
  intros [s [H1 H2]]. exists s. split; [apply spriteOf_app; exact H1 | exact H2].
Qed.

Lemma tickShows_isLabel (text : TickEntry -> string) (g : list Child) (t : TickEntry) :
  tickShows text g t -> isLabel g (sprite t).
Proof.
  intros [s [H1 _]]. apply spriteOf_isLabel. exists s. exact H1.
Qed.

(** Every handle of a tidy build lies inside the group. *)
Lemma tidy_bound (ls : list nat) (b : Build) :
  tidy ls b -> Forall (fun h => (h < List.length (fst b))%nat) (ls ++ map sprite (snd b)).
Proof.
  intros [Hl [Ht _]]. apply Forall_app. split.
  - eapply Forall_impl; [| exact Hl]. intros h. apply isLabel_lt.
  - apply Forall_map. eapply Forall_impl; [| exact Ht].
    intros t Hs. apply isLabel_lt. eapply tickShows_isLabel. exact Hs.
Qed.

Lemma tidy_nil : tidy [] ([], []).
Proof.
  repeat split; constructor.
Qed.

Lemma tidy_app (ls : list nat) (g e : list Child) (t : list TickEntry) :
  tidy ls (g, t) -> tidy ls (g ++ e, t).
Proof.
  intros [Hl [Ht Hn]]. cbn [fst snd] in *. repeat split; cbn [fst snd].
  - eapply Forall_impl; [| exact Hl]. intros h. apply isLabel_app.
  - eapply Forall_impl; [| exact Ht]. intros x. apply tickShows_app.
  - exact Hn.
Qed.

Lemma fresh_handle (l : list nat) (n : nat) :
  Forall (fun h => (h < n)%nat) l -> ~ In n l.
Proof.
  intros H Hin. rewrite Forall_forall in H. specialize (H n Hin). lia.
Qed.

(** Registering a new number sprite keeps a build tidy. *)
Lemma tidy_tick (ls : list nat) (g : list Child) (t : list TickEntry)
    (raw fs sc op : R) (pos : Vec3) (text : string) :
  text = formatTickNum raw ->
  tidy ls (g, t) ->
  tidy ls (g ++ [Label (mkSprite text pos sc op)], t ++ [mkTick (List.length g) raw fs sc]).
Proof.
  intros -> H. pose proof (tidy_bound _ _ H) as Hb.
  destruct (tidy_app ls g [Label (mkSprite (formatTickNum raw) pos sc op)] t H) as [Hl [Ht Hn]].
  cbn [fst snd] in *. repeat split; cbn [fst snd].
  - exact Hl.
  - apply Forall_app. split; [exact Ht |].
    constructor; [| constructor].
    eexists. cbn [sprite]. split; [apply spriteOf_snoc |]. split; reflexivity.
  - rewrite map_app, app_assoc. cbn [map sprite].
    apply NoDup_app; [exact Hn | constructor; [intros [] | constructor] |].
    intros a Ha [<- | []]. exact (fresh_handle _ _ Hb Ha).
Qed.

(** Adding a dimension label keeps a build tidy, with the new handle. *)
Lemma tidy_label (ls : list nat) (g : list Child) (t : list TickEntry) (s : Sprite) :
  tidy ls (g, t) -> tidy (List.length g :: ls) (g ++ [Label s], t).
Proof.
  intros H. pose proof (tidy_bound _ _ H) as Hb.
  destruct (tidy_app ls g [Label s] t H) as [Hl [Ht Hn]].
  cbn [fst snd] in *. repeat split; cbn [fst snd].
  - constructor; [| exact Hl]. apply spriteOf_isLabel. exists s. apply spriteOf_snoc.
  - exact Ht.
  - cbn [app]. constructor; [| exact Hn]. exact (fresh_handle _ _ Hb).
Qed.

End Registry.

Section TickRegistry.

Lemma formatTickNum_0 : formatTickNum 0 = "0"%string.
Proof.
  unfold formatTickNum, Math_abs. rewrite Rabs_R0.
  destruct (Rlt_dec 0 1e-9); [reflexivity | lra].
Qed.

(** An invariant of the loop body is an invariant of the walk. *)
Lemma tickWalk_preserves (P : Build -> Prop) (body : R -> Build -> result Build)
    (bound tickStep : R) :
  (forall (d : R) (a a' : Build), P a -> body d a = Ok a' -> P a') ->
  forall (fuel : nat) (d : R) (acc acc' : Build),
    P acc -> tickWalk fuel body bound tickStep d acc = Ok acc' -> P acc'.
Proof.
  intros Hbody. induction fuel as [| fuel IH]; intros d acc acc' Hp Hw; cbn [tickWalk] in Hw.
  - discriminate.
  - destruct (Rle_dec d bound).
    + destruct (body d acc) as [a1 | f] eqn:Hb; cbn [bind] in Hw; [| discriminate].
      exact (IH _ _ _ (Hbody _ _ _ Hp Hb) Hw).
    + injection Hw as <-. exact Hp.
Qed.

(** What one turn of the loop adds: nothing, a mark, or a mark and a
    registered number sprite for the position [Math.min(d, length)]. *)
Lemma tickBody_cases (start dir tickDir labelOffsetDir : Vec3)
    (majorLen minorLen labelOffset numScale length step d : R) (acc acc' : Build) :
  tickBody start dir tickDir labelOffsetDir majorLen minorLen labelOffset
           numScale length step d acc = Ok acc' ->
  acc' = acc \/
  (step * 0.05 <= Math_min d length <= length - step * 0.05 /\
   exists (p1 p2 : Vec3),
     acc' = (fst acc ++ [Line p1 p2], snd acc) \/
     exists pos : Vec3,
       acc' = ((fst acc ++ [Line p1 p2])
                 ++ [Label (mkSprite (formatTickNum (Math_min d length)) pos numScale 1)],
               snd acc ++ [mkTick (List.length (fst acc ++ [Line p1 p2]))
                                  (Math_min d length) 16 numScale])).
Proof.
  unfold tickBody. intros H.
  destruct (Rlt_dec d (-1e-10)); [injection H as <-; left; reflexivity |].
  destruct (div d step) as [q | f]; cbn [bind] in H; [| discriminate].
  destruct (Rlt_dec (Math_min d length) (step * 0.05)); [injection H as <-; left; reflexivity |].
  destruct (Rgt_dec (Math_min d length) (length - step * 0.05));
    [injection H as <-; left; reflexivity |].
  right. split; [lra |].
  destruct (Rlt_dec _ (step * 0.01)); injection H as <-.
  - eexists. eexists. right. eexists. reflexivity.
  - eexists. eexists. left. reflexivity.
Qed.

Lemma tickBody_tidy (ls : list nat) (start dir tickDir labelOffsetDir : Vec3)
    (majorLen minorLen labelOffset numScale length step d : R) (acc acc' : Build) :
  tidy ls acc ->
  tickBody start dir tickDir labelOffsetDir majorLen minorLen labelOffset
           numScale length step d acc = Ok acc' ->
  tidy ls acc'.
Proof.
  intros Ht H. apply tickBody_cases in H.
  destruct acc as [g t]. cbn [fst snd] in H.
  destruct H as [-> | [_ [p1 [p2 [-> | [pos ->]]]]]].
  - exact Ht.
  - apply tidy_app. exact Ht.
  - apply tidy_tick; [reflexivity |]. apply tidy_app. exact Ht.
Qed.

(** The entries that a turn of the loop registers lie on the axis. *)
Lemma tickBody_range (b0 : Build) (start dir tickDir labelOffsetDir : Vec3)
    (majorLen minorLen labelOffset numScale length step d : R) (acc acc' : Build) :
  0 < step ->
  continues length b0 acc ->
  tickBody start dir tickDir labelOffsetDir majorLen minorLen labelOffset
           numScale length step d acc = Ok acc' ->
  continues length b0 acc'.
Proof.
  intros Hs [e1 [e2 [-> Hr]]] H. apply tickBody_cases in H. cbn [fst snd] in H.
  destruct H as [-> | [Hg [p1 [p2 [-> | [pos ->]]]]]].
  - exists e1, e2. split; [reflexivity | exact Hr].
  - exists (e1 ++ [Line p1 p2]), e2. rewrite app_assoc. split; [reflexivity | exact Hr].
  - eexists (e1 ++ [Line p1 p2] ++ [_]), (e2 ++ [_]).
    rewrite !app_assoc. split; [reflexivity |].
    apply Forall_app. split; [exact Hr |].
    constructor; [| constructor]. cbn [rawValue]. lra.
Qed.

End TickRegistry.

Section GraduatedTicks.

Lemma continues_refl (length : R) (b : Build) : continues length b b.
Proof.
  exists [], []. rewrite !app_nil_r. split; [destruct b; reflexivity | constructor].
Qed.

(** [addGraduatedTicks] keeps a build tidy, whatever its arguments. *)
Lemma addGraduatedTicks_tidy (ls : list nat) (group : list Child) (ticks : list TickEntry)
    (start end_ tickDir labelOffsetDir : Vec3)
    (majorLen minorLen labelOffset spriteScale : R) (acc' : Build) :
  tidy ls (group, ticks) ->
  addGraduatedTicks group ticks start end_ tickDir labelOffsetDir
                    majorLen minorLen labelOffset spriteScale = Ok acc' ->
  tidy ls acc'.
Proof.
  intros Ht H. unfold addGraduatedTicks in H.
  destruct (Rlt_dec _ 1e-10); [injection H as <-; exact Ht |].
  destruct (targetDivs _ _) as [divs | f]; cbn [bind] in H; [| discriminate].
  destruct (niceStep _ divs) as [step | f]; cbn [bind] in H; [| discriminate].
  match type of H with
  | context [tickWalk ?f ?b ?bd ?ts 0 ?a] => destruct (tickWalk f b bd ts 0 a) as [acc1 | x] eqn:Hw
  end; cbn [bind] in H; [| discriminate].
  injection H as <-.
  assert (H1 : tidy ls acc1).
  { eapply (tickWalk_preserves (tidy ls)); [| | exact Hw].
    - intros d a a' Ha Hb. eapply tickBody_tidy; [exact Ha | exact Hb].
    - apply tidy_tick; [symmetry; apply formatTickNum_0 | exact Ht]. }
  destruct acc1 as [g1 t1]. cbn [fst snd].
  apply tidy_tick; [reflexivity | exact H1].
Qed.

(** X4: on an axis that is not degenerate, [addGraduatedTicks] never
    faults; it only appends to the group and to [rulerTickSprites]; the
    entries that it registers begin with the raw value 0 and end with the
    length of the axis, and those between lie on the axis; every entry of
    the registry names a number sprite of the group that shows
    [formatTickNum] of the entry's raw value at the entry's base scale, and
    no two handles are the same. *)
Theorem addGraduatedTicks_registry (ls : list nat)
    (group : list Child) (ticks : list TickEntry)
    (start end_ tickDir labelOffsetDir : Vec3)
    (majorLen minorLen labelOffset spriteScale : R) :
  1e-10 <= vlength (subVectors end_ start) ->
  0 < spriteScale ->
  tidy ls (group, ticks) ->
  exists (e1 : list Child) (first last : TickEntry) (mid : list TickEntry),
    addGraduatedTicks group ticks start end_ tickDir labelOffsetDir
                      majorLen minorLen labelOffset spriteScale
    = Ok (group ++ e1, ticks ++ first :: mid ++ [last]) /\
    tidy ls (group ++ e1, ticks ++ first :: mid ++ [last]) /\
    rawValue first = 0 /\
    rawValue last = vlength (subVectors end_ start) /\
    Forall (fun e => 0 <= rawValue e <= vlength (subVectors end_ start)) mid.
Proof.
  intros Hlen Hsc Ht.
  destruct (addGraduatedTicks_ok group ticks start end_ tickDir labelOffsetDir
              majorLen minorLen labelOffset spriteScale (fun _ => Hsc)) as [acc' [E _]].
  pose proof (addGraduatedTicks_tidy ls _ _ _ _ _ _ _ _ _ _ _ Ht E) as Htidy.
  revert E Htidy. unfold addGraduatedTicks.
  set (L := vlength (subVectors end_ start)) in *.
  destruct (Rlt_dec L 1e-10) as [Hdeg | _]; [lra |].
  assert (HL : 0 < L) by lra.
  rewrite targetDivs_ok by lra. cbn [bind].
  set (D := Rmin 10 _).
  assert (HD : 2 <= D <= 10) by apply targetDivs_range.
  rewrite niceStep_ok by lra. cbn [bind].
  set (step := nice _ * _).
  assert (Hstep : 0 < step).
  { unfold step. apply Rmult_lt_0_compat; [| apply Rpower10_pos].
    destruct (nice_values (L / D / Rpower 10 (IZR (Zfloor (ln (L / D) / ln 10)))))
      as [E | [E | [E | E]]]; rewrite E; lra. }
  set (first := mkTick (List.length group) 0 16 (spriteScale * 0.35)).
  match goal with
  | |- context [tickWalk ?f ?b ?bd ?ts 0 ?a] =>
      set (body := b); set (acc0 := a);
      destruct (tickWalk f body bd ts 0 acc0) as [acc1 | x] eqn:Hw
  end; cbn [bind]; [| intros E; discriminate E].
  intros E Htidy. injection E as <-.
  assert (H1 : continues L acc0 acc1).
  { eapply (tickWalk_preserves (continues L acc0)); [| apply continues_refl | exact Hw].
    intros d a a' Ha Hb. unfold body in Hb.
    eapply tickBody_range; [exact Hstep | exact Ha | exact Hb]. }
  destruct H1 as [e1 [mid [-> Hr]]]. unfold acc0 in *. cbn [fst snd] in *.
  eexists (_ :: e1 ++ [_]), first, _, mid.
  rewrite <- !app_assoc in *. cbn [app] in *.
  split; [reflexivity |]. split; [exact Htidy |].
  split; [reflexivity |]. split; [reflexivity |]. exact Hr.
Qed.

Lemma addGraduatedTicks_registry_witness :
  1e-10 <= vlength (subVectors (vec3 1 0 0) (vec3 0 0 0)) /\
  0 < 0.055 /\
  tidy [] ([], []) /\
  exists (e1 : list Child) (first last : TickEntry) (mid : list TickEntry),
    addGraduatedTicks [] [] (vec3 0 0 0) (vec3 1 0 0) (vec3 0 1 0) (vec3 0 (-1) 0)
                      0.038 0.022 0.084 0.055
    = Ok ([] ++ e1, [] ++ first :: mid ++ [last]) /\
    tidy [] ([] ++ e1, [] ++ first :: mid ++ [last]) /\
    rawValue first = 0 /\
    rawValue last = vlength (subVectors (vec3 1 0 0) (vec3 0 0 0)) /\
    Forall (fun e => 0 <= rawValue e <= vlength (subVectors (vec3 1 0 0) (vec3 0 0 0))) mid.
Proof.
  assert (H : 1e-10 <= vlength (subVectors (vec3 1 0 0) (vec3 0 0 0))).
  { rewrite vlength_along_x. rewrite Rabs_pos_eq; lra. }
  split; [exact H |]. split; [lra |]. split; [exact tidy_nil |].
  apply (addGraduatedTicks_registry [] [] [] (vec3 0 0 0) (vec3 1 0 0) (vec3 0 1 0)
           (vec3 0 (-1) 0) 0.038 0.022 0.084 0.055); [exact H | lra | exact tidy_nil].
Defined.

End GraduatedTicks.

Section Relabel.

Lemma spriteOf_updateChild (i j : nat) (f : Sprite -> Sprite) (l : list Child) :
  spriteOf (updateChild i f l) j
  = if Nat.eqb i j then option_map f (spriteOf l j) else spriteOf l j.
Proof.
  revert i j. induction l as [| c l IH]; intros i j.
  - unfold spriteOf. destruct i; destruct j; cbn; try reflexivity;
      destruct (Nat.eqb _ _); reflexivity.
  - destruct i as [| i]; destruct j as [| j]; cbn [updateChild Nat.eqb].
    + unfold spriteOf. cbn. destruct c; reflexivity.
    + reflexivity.
    + reflexivity.
    + unfold spriteOf in *. cbn [nth_error]. apply IH.
Qed.

Lemma spriteIn_updateGroup (i j : nat) (f : Sprite -> Sprite) (st : State) :
  spriteIn (updateGroup i f st) j
  = if Nat.eqb i j then option_map f (spriteIn st j) else spriteIn st j.
Proof.
  unfold updateGroup, spriteIn. destruct (rulerGroup st) as [g |] eqn:Hg.
  - cbn. apply spriteOf_updateChild.
  - rewrite Hg. destruct (Nat.eqb i j); reflexivity.
Qed.

Lemma updateGroup_registry (i : nat) (f : Sprite -> Sprite) (st : State) :
  rulerLabelSprites (updateGroup i f st) = rulerLabelSprites st /\
  rulerTickSprites (updateGroup i f st) = rulerTickSprites st /\
  isSome (rulerGroup (updateGroup i f st)) = isSome (rulerGroup st).
Proof.
  unfold updateGroup. destruct (rulerGroup st) eqn:Hg; cbn; rewrite ?Hg; repeat split.
Qed.

(** The loop that repaints the tick sprites with the texts [T]: a sprite
    that no entry names stays as it is. *)
Lemma relabel_other (T : TickEntry -> string) (es : list TickEntry) (j : nat) :
  forall st : State,
    ~ In j (map sprite es) ->
    spriteIn (fold_left (fun st e => updateTickSpriteText (sprite e) (T e) (baseScale e) st) es st) j
    = spriteIn st j.
Proof.
  induction es as [| e es IH]; intros st Hn; cbn [fold_left]; [reflexivity |].
  cbn [map] in Hn. rewrite IH by (intros H; apply Hn; right; exact H).
  unfold updateTickSpriteText. rewrite spriteIn_updateGroup.
  destruct (Nat.eqb_spec (sprite e) j) as [E | _]; [| reflexivity].
  exfalso. apply Hn. left. exact E.
Qed.

(** The sprite of an entry gets the text and the height of the entry,
    when no two entries name the same sprite. *)
Lemma relabel_entry (T : TickEntry -> string) (es : list TickEntry) (e : TickEntry) :
  forall st : State,
    NoDup (map sprite es) -> In e es ->
    spriteIn (fold_left (fun st e => updateTickSpriteText (sprite e) (T e) (baseScale e) st) es st)
             (sprite e)
    = option_map (fun s => mkSprite (T e) (spritePosition s) (baseScale e) (spriteOpacity s))
                 (spriteIn st (sprite e)).
Proof.
  induction es as [| e0 es IH]; intros st Hnd Hin; [destruct Hin |].
  cbn [fold_left]. cbn [map] in Hnd. inversion Hnd as [| x xs Hx Hnd' Heq]; subst.
  destruct Hin as [-> | Hin].
  - rewrite relabel_other by exact Hx.
    unfold updateTickSpriteText. rewrite spriteIn_updateGroup, Nat.eqb_refl. reflexivity.
  - rewrite (IH _ Hnd' Hin).
    unfold updateTickSpriteText at 1. rewrite spriteIn_updateGroup.
    destruct (Nat.eqb_spec (sprite e0) (sprite e)) as [E | _]; [| reflexivity].
    exfalso. apply Hx. rewrite E. apply in_map. exact Hin.
Qed.

Lemma relabel_registry (T : TickEntry -> string) (es : list TickEntry) :
  forall st : State,
    let st' := fold_left (fun st e => updateTickSpriteText (sprite e) (T e) (baseScale e) st)
                         es st in
    rulerLabelSprites st' = rulerLabelSprites st /\
    rulerTickSprites st' = rulerTickSprites st /\
    isSome (rulerGroup st') = isSome (rulerGroup st) /\
    forall h : nat, isSome (spriteIn st' h) = isSome (spriteIn st h).
Proof.
  induction es as [| e es IH]; intros st; cbn [fold_left]; [repeat split |].
  cbv zeta in IH.
  set (st1 := updateTickSpriteText (sprite e) (T e) (baseScale e) st).
  destruct (IH st1) as [A [B [C D]]].
  assert (H0 : rulerLabelSprites st1 = rulerLabelSprites st /\
               rulerTickSprites st1 = rulerTickSprites st /\
               isSome (rulerGroup st1) = isSome (rulerGroup st))
    by apply updateGroup_registry.
  destruct H0 as [A0 [B0 C0]].
  split; [congruence |]. split; [congruence |]. split; [congruence |].
  intros h. rewrite D. unfold st1, updateTickSpriteText. rewrite spriteIn_updateGroup.
  destruct (Nat.eqb _ h); [| reflexivity]. destruct (spriteIn st h); reflexivity.
Qed.

End Relabel.

Section LabelCache.

Lemma updateGroup_cache (i : nat) (f : Sprite -> Sprite) (st : State) :
  lastRulerLabels (updateGroup i f st) = lastRulerLabels st /\
  viewerCalls (updateGroup i f st) = viewerCalls st.
Proof.
  unfold updateGroup. destruct (rulerGroup st); split; reflexivity.
Qed.

Lemma relabel_cache (T : TickEntry -> string) (es : list TickEntry) :
  forall st : State,
    let st' := fold_left (fun st e => updateTickSpriteText (sprite e) (T e) (baseScale e) st)
                         es st in
    lastRulerLabels st' = lastRulerLabels st /\ viewerCalls st' = viewerCalls st.
Proof.
  induction es as [| e es IH]; intros st; cbn [fold_left]; [split; reflexivity |].
  cbv zeta in IH.
  set (st1 := updateTickSpriteText (sprite e) (T e) (baseScale e) st).
  destruct (IH st1) as [A B].
  assert (H0 : lastRulerLabels st1 = lastRulerLabels st /\ viewerCalls st1 = viewerCalls st)
    by apply updateGroup_cache.
  destruct H0 as [A0 B0]. split; congruence.
Qed.

(** [updateRulerLabels] caches its arguments and renders once. *)
Lemma updateRulerLabels_cache (w h d : string) (u : option R) (st : State) :
  lastRulerLabels (updateRulerLabels w h d u st) = Some (mkRulerLabels w h d u) /\
  viewerCalls (updateRulerLabels w h d u st) = viewerCalls st ++ [Render].
Proof.
  unfold updateRulerLabels.
  set (st0 := set_lastRulerLabels _ st).
  set (st1 := updateSpriteText _ w st0).
  set (st2 := updateSpriteText _ h st1).
  set (st3 := updateSpriteText _ d st2).
  assert (C : forall (o : option nat) (t : string) (s : State),
             lastRulerLabels (updateSpriteText o t s) = lastRulerLabels s /\
             viewerCalls (updateSpriteText o t s) = viewerCalls s).
  { intros o t s. unfold updateSpriteText. destruct o; [apply updateGroup_cache | split; reflexivity]. }
  destruct (C (labelX (rulerLabelSprites st0)) w st0) as [A1 B1]. fold st1 in A1, B1.
  destruct (C (labelY (rulerLabelSprites st1)) h st1) as [A2 B2]. fold st2 in A2, B2.
  destruct (C (labelZ (rulerLabelSprites st2)) d st2) as [A3 B3]. fold st3 in A3, B3.
  assert (A0 : lastRulerLabels st0 = Some (mkRulerLabels w h d u)) by reflexivity.
  assert (B0 : viewerCalls st0 = viewerCalls st) by reflexivity.
  destruct u as [f |].
  - destruct (relabel_cache (fun e => formatTickNum (rawValue e * f)) (rulerTickSprites st3) st3)
      as [A4 B4].
    cbn [logCall set_viewerCalls lastRulerLabels viewerCalls].
    split; [etransitivity; [exact A4 | congruence] |].
    f_equal. etransitivity; [exact B4 | congruence].
  - cbn [logCall set_viewerCalls lastRulerLabels viewerCalls].
    split; [congruence |]. f_equal. congruence.
Qed.

End LabelCache.

Section AxisRegistry.

Lemma axisRuler_tidy (ls : list nat) (startP endP tickVec tickDir labelDir labelShift : Vec3)
    (sizeText : string) (majorTick minorTick endTick spriteScale : R)
    (acc b : Build) (h : nat) :
  tidy ls acc ->
  axisRuler startP endP tickVec tickDir labelDir labelShift sizeText
            majorTick minorTick endTick spriteScale acc = Ok (b, h) ->
  tidy (h :: ls) b.
Proof.
  intros Ht H. unfold axisRuler in H.
  destruct (addGraduatedTicks _ _ _ _ _ _ _ _ _ _) as [acc1 | f] eqn:E; cbn [bind] in H;
    [| discriminate].
  injection H as <- <-.
  destruct acc as [g t]. cbn [fst snd] in E.
  assert (H3 : tidy ls (((g ++ [Line startP endP])
                           ++ [Line (vsub startP tickVec) (vadd startP tickVec)])
                          ++ [Line (vsub endP tickVec) (vadd endP tickVec)], t)).
  { apply tidy_app, tidy_app, tidy_app. exact Ht. }
  pose proof (addGraduatedTicks_tidy ls _ _ _ _ _ _ _ _ _ _ _ H3 E) as H1.
  destruct acc1 as [g1 t1]. cbn [fst snd]. apply tidy_label. exact H1.
Qed.

Lemma xAxisRuler_tidy (ls : list nat) (sides : Sides) (direction : string) (min size : Vec3)
    (majorTick minorTick endTick spriteScale : R) (acc b : Build) (h : nat) :
  tidy ls acc ->
  xAxisRuler sides direction min size majorTick minorTick endTick spriteScale acc = Ok (b, h) ->
  tidy (h :: ls) b.
Proof.
  intros Ht H. unfold xAxisRuler in H. cbv zeta in H. eapply axisRuler_tidy; eassumption.
Qed.

Lemma yAxisRuler_tidy (ls : list nat) (sides : Sides) (direction : string) (min size : Vec3)
    (majorTick minorTick endTick spriteScale : R) (acc b : Build) (h : nat) :
  tidy ls acc ->
  yAxisRuler sides direction min size majorTick minorTick endTick spriteScale acc = Ok (b, h) ->
  tidy (h :: ls) b.
Proof.
  intros Ht H. unfold yAxisRuler in H. cbv zeta in H. eapply axisRuler_tidy; eassumption.
Qed.

Lemma zAxisRuler_tidy (ls : list nat) (sides : Sides) (direction : string) (min size : Vec3)
    (majorTick minorTick endTick spriteScale : R) (acc b : Build) (h : nat) :
  tidy ls acc ->
  zAxisRuler sides direction min size majorTick minorTick endTick spriteScale acc = Ok (b, h) ->
  tidy (h :: ls) b.
Proof.
  intros Ht H. unfold zAxisRuler in H. cbv zeta in H. eapply axisRuler_tidy; eassumption.
Qed.

Lemma spriteOf_extends (a b : Build) (h : nat) (s : Sprite) :
  extends a b -> spriteOf (fst a) h = Some s -> spriteOf (fst b) h = Some s.
Proof.
  intros [e1 [e2 ->]] H. cbn [fst]. apply spriteOf_app. exact H.
Qed.

(** The group that [buildRuler] hands to the viewer, before the cached
    labels are applied: a tidy build with the three dimension labels,
    which show the size of the box with two decimals. *)
Lemma buildRuler_built (box : Box3) (st : State) :
  rulerTickSprites st = [] ->
  exists (g : list Child) (T : list TickEntry) (hx hy hz : nat) (px py pz : Vec3),
    buildRuler box st
    = Ok (let st1 :=
            logCall AddExtraObject
              (set_rulerGroup (Some (mkGroup (rulerLineOpacity (currentIsDark st)) g))
                 (set_rulerTickSprites T
                    (set_rulerLabelSprites (mkLabels (Some hx) (Some hy) (Some hz)) st))) in
          match lastRulerLabels st with
          | Some l => updateRulerLabels (labelsW l) (labelsH l) (labelsD l) (unitFactor l) st1
          | None => st1
          end) /\
    tidy [hz; hy; hx] (g, T) /\
    (let size := getSize box in
     let spriteScale := max3 (vx size) (vy size) (vz size) * 0.055 in
     spriteOf g hx = Some (mkSprite (toFixed2 (vx size)) px spriteScale 1) /\
     spriteOf g hy = Some (mkSprite (toFixed2 (vy size)) py spriteScale 1) /\
     spriteOf g hz = Some (mkSprite (toFixed2 (vz size)) pz spriteScale 1)).
Proof.
  intros Hticks. unfold buildRuler. rewrite Hticks.
  destruct (getSize_nonneg box) as [Hx [Hy Hz]].
  set (size := getSize box) in *.
  destruct (max3_ge (vx size) (vy size) (vz size)) as [Mx [My Mz]].
  set (maxDim := max3 (vx size) (vy size) (vz size)) in *.
  match goal with
  | |- context [xAxisRuler ?a ?b ?c ?d ?e ?f ?g ?h ?i] =>
      destruct (xAxisRuler_ok a b c d e f g h i Hx) as [bx [hx [px [Ex [Xx Nx]]]]]; [lra |]
  end.
  rewrite Ex. cbn [bind fst snd].
  match goal with
  | |- context [yAxisRuler ?a ?b ?c ?d ?e ?f ?g ?h ?i] =>
      destruct (yAxisRuler_ok a b c d e f g h i Hy) as [by_ [hy [py [Ey [Xy Ny]]]]]; [lra |]
  end.
  rewrite Ey. cbn [bind fst snd].
  match goal with
  | |- context [zAxisRuler ?a ?b ?c ?d ?e ?f ?g ?h ?i] =>
      destruct (zAxisRuler_ok a b c d e f g h i Hz) as [bz [hz [pz [Ez [Xz Nz]]]]]; [lra |]
  end.
  rewrite Ez. cbn [bind fst snd].
  pose proof (xAxisRuler_tidy [] _ _ _ _ _ _ _ _ _ _ _ tidy_nil Ex) as Tx.
  pose proof (yAxisRuler_tidy _ _ _ _ _ _ _ _ _ _ _ _ Tx Ey) as Ty.
  pose proof (zAxisRuler_tidy _ _ _ _ _ _ _ _ _ _ _ _ Ty Ez) as Tz.
  exists (fst bz), (snd bz), hx, hy, hz, px, py, pz.
  split; [| split].
  - cbv zeta. cbn [lastRulerLabels logCall set_viewerCalls set_rulerGroup set_rulerTickSprites
                   set_rulerLabelSprites].
    destruct (lastRulerLabels st); reflexivity.
  - destruct bz. exact Tz.
  - cbv zeta. split; [| split].
    + apply (spriteOf_extends by_ bz _ _ Xz). apply (spriteOf_extends bx by_ _ _ Xy).
      apply spriteOf_nth. exact Nx.
    + apply (spriteOf_extends by_ bz _ _ Xz). apply spriteOf_nth. exact Ny.
    + apply spriteOf_nth. exact Nz.
Qed.

End AxisRegistry.

Section RulerDisplay.

Lemma spriteIn_updateSpriteText (i j : nat) (text : string) (st : State) :
  spriteIn (updateSpriteText (Some i) text st) j
  = if Nat.eqb i j
    then option_map (fun s => mkSprite text (spritePosition s) (spriteScaleY s) (spriteOpacity s))
                    (spriteIn st j)
    else spriteIn st j.
Proof.
  unfold updateSpriteText. apply spriteIn_updateGroup.
Qed.

Lemma updateSpriteText_registry (h : option nat) (text : string) (st : State) :
  rulerLabelSprites (updateSpriteText h text st) = rulerLabelSprites st /\
  rulerTickSprites (updateSpriteText h text st) = rulerTickSprites st /\
  isSome (rulerGroup (updateSpriteText h text st)) = isSome (rulerGroup st).
Proof.
  unfold updateSpriteText. destruct h; [apply updateGroup_registry | repeat split].
Qed.

Lemma registry_handles (st : State) (hx hy hz : nat) :
  rulerLabelSprites st = mkLabels (Some hx) (Some hy) (Some hz) ->
  registryHandles st = hx :: hy :: hz :: map sprite (rulerTickSprites st).
Proof.
  intros H. unfold registryHandles, labelHandles. rewrite H. reflexivity.
Qed.

(** What [updateRulerLabels] leaves on display, when the registry is
    consistent and an overlay exists. *)
Lemma updateRulerLabels_display (w h d : string) (u : option R) (st : State) :
  registry st -> rulerGroup st <> None ->
  let st' := updateRulerLabels w h d u st in
  exists hx hy hz : nat,
    rulerLabelSprites st' = mkLabels (Some hx) (Some hy) (Some hz) /\
    rulerTickSprites st' = rulerTickSprites st /\
    shows st' hx w /\ shows st' hy h /\ shows st' hz d /\
    (forall e : TickEntry,
       In e (rulerTickSprites st) ->
       match u with
       | Some f => shows st' (sprite e) (formatTickNum (rawValue e * f))
       | None => spriteIn st' (sprite e) = spriteIn st (sprite e)
       end).
Proof.
  intros Hreg Hg st'. unfold registry in Hreg.
  destruct (rulerGroup st) as [g |] eqn:Eg; [| contradiction].
  destruct Hreg as [[hx [hy [hz HL]]] [Hall Hnd]].
  rewrite (registry_handles st hx hy hz HL) in Hall, Hnd.
  inversion Hall as [| ? ? Sx Hall1]; subst.
  inversion Hall1 as [| ? ? Sy Hall2]; subst.
  inversion Hall2 as [| ? ? Sz Hall3]; subst.
  inversion Hnd as [| ? ? Nx Hnd1]; subst.
  inversion Hnd1 as [| ? ? Ny Hnd2]; subst.
  inversion Hnd2 as [| ? ? Nz Hnd3]; subst.
  assert (Dxy : hx <> hy) by (intros ->; apply Nx; left; reflexivity).
  assert (Dxz : hx <> hz) by (intros ->; apply Nx; right; left; reflexivity).
  assert (Dyz : hy <> hz) by (intros ->; apply Ny; left; reflexivity).
  assert (Tx : ~ In hx (map sprite (rulerTickSprites st)))
    by (intros H; apply Nx; right; right; exact H).
  assert (Ty : ~ In hy (map sprite (rulerTickSprites st)))
    by (intros H; apply Ny; right; exact H).
  rewrite Forall_forall in Hall3.
  unfold st', updateRulerLabels.
  set (st0 := set_lastRulerLabels _ st).
  assert (L0 : rulerLabelSprites st0 = mkLabels (Some hx) (Some hy) (Some hz)) by exact HL.
  assert (T0 : rulerTickSprites st0 = rulerTickSprites st) by reflexivity.
  assert (S0 : forall j, spriteIn st0 j = spriteIn st j) by reflexivity.
  rewrite L0. cbn [labelX].
  set (st1 := updateSpriteText (Some hx) w st0).
  destruct (updateSpriteText_registry (Some hx) w st0) as [L1 [T1 _]]. fold st1 in L1, T1.
  rewrite L1, L0. cbn [labelY].
  set (st2 := updateSpriteText (Some hy) h st1).
  destruct (updateSpriteText_registry (Some hy) h st1) as [L2 [T2 _]]. fold st2 in L2, T2.
  rewrite L2, L1, L0. cbn [labelZ].
  set (st3 := updateSpriteText (Some hz) d st2).
  destruct (updateSpriteText_registry (Some hz) d st2) as [L3 [T3 _]]. fold st3 in L3, T3.
  assert (S3 : forall j,
             spriteIn st3 j
             = if Nat.eqb hz j
               then option_map (fun s => mkSprite d (spritePosition s) (spriteScaleY s)
                                                  (spriteOpacity s)) (spriteIn st2 j)
               else spriteIn st2 j) by (intros j; apply spriteIn_updateSpriteText).
  assert (S2 : forall j,
             spriteIn st2 j
             = if Nat.eqb hy j
               then option_map (fun s => mkSprite h (spritePosition s) (spriteScaleY s)
                                                  (spriteOpacity s)) (spriteIn st1 j)
               else spriteIn st1 j) by (intros j; apply spriteIn_updateSpriteText).
  assert (S1 : forall j,
             spriteIn st1 j
             = if Nat.eqb hx j
               then option_map (fun s => mkSprite w (spritePosition s) (spriteScaleY s)
                                                  (spriteOpacity s)) (spriteIn st j)
               else spriteIn st j)
    by (intros j; unfold st1; rewrite spriteIn_updateSpriteText, !S0; reflexivity).
  assert (Q : forall a b : nat, a <> b -> Nat.eqb a b = false)
    by (intros a b; apply Nat.eqb_neq).
  assert (Q' : forall a b : nat, a <> b -> Nat.eqb b a = false)
    by (intros a b H; apply Nat.eqb_neq; auto).
  assert (X3 : exists s, spriteIn st3 hx = Some s /\ spriteText s = w).
  { rewrite S3, (Q' _ _ Dxz), S2, (Q' _ _ Dxy), S1, Nat.eqb_refl.
    destruct (spriteIn st hx) as [s |]; [| discriminate Sx].
    eexists. split; reflexivity. }
  assert (Y3 : exists s, spriteIn st3 hy = Some s /\ spriteText s = h).
  { rewrite S3, (Q' _ _ Dyz), S2, Nat.eqb_refl, S1, (Q _ _ Dxy).
    destruct (spriteIn st hy) as [s |]; [| discriminate Sy].
    eexists. split; reflexivity. }
  assert (Z3 : exists s, spriteIn st3 hz = Some s /\ spriteText s = d).
  { rewrite S3, Nat.eqb_refl, S2, (Q _ _ Dyz), S1, (Q _ _ Dxz).
    destruct (spriteIn st hz) as [s |]; [| discriminate Sz].
    eexists. split; reflexivity. }
  assert (E3 : forall e, In e (rulerTickSprites st) ->
                         spriteIn st3 (sprite e) = spriteIn st (sprite e)).
  { intros e He.
    assert (Hin : In (sprite e) (map sprite (rulerTickSprites st))) by (apply in_map; exact He).
    assert (Ax : hx <> sprite e) by (intros ->; exact (Tx Hin)).
    assert (Ay : hy <> sprite e) by (intros ->; exact (Ty Hin)).
    assert (Az : hz <> sprite e) by (intros ->; exact (Nz Hin)).
    rewrite S3, (Q _ _ Az), S2, (Q _ _ Ay), S1, (Q _ _ Ax). reflexivity. }
  exists hx, hy, hz.
  destruct u as [f |].
  - rewrite T3, T2, T1, T0.
    set (st4 := fold_left _ (rulerTickSprites st) st3).
    assert (R4 : rulerLabelSprites st4 = rulerLabelSprites st3 /\
                 rulerTickSprites st4 = rulerTickSprites st3).
    { destruct (relabel_registry (fun e => formatTickNum (rawValue e * f))
                  (rulerTickSprites st) st3) as [A [B _]].
      split; [exact A | exact B]. }
    destruct R4 as [L4 T4].
    assert (S5 : forall j, spriteIn (logCall Render st4) j = spriteIn st4 j) by reflexivity.
    split; [cbn [logCall set_viewerCalls rulerLabelSprites]; congruence |].
    split; [cbn [logCall set_viewerCalls rulerTickSprites]; congruence |].
    unfold shows.
    split; [rewrite S5; unfold st4; rewrite relabel_other by exact Tx; exact X3 |].
    split; [rewrite S5; unfold st4; rewrite relabel_other by exact Ty; exact Y3 |].
    split; [rewrite S5; unfold st4; rewrite relabel_other by exact Nz; exact Z3 |].
    intros e He. rewrite S5. unfold st4.
    pose proof (relabel_entry (fun e => formatTickNum (rawValue e * f)) _ e st3 Hnd3 He) as HE.
    cbv beta in HE. rewrite HE, (E3 e He).
    assert (Hs : isSome (spriteIn st (sprite e)) = true)
      by (apply Hall3; apply in_map; exact He).
    destruct (spriteIn st (sprite e)) as [s |]; [| discriminate Hs].
    eexists. split; reflexivity.
  - assert (S5 : forall j, spriteIn (logCall Render st3) j = spriteIn st3 j) by reflexivity.
    split; [cbn [logCall set_viewerCalls rulerLabelSprites]; congruence |].
    split; [cbn [logCall set_viewerCalls rulerTickSprites]; congruence |].
    unfold shows.
    split; [rewrite S5; exact X3 |].
    split; [rewrite S5; exact Y3 |].
    split; [rewrite S5; exact Z3 |].
    intros e He. rewrite S5. exact (E3 e He).
Qed.

End RulerDisplay.

Section RegistryInvariant.

Lemma registry_reshapes (st st' : State) : registry st -> reshapes st st' -> registry st'.
Proof.
  unfold registry, reshapes, registryHandles. intros H [L [T [G S]]].
  rewrite L, T.
  destruct (rulerGroup st) as [g |]; destruct (rulerGroup st') as [g' |]; try discriminate G.
  - destruct H as [H1 [H2 H3]]. split; [exact H1 |]. split; [| exact H3].
    eapply Forall_impl; [| exact H2]. intros h Hh. cbv beta in *. rewrite S. exact Hh.
  - exact H.
Qed.

Lemma reshapes_refl (st : State) : reshapes st st.
Proof. repeat split. Qed.

Lemma reshapes_trans (a b c : State) : reshapes a b -> reshapes b c -> reshapes a c.
Proof.
  intros [A1 [A2 [A3 A4]]] [B1 [B2 [B3 B4]]].
  split; [congruence |]. split; [congruence |]. split; [congruence |].
  intros h. rewrite B4. apply A4.
Qed.

(** A state that differs outside the overlay has the same registry. *)
Lemma reshapes_ext (st st' : State) :
  rulerGroup st' = rulerGroup st ->
  rulerLabelSprites st' = rulerLabelSprites st ->
  rulerTickSprites st' = rulerTickSprites st ->
  reshapes st st'.
Proof.
  intros G L T. unfold reshapes, spriteIn. rewrite G. repeat split; assumption.
Qed.

Lemma reshapes_updateGroup (i : nat) (f : Sprite -> Sprite) (st : State) :
  reshapes st (updateGroup i f st).
Proof.
  destruct (updateGroup_registry i f st) as [A [B C]].
  repeat split; try assumption.
  intros h. rewrite spriteIn_updateGroup.
  destruct (Nat.eqb i h); [| reflexivity]. destruct (spriteIn st h); reflexivity.
Qed.

Lemma reshapes_updateSpriteText (h : option nat) (text : string) (st : State) :
  reshapes st (updateSpriteText h text st).
Proof.
  unfold updateSpriteText. destruct h; [apply reshapes_updateGroup | apply reshapes_refl].
Qed.

Lemma reshapes_relabel (T : TickEntry -> string) (es : list TickEntry) (st : State) :
  reshapes st (fold_left (fun st e => updateTickSpriteText (sprite e) (T e) (baseScale e) st)
                         es st).
Proof.
  exact (relabel_registry T es st).
Qed.

Lemma spriteOf_map (F : Child -> Child) (f : Sprite -> Sprite) (l : list Child) (h : nat) :
  (forall p1 p2, F (Line p1 p2) = Line p1 p2) ->
  (forall s, F (Label s) = Label (f s)) ->
  spriteOf (map F l) h = option_map f (spriteOf l h).
Proof.
  intros HL HS. unfold spriteOf. rewrite nth_error_map.
  destruct (nth_error l h) as [[p1 p2 | s] |]; cbn [option_map].
  - rewrite HL. reflexivity.
  - rewrite HS. reflexivity.
  - reflexivity.
Qed.

(** The sprites of a faded overlay: the same sprites, at the factor. *)
Lemma spriteIn_fadeRuler (f : R) (st : State) (h : nat) :
  spriteIn (fadeRuler f st) h
  = option_map (fun s => mkSprite (spriteText s) (spritePosition s) (spriteScaleY s) f)
               (spriteIn st h).
Proof.
  unfold fadeRuler, spriteIn, setRulerGroupOpacity.
  destruct (rulerGroup st) as [g |] eqn:Hg; cbn; rewrite ?Hg; [| reflexivity].
  apply spriteOf_map; reflexivity.
Qed.

Lemma reshapes_fadeRuler (f : R) (st : State) : reshapes st (fadeRuler f st).
Proof.
  repeat split.
  - unfold fadeRuler, setRulerGroupOpacity. destruct (rulerGroup st) eqn:Hg; cbn; rewrite ?Hg;
      reflexivity.
  - intros h. rewrite spriteIn_fadeRuler. destruct (spriteIn st h); reflexivity.
Qed.

Lemma reshapes_updateRulerLabels (w h d : string) (u : option R) (st : State) :
  reshapes st (updateRulerLabels w h d u st).
Proof.
  unfold updateRulerLabels.
  set (st0 := set_lastRulerLabels _ st).
  assert (R0 : reshapes st st0) by (apply reshapes_ext; reflexivity).
  set (st1 := updateSpriteText _ w st0).
  assert (R1 : reshapes st0 st1) by apply reshapes_updateSpriteText.
  set (st2 := updateSpriteText _ h st1).
  assert (R2 : reshapes st1 st2) by apply reshapes_updateSpriteText.
  set (st3 := updateSpriteText _ d st2).
  assert (R3 : reshapes st2 st3) by apply reshapes_updateSpriteText.
  pose proof (reshapes_trans _ _ _ (reshapes_trans _ _ _ (reshapes_trans _ _ _ R0 R1) R2) R3)
    as R03.
  destruct u as [f |].
  - eapply reshapes_trans; [exact R03 |].
    eapply reshapes_trans;
      [exact (reshapes_relabel (fun e => formatTickNum (rawValue e * f)) (rulerTickSprites st3) st3)
      | apply reshapes_ext; reflexivity].
  - eapply reshapes_trans; [exact R03 | apply reshapes_ext; reflexivity].
Qed.

(** The state that a build leaves is consistent. *)
Lemma built_registry (st : State) (op : R) (g : list Child) (T : list TickEntry)
    (hx hy hz : nat) :
  tidy [hz; hy; hx] (g, T) ->
  registry (logCall AddExtraObject
              (set_rulerGroup (Some (mkGroup op g))
                 (set_rulerTickSprites T
                    (set_rulerLabelSprites (mkLabels (Some hx) (Some hy) (Some hz)) st)))).
Proof.
  intros [Hl [Ht Hn]]. cbn [fst snd] in *.
  unfold registry. cbn [logCall set_viewerCalls set_rulerGroup rulerGroup].
  split; [exists hx, hy, hz; reflexivity |].
  unfold registryHandles, labelHandles, spriteIn.
  cbn [logCall set_viewerCalls set_rulerGroup set_rulerTickSprites set_rulerLabelSprites
       rulerGroup rulerLabelSprites rulerTickSprites labelX labelY labelZ children app].
  inversion Hl as [| ? ? Lz Hl1]; subst.
  inversion Hl1 as [| ? ? Ly Hl2]; subst.
  inversion Hl2 as [| ? ? Lx _]; subst.
  assert (Some_of : forall h, isLabel g h -> isSome (spriteOf g h) = true).
  { intros h Hh. apply spriteOf_isLabel in Hh. destruct Hh as [s ->]. reflexivity. }
  split.
  - repeat (constructor; [apply Some_of; assumption |]).
    apply Forall_map. eapply Forall_impl; [| exact Ht].
    intros e He. apply Some_of. eapply tickShows_isLabel. exact He.
  - cbn [app] in Hn.
    inversion Hn as [| ? ? Nz Hn1]; subst.
    inversion Hn1 as [| ? ? Ny Hn2]; subst.
    inversion Hn2 as [| ? ? Nx Hn3]; subst.
    constructor; [| constructor; [| constructor; [| exact Hn3]]].
    + intros [E | [E | H]].
      * apply Ny. left. symmetry. exact E.
      * apply Nz. right. left. symmetry. exact E.
      * exact (Nx H).
    + intros [E | H].
      * apply Nz. left. symmetry. exact E.
      * apply Ny. right. exact H.
    + intros H. apply Nz. right. right. exact H.
Qed.

Lemma removeExistingRuler_ticks (st : State) :
  registry st -> rulerTickSprites (removeExistingRuler st) = [].
Proof.
  unfold registry, removeExistingRuler.
  destruct (rulerGroup st); [reflexivity | intros [_ H]; exact H].
Qed.

Lemma registry_eyeLevelOnLoad (st : State) : reshapes st (eyeLevelOnLoad st).
Proof.
  unfold eyeLevelOnLoad. destruct (justLoaded st); [apply reshapes_ext; reflexivity |
                                                     apply reshapes_refl].
Qed.

(** [buildRuler] from an empty tick registry leaves a consistent one. *)
Lemma buildRuler_registry (box : Box3) (st st' : State) :
  rulerTickSprites st = [] -> buildRuler box st = Ok st' -> registry st'.
Proof.
  intros Ht H.
  destruct (buildRuler_built box st Ht) as [g [T [hx [hy [hz [px [py [pz [E [Hy _]]]]]]]]]].
  rewrite E in H. injection H as <-. cbv zeta.
  pose proof (built_registry st (rulerLineOpacity (currentIsDark st)) g T hx hy hz Hy) as Hr.
  destruct (lastRulerLabels st) as [l |]; [| exact Hr].
  eapply registry_reshapes; [exact Hr | apply reshapes_updateRulerLabels].
Qed.

Lemma setScaleRuler_registry (enabled : bool) (meshIndex : option Z) (st st' : State) :
  registry st -> setScaleRuler enabled meshIndex st = Ok st' -> registry st'.
Proof.
  intros Hr H. unfold setScaleRuler in H.
  destruct (threeObject st) as [obj |]; [| injection H as <-; exact Hr].
  set (st0 := set_currentRulerMeshIndex meshIndex st) in *.
  assert (R0 : registry st0).
  { eapply registry_reshapes; [exact Hr | apply reshapes_ext; reflexivity]. }
  destruct enabled; cbn [negb] in H.
  - eapply buildRuler_registry; [| exact H].
    apply removeExistingRuler_ticks.
    eapply registry_reshapes; [exact R0 | apply registry_eyeLevelOnLoad].
  - destruct (rulerGroup st0) eqn:Hg; injection H as <-; [| exact R0].
    unfold registry. cbn. split; reflexivity.
Qed.

End RegistryInvariant.

Section RegistryReachable.

Lemma registry_ext (st st' : State) :
  rulerGroup st' = rulerGroup st ->
  rulerLabelSprites st' = rulerLabelSprites st ->
  rulerTickSprites st' = rulerTickSprites st ->
  registry st -> registry st'.
Proof.
  intros G L T H. eapply registry_reshapes; [exact H | apply reshapes_ext; assumption].
Qed.

Lemma registry_fadeRuler (f : R) (st : State) : registry st -> registry (fadeRuler f st).
Proof.
  intros H. eapply registry_reshapes; [exact H | apply reshapes_fadeRuler].
Qed.

Lemma crossfade_registry (tr tr' : Transition) (raw : R) (st st' : State) :
  registry st -> crossfade tr raw st = Ok (tr', st') -> registry st'.
Proof.
  intros Hr H. unfold crossfade in H.
  destruct (hasRuler tr); [| injection H as <- <-; exact Hr].
  destruct (Rlt_dec raw 0.5).
  - cbn [bind] in H. destruct (Rge_dec raw 0.5); injection H as <- <-;
      repeat apply registry_fadeRuler; exact Hr.
  - destruct (rulerRebuilt tr); cbn [negb bind] in H.
    + destruct (Rge_dec raw 0.5); injection H as <- <-;
        repeat apply registry_fadeRuler; exact Hr.
    + destruct (setScaleRuler _ _ _) as [st1 | f] eqn:E; cbn [bind] in H; [| discriminate].
      assert (R1 : registry st1).
      { eapply setScaleRuler_registry; [| exact E].
        eapply registry_ext; [| | | exact Hr]; reflexivity. }
      destruct (Rge_dec raw 0.5); injection H as <- <-;
        repeat apply registry_fadeRuler; exact R1.
Qed.

Lemma complete_registry (tr : Transition) (st st' : State) :
  registry st -> complete tr st = Ok st' -> registry st'.
Proof.
  intros Hr H. unfold complete in H.
  set (st0 := match kind tr with Directed _ => _ | Reset => _ end) in H.
  assert (R0 : registry st0).
  { unfold st0. destruct (kind tr); (eapply registry_ext; [| | | exact Hr]; reflexivity). }
  set (st1 := if negb (rulerRebuilt tr) then _ else st0) in H.
  assert (R1 : registry st1).
  { unfold st1. destruct (rulerRebuilt tr); cbn [negb]; [exact R0 |].
    eapply registry_ext; [| | | exact R0]; reflexivity. }
  destruct (hasRuler tr); [| injection H as <-; exact R1].
  destruct (rulerRebuilt tr); cbn [negb bind] in H.
  - injection H as <-. apply registry_fadeRuler. exact R1.
  - destruct (setScaleRuler _ _ _) as [st2 | f] eqn:E; cbn [bind] in H; [| discriminate].
    injection H as <-. apply registry_fadeRuler.
    eapply setScaleRuler_registry; [exact R1 | exact E].
Qed.

Lemma animate_registry (tr : Transition) (now : R) (st st' : State) :
  registry st -> animate tr now st = Ok st' -> registry st'.
Proof.
  intros Hr H. unfold animate in H.
  set (st0 := set_camera _ st) in H.
  assert (R0 : registry st0) by (eapply registry_ext; [| | | exact Hr]; reflexivity).
  destruct (crossfade tr _ st0) as [[tr1 st1] | f] eqn:E; cbn [bind] in H; [| discriminate].
  pose proof (crossfade_registry _ _ _ _ _ R0 E) as R1.
  destruct (Rlt_dec _ 1).
  - injection H as <-. eapply registry_ext; [| | | exact R1]; reflexivity.
  - eapply complete_registry; [exact R1 | exact H].
Qed.

Lemma invoke_registry (cb : Callback) (now : R) (st st' : State) :
  registry st -> invoke cb now st = Ok st' -> registry st'.
Proof.
  intros Hr H. destruct cb as [tr | ar]; cbn [invoke] in H.
  - eapply animate_registry; [exact Hr | exact H].
  - injection H as <-. eapply registry_ext; [| | | exact Hr]; reflexivity.
Qed.

Lemma runCallbacks_registry (now : R) (handles : list nat) :
  forall st st' : State,
    registry st -> runCallbacks handles now st = Ok st' -> registry st'.
Proof.
  induction handles as [| h hs IH]; intros st st' Hr H; cbn [runCallbacks] in H.
  - injection H as <-. exact Hr.
  - destruct (lookupCallback h st) as [cb |]; [| exact (IH _ _ Hr H)].
    destruct (invoke cb now _) as [st1 | f] eqn:E; cbn [bind] in H; [| discriminate].
    refine (IH _ _ _ H). eapply invoke_registry; [| exact E].
    eapply registry_ext; [| | | exact Hr]; reflexivity.
Qed.

Lemma step_registry (st st' : State) (e : Event) :
  registry st -> step st e = Ok st' -> registry st'.
Proof.
  intros Hr H. destruct e; cbn [step] in H.
  - injection H as <-. eapply registry_ext; [| | | exact Hr]; reflexivity.
  - injection H as <-. eapply registry_ext; [| | | exact Hr]; reflexivity.
  - eapply setScaleRuler_registry; [exact Hr | exact H].
  - injection H as <-. eapply registry_reshapes; [exact Hr | apply reshapes_updateRulerLabels].
  - injection H as <-. unfold setCameraDirection.
    destruct (directedTransition direction now st); [| exact Hr].
    eapply registry_ext; [| | | exact Hr]; reflexivity.
  - injection H as <-. eapply registry_ext; [| | | exact Hr]; reflexivity.
  - injection H as <-. unfold startAutoRotate. destruct (autoRotateId st); [exact Hr |].
    eapply registry_ext; [| | | exact Hr]; reflexivity.
  - injection H as <-. unfold stopAutoRotate. destruct (autoRotateId st); [| exact Hr].
    eapply registry_ext; [| | | exact Hr]; reflexivity.
  - eapply runCallbacks_registry; [exact Hr | exact H].
Qed.

Lemma run_registry (es : list Event) :
  forall st st' : State, registry st -> run st es = Ok st' -> registry st'.
Proof.
  induction es as [| e es IH]; intros st st' Hr H; cbn [run] in H.
  - injection H as <-. exact Hr.
  - destruct (step st e) as [st1 | f] eqn:E; cbn [bind] in H; [| discriminate].
    exact (IH _ _ (step_registry _ _ _ Hr E) H).
Qed.

(** X5: in every state that a run of bridge calls and frames can reach
    the registry of the overlay is consistent.  Without a ruler group
    there is no dimension label and no tick entry; with one, all three
    dimension labels are registered, every handle of [rulerLabelSprites]
    and of [rulerTickSprites] is a sprite of the current group, and no two
    handles name the same sprite. *)
Theorem reachable_registry (st : State) : reachable st -> registry st.
Proof.
  intros [isDark [cam [es Hrun]]].
  refine (run_registry es _ _ _ Hrun).
  unfold registry. cbn. split; reflexivity.
Qed.

Lemma reachable_registry_witness :
  exists st : State,
    run (initialState false cameraFront5)
        [ModelFinished sampleObject; SetScaleRuler true None] = Ok st /\
    reachable st /\ rulerGroup st <> None /\ registry st.
Proof.
  destruct (setScaleRuler_ok true None
              (onModelFinished sampleObject (initialState false cameraFront5)))
    as [st [E [_ [P _]]]].
  assert (Hrun : run (initialState false cameraFront5)
                     [ModelFinished sampleObject; SetScaleRuler true None] = Ok st).
  { cbn [run step bind]. rewrite E. reflexivity. }
  assert (Hr : reachable st).
  { exists false, cameraFront5, [ModelFinished sampleObject; SetScaleRuler true None].
    exact Hrun. }
  exists st. split; [exact Hrun |]. split; [exact Hr |]. split.
  - destruct P as [[g [hx [hy [hz [G _]]]]] _]; [discriminate | reflexivity |].
    rewrite G. discriminate.
  - exact (reachable_registry st Hr).
Defined.

End RegistryReachable.

Section RulerDisplayTheorems.

Lemma prepared_fields (meshIndex : option Z) (st : State) :
  let st2 := removeExistingRuler (eyeLevelOnLoad (set_currentRulerMeshIndex meshIndex st)) in
  lastRulerLabels st2 = lastRulerLabels st /\ currentIsDark st2 = currentIsDark st /\
  threeObject st2 = threeObject st.
Proof.
  cbv zeta. unfold removeExistingRuler, eyeLevelOnLoad.
  destruct (justLoaded _); destruct (rulerGroup _); repeat split.
Qed.

Lemma tidy_shows (st : State) (op : R) (g : list Child) (T : list TickEntry) (ls : list nat) :
  tidy ls (g, T) -> rulerGroup st = Some (mkGroup op g) ->
  Forall (fun e => shows st (sprite e) (formatTickNum (rawValue e))) T.
Proof.
  intros [_ [Ht _]] Hg. cbn [fst snd] in Ht.
  eapply Forall_impl; [| exact Ht].
  intros e [s [H1 [H2 _]]]. exists s. unfold spriteIn. rewrite Hg. cbn [children].
  split; [exact H1 | exact H2].
Qed.

(** X6: with an object loaded and no labels cached,
    [setScaleRuler(true, meshIndex)] never faults and leaves the three
    dimension labels showing the width, height and depth that
    [getModelDimensions(meshIndex)] reports, each written by [toFixed(2)];
    every registered tick number shows [formatTickNum] of its raw value. *)
Theorem ruler_shows_dimensions (st : State) (obj : Object3D) (meshIndex : option Z) :
  threeObject st = Some obj -> lastRulerLabels st = None -> registry st ->
  exists (st' : State) (dims : Dimensions) (hx hy hz : nat),
    setScaleRuler true meshIndex st = Ok st' /\
    getModelDimensions meshIndex st = Some dims /\
    rulerLabelSprites st' = mkLabels (Some hx) (Some hy) (Some hz) /\
    shows st' hx (toFixed2 (width dims)) /\
    shows st' hy (toFixed2 (height dims)) /\
    shows st' hz (toFixed2 (depth dims)) /\
    Forall (fun e => shows st' (sprite e) (formatTickNum (rawValue e))) (rulerTickSprites st').
Proof.
  intros Hobj Hlast Hreg.
  unfold setScaleRuler, getModelDimensions. rewrite Hobj. cbn [negb].
  set (st2 := removeExistingRuler _).
  destruct (prepared_fields meshIndex st) as [F1 [F2 F3]]. fold st2 in F1, F2, F3.
  assert (Ht : rulerTickSprites st2 = []).
  { apply removeExistingRuler_ticks.
    eapply registry_reshapes; [| apply registry_eyeLevelOnLoad].
    eapply registry_ext; [| | | exact Hreg]; reflexivity. }
  set (box := match findMeshByIndex obj meshIndex with Some m => m | None => objectBox obj end).
  destruct (buildRuler_built box st2 Ht)
    as [g [T [hx [hy [hz [px [py [pz [E [Hy [Sx [Sy Sz]]]]]]]]]]]].
  rewrite E, F1, Hlast. cbv zeta.
  eexists. exists (mkDimensions (vx (getSize box)) (vy (getSize box)) (vz (getSize box))), hx, hy, hz.
  split; [reflexivity |]. split; [reflexivity |]. split; [reflexivity |].
  cbn [width height depth].
  split; [eexists; split; [exact Sx | reflexivity] |].
  split; [eexists; split; [exact Sy | reflexivity] |].
  split; [eexists; split; [exact Sz | reflexivity] |].
  eapply tidy_shows; [exact Hy | reflexivity].
Qed.

Lemma registry_stateWithObject : registry stateWithObject.
Proof. unfold registry. cbn. split; reflexivity. Qed.

Lemma ruler_shows_dimensions_witness :
  threeObject stateWithObject = Some sampleObject /\
  lastRulerLabels stateWithObject = None /\
  registry stateWithObject /\
  exists (st' : State) (dims : Dimensions) (hx hy hz : nat),
    setScaleRuler true None stateWithObject = Ok st' /\
    getModelDimensions None stateWithObject = Some dims /\
    rulerLabelSprites st' = mkLabels (Some hx) (Some hy) (Some hz) /\
    shows st' hx (toFixed2 (width dims)) /\
    shows st' hy (toFixed2 (height dims)) /\
    shows st' hz (toFixed2 (depth dims)) /\
    Forall (fun e => shows st' (sprite e) (formatTickNum (rawValue e))) (rulerTickSprites st').
Proof.
  split; [reflexivity |]. split; [reflexivity |]. split; [exact registry_stateWithObject |].
  apply (ruler_shows_dimensions stateWithObject sampleObject None);
    [reflexivity | reflexivity | exact registry_stateWithObject].
Defined.

(** X7: the labels that [updateRulerLabels] cached survive a rebuild:
    after [setScaleRuler(true, meshIndex)] the three dimension labels show
    the cached texts, every tick number shows its raw value times the
    cached unit factor (the raw value itself when no factor was given),
    and the cache is as before. *)
Theorem ruler_rebuild_keeps_labels (st : State) (obj : Object3D) (meshIndex : option Z)
    (l : RulerLabels) :
  threeObject st = Some obj -> lastRulerLabels st = Some l -> registry st ->
  exists (st' : State) (hx hy hz : nat),
    setScaleRuler true meshIndex st = Ok st' /\
    rulerLabelSprites st' = mkLabels (Some hx) (Some hy) (Some hz) /\
    shows st' hx (labelsW l) /\ shows st' hy (labelsH l) /\ shows st' hz (labelsD l) /\
    Forall (fun e => shows st' (sprite e)
                       (formatTickNum (match unitFactor l with
                                       | Some f => rawValue e * f
                                       | None => rawValue e
                                       end)))
           (rulerTickSprites st') /\
    lastRulerLabels st' = Some l.
Proof.
  intros Hobj Hlast Hreg.
  unfold setScaleRuler. rewrite Hobj. cbn [negb].
  set (st2 := removeExistingRuler _).
  destruct (prepared_fields meshIndex st) as [F1 [F2 F3]]. fold st2 in F1, F2, F3.
  assert (Ht : rulerTickSprites st2 = []).
  { apply removeExistingRuler_ticks.
    eapply registry_reshapes; [| apply registry_eyeLevelOnLoad].
    eapply registry_ext; [| | | exact Hreg]; reflexivity. }
  set (box := match findMeshByIndex obj meshIndex with Some m => m | None => objectBox obj end).
  destruct (buildRuler_built box st2 Ht)
    as [g [T [hx [hy [hz [px [py [pz [E [Hy _]]]]]]]]]].
  rewrite E, F1, Hlast. cbv zeta.
  set (st1 := logCall AddExtraObject _).
  assert (R1 : registry st1) by (apply built_registry; exact Hy).
  assert (G1 : rulerGroup st1 <> None) by discriminate.
  destruct (updateRulerLabels_display (labelsW l) (labelsH l) (labelsD l) (unitFactor l)
              st1 R1 G1) as [hx' [hy' [hz' [L [Tk [X [Y [Z Hticks]]]]]]]].
  eexists. exists hx', hy', hz'.
  split; [reflexivity |]. split; [exact L |].
  split; [exact X |]. split; [exact Y |]. split; [exact Z |].
  split.
  - rewrite Tk. apply Forall_forall. intros e He.
    specialize (Hticks e He).
    destruct (unitFactor l) as [f |]; [exact Hticks |].
    assert (Hs : Forall (fun e => shows st1 (sprite e) (formatTickNum (rawValue e))) T)
      by (eapply tidy_shows; [exact Hy | reflexivity]).
    rewrite Forall_forall in Hs. destruct (Hs e He) as [s [S1 S2]].
    exists s. split; [rewrite Hticks; exact S1 | exact S2].
  - destruct (updateRulerLabels_cache (labelsW l) (labelsH l) (labelsD l) (unitFactor l) st1)
      as [C _].
    rewrite C. destruct l; reflexivity.
Qed.

Lemma ruler_rebuild_keeps_labels_witness :
  let st := set_lastRulerLabels (Some (mkRulerLabels "10 mm" "20 mm" "30 mm" (Some 10)))
                                stateWithObject in
  threeObject st = Some sampleObject /\
  lastRulerLabels st = Some (mkRulerLabels "10 mm" "20 mm" "30 mm" (Some 10)) /\
  registry st /\
  exists (st' : State) (hx hy hz : nat),
    setScaleRuler true None st = Ok st' /\
    rulerLabelSprites st' = mkLabels (Some hx) (Some hy) (Some hz) /\
    shows st' hx "10 mm" /\ shows st' hy "20 mm" /\ shows st' hz "30 mm" /\
    Forall (fun e => shows st' (sprite e) (formatTickNum (rawValue e * 10)))
           (rulerTickSprites st') /\
    lastRulerLabels st' = Some (mkRulerLabels "10 mm" "20 mm" "30 mm" (Some 10)).
Proof.
  intros st.
  assert (Hr : registry st) by (unfold registry; cbn; split; reflexivity).
  split; [reflexivity |]. split; [reflexivity |]. split; [exact Hr |].
  apply (ruler_rebuild_keeps_labels st sampleObject None
           (mkRulerLabels "10 mm" "20 mm" "30 mm" (Some 10)));
    [reflexivity | reflexivity | exact Hr].
Defined.

End RulerDisplayTheorems.

Section LabelsAndTheme.

Lemma registry_stateWithOverlay : registry stateWithOverlay.
Proof.
  unfold registry. cbn. split; [exists 2%nat, 3%nat, 4%nat; reflexivity |]. split.
  - repeat constructor.
  - repeat constructor; cbn; intros H; repeat destruct H as [H | H]; try discriminate H; exact H.
Qed.

(** X8: [updateRulerLabels(w, h, d, unitFactor)] on a consistent
    overlay leaves the dimension labels showing [w], [h] and [d]; with a
    unit factor every tick number shows [formatTickNum] of its raw value
    times the factor, without one the tick sprites are left as they are;
    the arguments are cached, the viewer renders once, and the registry
    stays consistent. *)
Theorem updateRulerLabels_shows (w h d : string) (u : option R) (st : State) :
  registry st -> rulerGroup st <> None ->
  exists hx hy hz : nat,
    rulerLabelSprites (updateRulerLabels w h d u st) = mkLabels (Some hx) (Some hy) (Some hz) /\
    shows (updateRulerLabels w h d u st) hx w /\
    shows (updateRulerLabels w h d u st) hy h /\
    shows (updateRulerLabels w h d u st) hz d /\
    Forall (fun e => match u with
                     | Some f => shows (updateRulerLabels w h d u st) (sprite e)
                                       (formatTickNum (rawValue e * f))
                     | None => spriteIn (updateRulerLabels w h d u st) (sprite e)
                               = spriteIn st (sprite e)
                     end)
           (rulerTickSprites (updateRulerLabels w h d u st)) /\
    lastRulerLabels (updateRulerLabels w h d u st) = Some (mkRulerLabels w h d u) /\
    viewerCalls (updateRulerLabels w h d u st) = viewerCalls st ++ [Render] /\
    registry (updateRulerLabels w h d u st).
Proof.
  intros Hreg Hg.
  destruct (updateRulerLabels_display w h d u st Hreg Hg)
    as [hx [hy [hz [L [Tk [X [Y [Z Hticks]]]]]]]].
  destruct (updateRulerLabels_cache w h d u st) as [C V].
  exists hx, hy, hz.
  split; [exact L |]. split; [exact X |]. split; [exact Y |]. split; [exact Z |].
  split; [rewrite Tk; apply Forall_forall; exact Hticks |].
  split; [exact C |]. split; [exact V |].
  eapply registry_reshapes; [exact Hreg | apply reshapes_updateRulerLabels].
Qed.

Lemma updateRulerLabels_shows_witness :
  registry stateWithOverlay /\ rulerGroup stateWithOverlay <> None /\
  exists hx hy hz : nat,
    rulerLabelSprites (updateRulerLabels "1 in" "2 in" "3 in" (Some 2) stateWithOverlay)
    = mkLabels (Some hx) (Some hy) (Some hz) /\
    shows (updateRulerLabels "1 in" "2 in" "3 in" (Some 2) stateWithOverlay) hx "1 in" /\
    shows (updateRulerLabels "1 in" "2 in" "3 in" (Some 2) stateWithOverlay) hy "2 in" /\
    shows (updateRulerLabels "1 in" "2 in" "3 in" (Some 2) stateWithOverlay) hz "3 in" /\
    Forall (fun e => shows (updateRulerLabels "1 in" "2 in" "3 in" (Some 2) stateWithOverlay)
                           (sprite e) (formatTickNum (rawValue e * 2)))
           (rulerTickSprites (updateRulerLabels "1 in" "2 in" "3 in" (Some 2) stateWithOverlay)) /\
    lastRulerLabels (updateRulerLabels "1 in" "2 in" "3 in" (Some 2) stateWithOverlay)
    = Some (mkRulerLabels "1 in" "2 in" "3 in" (Some 2)) /\
    viewerCalls (updateRulerLabels "1 in" "2 in" "3 in" (Some 2) stateWithOverlay)
    = viewerCalls stateWithOverlay ++ [Render] /\
    registry (updateRulerLabels "1 in" "2 in" "3 in" (Some 2) stateWithOverlay).
Proof.
  split; [exact registry_stateWithOverlay |]. split; [discriminate |].
  apply (updateRulerLabels_shows "1 in" "2 in" "3 in" (Some 2) stateWithOverlay);
    [exact registry_stateWithOverlay | discriminate].
Defined.

Lemma sprite_eta (s : Sprite) :
  mkSprite (spriteText s) (spritePosition s) (spriteScaleY s) (spriteOpacity s) = s.
Proof. destruct s; reflexivity. Qed.

Lemma labelTextOf_spriteIn (h : nat) (st : State) :
  labelTextOf (Some h) st = option_map spriteText (spriteIn st h).
Proof.
  unfold labelTextOf, spriteIn, spriteOf.
  destruct (rulerGroup st) as [g |]; [| reflexivity].
  destruct (nth_error (children g) h) as [[p1 p2 | s] |]; reflexivity.
Qed.

(** Repainting a dimension label with its own text leaves every sprite
    as it is. *)
Lemma repaintLabel_same (h : option nat) (st : State) :
  (forall j : nat, spriteIn (repaintLabel h st) j = spriteIn st j) /\
  rulerLabelSprites (repaintLabel h st) = rulerLabelSprites st /\
  rulerTickSprites (repaintLabel h st) = rulerTickSprites st /\
  option_map lineOpacity (rulerGroup (repaintLabel h st)) = option_map lineOpacity (rulerGroup st) /\
  currentIsDark (repaintLabel h st) = currentIsDark st /\
  viewerCalls (repaintLabel h st) = viewerCalls st.
Proof.
  unfold repaintLabel.
  destruct h as [i |]; [| cbn; repeat split; reflexivity].
  rewrite labelTextOf_spriteIn.
  destruct (spriteIn st i) as [s |] eqn:Hs; cbn [option_map]; [| repeat split; reflexivity].
  destruct (String.eqb (spriteText s) ""); [repeat split; reflexivity |].
  split.
  - intros j. rewrite spriteIn_updateSpriteText.
    destruct (Nat.eqb_spec i j) as [<- | _]; [| reflexivity].
    rewrite Hs. cbn [option_map]. rewrite sprite_eta. reflexivity.
  - unfold updateSpriteText, updateGroup.
    destruct (rulerGroup st) eqn:Hg; cbn; rewrite ?Hg; repeat split; reflexivity.
Qed.

Lemma relabel_fields (T : TickEntry -> string) (es : list TickEntry) :
  forall st : State,
    let st' := fold_left (fun st e => updateTickSpriteText (sprite e) (T e) (baseScale e) st)
                         es st in
    option_map lineOpacity (rulerGroup st') = option_map lineOpacity (rulerGroup st) /\
    currentIsDark st' = currentIsDark st.
Proof.
  induction es as [| e es IH]; intros st; cbn [fold_left]; [split; reflexivity |].
  cbv zeta in IH.
  set (st1 := updateTickSpriteText (sprite e) (T e) (baseScale e) st).
  destruct (IH st1) as [A B].
  assert (H0 : option_map lineOpacity (rulerGroup st1) = option_map lineOpacity (rulerGroup st) /\
               currentIsDark st1 = currentIsDark st).
  { unfold st1, updateTickSpriteText, updateGroup.
    destruct (rulerGroup st) eqn:Hg; cbn; rewrite ?Hg; split; reflexivity. }
  destruct H0 as [A0 B0]. split; congruence.
Qed.

(** X9: [setTheme(isDark)] hands the theme and the background of
    [ApplyTheme] over and records [isDark].  Without a ruler group nothing
    else changes and the call returns.  With one, the line material gets
    the full [rulerLineOpacity()] of the new theme (whatever crossfade
    factor was in force), the dimension labels keep their sprites, every
    tick number is repainted with [formatTickNum] of its raw value (a unit
    factor applied by [updateRulerLabels] is lost), and the call ends in
    the TypeError of [this.viewer] inside [updateRulerTheme], before the
    render. *)
Theorem setTheme_repaints (isDark : bool) (st : State) :
  registry st ->
  fst (setTheme isDark st) = ApplyTheme isDark /\
  currentIsDark (fst (snd (setTheme isDark st))) = isDark /\
  match rulerGroup st with
  | None =>
      snd (snd (setTheme isDark st)) = Returns /\
      fst (snd (setTheme isDark st)) = set_currentIsDark isDark st
  | Some _ =>
      snd (snd (setTheme isDark st)) = ThrowsTypeError /\
      option_map lineOpacity (rulerGroup (fst (snd (setTheme isDark st))))
      = Some (rulerLineOpacity isDark) /\
      rulerLabelSprites (fst (snd (setTheme isDark st))) = rulerLabelSprites st /\
      rulerTickSprites (fst (snd (setTheme isDark st))) = rulerTickSprites st /\
      Forall (fun h => spriteIn (fst (snd (setTheme isDark st))) h = spriteIn st h)
             (labelHandles (rulerLabelSprites st)) /\
      Forall (fun e => shows (fst (snd (setTheme isDark st))) (sprite e)
                             (formatTickNum (rawValue e)))
             (rulerTickSprites st) /\
      viewerCalls (fst (snd (setTheme isDark st))) = viewerCalls st
  end.
Proof.
  intros Hreg. unfold setTheme. cbn [fst snd].
  split; [reflexivity |].
  unfold updateRulerTheme, registry in *.
  change (rulerGroup (set_currentIsDark isDark st)) with (rulerGroup st).
  destruct (rulerGroup st) as [g |] eqn:Eg; cbn [fst snd];
    [| split; [reflexivity | split; reflexivity]].
  destruct Hreg as [[hx [hy [hz HL]]] [Hall Hnd]].
  set (st0 := set_rulerGroup _ (set_currentIsDark isDark st)).
  assert (S0 : forall j, spriteIn st0 j = spriteIn st j).
  { intros j. unfold spriteIn, st0. cbn. rewrite Eg. reflexivity. }
  set (st1 := repaintLabel _ st0).
  destruct (repaintLabel_same (labelX (rulerLabelSprites st0)) st0) as [S1 [L1 [T1 [O1 [D1 V1]]]]].
  fold st1 in S1, L1, T1, O1, D1, V1.
  set (st2 := repaintLabel _ st1).
  destruct (repaintLabel_same (labelY (rulerLabelSprites st1)) st1) as [S2 [L2 [T2 [O2 [D2 V2]]]]].
  fold st2 in S2, L2, T2, O2, D2, V2.
  set (st3 := repaintLabel _ st2).
  destruct (repaintLabel_same (labelZ (rulerLabelSprites st2)) st2) as [S3 [L3 [T3 [O3 [D3 V3]]]]].
  fold st3 in S3, L3, T3, O3, D3, V3.
  assert (S03 : forall j, spriteIn st3 j = spriteIn st j)
    by (intros j; rewrite S3, S2, S1; apply S0).
  assert (T03 : rulerTickSprites st3 = rulerTickSprites st) by (rewrite T3, T2, T1; reflexivity).
  assert (L03 : rulerLabelSprites st3 = rulerLabelSprites st) by (rewrite L3, L2, L1; reflexivity).
  rewrite T03.
  set (st4 := fold_left _ (rulerTickSprites st) st3).
  destruct (relabel_registry (fun e => formatTickNum (rawValue e)) (rulerTickSprites st) st3)
    as [L4 [T4 _]].
  destruct (relabel_fields (fun e => formatTickNum (rawValue e)) (rulerTickSprites st) st3)
    as [O4 D4].
  destruct (relabel_cache (fun e => formatTickNum (rawValue e)) (rulerTickSprites st) st3)
    as [_ V4].
  cbv zeta in L4, T4, O4, D4, V4. fold st4 in L4, T4, O4, D4, V4.
  rewrite (registry_handles st hx hy hz HL) in Hall, Hnd.
  inversion Hnd as [| ? ? Nx Hnd1]; subst.
  inversion Hnd1 as [| ? ? Ny Hnd2]; subst.
  inversion Hnd2 as [| ? ? Nz Hnd3]; subst.
  inversion Hall as [| ? ? _ Hall1]; subst.
  inversion Hall1 as [| ? ? _ Hall2]; subst.
  inversion Hall2 as [| ? ? _ Hall3]; subst.
  split; [rewrite D4, D3, D2, D1; reflexivity |].
  split; [reflexivity |].
  split; [rewrite O4, O3, O2, O1; unfold st0; reflexivity |].
  split; [congruence |]. split; [congruence |].
  split.
  - rewrite HL. unfold labelHandles. cbn [labelX labelY labelZ app].
    assert (K : forall j, ~ In j (map sprite (rulerTickSprites st)) ->
                          spriteIn st4 j = spriteIn st j).
    { intros j Hj. unfold st4. rewrite relabel_other by exact Hj. apply S03. }
    repeat constructor; apply K.
    + intros H. apply Nx. right. right. exact H.
    + intros H. apply Ny. right. exact H.
    + exact Nz.
  - split; [| rewrite V4, V3, V2, V1; reflexivity].
    apply Forall_forall. intros e He. unfold st4, shows.
    pose proof (relabel_entry (fun e => formatTickNum (rawValue e)) _ e st3 Hnd3 He) as HE.
    cbv beta in HE. rewrite HE, S03.
    rewrite Forall_forall in Hall3.
    assert (Hs : isSome (spriteIn st (sprite e)) = true)
      by (apply Hall3; apply in_map; exact He).
    destruct (spriteIn st (sprite e)) as [s |]; [| discriminate Hs].
    eexists. split; reflexivity.
Qed.

Lemma setTheme_repaints_witness :
  registry stateWithOverlay /\
  fst (setTheme true stateWithOverlay) = ApplyTheme true /\
  currentIsDark (fst (snd (setTheme true stateWithOverlay))) = true /\
  snd (snd (setTheme true stateWithOverlay)) = ThrowsTypeError /\
  option_map lineOpacity (rulerGroup (fst (snd (setTheme true stateWithOverlay))))
  = Some (rulerLineOpacity true) /\
  rulerLabelSprites (fst (snd (setTheme true stateWithOverlay)))
  = rulerLabelSprites stateWithOverlay /\
  rulerTickSprites (fst (snd (setTheme true stateWithOverlay)))
  = rulerTickSprites stateWithOverlay /\
  Forall (fun h => spriteIn (fst (snd (setTheme true stateWithOverlay))) h
                   = spriteIn stateWithOverlay h)
         (labelHandles (rulerLabelSprites stateWithOverlay)) /\
  Forall (fun e => shows (fst (snd (setTheme true stateWithOverlay))) (sprite e)
                         (formatTickNum (rawValue e)))
         (rulerTickSprites stateWithOverlay) /\
  viewerCalls (fst (snd (setTheme true stateWithOverlay))) = viewerCalls stateWithOverlay.
Proof.
  split; [exact registry_stateWithOverlay |].
  exact (setTheme_repaints true stateWithOverlay registry_stateWithOverlay).
Defined.

End LabelsAndTheme.

Section CameraExtras.

Lemma sqrt_square_sum (d : R) : 0 <= d -> sqrt ((0 - 0) ^ 2 + (0 - 0) ^ 2 + d ^ 2) = d.
Proof.
  intros Hd. replace ((0 - 0) ^ 2 + (0 - 0) ^ 2 + d ^ 2) with (d * d) by ring.
  apply sqrt_square. exact Hd.
Qed.

(** X10: the first [setScaleRuler(true, ...)] after a load puts the eye
    in front of the center, at the distance it had, with the up vector
    (0, 1, 0); it makes ['front'] the current direction and clears
    [justLoaded], so that the next enable leaves the camera alone. *)
Theorem setScaleRuler_after_load (st : State) (obj : Object3D) (meshIndex : option Z) :
  threeObject st = Some obj -> justLoaded st = true ->
  exists st' : State,
    setScaleRuler true meshIndex st = Ok st' /\
    justLoaded st' = false /\
    currentViewDirection st' = "front"%string /\
    center (camera st') = center (camera st) /\
    eye (camera st') = vadd (center (camera st)) (vec3 0 0 (eyeDistance (camera st))) /\
    up (camera st') = vec3 0 1 0 /\
    eyeDistance (camera st') = eyeDistance (camera st) /\
    (exists st'' : State,
       setScaleRuler true meshIndex st' = Ok st'' /\ camera st'' = camera st').
Proof.
  intros Hobj Hjl.
  destruct (setScaleRuler_ok true meshIndex st) as [st' [E [_ [_ [_ [T _]]]]]].
  exists st'. split; [exact E |].
  unfold setScaleRuler in E. rewrite Hobj in E. cbn [negb] in E.
  set (st1 := eyeLevelOnLoad _) in E.
  set (st2 := removeExistingRuler st1) in E.
  set (box := match findMeshByIndex obj meshIndex with Some m => m | None => objectBox obj end)
    in E.
  destruct (buildRuler_ok box st2) as [st3 [E3 [O3 _]]].
  rewrite E3 in E. injection E as <-.
  assert (O2 : overlayOnly st1 st2).
  { unfold st2, removeExistingRuler. destruct (rulerGroup st1); overlay_step. }
  destruct (overlayOnly_trans _ _ _ O2 O3) as [_ [J [_ [C [D _]]]]].
  assert (C1 : camera st1
               = mkCamera (vec3 (vx (center (camera st))) (vy (center (camera st)))
                                (vz (center (camera st)) + eyeDistance (camera st)))
                          (center (camera st)) (vec3 0 1 0)).
  { unfold st1, eyeLevelOnLoad. cbn. rewrite Hjl. reflexivity. }
  assert (J1 : justLoaded st1 = false).
  { unfold st1, eyeLevelOnLoad. cbn. rewrite Hjl. reflexivity. }
  assert (D1 : currentViewDirection st1 = "front"%string).
  { unfold st1, eyeLevelOnLoad. cbn. rewrite Hjl. reflexivity. }
  split; [congruence |]. split; [congruence |].
  rewrite C, C1. cbn [center eye up].
  split; [reflexivity |].
  split; [unfold vadd; cbn [vx vy vz]; f_equal; ring |].
  split; [reflexivity |].
  split.
  - unfold eyeDistance at 1, Math_sqrt. cbn [eye center vx vy vz].
    replace ((vx (center (camera st)) - vx (center (camera st))) ^ 2
             + (vy (center (camera st)) - vy (center (camera st))) ^ 2
             + (vz (center (camera st)) + eyeDistance (camera st) - vz (center (camera st))) ^ 2)
      with (eyeDistance (camera st) * eyeDistance (camera st)) by ring.
    apply sqrt_square. apply eyeDistance_nonneg.
  - destruct (setScaleRuler_ok true meshIndex st3) as [st4 [E4 [_ [_ [K _]]]]].
    exists st4. split; [exact E4 |].
    destruct (K (eq_trans J J1)) as [K1 _]. rewrite K1, C, C1. reflexivity.
Qed.

Lemma setScaleRuler_after_load_witness :
  let st := onModelFinished sampleObject (initialState false cameraFront5) in
  threeObject st = Some sampleObject /\ justLoaded st = true /\
  exists st' : State,
    setScaleRuler true None st = Ok st' /\
    justLoaded st' = false /\
    currentViewDirection st' = "front"%string /\
    center (camera st') = center (camera st) /\
    eye (camera st') = vadd (center (camera st)) (vec3 0 0 (eyeDistance (camera st))) /\
    up (camera st') = vec3 0 1 0 /\
    eyeDistance (camera st') = eyeDistance (camera st) /\
    (exists st'' : State,
       setScaleRuler true None st' = Ok st'' /\ camera st'' = camera st').
Proof.
  intros st. split; [reflexivity |]. split; [reflexivity |].
  apply (setScaleRuler_after_load st sampleObject None); reflexivity.
Defined.

(** The unit vector of the reset pose without a ruler: 15 degrees above
    the horizontal, in front. *)
Lemma elevation_unit :
  0 * 0 + sin (15 * PI / 180) * sin (15 * PI / 180)
  + cos (15 * PI / 180) * cos (15 * PI / 180) = 1.
Proof.
  pose proof (sin2_cos2 (15 * PI / 180)) as H. unfold Rsqr in H. lra.
Qed.

(** X11: the completing frame of [resetCamera] (at least 400 ms
    after the call) writes, with center and distance as they were when
    the call was made: the eye in front of the center at eye level when a
    ruler group existed, and otherwise in front and 15 degrees above the
    horizontal; the up vector (0, 1, 0).  Either eye is at the old
    distance from the center, and the closure does not register itself
    again.  (The frame then asks the viewer to fit the bounding sphere;
    that camera move is the viewer's.) *)
Theorem resetCamera_final_pose (st st2 : State) (now0 now : R) (tr' : Transition) :
  sameSession (resetTransition now0 st) tr' ->
  now0 + 400 <= now ->
  quiet tr' st2 ->
  exists st3 : State,
    animate tr' now st2 = Ok st3 /\
    eye (camera st3)
    = (if isSome (rulerGroup st)
       then vadd (center (camera st)) (vec3 0 0 (eyeDistance (camera st)))
       else vadd (center (camera st))
                 (vec3 0 (sin (15 * PI / 180) * eyeDistance (camera st))
                         (cos (15 * PI / 180) * eyeDistance (camera st)))) /\
    up (camera st3) = vec3 0 1 0 /\
    distance (eye (camera st3)) (center (camera st)) = eyeDistance (camera st) /\
    frameCallbacks st3 = frameCallbacks st2.
Proof.
  intros Hs Hnow Hq.
  set (tr := resetTransition now0 st) in *.
  destruct (sameSession_fields tr tr' Hs) as [FE [FU [FR _]]].
  assert (Hraw : rawProgress tr now = 1) by (apply rawProgress_done; exact Hnow).
  destruct (animate_ok tr' now st2 Hq) as [tr2 [st3 [E [_ [Hcam [_ [_ [_ [_ [_ [_ Hdone]]]]]]]]]]].
  exists st3. split; [exact E |].
  rewrite Hcam. cbn [eye up]. rewrite FE, FU.
  pose proof (eyeDistance_nonneg (camera st)) as Hd.
  assert (HU : frameUp tr now = vec3 0 1 0).
  { rewrite (frameUp_final tr now); [reflexivity | cbn; ring | exact Hraw]. }
  assert (HE : frameEye tr now = targetEye tr /\
               distance (targetEye tr) (center (camera st)) = eyeDistance (camera st)).
  { unfold tr, resetTransition. destruct (isSome (rulerGroup st)).
    - split.
      + apply (frameEye_final _ now (vec3 0 0 1)); [exact Hd | cbn; ring | | exact Hraw].
        cbn. f_equal; ring.
      + unfold distance, vlength, subVectors, Math_sqrt. cbn [targetEye vx vy vz].
        replace (_ + _ + _) with (eyeDistance (camera st) * eyeDistance (camera st)) by ring.
        apply sqrt_square. exact Hd.
    - split.
      + apply (frameEye_final _ now (vec3 0 (sin (15 * PI / 180)) (cos (15 * PI / 180))));
          [exact Hd | exact elevation_unit | | exact Hraw].
        cbn. f_equal; ring.
      + unfold distance, vlength, subVectors, Math_sqrt. cbn [targetEye vx vy vz].
        replace (_ + _ + _)
          with ((0 * 0 + sin (15 * PI / 180) * sin (15 * PI / 180)
                 + cos (15 * PI / 180) * cos (15 * PI / 180))
                * (eyeDistance (camera st) * eyeDistance (camera st))) by ring.
        rewrite elevation_unit, Rmult_1_l. apply sqrt_square. exact Hd. }
  destruct HE as [HE HD].
  split.
  - rewrite HE. unfold tr, resetTransition. cbn [targetEye].
    destruct (isSome (rulerGroup st)); unfold vadd; cbn [vx vy vz]; f_equal; ring.
  - split; [exact HU |]. split; [rewrite HE; exact HD |].
    apply Hdone. rewrite FR, Hraw. lra.
Qed.

Lemma resetCamera_final_pose_witness :
  let st := initialState false cameraFront5 in
  sameSession (resetTransition 0 st) (resetTransition 0 st) /\
  0 + 400 <= 400 /\
  quiet (resetTransition 0 st) st /\
  exists st3 : State,
    animate (resetTransition 0 st) 400 st = Ok st3 /\
    eye (camera st3)
    = (if isSome (rulerGroup st)
       then vadd (center (camera st)) (vec3 0 0 (eyeDistance (camera st)))
       else vadd (center (camera st))
                 (vec3 0 (sin (15 * PI / 180) * eyeDistance (camera st))
                         (cos (15 * PI / 180) * eyeDistance (camera st)))) /\
    up (camera st3) = vec3 0 1 0 /\
    distance (eye (camera st3)) (center (camera st)) = eyeDistance (camera st) /\
    frameCallbacks st3 = frameCallbacks st.
Proof.
  intros st.
  assert (Hq : quiet (resetTransition 0 st) st) by (left; reflexivity).
  split; [left; reflexivity |]. split; [lra |]. split; [exact Hq |].
  apply (resetCamera_final_pose st st 0 400 (resetTransition 0 st));
    [left; reflexivity | lra | exact Hq].
Defined.

End CameraExtras.

Section FrameExtras.

Lemma crossfadeFactor_range (raw : R) : 0 <= raw <= 1 -> 0 <= crossfadeFactor raw <= 1.
Proof.
  intros H. unfold crossfadeFactor. destruct (Rlt_dec raw 0.5); lra.
Qed.

Lemma rawProgress_nonneg (tr : Transition) (now : R) :
  startTime tr <= now -> 0 <= rawProgress tr now <= 1.
Proof.
  intros H. unfold rawProgress, Math_min, Rmin.
  destruct (Rle_dec ((now - startTime tr) / 400) 1); lra.
Qed.

(** X12: a frame of a transition that found a ruler, at or after the
    start time of the transition, leaves every sprite of the overlay with
    an opacity between 0 and 1 and the line material between 0 and
    [rulerLineOpacity()]. *)
Theorem crossfade_opacity_range (c : Transition) (now : R) (st : State) :
  hasRuler c = true ->
  threeObject st <> None -> justLoaded st = false -> rulerGroup st <> None ->
  startTime c <= now ->
  exists (st' : State) (g' : Group),
    animate c now st = Ok st' /\
    rulerGroup st' = Some g' /\
    Forall (fun ch => match ch with
                      | Label s => 0 <= spriteOpacity s <= 1
                      | Line _ _ => 0 <= lineOpacity g' <= rulerLineOpacity (currentIsDark st)
                      end) (children g').
Proof.
  intros Hr Hobj Hjl Hg Hnow.
  destruct (animate_ruler c now st Hr Hobj Hjl Hg) as [st' [g' [E [G [F _]]]]].
  exists st', g'. split; [exact E |]. split; [exact G |].
  pose proof (crossfadeFactor_range _ (rawProgress_nonneg c now Hnow)) as Hf.
  unfold fadedTo in F. eapply Forall_impl; [| exact F].
  intros [p1 p2 | s] H.
  - rewrite H. unfold rulerLineOpacity. destruct (currentIsDark st); nra.
  - rewrite H. exact Hf.
Qed.

Lemma crossfade_opacity_range_witness :
  let tr := mkTransition (Directed "top") (vec3 0 0 0) 5 (vec3 0 5 0) (vec3 0 0 5)
                         (vec3 0 1 0) (vec3 0 0 (-1)) true false 0 in
  hasRuler tr = true /\
  threeObject stateWithRuler <> None /\ justLoaded stateWithRuler = false /\
  rulerGroup stateWithRuler <> None /\
  startTime tr <= 100 /\
  exists (st' : State) (g' : Group),
    animate tr 100 stateWithRuler = Ok st' /\
    rulerGroup st' = Some g' /\
    Forall (fun ch => match ch with
                      | Label s => 0 <= spriteOpacity s <= 1
                      | Line _ _ =>
                          0 <= lineOpacity g' <= rulerLineOpacity (currentIsDark stateWithRuler)
                      end) (children g').
Proof.
  intros tr.
  split; [reflexivity |]. split; [discriminate |]. split; [reflexivity |].
  split; [discriminate |]. split; [cbn; lra |].
  apply (crossfade_opacity_range tr 100 stateWithRuler);
    [reflexivity | discriminate | reflexivity | discriminate | cbn; lra].
Defined.

Lemma orbitTotal_app (a b : list ViewerCall) :
  orbitTotal (a ++ b) = orbitTotal a + orbitTotal b.
Proof.
  induction a as [| c a IH]; [simpl; ring |].
  destruct c; simpl; rewrite IH; ring.
Qed.

(** One frame of the auto-rotate loop when it is the only pending
    callback. *)
Lemma tick_frame (h : nat) (ar : AutoRotate) (p now : R) (st : State) :
  frameCallbacks st = [(h, Tick ar)] -> autoRotatePrev st = Some p ->
  exists st' : State,
    runFrame now st = Ok st' /\
    frameCallbacks st'
    = [(nextHandle st,
        Tick (mkAutoRotate (hSpeed ar) (tiltDeg ar) (elapsed ar + (now - p) / 1000)))] /\
    autoRotateId st' = Some (nextHandle st) /\
    autoRotatePrev st' = Some now /\
    orbitTotal (viewerCalls st') = orbitTotal (viewerCalls st) + hSpeed ar * ((now - p) / 1000).
Proof.
  intros Hq Hp. rewrite (runFrame_one h (Tick ar) now st Hq). cbn [invoke].
  eexists. split; [reflexivity |].
  unfold tick. cbn [set_frameCallbacks autoRotatePrev]. rewrite Hp.
  cbn. split; [reflexivity |]. split; [reflexivity |]. split; [reflexivity |].
  rewrite !orbitTotal_app. cbn [orbitTotal]. ring.
Qed.

Lemma last_cons_default (l : list R) :
  forall a d : R, last (a :: l) d = last l a.
Proof.
  induction l as [| x xs IH]; intros a d; [reflexivity |].
  change (last (a :: x :: xs) d) with (last (x :: xs) d).
  rewrite (IH x d), (IH x a). reflexivity.
Qed.

(** X13: while the auto-rotate loop is the only pending callback, the
    horizontal angles that its frames hand to [Orbit] add up to
    [hSpeed] times the seconds between the start (or the previous frame)
    and the last frame, whatever the number and the spacing of the frames
    between; the closure's [elapsed] advances by the same seconds and
    [autoRotatePrev] is the time of the last frame. *)
Theorem autoRotate_total_angle (nows : list R) :
  forall (st : State) (h : nat) (ar : AutoRotate) (t0 : R),
    frameCallbacks st = [(h, Tick ar)] -> autoRotatePrev st = Some t0 ->
    exists (st' : State) (h' : nat),
      run st (map Frame nows) = Ok st' /\
      frameCallbacks st'
      = [(h', Tick (mkAutoRotate (hSpeed ar) (tiltDeg ar)
                                 (elapsed ar + (last nows t0 - t0) / 1000)))] /\
      autoRotatePrev st' = Some (last nows t0) /\
      orbitTotal (viewerCalls st')
      = orbitTotal (viewerCalls st) + hSpeed ar * ((last nows t0 - t0) / 1000).
Proof.
  induction nows as [| now nows IH]; intros st h ar t0 Hq Hp.
  - exists st, h. cbn [map run last]. split; [reflexivity |]. split; [| split].
    + rewrite Hq. destruct ar as [a b c]. cbn [hSpeed tiltDeg elapsed].
      replace (c + (t0 - t0) / 1000) with c by field. reflexivity.
    + exact Hp.
    + field.
  - destruct (tick_frame h ar t0 now st Hq Hp) as [st1 [E1 [Q1 [_ [P1 O1]]]]].
    destruct (IH st1 _ _ now Q1 P1) as [st' [h' [E' [Q' [P' O']]]]].
    exists st', h'. cbn [map run step]. rewrite E1. cbn [bind].
    split; [exact E' |].
    rewrite (last_cons_default nows now t0). cbn [hSpeed tiltDeg elapsed] in Q', O'.
    split; [| split].
    + rewrite Q'.
      replace (elapsed ar + (now - t0) / 1000 + (last nows now - now) / 1000)
        with (elapsed ar + (last nows now - t0) / 1000) by field.
      reflexivity.
    + exact P'.
    + rewrite O', O1. field.
Qed.

Lemma autoRotate_total_angle_witness :
  let st := startAutoRotate 30 0 0 (initialState false cameraFront5) in
  frameCallbacks st = [(0%nat, Tick (mkAutoRotate 30 0 0))] /\
  autoRotatePrev st = Some 0 /\
  exists (st' : State) (h' : nat),
    run st (map Frame [16; 33; 50]) = Ok st' /\
    frameCallbacks st'
    = [(h', Tick (mkAutoRotate 30 0 (0 + (last [16; 33; 50] 0 - 0) / 1000)))] /\
    autoRotatePrev st' = Some (last [16; 33; 50] 0) /\
    orbitTotal (viewerCalls st')
    = orbitTotal (viewerCalls st) + 30 * ((last [16; 33; 50] 0 - 0) / 1000).
Proof.
  intros st. split; [reflexivity |]. split; [reflexivity |].
  apply (autoRotate_total_angle [16; 33; 50] st 0%nat (mkAutoRotate 30 0 0) 0); reflexivity.
Defined.

End FrameExtras.

(** ** The mesh tools *)

Section HeapWrites.

Import MeshTools.

Lemma updateAt_length {A : Type} (i : nat) (f : A -> A) (l : list A) :
  List.length (updateAt i f l) = List.length l.
Proof.
  revert i. induction l as [| a l IH]; intros i; destruct i; cbn; [reflexivity .. |].
  rewrite IH. reflexivity.
Qed.

Lemma nth_error_updateAt {A : Type} (i j : nat) (f : A -> A) (l : list A) :
  nth_error (updateAt i f l) j
  = if Nat.eqb i j then option_map f (nth_error l j) else nth_error l j.
Proof.
  revert i j. induction l as [| a l IH]; intros i j.
  - destruct i; destruct j; cbn; try reflexivity; destruct (Nat.eqb _ _); reflexivity.
  - destruct i; destruct j; cbn; try reflexivity. apply IH.
Qed.

Lemma updateAt_comm {A : Type} (i j : nat) (f g : A -> A) (l : list A) :
  i <> j -> updateAt i f (updateAt j g l) = updateAt j g (updateAt i f l).
Proof.
  revert i j. induction l as [| a l IH]; intros i j H.
  - destruct i; destruct j; reflexivity.
  - destruct i; destruct j; cbn; try reflexivity; [contradiction |].
    rewrite IH by congruence. reflexivity.
Qed.

Lemma updateAt_twice {A : Type} (i : nat) (f g : A -> A) (l : list A) :
  updateAt i f (updateAt i g l) = updateAt i (fun a => f (g a)) l.
Proof.
  revert i. induction l as [| a l IH]; intros i; destruct i; cbn; try reflexivity.
  rewrite IH. reflexivity.
Qed.

Lemma updateAt_ext {A : Type} (i : nat) (f g : A -> A) (l : list A) :
  (forall a, f a = g a) -> updateAt i f l = updateAt i g l.
Proof.
  intros H. revert i. induction l as [| a l IH]; intros i; destruct i; cbn; try reflexivity.
  - rewrite H. reflexivity.
  - rewrite IH. reflexivity.
Qed.

Lemma updateAt_fixed {A : Type} (i : nat) (f : A -> A) (l : list A) :
  (forall a, nth_error l i = Some a -> f a = a) -> updateAt i f l = l.
Proof.
  revert i. induction l as [| a l IH]; intros i H; destruct i; cbn; try reflexivity.
  - rewrite (H a eq_refl). reflexivity.
  - rewrite IH; [reflexivity | exact H].
Qed.

End HeapWrites.

Section XRayMode.

Import MeshTools.

Lemma restore_xray (sv : Saved) (m : Material) :
  restoreMaterial sv (xray m) = restoreMaterial sv m.
Proof. reflexivity. Qed.

Lemma restore_save (m : Material) : restoreMaterial (save m) m = m.
Proof. destruct m; reflexivity. Qed.

Lemma restoreOriginals_app (a b : list (nat * Saved)) (heap : list Material) :
  restoreOriginals (a ++ b) heap = restoreOriginals b (restoreOriginals a heap).
Proof. unfold restoreOriginals. apply fold_left_app. Qed.

(** A write to a material that has no saved original passes through the
    restoration. *)
Lemma restoreOriginals_other (O : list (nat * Saved)) (id : nat) (g : Material -> Material) :
  forall heap : list Material,
    has id O = false ->
    restoreOriginals O (updateAt id g heap) = updateAt id g (restoreOriginals O heap).
Proof.
  induction O as [| [i sv] O IH]; intros heap H; [reflexivity |].
  cbn [has existsb fst] in H. apply orb_false_iff in H. destruct H as [Hi HO].
  apply Nat.eqb_neq in Hi.
  change (restoreOriginals O (updateAt i (restoreMaterial sv) (updateAt id g heap))
          = updateAt id g (restoreOriginals O (updateAt i (restoreMaterial sv) heap))).
  rewrite updateAt_comm by exact Hi. apply IH. exact HO.
Qed.

(** The x-ray look on a material whose original is saved is undone by
    the restoration. *)
Lemma restoreOriginals_saved (O : list (nat * Saved)) (id : nat) :
  forall heap : list Material,
    has id O = true ->
    restoreOriginals O (updateAt id xray heap) = restoreOriginals O heap.
Proof.
  induction O as [| [i sv] O IH]; intros heap H; [discriminate H |].
  change (restoreOriginals O (updateAt i (restoreMaterial sv) (updateAt id xray heap))
          = restoreOriginals O (updateAt i (restoreMaterial sv) heap)).
  destruct (Nat.eqb_spec i id) as [-> | Hne].
  - rewrite updateAt_twice. reflexivity.
  - cbn [has existsb fst] in H. apply Nat.eqb_neq in Hne. rewrite Hne in H. cbn [orb] in H.
    apply Nat.eqb_neq in Hne.
    rewrite updateAt_comm by exact Hne. apply IH. exact H.
Qed.

Lemma restoreOriginals_nth (O : list (nat * Saved)) (id : nat) :
  forall heap : list Material,
    has id O = false -> nth_error (restoreOriginals O heap) id = nth_error heap id.
Proof.
  induction O as [| [i sv] O IH]; intros heap H; [reflexivity |].
  cbn [has existsb fst] in H. apply orb_false_iff in H. destruct H as [Hi HO].
  change (nth_error (restoreOriginals O (updateAt i (restoreMaterial sv) heap)) id
          = nth_error heap id).
  rewrite (IH _ HO), nth_error_updateAt, Hi. reflexivity.
Qed.

(** The invariant of the traversal: restoring the saved originals gives
    the heap from which the traversal started. *)
Lemma xrayMaterial_undone (heap0 : list Material) (acc : list Material * list (nat * Saved))
    (mat : nat) :
  restoreOriginals (snd acc) (fst acc) = heap0 ->
  restoreOriginals (snd (xrayMaterial acc mat)) (fst (xrayMaterial acc mat)) = heap0.
Proof.
  destruct acc as [heap O]. cbn [fst snd]. intros H. unfold xrayMaterial.
  destruct (nth_error heap mat) as [m |] eqn:Hm; [| exact H].
  destruct (has mat O) eqn:Hh; cbn [fst snd].
  - rewrite restoreOriginals_saved by exact Hh. exact H.
  - rewrite restoreOriginals_app, restoreOriginals_other by exact Hh. rewrite H.
    change (updateAt mat (restoreMaterial (save m)) (updateAt mat xray heap0) = heap0).
    rewrite updateAt_twice. apply updateAt_fixed.
    intros a Ha. rewrite <- H, restoreOriginals_nth in Ha by exact Hh.
    rewrite Hm in Ha. injection Ha as <-. rewrite restore_xray. apply restore_save.
Qed.

Lemma xrayNode_undone (heap0 : list Material) (acc : list Material * list (nat * Saved))
    (child : Node) :
  restoreOriginals (snd acc) (fst acc) = heap0 ->
  restoreOriginals (snd (xrayNode acc child)) (fst (xrayNode acc child)) = heap0.
Proof.
  unfold xrayNode. destruct (negb (isMesh child) || negb (hasMaterial (material child)));
    [tauto |].
  generalize (mats (material child)). intros ms. revert acc.
  induction ms as [| m ms IH]; intros acc H; [exact H |].
  cbn [fold_left]. apply IH. apply xrayMaterial_undone. exact H.
Qed.

Lemma xrayNodes_undone (heap0 : list Material) (ns : list Node) :
  forall acc : list Material * list (nat * Saved),
    restoreOriginals (snd acc) (fst acc) = heap0 ->
    restoreOriginals (snd (fold_left xrayNode ns acc)) (fst (fold_left xrayNode ns acc)) = heap0.
Proof.
  induction ns as [| n ns IH]; intros acc H; [exact H |].
  cbn [fold_left]. apply IH. apply xrayNode_undone. exact H.
Qed.

(** The state after [setXRayMode]: restoring its originals gives the
    heap that [setXRayMode(false)] would have left. *)
Lemma setXRayMode_undone (enabled : bool) (s : Site) :
  restoreOriginals (originals (xrayState (setXRayMode enabled s)))
                   (materials (setXRayMode enabled s))
  = restoreOriginals (originals (xrayState s)) (materials s).
Proof.
  unfold setXRayMode. cbn [Render set_xrayState set_materials xrayState materials originals].
  destruct (threeObject s) as [obj |]; [| reflexivity].
  destruct enabled; [| reflexivity].
  apply xrayNodes_undone. reflexivity.
Qed.

(** X14: switching the x-ray mode on and then off leaves every material
    as switching it off alone would have: each material gets back the
    [transparent], [opacity], [depthWrite] and [side] that were saved of
    it, also when several meshes share it, and nothing stays saved.  From
    a state with nothing saved the materials are exactly the ones before
    the two calls.  The object itself is not replaced. *)
Theorem xray_round_trip (s : Site) :
  materials (setXRayMode false (setXRayMode true s)) = materials (setXRayMode false s) /\
  originals (xrayState (setXRayMode false (setXRayMode true s))) = [] /\
  (originals (xrayState s) = [] ->
   materials (setXRayMode false (setXRayMode true s)) = materials s) /\
  threeObject (setXRayMode false (setXRayMode true s)) = threeObject s.
Proof.
  assert (Hoff : forall t, materials (setXRayMode false t)
                           = restoreOriginals (originals (xrayState t)) (materials t)).
  { intros t. unfold setXRayMode. destruct (threeObject t); reflexivity. }
  assert (Hnone : forall t, originals (xrayState (setXRayMode false t)) = []).
  { intros t. unfold setXRayMode. destruct (threeObject t); reflexivity. }
  assert (Hobj : forall b t, threeObject (setXRayMode b t) = threeObject t) by reflexivity.
  rewrite !Hoff, setXRayMode_undone.
  split; [reflexivity |]. split; [apply Hnone |]. split; [| rewrite !Hobj; reflexivity].
  intros H. rewrite H. reflexivity.
Qed.

(** X15: switching the x-ray mode on twice is the same as switching it
    on once: the second call first restores what the first one saved, so
    the materials and the saved originals (not the x-ray values) are
    those of a single call. *)
Theorem xray_idempotent (s : Site) :
  materials (setXRayMode true (setXRayMode true s)) = materials (setXRayMode true s) /\
  xrayState (setXRayMode true (setXRayMode true s)) = xrayState (setXRayMode true s) /\
  threeObject (setXRayMode true (setXRayMode true s)) = threeObject s.
Proof.
  assert (E : forall u : Site,
             threeObject u = threeObject s ->
             restoreOriginals (originals (xrayState u)) (materials u)
             = restoreOriginals (originals (xrayState s)) (materials s) ->
             materials (setXRayMode true u) = materials (setXRayMode true s) /\
             xrayState (setXRayMode true u) = xrayState (setXRayMode true s)).
  { intros u Hu Hr. unfold setXRayMode. rewrite Hu, Hr. split; reflexivity. }
  destruct (E (setXRayMode true s) eq_refl (setXRayMode_undone true s)) as [E1 E2].
  split; [exact E1 |]. split; [exact E2 | reflexivity].
Qed.

End XRayMode.
Section XRayLook.

Import MeshTools.

Lemma xray_twice (m : Material) : xray (xray m) = xray m.
Proof. reflexivity. Qed.

Lemma isXRay_xray (m : Material) : isXRay (xray m).
Proof. repeat split. Qed.

(** The heap during the traversal: the x-ray look on the materials met
    so far, the starting heap elsewhere. *)
Lemma xrayMaterial_look (heap0 : list Material) (P : list nat)
    (acc : list Material * list (nat * Saved)) (mat : nat) :
  (forall i, nth_error (fst acc) i
             = if memb i P then option_map xray (nth_error heap0 i) else nth_error heap0 i) ->
  forall i, nth_error (fst (xrayMaterial acc mat)) i
            = if memb i (P ++ [mat]) then option_map xray (nth_error heap0 i)
              else nth_error heap0 i.
Proof.
  destruct acc as [heap O]. cbn [fst]. intros H i.
  assert (Hm : memb i (P ++ [mat]) = memb i P || Nat.eqb i mat).
  { unfold memb. rewrite existsb_app. cbn. rewrite orb_false_r. reflexivity. }
  rewrite Hm. unfold xrayMaterial.
  destruct (nth_error heap mat) as [m |] eqn:Em; cbn [fst].
  - rewrite nth_error_updateAt, H.
    destruct (Nat.eqb_spec mat i) as [-> | Hne].
    + rewrite Nat.eqb_refl, orb_true_r.
      destruct (memb i P); [| reflexivity].
      destruct (nth_error heap0 i); reflexivity.
    + assert (Hn : Nat.eqb i mat = false) by (apply Nat.eqb_neq; congruence).
      rewrite Hn, orb_false_r. reflexivity.
  - rewrite H. destruct (Nat.eqb_spec i mat) as [E | _]; [| rewrite orb_false_r; reflexivity].
    subst i. rewrite orb_true_r. rewrite H in Em.
    destruct (memb mat P); [reflexivity |].
    rewrite Em. reflexivity.
Qed.

Lemma xrayNodes_look (heap0 : list Material) (ns : list Node) :
  forall (P : list nat) (acc : list Material * list (nat * Saved)),
    (forall i, nth_error (fst acc) i
               = if memb i P then option_map xray (nth_error heap0 i) else nth_error heap0 i) ->
    forall i, nth_error (fst (fold_left xrayNode ns acc)) i
              = if memb i (P ++ meshMaterials ns) then option_map xray (nth_error heap0 i)
                else nth_error heap0 i.
Proof.
  induction ns as [| n ns IH]; intros P acc H i.
  - cbn [fold_left meshMaterials flat_map]. rewrite app_nil_r. apply H.
  - cbn [fold_left meshMaterials flat_map]. fold (meshMaterials ns).
    rewrite app_assoc. apply IH. unfold xrayNode.
    destruct (isMesh n); cbn [negb orb]; [| rewrite app_nil_r; exact H].
    destruct (material n) as [| m | ms] eqn:Em; cbn [hasMaterial negb mats];
      [rewrite app_nil_r; exact H | |].
    + cbn [fold_left]. apply xrayMaterial_look. exact H.
    + clear Em. revert P acc H. induction ms as [| m ms IHm]; intros P acc H.
      * rewrite app_nil_r. exact H.
      * cbn [fold_left]. change (m :: ms) with ([m] ++ ms). rewrite app_assoc.
        apply IHm. apply xrayMaterial_look. exact H.
Qed.

(** X16: with an object loaded, [setXRayMode(true)] changes exactly the
    materials of the meshes of the object: each of them is what
    [setXRayMode(false)] would have left it, with the x-ray look written
    over it (transparent, opacity 0.15, no depth write, double sided);
    every other material is as [setXRayMode(false)] would have left it.
    The mode is recorded as on and the viewer renders once. *)
Theorem xray_look (s : Site) (obj : SceneObject) :
  threeObject s = Some obj ->
  (forall mat : nat,
     nth_error (materials (setXRayMode true s)) mat
     = if memb mat (meshMaterials (nodes obj))
       then option_map xray (nth_error (materials (setXRayMode false s)) mat)
       else nth_error (materials (setXRayMode false s)) mat) /\
  (forall (mat : nat) (m : Material),
     memb mat (meshMaterials (nodes obj)) = true ->
     nth_error (materials (setXRayMode true s)) mat = Some m -> isXRay m) /\
  xrayEnabled (xrayState (setXRayMode true s)) = true /\
  renders (setXRayMode true s) = S (renders s).
Proof.
  intros Hobj.
  assert (H : forall mat : nat,
             nth_error (materials (setXRayMode true s)) mat
             = if memb mat (meshMaterials (nodes obj))
               then option_map xray (nth_error (materials (setXRayMode false s)) mat)
               else nth_error (materials (setXRayMode false s)) mat).
  { intros mat. unfold setXRayMode. rewrite Hobj.
    cbn [Render set_xrayState set_materials materials fst].
    apply (xrayNodes_look _ (nodes obj) []). intros i. reflexivity. }
  split; [exact H |]. split; [| split; reflexivity].
  intros mat m Hin Hm. rewrite H, Hin in Hm.
  destruct (nth_error (materials (setXRayMode false s)) mat) as [m0 |]; [| discriminate].
  injection Hm as <-. apply isXRay_xray.
Qed.

Lemma xray_look_witness :
  let glass := mkMaterial true FrontSide (Some false) (Some 1) true (Some 255%Z)
                          None None None None None (Some 0.5) (Some 0) in
  let obj := mkSceneObject [mkNode false "root" true NoMaterial false;
                            mkNode true "part" true (OneMaterial 0) true]
                           (mkEuler 0 0 0 "XYZ") (vec3 0 0 0) unitBox in
  let s := onFinish obj [glass; glass] initialSite in
  threeObject s = Some obj /\
  (forall mat : nat,
     nth_error (materials (setXRayMode true s)) mat
     = if memb mat (meshMaterials (nodes obj))
       then option_map xray (nth_error (materials (setXRayMode false s)) mat)
       else nth_error (materials (setXRayMode false s)) mat) /\
  (forall (mat : nat) (m : Material),
     memb mat (meshMaterials (nodes obj)) = true ->
     nth_error (materials (setXRayMode true s)) mat = Some m -> isXRay m) /\
  xrayEnabled (xrayState (setXRayMode true s)) = true /\
  renders (setXRayMode true s) = S (renders s).
Proof.
  intros glass obj s. split; [reflexivity |].
  apply (xray_look s obj). reflexivity.
Defined.

End XRayLook.

Section MeshIndices.

Import MeshTools.

Lemma meshRank_cons (n : Node) (ns : list Node) (k : nat) :
  meshRank (n :: ns) (S k) = ((if isMesh n then 1 else 0) + meshRank ns k)%nat.
Proof.
  unfold meshRank. cbn [firstn filter]. destruct (isMesh n); reflexivity.
Qed.

(** The traversal of [getMeshList], from any point of its run. *)
Lemma meshList_from (ns : list Node) :
  forall (acc : list MeshInfo) (c : nat),
    exists ext : list MeshInfo,
      fst (fold_left
             (fun (acc : list MeshInfo * nat) (child : Node) =>
                let (meshes, index) := acc in
                if isMesh child
                then (meshes ++ [mkMeshInfo index (displayName index child)], S index)
                else acc) ns (acc, c))
      = acc ++ ext /\
      List.length ext = List.length (filter isMesh ns) /\
      (forall (k : nat) (n : Node),
         nth_error ns k = Some n -> isMesh n = true ->
         nth_error ext (meshRank ns k)
         = Some (mkMeshInfo (c + meshRank ns k) (displayName (c + meshRank ns k) n))) /\
      (forall (j : nat) (x : MeshInfo), nth_error ext j = Some x -> index x = (c + j)%nat).
Proof.
  induction ns as [| n0 ns IH]; intros acc c.
  - exists []. cbn. rewrite app_nil_r. split; [reflexivity |]. split; [reflexivity |].
    split; [intros k n H; destruct k; discriminate H | intros j x H; destruct j; discriminate H].
  - cbn [fold_left]. destruct (isMesh n0) eqn:Em.
    + destruct (IH (acc ++ [mkMeshInfo c (displayName c n0)]) (S c)) as [ext [E [L [N J]]]].
      exists (mkMeshInfo c (displayName c n0) :: ext).
      split; [rewrite E, <- app_assoc; reflexivity |].
      split; [cbn [filter]; rewrite Em; cbn; rewrite L; reflexivity |].
      split.
      * intros k n Hk Hn. destruct k as [| k].
        -- injection Hk as <-. unfold meshRank. cbn. rewrite Nat.add_0_r. reflexivity.
        -- rewrite meshRank_cons, Em. cbn [nth_error Nat.add].
           rewrite (N k n Hk Hn). rewrite Nat.add_succ_r. reflexivity.
      * intros j x Hj. destruct j as [| j].
        -- injection Hj as <-. cbn [index]. lia.
        -- cbn [nth_error] in Hj. rewrite (J j x Hj). lia.
    + destruct (IH acc c) as [ext [E [L [N J]]]].
      exists ext. split; [exact E |].
      split; [cbn [filter]; rewrite Em; exact L |].
      split; [| exact J].
      intros k n Hk Hn. destruct k as [| k].
      * injection Hk as <-. congruence.
      * rewrite meshRank_cons, Em. cbn [Nat.add]. apply (N k n Hk Hn).
Qed.

(** X17: with an object loaded, [getMeshList] has one entry for every
    mesh of the object, in the order of the traversal; the entry of a
    mesh carries as index the number of meshes visited before it, which
    is also the position of the entry in the list, and as name the name
    of the mesh or, when that is empty, 'Mesh ' followed by the index
    plus one. *)
Theorem getMeshList_indices (s : Site) (obj : SceneObject) :
  threeObject s = Some obj ->
  List.length (getMeshList s) = List.length (filter isMesh (nodes obj)) /\
  (forall (k : nat) (n : Node),
     nth_error (nodes obj) k = Some n -> isMesh n = true ->
     nth_error (getMeshList s) (meshRank (nodes obj) k)
     = Some (mkMeshInfo (meshRank (nodes obj) k)
                        (if String.eqb (name n) ""
                         then ("Mesh " ++ String_int (Z.of_nat (meshRank (nodes obj) k + 1)))%string
                         else name n))) /\
  (forall (i : nat) (info : MeshInfo),
     nth_error (getMeshList s) i = Some info -> index info = i).
Proof.
  intros Hobj. unfold getMeshList. rewrite Hobj.
  destruct (meshList_from (nodes obj) [] O) as [ext [E [L [N J]]]].
  rewrite E. change ([] ++ ext) with ext. split; [exact L |]. split.
  - intros k n Hk Hn. rewrite (N k n Hk Hn). reflexivity.
  - intros i info Hi. rewrite (J i info Hi). reflexivity.
Qed.

Lemma getMeshList_indices_witness :
  let obj := mkSceneObject [mkNode false "root" true NoMaterial false;
                            mkNode true "wheel" true NoMaterial true;
                            mkNode true "" true NoMaterial true]
                           (mkEuler 0 0 0 "XYZ") (vec3 0 0 0) unitBox in
  let s := onFinish obj [] initialSite in
  threeObject s = Some obj /\
  List.length (getMeshList s) = List.length (filter isMesh (nodes obj)) /\
  (forall (k : nat) (n : Node),
     nth_error (nodes obj) k = Some n -> isMesh n = true ->
     nth_error (getMeshList s) (meshRank (nodes obj) k)
     = Some (mkMeshInfo (meshRank (nodes obj) k)
                        (if String.eqb (name n) ""
                         then ("Mesh " ++ String_int (Z.of_nat (meshRank (nodes obj) k + 1)))%string
                         else name n))) /\
  (forall (i : nat) (info : MeshInfo),
     nth_error (getMeshList s) i = Some info -> index info = i).
Proof.
  intros obj s. split; [reflexivity |].
  apply (getMeshList_indices s obj). reflexivity.
Defined.

End MeshIndices.
Section MeshVisibility.

Import MeshTools.

(** The traversal of [setMeshVisibility], from any point of its run. *)
Lemma visibility_from (index : Z) (visible : bool) (ns : list Node) :
  forall (done : list Node) (c : nat),
    exists ext : list Node,
      fst (fold_left
             (fun (acc : list Node * nat) (child : Node) =>
                let (done, current) := acc in
                if isMesh child
                then (done ++ [if selects index current then set_visible visible child
                               else child],
                      S current)
                else (done ++ [child], current)) ns (done, c))
      = done ++ ext /\
      Forall2 (fun a b => isMesh a = isMesh b /\ name a = name b) ns ext /\
      forall (k : nat) (n : Node),
        nth_error ns k = Some n ->
        nth_error ext k
        = Some (if isMesh n && selects index (c + meshRank ns k)
                then set_visible visible n else n).
Proof.
  induction ns as [| n0 ns IH]; intros done c.
  - exists []. cbn. rewrite app_nil_r. split; [reflexivity |]. split; [constructor |].
    intros k n H. destruct k; discriminate H.
  - cbn [fold_left]. destruct (isMesh n0) eqn:Em.
    + destruct (IH (done ++ [if selects index c then set_visible visible n0 else n0]) (S c))
        as [ext [E [F N]]].
      exists ((if selects index c then set_visible visible n0 else n0) :: ext).
      split; [rewrite E, <- app_assoc; reflexivity |].
      split; [constructor; [destruct (selects index c); split; reflexivity | exact F] |].
      intros k n Hk. destruct k as [| k].
      * injection Hk as <-. unfold meshRank. cbn. rewrite Nat.add_0_r, Em. reflexivity.
      * rewrite meshRank_cons, Em. cbn [nth_error].
        rewrite (N k n Hk). replace (c + (1 + meshRank ns k))%nat with (S c + meshRank ns k)%nat
          by lia. reflexivity.
    + destruct (IH (done ++ [n0]) c) as [ext [E [F N]]].
      exists (n0 :: ext).
      split; [rewrite E, <- app_assoc; reflexivity |].
      split; [constructor; [split; reflexivity | exact F] |].
      intros k n Hk. destruct k as [| k].
      * injection Hk as <-. rewrite Em. reflexivity.
      * rewrite meshRank_cons, Em. cbn [nth_error Nat.add]. apply (N k n Hk).
Qed.

(** [getMeshList] only looks at [isMesh] and [name]. *)
Lemma meshList_congr (ns ns' : list Node) :
  Forall2 (fun a b => isMesh a = isMesh b /\ name a = name b) ns ns' ->
  forall acc : list MeshInfo * nat,
    fold_left
      (fun (acc : list MeshInfo * nat) (child : Node) =>
         let (meshes, index) := acc in
         if isMesh child
         then (meshes ++ [mkMeshInfo index (displayName index child)], S index)
         else acc) ns acc
    = fold_left
        (fun (acc : list MeshInfo * nat) (child : Node) =>
           let (meshes, index) := acc in
           if isMesh child
           then (meshes ++ [mkMeshInfo index (displayName index child)], S index)
           else acc) ns' acc.
Proof.
  induction 1 as [| a b ns ns' [H1 H2] _ IH]; intros acc; [reflexivity |].
  cbn [fold_left]. rewrite IH. destruct acc as [meshes index].
  unfold displayName. rewrite H1, H2. reflexivity.
Qed.

(** X18: with an object loaded, [setMeshVisibility(index, visible)]
    writes [visible] to every mesh when [index] is -1, and otherwise to
    the one mesh that [getMeshList] lists under [index] (to none when
    there is no such mesh); nodes that are not meshes and all other
    meshes keep their visibility, the list of [getMeshList] and the
    materials are unchanged, and the viewer renders once. *)
Theorem setMeshVisibility_selects (index : Z) (visible : bool) (s : Site) (obj : SceneObject) :
  threeObject s = Some obj ->
  exists obj' : SceneObject,
    threeObject (setMeshVisibility index visible s) = Some obj' /\
    List.length (nodes obj') = List.length (nodes obj) /\
    (forall (k : nat) (n : Node),
       nth_error (nodes obj) k = Some n ->
       nth_error (nodes obj') k
       = Some (if isMesh n
                  && (Z.eqb index (-1) || Z.eqb (Z.of_nat (meshRank (nodes obj) k)) index)
               then set_visible visible n else n)) /\
    getMeshList (setMeshVisibility index visible s) = getMeshList s /\
    materials (setMeshVisibility index visible s) = materials s /\
    renders (setMeshVisibility index visible s) = S (renders s).
Proof.
  intros Hobj. unfold setMeshVisibility. rewrite Hobj.
  destruct (visibility_from index visible (nodes obj) [] O) as [ext [E [F N]]].
  rewrite E. change ([] ++ ext) with ext.
  eexists. split; [reflexivity |]. cbn [set_nodes nodes].
  split; [symmetry; exact (Forall2_length F) |].
  split; [intros k n Hk; rewrite (N k n Hk); reflexivity |].
  split; [| split; reflexivity].
  unfold getMeshList. rewrite Hobj.
  cbn [Render set_threeObject threeObject set_nodes nodes].
  rewrite <- (meshList_congr _ _ F). reflexivity.
Qed.

Lemma setMeshVisibility_selects_witness :
  let obj := mkSceneObject [mkNode false "root" true NoMaterial false;
                            mkNode true "wheel" true NoMaterial true;
                            mkNode true "" true NoMaterial true]
                           (mkEuler 0 0 0 "XYZ") (vec3 0 0 0) unitBox in
  let s := onFinish obj [] initialSite in
  threeObject s = Some obj /\
  exists obj' : SceneObject,
    threeObject (setMeshVisibility 1 false s) = Some obj' /\
    List.length (nodes obj') = List.length (nodes obj) /\
    (forall (k : nat) (n : Node),
       nth_error (nodes obj) k = Some n ->
       nth_error (nodes obj') k
       = Some (if isMesh n
                  && (Z.eqb 1 (-1) || Z.eqb (Z.of_nat (meshRank (nodes obj) k)) 1)
               then set_visible false n else n)) /\
    getMeshList (setMeshVisibility 1 false s) = getMeshList s /\
    materials (setMeshVisibility 1 false s) = materials s /\
    renders (setMeshVisibility 1 false s) = S (renders s).
Proof.
  intros obj s. split; [reflexivity |].
  apply (setMeshVisibility_selects 1 false s obj). reflexivity.
Defined.

End MeshVisibility.
Section ModelRotation.

Import MeshTools.

Lemma sceneObject_eta (obj : SceneObject) :
  mkSceneObject (nodes obj) (rotation obj) (position obj) (boundingBox obj) = obj.
Proof. destruct obj; reflexivity. Qed.

Lemma last_cons {A : Type} (l : list A) :
  forall a d : A, last (a :: l) d = last l a.
Proof.
  induction l as [| x xs IH]; intros a d; [reflexivity |].
  change (last (a :: x :: xs) d) with (last (x :: xs) d).
  rewrite (IH x d), (IH x a). reflexivity.
Qed.

(** A run of [setModelRotation] calls on a loaded object: the first
    call saves the rotation, every call writes its angles in radians. *)
Lemma rotations_run (rs : list (R * R * R)) :
  forall (s : Site) (obj : SceneObject) (r0 : Euler) (x y z : R),
    threeObject s = Some obj -> originalRotation s = Some r0 ->
    rotation obj = mkEuler (x * PI / 180) (y * PI / 180) (z * PI / 180) "XYZ" ->
    let s' := fold_left (fun s r => setModelRotation (fst (fst r)) (snd (fst r)) (snd r) s)
                        rs s in
    threeObject s'
    = Some (set_rotation (mkEuler (fst (fst (last rs (x, y, z))) * PI / 180)
                                  (snd (fst (last rs (x, y, z))) * PI / 180)
                                  (snd (last rs (x, y, z)) * PI / 180) "XYZ") obj) /\
    originalRotation s' = Some r0 /\
    renders s' = (List.length rs + renders s)%nat /\
    materials s' = materials s /\ xrayState s' = xrayState s /\ edgeState s' = edgeState s.
Proof.
  induction rs as [| [[a b] c] rs IH]; intros s obj r0 x y z Hobj Hor Hrot; cbv zeta.
  - cbn [fold_left last fst snd List.length Nat.add]. rewrite Hobj, <- Hrot.
    unfold set_rotation. rewrite sceneObject_eta. repeat split; try reflexivity; exact Hor.
  - cbn [fold_left fst snd].
    set (s1 := setModelRotation a b c s).
    assert (H1 : threeObject s1
                 = Some (set_rotation (mkEuler (a * PI / 180) (b * PI / 180) (c * PI / 180) "XYZ")
                                      obj) /\
                 originalRotation s1 = Some r0 /\ renders s1 = S (renders s) /\
                 materials s1 = materials s /\ xrayState s1 = xrayState s /\
                 edgeState s1 = edgeState s).
    { unfold s1, setModelRotation. rewrite Hobj, Hor. repeat split; try reflexivity; exact Hor. }
    destruct H1 as [O1 [R1 [N1 [M1 [X1 E1]]]]].
    destruct (IH s1 _ r0 a b c O1 R1 eq_refl) as [O2 [R2 [N2 [M2 [X2 E2]]]]].
    rewrite (last_cons rs (a, b, c) (x, y, z)).
    rewrite O2. cbn [List.length].
    split; [reflexivity |]. split; [exact R2 |].
    split; [rewrite N2, N1; lia |]. split; [congruence |]. split; congruence.
Qed.

(** X19: after any run of [setModelRotation] calls on a loaded object
    whose rotation had not been saved, the rotation is that of the last
    call, in radians and in the order XYZ, and the saved rotation is the
    one the object had before the first call; [resetModelRotation] then
    gives the object back as it was, forgets the saved rotation, and a
    second reset does nothing (not even a render).  Every call renders
    once. *)
Theorem rotation_round_trip (rs : list (R * R * R)) (x y z : R) (s : Site) (obj : SceneObject) :
  threeObject s = Some obj -> originalRotation s = None ->
  let s1 := fold_left (fun s r => setModelRotation (fst (fst r)) (snd (fst r)) (snd r) s)
                      (rs ++ [(x, y, z)]) s in
  option_map rotation (threeObject s1)
  = Some (mkEuler (x * PI / 180) (y * PI / 180) (z * PI / 180) "XYZ") /\
  originalRotation s1 = Some (rotation obj) /\
  threeObject (resetModelRotation s1) = Some obj /\
  originalRotation (resetModelRotation s1) = None /\
  resetModelRotation (resetModelRotation s1) = resetModelRotation s1 /\
  renders (resetModelRotation s1) = (List.length rs + 2 + renders s)%nat.
Proof.
  intros Hobj Hor. cbv zeta.
  destruct (rs ++ [(x, y, z)]) as [| [[a b] c] rest] eqn:Ers;
    [destruct rs; discriminate Ers |].
  assert (Hlen : S (List.length rest) = (List.length rs + 1)%nat).
  { change (S (List.length rest)) with (List.length ((a, b, c) :: rest)).
    rewrite <- Ers, length_app. reflexivity. }
  assert (Hlast : last rest (a, b, c) = (x, y, z)).
  { rewrite <- (last_cons rest (a, b, c) (x, y, z)), <- Ers. apply last_last. }
  cbn [fold_left fst snd].
  set (s0 := setModelRotation a b c s).
  assert (H0 : threeObject s0
               = Some (set_rotation (mkEuler (a * PI / 180) (b * PI / 180) (c * PI / 180) "XYZ")
                                    obj) /\
               originalRotation s0 = Some (rotation obj) /\ renders s0 = S (renders s)).
  { unfold s0, setModelRotation. rewrite Hobj, Hor. repeat split. }
  destruct H0 as [O0 [R0 N0]].
  destruct (rotations_run rest s0 _ (rotation obj) a b c O0 R0 eq_refl)
    as [O1 [R1 [N1 _]]].
  cbv zeta in O1, R1, N1. rewrite Hlast in O1. cbn [fst snd] in O1.
  set (s1 := fold_left _ rest s0) in *.
  split; [rewrite O1; reflexivity |]. split; [exact R1 |].
  assert (Hreset : resetModelRotation s1
                   = Render (set_originalRotation None (set_threeObject (Some obj) s1))).
  { unfold resetModelRotation. rewrite O1, R1. unfold set_rotation. cbn [nodes position boundingBox].
    rewrite sceneObject_eta. reflexivity. }
  rewrite Hreset.
  split; [reflexivity |]. split; [reflexivity |]. split; [reflexivity |].
  cbn [Render set_originalRotation set_threeObject renders]. rewrite N1, N0. lia.
Qed.

Lemma rotation_round_trip_witness :
  let obj := mkSceneObject [mkNode true "part" true NoMaterial true]
                           (mkEuler 0 0 0 "XYZ") (vec3 0 0 0) unitBox in
  let s := onFinish obj [] initialSite in
  let s1 := fold_left (fun s r => setModelRotation (fst (fst r)) (snd (fst r)) (snd r) s)
                      ([(90, 0, 0)] ++ [(90, 45, 0)]) s in
  threeObject s = Some obj /\ originalRotation s = None /\
  option_map rotation (threeObject s1)
  = Some (mkEuler (90 * PI / 180) (45 * PI / 180) (0 * PI / 180) "XYZ") /\
  originalRotation s1 = Some (rotation obj) /\
  threeObject (resetModelRotation s1) = Some obj /\
  originalRotation (resetModelRotation s1) = None /\
  resetModelRotation (resetModelRotation s1) = resetModelRotation s1 /\
  renders (resetModelRotation s1) = (List.length [(90, 0, 0)] + 2 + renders s)%nat.
Proof.
  intros obj s s1. split; [reflexivity |]. split; [reflexivity |].
  apply (rotation_round_trip [(90, 0, 0)] 90 45 0 s obj); reflexivity.
Defined.

End ModelRotation.
Section EdgeOverlay.

Import MeshTools.

(** The traversal of [rebuildEdges], from any point of its run. *)
Lemma edges_from (a : R) (c : Z) (ns : list Node) :
  forall (made : list EdgeLine) (p : nat),
    fst (fold_left
           (fun (acc : list EdgeLine * nat) (child : Node) =>
              let (made, place) := acc in
              if negb (isMesh child) || negb (hasGeometry child) then (made, S place)
              else (made ++ [mkEdgeLine place a c 0.8], S place)) ns (made, p))
    = made ++ List.map (fun k => mkEdgeLine k a c 0.8)
                       (placesOf (fun n => isMesh n && hasGeometry n) p ns).
Proof.
  induction ns as [| n ns IH]; intros made p.
  - cbn. rewrite app_nil_r. reflexivity.
  - cbn [fold_left placesOf].
    destruct (isMesh n); destruct (hasGeometry n); cbn [negb orb andb]; rewrite IH;
      try reflexivity.
    cbn [List.map]. rewrite <- app_assoc. reflexivity.
Qed.

Lemma rebuildEdges_lines (s : Site) :
  edgeState (rebuildEdges s)
  = mkEdgeState (edgeEnabled (edgeState s))
      (match threeObject s with
       | Some obj =>
           if edgeEnabled (edgeState s)
           then List.map (fun k => mkEdgeLine k (angle (edgeState s)) (edgeColor (edgeState s)) 0.8)
                         (placesOf (fun n => isMesh n && hasGeometry n) O (nodes obj))
           else []
       | None => []
       end)
      (angle (edgeState s)) (edgeColor (edgeState s)) /\
  threeObject (rebuildEdges s) = threeObject s /\
  materials (rebuildEdges s) = materials s /\
  renders (rebuildEdges s) = renders s.
Proof.
  unfold rebuildEdges. cbn [set_edgeState edgeState threeObject materials renders].
  split; [| repeat split].
  destruct (threeObject s) as [obj |]; [| reflexivity].
  destruct (edgeEnabled (edgeState s)); [| reflexivity].
  rewrite edges_from. reflexivity.
Qed.

(** X20: with an object loaded and the edge overlay off,
    [setEdgeMode(true)] makes one line for every mesh that has a
    geometry, in the order of the traversal, each added to its mesh, with
    the current threshold angle and colour and opacity 0.8; a second
    [setEdgeMode(true)] does nothing at all, [setEdgeMode(false)] removes
    every line, and [setEdgeMode(false)] on the overlay that is off does
    nothing.  Each call that changes the mode renders once. *)
Theorem setEdgeMode_lines (s : Site) (obj : SceneObject) :
  threeObject s = Some obj -> edgeEnabled (edgeState s) = false ->
  lines (edgeState (setEdgeMode true s))
  = List.map (fun k => mkEdgeLine k (angle (edgeState s)) (edgeColor (edgeState s)) 0.8)
             (placesOf (fun n => isMesh n && hasGeometry n) O (nodes obj)) /\
  List.length (lines (edgeState (setEdgeMode true s)))
  = List.length (filter (fun n => isMesh n && hasGeometry n) (nodes obj)) /\
  setEdgeMode true (setEdgeMode true s) = setEdgeMode true s /\
  lines (edgeState (setEdgeMode false (setEdgeMode true s))) = [] /\
  setEdgeMode false s = s /\
  renders (setEdgeMode false (setEdgeMode true s)) = S (S (renders s)).
Proof.
  intros Hobj Hoff.
  assert (Hon : edgeState (setEdgeMode true s)
                = mkEdgeState true
                    (List.map (fun k => mkEdgeLine k (angle (edgeState s))
                                                   (edgeColor (edgeState s)) 0.8)
                              (placesOf (fun n => isMesh n && hasGeometry n) O (nodes obj)))
                    (angle (edgeState s)) (edgeColor (edgeState s)) /\
                threeObject (setEdgeMode true s) = Some obj /\
                renders (setEdgeMode true s) = S (renders s)).
  { unfold setEdgeMode. rewrite Hoff. cbn [Bool.eqb].
    set (s0 := set_edgeState _ s).
    destruct (rebuildEdges_lines s0) as [E [T [_ N]]].
    cbn [Render edgeState threeObject renders]. rewrite E, T, N.
    unfold s0. cbn [set_edgeState edgeState threeObject renders edgeEnabled angle edgeColor].
    rewrite Hobj. repeat split. }
  destruct Hon as [E [T N]].
  split; [rewrite E; reflexivity |].
  split.
  { rewrite E. cbn [lines]. rewrite length_map.
    generalize O. generalize (nodes obj). clear.
    induction l as [| n ns IH]; intros p; [reflexivity |].
    cbn [placesOf filter]. destruct (isMesh n && hasGeometry n); cbn [List.length];
      rewrite IH; reflexivity. }
  split.
  { unfold setEdgeMode at 1. rewrite E. reflexivity. }
  split.
  { unfold setEdgeMode at 1. rewrite E. cbn [edgeEnabled Bool.eqb].
    set (s0 := set_edgeState _ _).
    destruct (rebuildEdges_lines s0) as [E0 _].
    cbn [Render edgeState]. rewrite E0.
    change (edgeEnabled (edgeState s0)) with false.
    change (threeObject s0) with (threeObject (setEdgeMode true s)).
    rewrite T. reflexivity. }
  split.
  { unfold setEdgeMode. rewrite Hoff. reflexivity. }
  unfold setEdgeMode at 1. rewrite E. cbn [edgeEnabled Bool.eqb].
  set (s0 := set_edgeState _ _).
  destruct (rebuildEdges_lines s0) as [_ [_ [_ N0]]].
  cbn [Render renders]. rewrite N0. unfold s0. cbn [set_edgeState renders]. rewrite N. reflexivity.
Qed.

Lemma setEdgeMode_lines_witness :
  let obj := mkSceneObject [mkNode false "root" true NoMaterial false;
                            mkNode true "part" true NoMaterial true;
                            mkNode true "bare" true NoMaterial false]
                           (mkEuler 0 0 0 "XYZ") (vec3 0 0 0) unitBox in
  let s := onFinish obj [] initialSite in
  threeObject s = Some obj /\ edgeEnabled (edgeState s) = false /\
  lines (edgeState (setEdgeMode true s))
  = List.map (fun k => mkEdgeLine k (angle (edgeState s)) (edgeColor (edgeState s)) 0.8)
             (placesOf (fun n => isMesh n && hasGeometry n) O (nodes obj)) /\
  List.length (lines (edgeState (setEdgeMode true s)))
  = List.length (filter (fun n => isMesh n && hasGeometry n) (nodes obj)) /\
  setEdgeMode true (setEdgeMode true s) = setEdgeMode true s /\
  lines (edgeState (setEdgeMode false (setEdgeMode true s))) = [] /\
  setEdgeMode false s = s /\
  renders (setEdgeMode false (setEdgeMode true s)) = S (S (renders s)).
Proof.
  intros obj s. split; [reflexivity |]. split; [reflexivity |].
  apply (setEdgeMode_lines s obj); reflexivity.
Defined.

(** The edge lines agree with the settings: what every call keeps. *)
Lemma edges_kept (s : Site) (c : Call) :
  ((edgeEnabled (edgeState s) = false -> lines (edgeState s) = []) /\
   Forall (fun l => thresholdAngle l = angle (edgeState s) /\
                    lineColor l = edgeColor (edgeState s) /\
                    MeshTools.lineOpacity l = 0.8) (lines (edgeState s))) ->
  (edgeEnabled (edgeState (call s c)) = false -> lines (edgeState (call s c)) = []) /\
  Forall (fun l => thresholdAngle l = angle (edgeState (call s c)) /\
                   lineColor l = edgeColor (edgeState (call s c)) /\
                   MeshTools.lineOpacity l = 0.8) (lines (edgeState (call s c))).
Proof.
  intros [Hoff Hall].
  assert (Hre : forall t : Site,
             (edgeEnabled (edgeState (rebuildEdges t)) = false ->
              lines (edgeState (rebuildEdges t)) = []) /\
             Forall (fun l => thresholdAngle l = angle (edgeState (rebuildEdges t)) /\
                              lineColor l = edgeColor (edgeState (rebuildEdges t)) /\
                              MeshTools.lineOpacity l = 0.8)
                    (lines (edgeState (rebuildEdges t)))).
  { intros t. destruct (rebuildEdges_lines t) as [E _]. rewrite E.
    cbn [edgeEnabled lines angle edgeColor]. split.
    - intros H. rewrite H. destruct (threeObject t); reflexivity.
    - destruct (threeObject t); [| constructor].
      destruct (edgeEnabled (edgeState t)); [| constructor].
      apply Forall_map. apply Forall_forall. intros k _. repeat split. }
  destruct c; cbn [call].
  - split; assumption.
  - split; assumption.
  - unfold setMeshVisibility. destruct (threeObject s); split; assumption.
  - split; assumption.
  - unfold setEdgeMode. destruct (Bool.eqb enabled (edgeEnabled (edgeState s)));
      [split; assumption |].
    exact (Hre _).
  - unfold setEdgeAngle. destruct (edgeEnabled (edgeState s)) eqn:He.
    + exact (Hre _).
    + cbn [set_edgeState edgeState edgeEnabled lines angle edgeColor].
      rewrite (Hoff eq_refl). split; [reflexivity | constructor].
  - unfold setEdgeColor. destruct (edgeEnabled (edgeState s)) eqn:He.
    + cbn [Render set_edgeState edgeState edgeEnabled lines angle edgeColor].
      split; [discriminate |].
      apply Forall_map. eapply Forall_impl; [| exact Hall].
      intros l [A [_ B]]. cbn [thresholdAngle lineColor MeshTools.lineOpacity]. repeat split; assumption.
    + cbn [set_edgeState edgeState edgeEnabled lines angle edgeColor].
      rewrite (Hoff eq_refl). split; [reflexivity | constructor].
  - unfold setModelRotation. destruct (threeObject s); [| split; assumption].
    destruct (originalRotation s); split; assumption.
  - unfold resetModelRotation. destruct (threeObject s); [| split; assumption].
    destruct (originalRotation s); split; assumption.
Qed.

(** X21: whatever the host page has called (loading, visibility, x-ray,
    edge mode, edge angle, edge colour, rotation), the edge lines agree
    with the settings of the overlay: while the overlay is off there is
    no line, and every line has the current threshold angle, the current
    colour and opacity 0.8. *)
Theorem edges_consistent (s : Site) :
  reachableSite s ->
  (edgeEnabled (edgeState s) = false -> lines (edgeState s) = []) /\
  Forall (fun l => thresholdAngle l = angle (edgeState s) /\
                   lineColor l = edgeColor (edgeState s) /\
                   MeshTools.lineOpacity l = 0.8) (lines (edgeState s)).
Proof.
  intros [cs <-].
  assert (G : forall (cs : list Call) (s0 : Site),
             ((edgeEnabled (edgeState s0) = false -> lines (edgeState s0) = []) /\
              Forall (fun l => thresholdAngle l = angle (edgeState s0) /\
                               lineColor l = edgeColor (edgeState s0) /\
                               MeshTools.lineOpacity l = 0.8) (lines (edgeState s0))) ->
             (edgeEnabled (edgeState (fold_left call cs s0)) = false ->
              lines (edgeState (fold_left call cs s0)) = []) /\
             Forall (fun l => thresholdAngle l = angle (edgeState (fold_left call cs s0)) /\
                              lineColor l = edgeColor (edgeState (fold_left call cs s0)) /\
                              MeshTools.lineOpacity l = 0.8)
                    (lines (edgeState (fold_left call cs s0)))).
  { clear. induction cs as [| c cs IH]; intros s0 H; [exact H |].
    cbn [fold_left]. apply IH. apply edges_kept. exact H. }
  apply G. cbn. split; [reflexivity | constructor].
Qed.

Lemma edges_consistent_witness :
  let obj := mkSceneObject [mkNode true "part" true NoMaterial true]
                           (mkEuler 0 0 0 "XYZ") (vec3 0 0 0) unitBox in
  let s := fold_left call [Finish obj []; SetEdgeMode true; SetEdgeColor 255; SetEdgeAngle 30]
                     initialSite in
  reachableSite s /\
  (edgeEnabled (edgeState s) = false -> lines (edgeState s) = []) /\
  Forall (fun l => thresholdAngle l = angle (edgeState s) /\
                   lineColor l = edgeColor (edgeState s) /\
                   MeshTools.lineOpacity l = 0.8) (lines (edgeState s)).
Proof.
  intros obj s.
  assert (Hr : reachableSite s) by (eexists; reflexivity).
  split; [exact Hr | exact (edges_consistent s Hr)].
Defined.

End EdgeOverlay.
Section MaterialSwap.

Import MeshTools.

Lemma updateAt_app_l {A : Type} (i : nat) (f : A -> A) (l l' : list A) :
  (i < List.length l)%nat -> updateAt i f (l ++ l') = updateAt i f l ++ l'.
Proof.
  revert i. induction l as [| a l IH]; intros i H; [cbn in H; lia |].
  destruct i; cbn; [reflexivity |]. rewrite IH by (cbn in H; lia). reflexivity.
Qed.

Lemma updateAt_last {A : Type} (f : A -> A) (l : list A) (a : A) :
  updateAt (List.length l) f (l ++ [a]) = l ++ [f a].
Proof.
  induction l as [| x l IH]; cbn; [reflexivity |]. rewrite IH. reflexivity.
Qed.

(** Putting the saved materials back, on a longer list of nodes. *)
Lemma swaps_app (swaps : Swaps) :
  forall (ns : list Node) (c : Node),
    Forall (fun e => (fst e < List.length ns)%nat) swaps ->
    fold_left (fun ns e => updateAt (fst e) (set_material (snd e)) ns) swaps (ns ++ [c])
    = fold_left (fun ns e => updateAt (fst e) (set_material (snd e)) ns) swaps ns ++ [c].
Proof.
  induction swaps as [| [k m] swaps IH]; intros ns c H; [reflexivity |].
  inversion H as [| ? ? Hk Hrest]; subst. cbn [fst] in Hk.
  cbn [fold_left fst snd]. rewrite updateAt_app_l by exact Hk.
  apply IH. rewrite updateAt_length. exact Hrest.
Qed.

Lemma swaps_length (swaps : Swaps) :
  forall ns : list Node,
    List.length (fold_left (fun ns e => updateAt (fst e) (set_material (snd e)) ns) swaps ns)
    = List.length ns.
Proof.
  induction swaps as [| e swaps IH]; intros ns; [reflexivity |].
  cbn [fold_left]. rewrite IH. apply updateAt_length.
Qed.

Lemma set_material_back (c : Node) (m : MeshMaterial) :
  set_material (material c)
               (mkNode (isMesh c) (name c) (visible c) m (hasGeometry c)) = c.
Proof. destruct c; reflexivity. Qed.

(** The invariant of the traversal of the swap: the saved materials,
    put back, give the nodes visited so far as they were. *)
Lemma convertNode_back (std : Material) (acc : list Node * list Material * Swaps)
    (seen : list Node) (c : Node) :
  fold_left (fun ns e => updateAt (fst e) (set_material (snd e)) ns) (snd acc) (fst (fst acc))
  = seen ->
  Forall (fun e => (fst e < List.length (fst (fst acc)))%nat) (snd acc) ->
  fold_left (fun ns e => updateAt (fst e) (set_material (snd e)) ns)
            (snd (convertNode std acc c)) (fst (fst (convertNode std acc c)))
  = seen ++ [c] /\
  Forall (fun e => (fst e < List.length (fst (fst (convertNode std acc c))))%nat)
         (snd (convertNode std acc c)).
Proof.
  destruct acc as [[done heap] swaps]. cbn [fst snd]. intros Hb Hk.
  assert (Hk' : forall x : Node,
             Forall (fun e => (fst e < List.length (done ++ [x]))%nat) swaps).
  { intros x. eapply Forall_impl; [| exact Hk]. intros e He. cbv beta in *.
    rewrite length_app. cbn [List.length]. lia. }
  unfold convertNode.
  destruct (negb (isMesh c) || negb (hasMaterial (material c))); cbn [fst snd].
  { split; [rewrite swaps_app by exact Hk; rewrite Hb; reflexivity | apply Hk']. }
  destruct (negb (needsConvert heap (mats (material c)))); cbn [fst snd].
  { split; [rewrite swaps_app by exact Hk; rewrite Hb; reflexivity | apply Hk']. }
  destruct (fold_left (convertMaterial std) (mats (material c)) (heap, [])) as [heap' conv].
  cbn [fst snd]. split.
  - rewrite fold_left_app. cbn [fold_left fst snd].
    rewrite swaps_app by exact Hk. rewrite Hb.
    assert (Hl : List.length done = List.length seen) by (rewrite <- Hb, swaps_length; reflexivity).
    rewrite Hl, updateAt_last, set_material_back. reflexivity.
  - apply Forall_app. split; [apply Hk' |].
    constructor; [| constructor]. cbn [fst]. rewrite length_app. cbn. lia.
Qed.

Lemma convertNodes_back (std : Material) (ns : list Node) :
  forall (acc : list Node * list Material * Swaps) (seen : list Node),
    fold_left (fun ns e => updateAt (fst e) (set_material (snd e)) ns) (snd acc) (fst (fst acc))
    = seen ->
    Forall (fun e => (fst e < List.length (fst (fst acc)))%nat) (snd acc) ->
    fold_left (fun ns e => updateAt (fst e) (set_material (snd e)) ns)
              (snd (fold_left (convertNode std) ns acc))
              (fst (fst (fold_left (convertNode std) ns acc)))
    = seen ++ ns.
Proof.
  induction ns as [| c ns IH]; intros acc seen Hb Hk.
  - cbn [fold_left]. rewrite app_nil_r. exact Hb.
  - cbn [fold_left]. destruct (convertNode_back std acc seen c Hb Hk) as [Hb' Hk'].
    rewrite (IH _ _ Hb' Hk'), <- app_assoc. reflexivity.
Qed.

(** The heap only grows during the swap. *)
Lemma convertMaterials_grow (std : Material) (ms : list nat) :
  forall acc : list Material * list nat,
    exists ext : list Material,
      fst (fold_left (convertMaterial std) ms acc) = fst acc ++ ext /\
      Forall (fun m => exportable m = isMeshStandardMaterial std) ext.
Proof.
  induction ms as [| m ms IH]; intros acc.
  - exists []. cbn. rewrite app_nil_r. split; [reflexivity | constructor].
  - cbn [fold_left]. destruct acc as [heap conv].
    assert (H1 : exists e1 : list Material,
               fst (convertMaterial std (heap, conv) m) = heap ++ e1 /\
               Forall (fun m => exportable m = isMeshStandardMaterial std) e1).
    { unfold convertMaterial. destruct (nth_error heap m) as [mat |];
        [| exists []; cbn; rewrite app_nil_r; split; [reflexivity | constructor]].
      destruct (exportable mat);
        [exists []; cbn; rewrite app_nil_r; split; [reflexivity | constructor] |].
      exists [toStandard std mat]. split; [reflexivity |].
      constructor; [| constructor]. unfold exportable, toStandard. cbn. apply andb_true_r. }
    destruct H1 as [e1 [E1 F1]].
    destruct (IH (convertMaterial std (heap, conv) m)) as [ext [E F]].
    exists (e1 ++ ext). cbn [fst]. rewrite E, E1, <- app_assoc.
    split; [reflexivity | apply Forall_app; split; assumption].
Qed.

Lemma convertNodes_grow (std : Material) (ns : list Node) :
  forall acc : list Node * list Material * Swaps,
    exists ext : list Material,
      snd (fst (fold_left (convertNode std) ns acc)) = snd (fst acc) ++ ext /\
      Forall (fun m => exportable m = isMeshStandardMaterial std) ext.
Proof.
  induction ns as [| c ns IH]; intros acc.
  - exists []. cbn. rewrite app_nil_r. split; [reflexivity | constructor].
  - cbn [fold_left].
    assert (H1 : exists e1 : list Material,
               snd (fst (convertNode std acc c)) = snd (fst acc) ++ e1 /\
               Forall (fun m => exportable m = isMeshStandardMaterial std) e1).
    { destruct acc as [[done heap] swaps]. cbn [fst snd]. unfold convertNode.
      destruct (negb (isMesh c) || negb (hasMaterial (material c)));
        [exists []; cbn; rewrite app_nil_r; split; [reflexivity | constructor] |].
      destruct (negb (needsConvert heap (mats (material c))));
        [exists []; cbn; rewrite app_nil_r; split; [reflexivity | constructor] |].
      destruct (convertMaterials_grow std (mats (material c)) (heap, [])) as [ext0 [E0 F0]].
      destruct (fold_left (convertMaterial std) (mats (material c)) (heap, [])) as [heap' conv].
      cbn [fst snd] in *. exists ext0. split; assumption. }
    destruct H1 as [e1 [E1 F1]].
    destruct (IH (convertNode std acc c)) as [ext [E F]].
    exists (e1 ++ ext). rewrite E, E1, <- app_assoc.
    split; [reflexivity | apply Forall_app; split; assumption].
Qed.

(** X22: with an object loaded, the material swap of
    [exportCurrentModelToUSDZ] followed by its [restore] gives back the
    object as it was: every mesh has the material (or the array) it had,
    and the position is the original one, while during the export the
    object sits at its position minus the centre of its bounding box.
    No material that existed before is changed: the swap only adds
    materials.  The x-ray state, the edge state and the number of
    renders are untouched. *)
Theorem usdz_swap_round_trip (std : Material) (s : Site) (obj : SceneObject) :
  threeObject s = Some obj ->
  exists (s1 : Site) (p : Prepared) (ext : list Material),
    prepareUSDZ std s = Some (s1, p) /\
    threeObject (restore p s1) = Some obj /\
    materials (restore p s1) = materials s ++ ext /\
    (forall (m : nat) (mat : Material),
       nth_error (materials s) m = Some mat ->
       nth_error (materials (restore p s1)) m = Some mat) /\
    option_map position (threeObject s1)
    = Some (vsub (position obj) (getCenter (boundingBox obj))) /\
    xrayState (restore p s1) = xrayState s /\
    edgeState (restore p s1) = edgeState s /\
    renders (restore p s1) = renders s.
Proof.
  intros Hobj. unfold prepareUSDZ. rewrite Hobj.
  pose proof (convertNodes_back std (nodes obj) ([], materials s, []) [] eq_refl
                                (Forall_nil _)) as Hb.
  destruct (convertNodes_grow std (nodes obj) ([], materials s, [])) as [ext [Hg _]].
  destruct (fold_left (convertNode std) (nodes obj) ([], materials s, []))
    as [[visited heap] swaps].
  cbn [fst snd app] in Hb, Hg. subst heap.
  eexists. eexists. exists ext. split; [reflexivity |].
  unfold restore.
  cbn [set_materials set_threeObject threeObject originalMaterials originalPosition
       set_position set_nodes nodes rotation position boundingBox materials xrayState
       edgeState renders].
  rewrite Hb. change ([] ++ nodes obj) with (nodes obj).
  unfold set_position, set_nodes. cbn [nodes rotation position boundingBox].
  rewrite sceneObject_eta.
  split; [reflexivity |]. split; [reflexivity |].
  split; [| repeat split].
  intros m mat Hm. rewrite nth_error_app1; [exact Hm |].
  apply nth_error_Some. rewrite Hm. discriminate.
Qed.

Lemma usdz_swap_round_trip_witness :
  let std := mkMaterial true FrontSide (Some false) (Some 1) true (Some 16777215%Z)
                        None None (Some 0%Z) None None (Some 1) (Some 0) in
  let basic := mkMaterial false DoubleSide (Some false) (Some 1) true (Some 255%Z)
                          None None None None None None None in
  let obj := mkSceneObject [mkNode true "part" true (OneMaterial 0) true]
                           (mkEuler 0 0 0 "XYZ") (vec3 1 2 3) unitBox in
  let s := onFinish obj [basic] initialSite in
  threeObject s = Some obj /\
  exists (s1 : Site) (p : Prepared) (ext : list Material),
    prepareUSDZ std s = Some (s1, p) /\
    threeObject (restore p s1) = Some obj /\
    materials (restore p s1) = materials s ++ ext /\
    (forall (m : nat) (mat : Material),
       nth_error (materials s) m = Some mat ->
       nth_error (materials (restore p s1)) m = Some mat) /\
    option_map position (threeObject s1)
    = Some (vsub (position obj) (getCenter (boundingBox obj))) /\
    xrayState (restore p s1) = xrayState s /\
    edgeState (restore p s1) = edgeState s /\
    renders (restore p s1) = renders s.
Proof.
  intros std basic obj s. split; [reflexivity |].
  apply (usdz_swap_round_trip std s obj). reflexivity.
Defined.

End MaterialSwap.
Section SwapExportable.

Import MeshTools.

Variable std : Material.
Hypothesis std_standard : isMeshStandardMaterial std = true.

(** Materials that can be exported stay so when the heap grows by
    materials that can be exported. *)
Lemma exportable_grow (heap ext : list Material) (ids : list nat) :
  Forall (fun m => exportable m = true) ext ->
  (forall id mat, In id ids -> nth_error heap id = Some mat -> exportable mat = true) ->
  forall id mat, In id ids -> nth_error (heap ++ ext) id = Some mat -> exportable mat = true.
Proof.
  intros Hext H id mat Hin Hn.
  destruct (Nat.lt_ge_cases id (List.length heap)) as [Hlt | Hge].
  - rewrite nth_error_app1 in Hn by exact Hlt. exact (H id mat Hin Hn).
  - rewrite nth_error_app2 in Hn by exact Hge.
    rewrite Forall_forall in Hext. apply Hext. eapply nth_error_In. exact Hn.
Qed.

Lemma toStandard_exportable (mat : Material) : exportable (toStandard std mat) = true.
Proof.
  unfold exportable, toStandard. cbn. rewrite std_standard. reflexivity.
Qed.

Lemma convertMaterials_exportable (ms : list nat) :
  forall acc : list Material * list nat,
    (forall id mat, In id (snd acc) -> nth_error (fst acc) id = Some mat ->
                    exportable mat = true) ->
    forall id mat,
      In id (snd (fold_left (convertMaterial std) ms acc)) ->
      nth_error (fst (fold_left (convertMaterial std) ms acc)) id = Some mat ->
      exportable mat = true.
Proof.
  induction ms as [| m ms IH]; intros acc H; [exact H |].
  cbn [fold_left]. apply IH. clear IH.
  destruct acc as [heap conv]. cbn [fst snd] in H. unfold convertMaterial.
  destruct (nth_error heap m) as [mat0 |] eqn:Em.
  - destruct (exportable mat0) eqn:Ex; cbn [fst snd]; intros id mat Hin Hn.
    + apply in_app_or in Hin. destruct Hin as [Hin | [<- | []]]; [exact (H id mat Hin Hn) |].
      congruence.
    + apply in_app_or in Hin. destruct Hin as [Hin | [<- | []]].
      * refine (exportable_grow heap [toStandard std mat0] conv _ H id mat Hin Hn).
        constructor; [apply toStandard_exportable | constructor].
      * rewrite nth_error_app2, Nat.sub_diag in Hn by lia. injection Hn as <-.
        apply toStandard_exportable.
  - cbn [fst snd]. intros id mat Hin Hn.
    apply in_app_or in Hin. destruct Hin as [Hin | [<- | []]]; [exact (H id mat Hin Hn) |].
    congruence.
Qed.

Lemma grow_exportable (ext : list Material) :
  Forall (fun m => exportable m = isMeshStandardMaterial std) ext ->
  Forall (fun m => exportable m = true) ext.
Proof.
  intros H. eapply Forall_impl; [| exact H]. intros m Hm. rewrite Hm. exact std_standard.
Qed.

(** After the callback every mesh visited so far has materials that can
    be exported, and every node still has its other properties. *)
Lemma convertNode_exportable (acc : list Node * list Material * Swaps) (c : Node) :
  (forall n id mat, In n (fst (fst acc)) -> isMesh n = true -> In id (mats (material n)) ->
                    nth_error (snd (fst acc)) id = Some mat -> exportable mat = true) ->
  forall n id mat,
    In n (fst (fst (convertNode std acc c))) -> isMesh n = true ->
    In id (mats (material n)) ->
    nth_error (snd (fst (convertNode std acc c))) id = Some mat -> exportable mat = true.
Proof.
  destruct acc as [[done heap] swaps]. cbn [fst snd]. intros H.
  unfold convertNode.
  destruct (negb (isMesh c) || negb (hasMaterial (material c))) eqn:Eskip; cbn [fst snd].
  { intros n id mat Hin Hm Hid Hn.
    apply in_app_or in Hin. destruct Hin as [Hin | [<- | []]]; [exact (H n id mat Hin Hm Hid Hn) |].
    rewrite Hm in Eskip. cbn [negb orb] in Eskip.
    destruct (material c); [destruct Hid | discriminate Eskip | discriminate Eskip]. }
  destruct (needsConvert heap (mats (material c))) eqn:En; cbn [negb fst snd].
  2:{ intros n id mat Hin Hm Hid Hn.
      apply in_app_or in Hin. destruct Hin as [Hin | [<- | []]]; [exact (H n id mat Hin Hm Hid Hn) |].
      unfold needsConvert in En.
      destruct (exportable mat) eqn:Ex; [reflexivity |].
      assert (Ht : existsb (fun m => match nth_error heap m with
                                     | Some mat => negb (exportable mat)
                                     | None => false
                                     end) (mats (material c)) = true).
      { apply existsb_exists. exists id. split; [exact Hid |]. rewrite Hn, Ex. reflexivity. }
      congruence. }
  pose proof (convertMaterials_exportable (mats (material c)) (heap, [])) as Hc.
  destruct (convertMaterials_grow std (mats (material c)) (heap, [])) as [ext [Eg Fg]].
  destruct (fold_left (convertMaterial std) (mats (material c)) (heap, [])) as [heap' conv].
  cbn [fst snd] in *. subst heap'.
  intros n id mat Hin Hm Hid Hn.
  apply in_app_or in Hin. destruct Hin as [Hin | [<- | []]].
  - refine (exportable_grow heap ext (mats (material n)) (grow_exportable ext Fg) _ id mat Hid Hn).
    intros id' mat' Hid' Hn'. exact (H n id' mat' Hin Hm Hid' Hn').
  - cbn [material] in Hid.
    assert (Hconv : In id conv).
    { destruct conv as [| x [| y conv]]; cbn [mats] in Hid; exact Hid. }
    refine (Hc _ id mat Hconv Hn). intros id' mat' [].
Qed.

Lemma convertNodes_exportable (ns : list Node) :
  forall acc : list Node * list Material * Swaps,
    (forall n id mat, In n (fst (fst acc)) -> isMesh n = true -> In id (mats (material n)) ->
                      nth_error (snd (fst acc)) id = Some mat -> exportable mat = true) ->
    forall n id mat,
      In n (fst (fst (fold_left (convertNode std) ns acc))) -> isMesh n = true ->
      In id (mats (material n)) ->
      nth_error (snd (fst (fold_left (convertNode std) ns acc))) id = Some mat ->
      exportable mat = true.
Proof.
  induction ns as [| c ns IH]; intros acc H; [exact H |].
  cbn [fold_left]. apply IH. apply convertNode_exportable. exact H.
Qed.

End SwapExportable.

Section SwapTheorem.

Import MeshTools.

(** X23: with an object loaded, and [new THREE.MeshStandardMaterial()]
    being a standard material, the object that the exporter receives has
    only materials on its meshes that are standard materials and are not
    double sided. *)
Theorem usdz_swap_exportable (std : Material) (s : Site) (obj : SceneObject) :
  threeObject s = Some obj -> isMeshStandardMaterial std = true ->
  exists (s1 : Site) (p : Prepared) (obj1 : SceneObject),
    prepareUSDZ std s = Some (s1, p) /\
    threeObject s1 = Some obj1 /\
    (forall (n : Node) (m : nat) (mat : Material),
       In n (nodes obj1) -> isMesh n = true -> In m (mats (material n)) ->
       nth_error (materials s1) m = Some mat ->
       isMeshStandardMaterial mat = true /\ side mat <> DoubleSide).
Proof.
  intros Hobj Hstd. unfold prepareUSDZ. rewrite Hobj.
  pose proof (convertNodes_exportable std Hstd (nodes obj) ([], materials s, [])) as He.
  destruct (fold_left (convertNode std) (nodes obj) ([], materials s, []))
    as [[visited heap] swaps].
  cbn [fst snd] in He.
  eexists. eexists. eexists. split; [reflexivity |]. split; [reflexivity |].
  cbn [set_position set_nodes nodes set_materials materials].
  intros n m mat Hin Hm Hid Hn.
  assert (Hx : exportable mat = true).
  { refine (He _ n m mat Hin Hm Hid Hn). intros n' id' mat' []. }
  unfold exportable in Hx. apply andb_true_iff in Hx. destruct Hx as [H1 H2].
  split; [exact H1 |]. intros Hs. rewrite Hs in H2. discriminate H2.
Qed.

Lemma usdz_swap_exportable_witness :
  let std := mkMaterial true FrontSide (Some false) (Some 1) true (Some 16777215%Z)
                        None None (Some 0%Z) None None (Some 1) (Some 0) in
  let basic := mkMaterial false DoubleSide (Some false) (Some 1) true (Some 255%Z)
                          None None None None None None None in
  let obj := mkSceneObject [mkNode true "part" true (OneMaterial 0) true]
                           (mkEuler 0 0 0 "XYZ") (vec3 1 2 3) unitBox in
  let s := onFinish obj [basic] initialSite in
  threeObject s = Some obj /\ isMeshStandardMaterial std = true /\
  exists (s1 : Site) (p : Prepared) (obj1 : SceneObject),
    prepareUSDZ std s = Some (s1, p) /\
    threeObject s1 = Some obj1 /\
    (forall (n : Node) (m : nat) (mat : Material),
       In n (nodes obj1) -> isMesh n = true -> In m (mats (material n)) ->
       nth_error (materials s1) m = Some mat ->
       isMeshStandardMaterial mat = true /\ side mat <> DoubleSide).
Proof.
  intros std basic obj s. split; [reflexivity |]. split; [reflexivity |].
  apply (usdz_swap_exportable std s obj); reflexivity.
Defined.

End SwapTheorem.
